(* ===== verification/_CoqProject ===== *)
-Q . S2P
Prelude.v
CheckCall.v
ErrorQueue.v
Ownership.v
SymmetricMemory.v
Util.v
SymmetricCrypto.v
XorCipher.v
AESFacts.v
AESProgress.v
OpenSSLWrap.v
Hash.v
Mac.v
Kdf.v
Bio.v
Pimpl.v
Key.v
Hsm.v
Ecies.v
EciesFacts.v
Pem.v
Asn1Time.v
DistinguishedName.v
Padding.v
AsymmetricCtx.v
AsymmetricFacts.v
AsymmetricProgress.v
Extensions.v
X509.v
Objects.v
X509Facts.v
X509Chain.v
Csr.v
Crl.v
Ca.v
RequestFacts.v
CaFacts.v
ToyCertificates.v
