(* ===== verification/Prelude.v ===== *)
(** * MoCOCrW: a verification library

    MoCOCrW is a C++ wrapper around OpenSSL: certificates, certificate authorities,
    signing requests, CRLs, symmetric and asymmetric encryption, signatures, ECIES,
    MACs, digests and key derivation.  This library models the classes of [src/src]
    and [src/src/mococrw] and proves what they promise.

    ** How the program is modelled

    - A method that may throw is a function to [outcome] ([Val] or [Throw] an [exn],
      one constructor for each exception class); a method that changes an object is a
      computation of [M S] on the object's record [S], a loop is [iter] or [oiter] with
      fuel.  Reading an indeterminate value or past the end of an IV, signed overflow
      and the like are the exception [UndefinedBehaviour].
    - Integers are [Z] with the conversions of the code written out ([to_size_t],
      [to_int], [to_uint32], [to_int64]; [int_] and [int64_] for signed arithmetic);
      bytes and strings are lists of [Byte.byte].
    - OpenSSL is a parameter: a class of functions for each area ([EvpCipherAPI],
      [EvpPkeyAPI], [X509API], ...), whose names are those of [OpenSSLLib], with the
      prefix [SSL_].  Every call goes through the checks of [CheckCall], as in
      [openssl_wrap.cpp].  A second class states the documented behaviour that
      theorems rely on ([EvpCipherSpec], [X509Spec], ...), and each of these has a
      concrete instance at which the theorems are applied to concrete inputs.
    - A working OpenSSL is a third kind of assumption: a record ([EvpCipherWorks], [BioWorks],
      [X509Works], [X509ReqWorks], ...) says that the calls succeed which the
      documentation lets succeed.  [prepares W o P] and [yields W o P] of [CheckCall]
      say that a step gives a value with [P], or fails and so refutes [W].  A theorem
      with such a record has two halves: what the code promises when it returns holds
      without [W], and with [W] the code does return.

    ** The files

    - [Prelude]: bytes, integers, exceptions, the monad with its weakest
      preconditions, buffers; [CheckCall]: [cppc/checkcall.hpp] and the OpenSSL
      policies of [openssl_wrap.cpp]; [ErrorQueue]: the texts of [OpenSSLException]
      and the error queue that they come from.
    - [Ownership]: the smart pointers of [openssl_wrap.h] over a heap of OpenSSL objects,
      for the functions with several objects to free; [Pimpl] and [Objects]: copies, moves
      and destructors of the classes with an [_impl] ([asymmetric_crypto_ctx.cpp],
      [kdf.cpp], [mac.cpp], [padding_mode.cpp], [symmetric_crypto.cpp], [ecies.cpp]).
    - [SymmetricMemory] ([symmetric_memory.cpp]), [Util] ([util.cpp]),
      [SymmetricCrypto] ([symmetric_crypto.cpp]), [XorCipher] (a concrete cipher),
      [AESFacts]: the output queue refines a byte stream; encryption is the
      cipher's transformation of the whole stream, whatever the chunks;
      authentication; the call order; parameter checks; [AESProgress]: messages are
      delivered.
    - [OpenSSLWrap], [Hash], [Mac], [Kdf], [Bio]: the digests, MACs, key derivation and BIOs
      of the files of these names: each computes OpenSSL's function of everything that
      was passed to it.
    - [Key] ([key.cpp]), [Ecies] and [EciesFacts] ([ecies.cpp]): key generation and its
      specification, private keys in PEM, the ECIES round trip and its authenticity.
      [Hsm] ([hsm.cpp] and the key factories for it): engines and their references.
    - [Padding] ([padding_mode.cpp]), [AsymmetricCtx], [AsymmetricFacts] and
      [AsymmetricProgress] ([asymmetric_crypto_ctx.cpp]): RSA, ECDSA and EdDSA; signatures
      verify, decryption undoes encryption, the signature formats convert into each other.
    - [Pem] ([format_utils.h] and the reformatting of [x509.cpp]), [Asn1Time]
      ([asn1time.cpp]), [DistinguishedName] ([distinguished_name.cpp]).
    - [Extensions] ([extension.h], [basic_constraints.h], [key_usage.h],
      [subject_key_identifier.h], [sign_params.h]), [X509], [X509Facts] and [X509Chain]
      ([x509.cpp], [x509.h]), [Csr] ([csr.cpp]), [Crl] ([crl.cpp]), [RequestFacts],
      [Ca] and [CaFacts] ([ca.cpp], [ca.h]), [ToyCertificates] (a concrete instance).

    ** How the parts work together

    A [CertificateAuthority] (state: parameters, next serial number, root
    certificate, key) signs a [CertificateSigningRequest]: it copies name and key of
    the request, adds the extensions of the [CertificateSigningParameters], computes
    the validity with [Asn1Time], signs, and lets [X509Certificate] verify the result.
    The CA theorems use the theorems' lemmas of each of these: [signCertificate_ok]
    of the signing loop, [plus_spec] of the time, [verify_spec] of the verification,
    [set_serial_ok] of the serial numbers; [ca_invariant] then follows by induction
    over the requests.  Chains compose [splitPEMChain], [reformatPEMCertificate] and
    memory BIOs.  ECIES composes keys, key derivation, MACs and ciphers through
    classes ([KeyDerivationFunction], [MessageAuthenticationCode],
    [SymmetricCipherI]), so any implementation of the interface can be used.

    ** What the theorems show

    - Certificates: [issue_certificate], [ca_invariant], [root_certificate],
      [verify_request], [csr_created], [crl_verify], [load_chain], [serial_numbers],
      [params_invariant], [extension_strings].
    - Symmetric encryption: [aes_delivers], [aes_stream], [gcm_authentic],
      [queue_refines_stream], [aes_new_checks], [aes_call_order], [gcm_iv_truncated].
    - ECIES: [ecies_delivers], [ecies_authentic]; MACs, digests, key derivation:
      [hmac_correct], [cmac_correct], [hash_stream], [kdf_correct].
    - Keys and signatures: [keyspec_roundtrip], [private_key_pem_roundtrip],
      [rsa_delivers], [rsa_signatures], [ecdsa_signatures], [eddsa_signatures],
      [ecdsa_formats], [rsa_message_sizes].
    - Objects: [pimpl_refines_values], [pimpl_no_leak] and [pimpl_copy_independent] for the
      classes with an [_impl]; [objects_released] for OpenSSL's objects, whatever call fails.
    - Errors: [error_reports] (which error an exception shows).
    - HSMs: [hsm_references], [hsm_release], over all runs of programs that construct, use
      and destroy engine objects.
    - Texts and times: [fromHex_toHex], [split_elements], [split_total],
      [reformat_certificate], [asn1_plus], [asn1_difference],
      [dn_roundtrip], [dn_equality].
    Other theorems without a place in this list are lemmas about single operations,
    among them the deviations of the code from its documentation (for instance
    [Util.cryptoRandomBytes_truncates], [Mac.hmac_update_truncates],
    [Asn1Time.asn1_minus], [EciesFacts.ecies_verify_failure_final]).

    ** Fuel

    Fuel bounds the loops over texts and BIOs; the theorems assume more fuel than
    the input is long (plus one or two), which is enough because each iteration
    consumes a byte ([flushToString_spec], [split_total], [break_spec]) or an
    index ([get_index_loop]); they show the result, not only that a result would be
    right.

    ** Idealisations

    Memory is unbounded except where OpenSSL reports that it is exhausted;
    [Asn1TimeSpec] and some of the other specifications leave exhaustion out where
    they say so.  [std::chrono::system_clock] is an argument of the functions that
    read it, the random number generator a state of their monad.  Objects behind
    pointers are values: the classes copy shared pointers to objects that nothing
    changes after construction; the ones that change (ciphers, MACs, digests, the CA)
    have one owner.  [pimpl_refines_values] proves this view right for the classes with an
    [_impl], and [objects_released] accounts for OpenSSL's objects.  The error queue is the
    fragment [ErrorQueue] of an exception's text, except in the file of that name, which
    determines this text.  What signatures and ciphers compute is abstract.

    ** Not modelled

    What a PKCS#11 token does with commands and keys, [openssl_lib.cpp] (each method
    calls the OpenSSL function of its name), the pointer types of [openssl_wrap.h] (names for
    smart pointers with the deleters of [Ownership]), [private/IOUtils.h] (file helpers of
    the tests), tests and examples; the contents of files.  What is left of the headers is
    declarations. *)

From stdpp Require Export base tactics numbers list strings pretty.
From Stdlib Require Export Strings.Byte.

Declare Scope mococrw_scope.
Delimit Scope mococrw_scope with mococrw.
#[global] Open Scope Z_scope.
#[global] Open Scope mococrw_scope.

(** ** Bytes, sizes and machine integers *)

(** A [std::vector<uint8_t>] and a [std::string] are both sequences of bytes. *)
Abbreviation bytes := (list Byte.byte).

#[export] Instance byte_eq_decision : EqDecision Byte.byte := Byte.byte_eq_dec.
#[export] Instance byte_inhabited : Inhabited Byte.byte := populate Byte.x00.

(** The text of a C++ string literal. *)
Definition str (s : string) : bytes := String.list_byte_of_string s.

Definition byte_val (b : Byte.byte) : Z := Z.of_N (Byte.to_N b).

(** The conversion [static_cast<uint8_t>]. *)
Definition to_uint8 (z : Z) : Byte.byte :=
  default Byte.x00 (Byte.of_N (Z.to_N (z mod 256))).

(** [container.size()]. *)
Definition size {A} (l : list A) : Z := Z.of_nat (length l).

Definition INT_MAX : Z := 2147483647.
Definition INT_MIN : Z := -2147483648.
Definition LONG_MAX : Z := 9223372036854775807.
Definition LONG_MIN : Z := -9223372036854775808.
Definition SIZE_MAX : Z := 18446744073709551615.

(** Conversions to the integer types of an LP64 target: unsigned types reduce
    modulo a power of two, signed ones wrap to two's complement. *)
Definition to_size_t (z : Z) : Z := z mod 18446744073709551616.
Definition to_uint32 (z : Z) : Z := z mod 4294967296.
Definition to_int (z : Z) : Z := (z + 2147483648) mod 4294967296 - 2147483648.
Definition to_int64 (z : Z) : Z :=
  (z + 9223372036854775808) mod 18446744073709551616 - 9223372036854775808.

(** ** Exceptions *)

(** The text of an exception: literal parts, formatted numbers and byte
    strings, [strerror] of an error number, and the text that OpenSSL's error
    queue gives when the exception is constructed. *)
Inductive fragment : Set :=
| Str (s : string)
| Num (z : Z)
| Raw (b : bytes)
| StrError (errno : Z)
| ErrorQueue.

Abbreviation message := (list fragment).

(** The exceptions the program throws; the last three constructors are not
    C++ exceptions: a failed [assert], an operation whose behaviour the
    language leaves undefined, and a model that ran out of fuel.  No [catch]
    clause of the program matches them. *)
Inductive exn : Set :=
| MoCOCrWException (what : message)
| OpenSSLException (what : message)
| RuntimeError (what : message)
| OutOfRange (what : message)
| BadAlloc
| AssertionFailed
| UndefinedBehaviour
| OutOfFuel.

(** [e.what()]. *)
Definition what (e : exn) : message :=
  match e with
  | MoCOCrWException w | OpenSSLException w | RuntimeError w | OutOfRange w => w
  | _ => []
  end.

Inductive outcome (A : Type) : Type :=
| Val (a : A)
| Throw (e : exn).
Arguments Val {A} a.
Arguments Throw {A} e.

Definition is_val {A} (o : outcome A) : bool :=
  match o with Val _ => true | Throw _ => false end.

Definition obind {A B} (o : outcome A) (k : A → outcome B) : outcome B :=
  match o with Val a => k a | Throw e => Throw e end.

Notation "'let?' x := o 'in' k" := (obind o (λ x, k))
  (at level 10, x pattern, o at level 100, k at level 200)
  : mococrw_scope.

(** ** Stateful computations

    A computation keeps its state when it throws: a member that was written
    before the exception stays written. *)
Definition M (S A : Type) : Type := S → outcome A * S.

Section Monad.
Context {S : Type}.

Definition ret {A} (a : A) : M S A := λ s, (Val a, s).
Definition throw {A} (e : exn) : M S A := λ s, (Throw e, s).
Definition bind {A B} (m : M S A) (k : A → M S B) : M S B := λ s,
  match m s with
  | (Val a, s') => k a s'
  | (Throw e, s') => (Throw e, s')
  end.
Definition get : M S S := λ s, (Val s, s).
Definition put (s : S) : M S () := λ _, (Val (), s).
Definition gets {A} (f : S → A) : M S A := λ s, (Val (f s), s).
Definition modify (f : S → S) : M S () := λ s, (Val (), f s).
Definition lift {A} (o : outcome A) : M S A := λ s, (o, s).

(** [if (c) throw e;] *)
Definition throw_if (c : bool) (e : exn) : M S () :=
  if c then throw e else ret ().

(** [assert(c)]. *)
Definition assert_ (c : bool) : M S () :=
  if c then ret () else throw AssertionFailed.

(** [try { m } catch (...) { h }]: the handler sees every exception and
    rethrows those its clause does not match. *)
Definition try_catch {A} (m : M S A) (h : exn → M S A) : M S A := λ s,
  match m s with
  | (Val a, s') => (Val a, s')
  | (Throw e, s') => h e s'
  end.
End Monad.

Notation "'let!' x := m 'in' k" := (bind m (λ x, k))
  (at level 10, x pattern, m at level 100, k at level 200)
  : mococrw_scope.
Notation "m ;; k" := (bind m (λ _, k))
  (at level 100, k at level 200, right associativity) : mococrw_scope.

(** Running a computation of a sub-object inside the object that owns it. *)
Definition zoom {S T A} (proj : S → T) (upd : T → S → S) (m : M T A) : M S A := λ s,
  let '(o, t) := m (proj s) in (o, upd t s).

(** A loop: [body] maps the loop's local variables to their next value
    ([inl], another iteration) or to the loop's result ([inr]). *)
Fixpoint iter {S L R} (fuel : nat) (body : L → M S (L + R)) (l : L) : M S R :=
  match fuel with
  | O => throw OutOfFuel
  | Datatypes.S n =>
      let! r := body l in
      match r with inl l' => iter n body l' | inr x => ret x end
  end.

(** The same for code without state. *)
Fixpoint oiter {L R} (fuel : nat) (body : L → outcome (L + R)) (l : L) : outcome R :=
  match fuel with
  | O => Throw OutOfFuel
  | Datatypes.S n =>
      let? r := body l in
      match r with inl l' => oiter n body l' | inr x => Val x end
  end.

(** A loop over a container. *)
Fixpoint mapM_ {S A} (f : A → M S ()) (l : list A) : M S () :=
  match l with
  | [] => ret ()
  | x :: l' => f x ;; mapM_ f l'
  end.

(** ** A weakest-precondition calculus for [M] *)

(** [wp m s Φ Ψ]: started in [s], the computation [m] either returns a value
    and a state that satisfy [Φ] or throws with an exception and a state that
    satisfy [Ψ]. *)
Definition wp {S A} (m : M S A) (s : S) (Φ : A → S → Prop) (Ψ : exn → S → Prop) : Prop :=
  match m s with
  | (Val a, s') => Φ a s'
  | (Throw e, s') => Ψ e s'
  end.

(** [m] does not throw. *)
Abbreviation wp_total m s Φ := (wp m s Φ (λ _ _, False)).

Create Rewrite HintDb mococrw.

Section WpRules.
Context {S : Type}.
Implicit Types (s : S).

Lemma wp_ret {A} (a : A) s Φ Ψ : wp (ret a) s Φ Ψ ↔ Φ a s.
Proof. done. Qed.

Lemma wp_throw {A} e s (Φ : A → S → Prop) Ψ : wp (throw e) s Φ Ψ ↔ Ψ e s.
Proof. done. Qed.

Lemma wp_bind {A B} (m : M S A) (k : A → M S B) s Φ Ψ :
  wp (bind m k) s Φ Ψ ↔ wp m s (λ a s', wp (k a) s' Φ Ψ) Ψ.
Proof. unfold wp, bind. destruct (m s) as [[a|e] s']; done. Qed.

Lemma wp_gets {A} (f : S → A) s Φ Ψ : wp (gets f) s Φ Ψ ↔ Φ (f s) s.
Proof. done. Qed.

Lemma wp_get s Φ Ψ : wp get s Φ Ψ ↔ Φ s s.
Proof. done. Qed.

Lemma wp_put s0 s Φ Ψ : wp (put s0) s Φ Ψ ↔ Φ () s0.
Proof. done. Qed.

Lemma wp_modify (f : S → S) s Φ Ψ : wp (modify f) s Φ Ψ ↔ Φ () (f s).
Proof. done. Qed.

Lemma wp_lift {A} (o : outcome A) s Φ Ψ :
  wp (lift o) s Φ Ψ ↔ match o with Val a => Φ a s | Throw e => Ψ e s end.
Proof. by destruct o. Qed.

Lemma wp_throw_if (c : bool) e s Φ Ψ :
  wp (throw_if c e) s Φ Ψ ↔ if c then Ψ e s else Φ () s.
Proof. by destruct c. Qed.

Lemma wp_assert (c : bool) s Φ Ψ :
  wp (assert_ c) s Φ Ψ ↔ if c then Φ () s else Ψ AssertionFailed s.
Proof. by destruct c. Qed.

Lemma wp_try_catch {A} (m : M S A) h s Φ Ψ :
  wp (try_catch m h) s Φ Ψ ↔ wp m s Φ (λ e s', wp (h e) s' Φ Ψ).
Proof. unfold wp, try_catch. by destruct (m s) as [[a|e] s']. Qed.

Lemma wp_mono {A} (m : M S A) s (Φ Φ' : A → S → Prop) (Ψ Ψ' : exn → S → Prop) :
  wp m s Φ Ψ → (∀ a s', Φ a s' → Φ' a s') → (∀ e s', Ψ e s' → Ψ' e s') →
  wp m s Φ' Ψ'.
Proof. unfold wp. destruct (m s) as [[a|e] s']; eauto. Qed.

(** Two statements about one computation. *)
Lemma wp_and {A} (m : M S A) s (Φ Φ' : A → S → Prop) (Ψ Ψ' : exn → S → Prop) :
  wp m s Φ Ψ → wp m s Φ' Ψ' →
  wp m s (λ a s', Φ a s' ∧ Φ' a s') (λ e s', Ψ e s' ∧ Ψ' e s').
Proof. unfold wp. by destruct (m s) as [[a|e] s']. Qed.

(** A computation that cannot throw returns. *)
Lemma wp_returns {A} (m : M S A) s (Φ : A → S → Prop) Ψ :
  wp m s Φ Ψ → (∀ e s', ¬ Ψ e s') → ∃ a s', m s = (Val a, s') ∧ Φ a s'.
Proof. unfold wp. destruct (m s) as [[a|e] s']; [eauto|]. by intros H Hn; destruct (Hn e s'). Qed.

(** A loop whose measure decreases at each iteration returns, provided the
    fuel exceeds the measure of the first iteration. *)
Lemma wp_iter {L R} (I : L → S → Prop) (μ : L → S → nat) (Φ : R → S → Prop)
    (Ψ : exn → S → Prop) fuel (body : L → M S (L + R)) :
  (∀ l s, I l s →
    wp (body l) s (λ r s', match r with
      | inl l' => I l' s' ∧ (μ l' s' < μ l s)%nat
      | inr x => Φ x s'
      end) Ψ) →
  ∀ l s, I l s → (μ l s < fuel)%nat → wp (iter fuel body l) s Φ Ψ.
Proof.
  intros Hbody. induction fuel as [|fuel IH]; [lia|].
  intros l s HI Hμ. cbn [iter]. apply wp_bind.
  eapply wp_mono; [by apply Hbody| |done].
  intros [l'|x] s'; [|done]. intros [HI' Hlt]. apply IH; [done|lia].
Qed.
End WpRules.

Lemma wp_zoom {S T A} (proj : S → T) upd (m : M T A) s Φ Ψ :
  wp (zoom proj upd m) s Φ Ψ ↔
  wp m (proj s) (λ a t, Φ a (upd t s)) (λ e t, Ψ e (upd t s)).
Proof. unfold wp, zoom. by destruct (m (proj s)) as [[a|e] t]. Qed.

#[export] Hint Rewrite @wp_ret @wp_throw @wp_bind @wp_gets @wp_get @wp_put
  @wp_modify @wp_lift @wp_throw_if @wp_assert @wp_try_catch @wp_zoom : mococrw.

(** [wp_simpl] rewrites the goal with the rules of the calculus; [sizes]
    rewrites the sizes of concatenations. *)
Ltac wp_simpl := autorewrite with mococrw; cbn beta iota.
Ltac sizes := autorewrite with sizes in *.

(** A precondition is an equation on the result: [wp] and direct evaluation. *)
Lemma wp_run {S A} (m : M S A) s Φ Ψ o s' :
  m s = (o, s') → wp m s Φ Ψ →
  match o with Val a => Φ a s' | Throw e => Ψ e s' end.
Proof. unfold wp. by intros ->. Qed.

Lemma wp_fst {S A} (m : M S A) s (P : A → Prop) Ψ a :
  (m s).1 = Val a → wp m s (λ x _, P x) Ψ → P a.
Proof. unfold wp. destruct (m s) as [[x|e] s']; [|done]. by intros [= ->]. Qed.

Lemma wp_total_fst {S A} (m : M S A) s a : wp_total m s (λ x _, x = a) → (m s).1 = Val a.
Proof. unfold wp. destruct (m s) as [[x|e] s']; [by intros ->|done]. Qed.

(** The same for computations without state. *)
Definition owp {A} (o : outcome A) (Φ : A → Prop) (Ψ : exn → Prop) : Prop :=
  match o with Val a => Φ a | Throw e => Ψ e end.

Lemma owp_obind {A B} (o : outcome A) (k : A → outcome B) Φ Ψ :
  owp o (λ a, owp (k a) Φ Ψ) Ψ → owp (obind o k) Φ Ψ.
Proof. by destruct o. Qed.

Lemma owp_mono {A} (o : outcome A) (Φ Φ' : A → Prop) (Ψ Ψ' : exn → Prop) :
  owp o Φ Ψ → (∀ a, Φ a → Φ' a) → (∀ e, Ψ e → Ψ' e) → owp o Φ' Ψ'.
Proof. destruct o; cbn; eauto. Qed.

Lemma wp_lift_bind {S A B} (o : outcome A) (k : A → M S B) s Φ Ψ :
  owp o (λ a, wp (k a) s Φ Ψ) (λ e, Ψ e s) → wp (bind (lift o) k) s Φ Ψ.
Proof. by destruct o. Qed.

#[export] Instance wp_proper {S A} :
  Proper ((=) ==> (=) ==> pointwise_relation A (pointwise_relation S iff)
    ==> pointwise_relation exn (pointwise_relation S iff) ==> iff) wp.
Proof.
  intros m ? <- s ? <- Φ Φ' HΦ Ψ Ψ' HΨ. unfold wp.
  destruct (m s) as [[a|e] s']; [apply HΦ|apply HΨ].
Qed.

(** ** Lemmas on sizes, bytes and integers *)

Lemma size_nil {A} : size (@nil A) = 0.
Proof. done. Qed.

Lemma size_cons {A} (x : A) l : size (x :: l) = 1 + size l.
Proof. unfold size. cbn. lia. Qed.

Lemma size_app {A} (l k : list A) : size (l ++ k) = size l + size k.
Proof. unfold size. rewrite length_app. lia. Qed.

Lemma size_nonneg {A} (l : list A) : 0 ≤ size l.
Proof. unfold size. lia. Qed.

Lemma size_0 {A} (l : list A) : size l = 0 → l = [].
Proof. destruct l; [done|]. rewrite size_cons. pose proof (size_nonneg l). lia. Qed.

Lemma size_replicate {A} n (x : A) : size (replicate n x) = Z.of_nat n.
Proof. unfold size. by rewrite length_replicate. Qed.

Lemma size_take {A} n (l : list A) : 0 ≤ n ≤ size l → size (take (Z.to_nat n) l) = n.
Proof. unfold size. intros. rewrite length_take. lia. Qed.

Lemma size_drop {A} n (l : list A) :
  0 ≤ n ≤ size l → size (drop (Z.to_nat n) l) = size l - n.
Proof. unfold size. intros. rewrite length_drop. lia. Qed.

Create Rewrite HintDb sizes.
#[export] Hint Rewrite @size_nil @size_cons @size_app @size_replicate : sizes.

Lemma to_int_id z : INT_MIN ≤ z ≤ INT_MAX → to_int z = z.
Proof. unfold INT_MIN, INT_MAX, to_int. intros. rewrite Z.mod_small; lia. Qed.

(** One wrap-around: a length of 2^32 + k becomes k. *)
Lemma to_int_wrap k : 0 ≤ k ≤ INT_MAX → to_int (4294967296 + k) = k.
Proof.
  unfold INT_MAX, to_int. intros.
  replace (4294967296 + k + 2147483648) with (k + 2147483648 + 1 * 4294967296) by lia.
  rewrite Z.mod_add, Z.mod_small; lia.
Qed.

Lemma to_int_range z : INT_MIN ≤ to_int z ≤ INT_MAX.
Proof.
  unfold INT_MIN, INT_MAX, to_int.
  pose proof (Z.mod_pos_bound (z + 2147483648) 4294967296). lia.
Qed.

Lemma to_int64_id z : LONG_MIN ≤ z ≤ LONG_MAX → to_int64 z = z.
Proof. unfold LONG_MIN, LONG_MAX, to_int64. intros. rewrite Z.mod_small; lia. Qed.

Lemma to_size_t_id z : 0 ≤ z ≤ SIZE_MAX → to_size_t z = z.
Proof. unfold SIZE_MAX, to_size_t. intros. apply Z.mod_small. lia. Qed.

Lemma to_size_t_range z : 0 ≤ to_size_t z ≤ SIZE_MAX.
Proof.
  unfold SIZE_MAX, to_size_t.
  pose proof (Z.mod_pos_bound z 18446744073709551616). lia.
Qed.

Lemma byte_val_range b : 0 ≤ byte_val b < 256.
Proof. unfold byte_val. pose proof (Byte.to_N_bounded b). lia. Qed.

Lemma to_uint8_byte_val b : to_uint8 (byte_val b) = b.
Proof.
  unfold to_uint8. rewrite Z.mod_small by apply byte_val_range.
  unfold byte_val. by rewrite N2Z.id, Byte.of_to_N.
Qed.

(** ** Vectors *)

(** [std::vector<uint8_t>(n)]: [n] zero bytes. *)
Definition zeros (n : Z) : bytes := replicate (Z.to_nat n) Byte.x00.

(** [v.resize(n)]: cut, or extended with zero bytes. *)
Definition resize (n : Z) (v : bytes) : bytes :=
  take (Z.to_nat n) v ++ zeros (n - size v).

(** A C function writes [out] at the start of the buffer [buf]; a write past the
    end of the buffer is undefined behaviour. *)
Definition write_buffer (buf out : bytes) : outcome bytes :=
  if size out <=? size buf then Val (out ++ drop (length out) buf)
  else Throw UndefinedBehaviour.

Lemma size_zeros n : 0 ≤ n → size (zeros n) = n.
Proof. intros. unfold zeros. rewrite size_replicate. lia. Qed.

Lemma resize_le n v : 0 ≤ n ≤ size v → resize n v = take (Z.to_nat n) v.
Proof.
  intros. unfold resize, zeros. replace (Z.to_nat (n - size v)) with 0%nat by lia.
  apply app_nil_r.
Qed.

Lemma write_buffer_resize buf out :
  size out ≤ size buf →
  ∃ buf', write_buffer buf out = Val buf' ∧ resize (size out) buf' = out.
Proof.
  intros Hle. unfold write_buffer. destruct (Z.leb_spec (size out) (size buf)); [|lia].
  eexists. split; [done|]. rewrite resize_le.
  - unfold size. by rewrite Nat2Z.id, take_app_length.
  - rewrite size_app. pose proof (size_nonneg out).
    pose proof (size_nonneg (drop (length out) buf)). lia.
Qed.

Lemma size_resize n v : 0 ≤ n → size (resize n v) = n.
Proof.
  intros. unfold resize, zeros. rewrite size_app, size_replicate.
  unfold size. rewrite length_take. lia.
Qed.

(** A buffer filled to its end holds what was written. *)
Lemma write_buffer_fits buf out e : size out ≤ size buf → write_buffer buf out ≠ Throw e.
Proof. unfold write_buffer. intros. by destruct (Z.leb_spec (size out) (size buf)); [|lia]. Qed.

Lemma write_buffer_full buf out b :
  write_buffer buf out = Val b → size out = size buf → b = out.
Proof.
  unfold write_buffer. intros Hw Hs. case_match; [|done].
  injection Hw as <-. rewrite drop_ge by (unfold size in Hs; lia). apply app_nil_r.
Qed.

(** Writing fails or keeps the length of the buffer. *)
Lemma size_write_buffer buf out b : write_buffer buf out = Val b → size b = size buf.
Proof.
  unfold write_buffer. case_match eqn:Hle; [|done]. intros [= <-].
  apply Z.leb_le in Hle. unfold size in *. rewrite length_app, length_drop. lia.
Qed.

(** The result of a computation that is known to return. *)
Definition force {A} (d : A) (o : outcome A) : A := match o with Val a => a | _ => d end.

Lemma force_val {A} (d : A) o : is_val o = true → o = Val (force d o).
Proof. by destruct o. Qed.

Lemma force_run {S A} (d : A) (m : M S A) s :
  is_val (m s).1 = true → m s = (Val (force d (m s).1), (m s).2).
Proof. by destruct (m s) as [[] ?]. Qed.

(** The computation [m] returns from [s]: by evaluation. *)
Ltac returns d m s :=
  let V := fresh "V" in
  assert (V : is_val (m s).1 = true) by (vm_compute; reflexivity);
  exact (force_run d m s V).
Ltac returns_val d o :=
  let V := fresh "V" in
  assert (V : is_val o = true) by (vm_compute; reflexivity);
  exact (force_val d o V).
