(* ===== verification/CheckCall.v ===== *)
(** * Checked calls: the call-check templates of [src/src/cppc/checkcall.hpp]
    and the policies that [src/src/openssl_wrap.cpp] plugs into them.

    Every call of an OpenSSL function goes through [callChecked]: the policy
    inspects the return value and the error policy turns a failure into an
    exception.  A call is a computation over the objects it changes; output
    parameters are part of its result, next to the C return value. *)

From S2P Require Import Prelude.

(** ** The templates *)

(** [errno] is a component of the state a call runs in. *)
Class HasErrno (S : Type) := {
  get_errno : S → Z;
  set_errno : Z → S → S;
}.

Record ReturnCheckPolicy (S R : Type) := {
  preCall : option (M S ());
  returnValueIsOk : R → S → bool;
}.
Arguments preCall {S R}.
Arguments returnValueIsOk {S R}.

Definition callPrecCallIfPresent {S R} (P : ReturnCheckPolicy S R) : M S () :=
  match preCall P with Some m => m | None => ret () end.

(** The wrapper for an error policy without [handleOk]: the policy is told of
    the failure, and the value is returned unless the policy throws. *)
Definition policyHandeledReturnValue {S R} (P : ReturnCheckPolicy S R)
    (handleError : R → M S ()) (rv : R) : M S R :=
  let! ok := gets (returnValueIsOk P rv) in
  (if negb ok then handleError rv else ret ()) ;; ret rv.

(** The wrapper for an error policy that replaces the returned value. *)
Definition policyHandeledReturnValue_mod {S R R'} (P : ReturnCheckPolicy S R)
    (handleError : R → M S R') (handleOk : R → R') (rv : R) : M S R' :=
  let! ok := gets (returnValueIsOk P rv) in
  if negb ok then handleError rv else ret (handleOk rv).

Definition callChecked {S R} (P : ReturnCheckPolicy S R)
    (handleError : R → M S ()) (callable : M S R) : M S R :=
  callPrecCallIfPresent P ;;
  let! retVal := callable in
  policyHandeledReturnValue P handleError retVal.

(** ** The stock policies *)

Definition ReportReturnValueErrorPolicy {S} (rv : Z) : M S () :=
  throw (RuntimeError [Str "Return value indicated error: "; Num rv]).

Definition ErrnoErrorPolicy {S R} `{HasErrno S} (_ : R) : M S () :=
  let! e := gets get_errno in throw (RuntimeError [StrError e]).

Definition ErrorCodeErrorPolicy {S} (rv : Z) : M S () :=
  throw (RuntimeError [StrError (- rv)]).

Definition IsZeroReturnCheckPolicy {S} : ReturnCheckPolicy S Z :=
  {| preCall := None; returnValueIsOk rv _ := rv =? 0 |}.

Definition IsNotNegativeReturnCheckPolicy {S} : ReturnCheckPolicy S Z :=
  {| preCall := None; returnValueIsOk rv _ := 0 <=? rv |}.

Definition IsNotZeroReturnCheckPolicy {S} : ReturnCheckPolicy S Z :=
  {| preCall := None; returnValueIsOk rv _ := negb (rv =? 0) |}.

(** A pointer is an [option]: [None] is [nullptr]. *)
Definition IsNotNullptrReturnCheckPolicy {S A} : ReturnCheckPolicy S (option A) :=
  {| preCall := None;
     returnValueIsOk rv _ := match rv with Some _ => true | None => false end |}.

Definition IsErrnoZeroReturnCheckPolicy {S R} `{HasErrno S} : ReturnCheckPolicy S R :=
  {| preCall := Some (modify (set_errno 0));
     returnValueIsOk _ s := get_errno s =? 0 |}.

(** ** The OpenSSL policies *)

(** [throw OpenSSLException();]: the message is read off the error queue. *)
Definition OpenSSLExceptionErrorPolicy {S R} (_ : R) : M S () :=
  throw (OpenSSLException [ErrorQueue]).

(** The policies below look at the C return value only: a call with output
    parameters returns it as the first component. *)
Definition OpenSSLIsOneReturnCheckPolicy {S A} : ReturnCheckPolicy S (Z * A) :=
  {| preCall := None; returnValueIsOk rv _ := rv.1 =? 1 |}.

Definition OpenSSLPositiveReturnCheckPolicy {S A} : ReturnCheckPolicy S (Z * A) :=
  {| preCall := None; returnValueIsOk rv _ := 0 <? rv.1 |}.

Definition OpenSSLNonNegativeReturnCheckPolicy {S A} : ReturnCheckPolicy S (Z * A) :=
  {| preCall := None; returnValueIsOk rv _ := 0 <=? rv.1 |}.

Definition OpensslCallIsOne {S A} (call : M S (Z * A)) : M S A :=
  let! (_, out) := callChecked OpenSSLIsOneReturnCheckPolicy
                      OpenSSLExceptionErrorPolicy call in ret out.

Definition OpensslCallIsNonNegative {S A} (call : M S (Z * A)) : M S A :=
  let! (_, out) := callChecked OpenSSLNonNegativeReturnCheckPolicy
                      OpenSSLExceptionErrorPolicy call in ret out.

Definition OpensslCallIsPositive {S A} (call : M S (Z * A)) : M S A :=
  let! (_, out) := callChecked OpenSSLPositiveReturnCheckPolicy
                      OpenSSLExceptionErrorPolicy call in ret out.

(** A checked pointer: the result is the object it points to. *)
Definition OpensslCallPtr {S A} (call : M S (option A)) : M S A :=
  let! p := callChecked IsNotNullptrReturnCheckPolicy
              OpenSSLExceptionErrorPolicy call in
  match p with Some a => ret a | None => throw UndefinedBehaviour end.

(** A checked call of a function without state. *)
Definition run_pure {A} (m : M () A) : outcome A := (m ()).1.

(** ** What a checked call does *)

Section CallSpecs.
Context {S A : Type}.
Implicit Types (call : M S (Z * A)) (s : S).

Lemma wp_OpensslCallIsOne call s Φ Ψ :
  wp (OpensslCallIsOne call) s Φ Ψ ↔
  wp call s (λ '(rv, out) s', if rv =? 1 then Φ out s'
                              else Ψ (OpenSSLException [ErrorQueue]) s') Ψ.
Proof.
  unfold wp, OpensslCallIsOne, callChecked, bind, callPrecCallIfPresent. cbn.
  destruct (call s) as [[[rv out]|e] s']; cbn; [|done].
  by destruct (rv =? 1).
Qed.

Lemma wp_OpensslCallIsPositive call s Φ Ψ :
  wp (OpensslCallIsPositive call) s Φ Ψ ↔
  wp call s (λ '(rv, out) s', if 0 <? rv then Φ out s'
                              else Ψ (OpenSSLException [ErrorQueue]) s') Ψ.
Proof.
  unfold wp, OpensslCallIsPositive, callChecked, bind, callPrecCallIfPresent. cbn.
  destruct (call s) as [[[rv out]|e] s']; cbn; [|done].
  by destruct (0 <? rv).
Qed.

Lemma wp_OpensslCallIsNonNegative call s Φ Ψ :
  wp (OpensslCallIsNonNegative call) s Φ Ψ ↔
  wp call s (λ '(rv, out) s', if 0 <=? rv then Φ out s'
                              else Ψ (OpenSSLException [ErrorQueue]) s') Ψ.
Proof.
  unfold wp, OpensslCallIsNonNegative, callChecked, bind, callPrecCallIfPresent. cbn.
  destruct (call s) as [[[rv out]|e] s']; cbn; [|done].
  by destruct (0 <=? rv).
Qed.

Lemma wp_OpensslCallPtr (call : M S (option A)) s Φ Ψ :
  wp (OpensslCallPtr call) s Φ Ψ ↔
  wp call s (λ p s', match p with
                     | Some a => Φ a s'
                     | None => Ψ (OpenSSLException [ErrorQueue]) s'
                     end) Ψ.
Proof.
  unfold wp, OpensslCallPtr, callChecked, bind, callPrecCallIfPresent. cbn.
  by destruct (call s) as [[[a|]|e] s'].
Qed.
End CallSpecs.

(** A call that OpenSSL carries out: it reports success. *)
Definition succeeds {S A} (call : M S (Z * A)) (s : S) : Prop :=
  wp_total call s (λ r _, r.1 = 1).
Definition gives_object {S A} (call : M S (option A)) (s : S) : Prop :=
  wp_total call s (λ p _, p ≠ None).

(** What a successful call does is described by a specification; an exception
    means that the call was not carried out. *)
Lemma wp_IsOne_ok {S A} (call : M S (Z * A)) s (Φ : A → S → Prop) Ψ :
  wp_total call s (λ r s', r.1 = 1 → Φ r.2 s') →
  (∀ s', ¬ succeeds call s → Ψ (OpenSSLException [ErrorQueue]) s') →
  wp (OpensslCallIsOne call) s Φ Ψ.
Proof.
  intros Hcall HΨ. apply wp_OpensslCallIsOne. unfold succeeds, wp in *.
  destruct (call s) as [[[rv out]|e] s']; [|done]. cbn in *.
  destruct (Z.eqb_spec rv 1); [by apply Hcall|by apply HΨ].
Qed.

Lemma wp_IsPositive_ok {S A} (call : M S (Z * A)) s (Φ : A → S → Prop) Ψ :
  wp_total call s (λ r s', 0 < r.1 → Φ r.2 s') →
  (∀ s', ¬ succeeds call s → Ψ (OpenSSLException [ErrorQueue]) s') →
  wp (OpensslCallIsPositive call) s Φ Ψ.
Proof.
  intros Hcall HΨ. apply wp_OpensslCallIsPositive. unfold succeeds, wp in *.
  destruct (call s) as [[[rv out]|e] s']; [|done]. cbn in *.
  destruct (Z.ltb_spec 0 rv); [by apply Hcall|]. apply HΨ. lia.
Qed.

Lemma wp_Ptr_ok {S A} (call : M S (option A)) s (Φ : A → S → Prop) Ψ :
  wp_total call s (λ p s', ∀ a, p = Some a → Φ a s') →
  (∀ s', ¬ gives_object call s → Ψ (OpenSSLException [ErrorQueue]) s') →
  wp (OpensslCallPtr call) s Φ Ψ.
Proof.
  intros Hcall HΨ. apply wp_OpensslCallPtr. unfold gives_object, wp in *.
  destruct (call s) as [[[a|]|e] s']; [by apply Hcall|by apply HΨ; intros []|done].
Qed.

(** [call_ok spec]: step over a checked call whose success [spec] describes; the
    result, the new state and what is known of them are introduced. *)
Ltac call_ok_with rule spec :=
  apply rule;
  [eapply wp_mono;
   [apply spec
   |let rv := fresh "rv" in let out := fresh "out" in let s' := fresh "s'" in
    let Hok := fresh "Hok" in let Hrv := fresh "Hrv" in
    intros [rv out] s' Hok Hrv; cbn in Hrv; specialize (Hok Hrv); cbn [snd]
   |by intros]
  |try by intros].

(** [not_works law]: the call failed although the law of a working OpenSSL says that it
    succeeds. *)
Tactic Notation "not_works" uconstr(law) :=
  let s' := fresh "s'" in let Hf := fresh "Hf" in let HW := fresh "HW" in
  intros s' Hf; try (split; [done|]); intros HW; apply Hf; eapply law; try exact HW; try done.

Tactic Notation "call_one" uconstr(spec) := call_ok_with @wp_IsOne_ok spec.
Tactic Notation "call_pos" uconstr(spec) := call_ok_with @wp_IsPositive_ok spec.

(** ** Checked calls of functions without state *)

Lemma run_pure_IsOne {A} (call : Z * A) :
  run_pure (OpensslCallIsOne (ret call)) =
  if call.1 =? 1 then Val call.2 else Throw (OpenSSLException [ErrorQueue]).
Proof.
  destruct call as [rv out]. cbn. unfold run_pure, OpensslCallIsOne, callChecked, bind. cbn.
  by destruct (rv =? 1).
Qed.

Lemma run_pure_IsPositive {A} (call : Z * A) :
  run_pure (OpensslCallIsPositive (ret call)) =
  if 0 <? call.1 then Val call.2 else Throw (OpenSSLException [ErrorQueue]).
Proof.
  destruct call as [rv out]. cbn. unfold run_pure, OpensslCallIsPositive, callChecked, bind.
  cbn. by destruct (0 <? rv).
Qed.

Lemma run_pure_IsNonNegative {A} (call : Z * A) :
  run_pure (OpensslCallIsNonNegative (ret call)) =
  if 0 <=? call.1 then Val call.2 else Throw (OpenSSLException [ErrorQueue]).
Proof.
  destruct call as [rv out]. cbn. unfold run_pure, OpensslCallIsNonNegative, callChecked, bind.
  cbn. by destruct (0 <=? rv).
Qed.

Lemma run_pure_Ptr {A} (p : option A) :
  run_pure (OpensslCallPtr (ret p)) =
  match p with Some a => Val a | None => Throw (OpenSSLException [ErrorQueue]) end.
Proof. by destruct p. Qed.

(** Their rules: what is known of a call that succeeded, and that it failed. *)
Lemma owp_IsOne {A} (call : Z * A) (Φ : A → Prop) (Ψ : exn → Prop) :
  (∀ a, call = (1, a) → Φ a) → (call.1 ≠ 1 → Ψ (OpenSSLException [ErrorQueue])) →
  owp (run_pure (OpensslCallIsOne (ret call))) Φ Ψ.
Proof.
  intros HΦ HΨ. rewrite run_pure_IsOne. destruct call as [rv a]. cbn in *.
  by destruct (Z.eqb_spec rv 1) as [->|]; [apply HΦ|apply HΨ].
Qed.

Lemma owp_IsNonNegative {A} (call : Z * A) (Φ : A → Prop) (Ψ : exn → Prop) :
  (∀ rv a, 0 ≤ rv → call = (rv, a) → Φ a) →
  (call.1 < 0 → Ψ (OpenSSLException [ErrorQueue])) →
  owp (run_pure (OpensslCallIsNonNegative (ret call))) Φ Ψ.
Proof.
  intros HΦ HΨ. rewrite run_pure_IsNonNegative. destruct call as [rv a]. cbn in *.
  by destruct (Z.leb_spec 0 rv); [eapply HΦ|apply HΨ].
Qed.

Lemma owp_Ptr {A} (p : option A) (Φ : A → Prop) (Ψ : exn → Prop) :
  (∀ a, p = Some a → Φ a) → (p = None → Ψ (OpenSSLException [ErrorQueue])) →
  owp (run_pure (OpensslCallPtr (ret p))) Φ Ψ.
Proof. intros HΦ HΨ. rewrite run_pure_Ptr. by destruct p; [apply HΦ|apply HΨ]. Qed.

Lemma obind_Val {A B} (o : outcome A) (k : A → outcome B) b :
  obind o k = Val b ↔ ∃ a, o = Val a ∧ k a = Val b.
Proof.
  split.
  - destruct o as [a|e]; [|done]. by exists a.
  - by intros (a & -> & Hk).
Qed.

(** ** Steps that fail only where OpenSSL does

    [prepares W o P]: the step gives a value with [P] or reports an error of OpenSSL, which
    does not happen if [W].  [yields W o P]: the same, with any exception. *)
Definition prepares (W : Prop) {A} (o : outcome A) (P : A → Prop) : Prop :=
  match o with Val a => P a | Throw e => e = OpenSSLException [ErrorQueue] ∧ ¬ W end.
Definition yields (W : Prop) {A} (o : outcome A) (P : A → Prop) : Prop := owp o P (λ _, ¬ W).

Lemma prepares_bind {A B} W (o : outcome A) (k : A → outcome B) P (Q : outcome B → Prop) :
  prepares W o P → (¬ W → Q (Throw (OpenSSLException [ErrorQueue]))) → (∀ a, P a → Q (k a)) →
  Q (obind o k).
Proof. unfold prepares. destruct o; cbn; [auto|by intros [-> ?] ?; auto]. Qed.

Lemma prepares_weaken {A} (W W' : Prop) (o : outcome A) P :
  (W' → W) → prepares W o P → prepares W' o P.
Proof. unfold prepares. intros HW. destruct o; [done|]. by intros [-> Hn]; split; [|intros H%HW]. Qed.

Lemma prepares_works {A} (W : Prop) (o : outcome A) P :
  prepares W o P → W → ∃ a, o = Val a ∧ P a.
Proof. unfold prepares. destruct o; [by eexists|]. by intros [_ Hn] HW; destruct Hn. Qed.

Lemma prepares_ptr {A} (W : Prop) (o : option A) (P : A → Prop) :
  (W → o ≠ None) → (∀ a, o = Some a → P a) → prepares W (run_pure (OpensslCallPtr (ret o))) P.
Proof. rewrite run_pure_Ptr. destruct o; cbn; [auto|]. intros HW _. split; [done|]. by intros []%HW. Qed.

Lemma prepares_one {A} (W : Prop) (r : Z * A) (P : A → Prop) :
  (W → r.1 = 1) → (∀ a, r = (1, a) → P a) → prepares W (run_pure (OpensslCallIsOne (ret r))) P.
Proof.
  rewrite run_pure_IsOne. destruct r as [rv a]. cbn.
  destruct (Z.eqb_spec rv 1) as [->|]; cbn; [auto|by split; auto].
Qed.

Lemma prepares_positive {A} (W : Prop) (r : Z * A) (P : A → Prop) :
  (W → 0 < r.1) → (∀ rv a, r = (rv, a) → 0 < rv → P a) →
  prepares W (run_pure (OpensslCallIsPositive (ret r))) P.
Proof.
  rewrite run_pure_IsPositive. destruct r as [rv a]. cbn. intros HW HP.
  destruct (Z.ltb_spec 0 rv); cbn; [eauto|]. split; [done|]. intros ?%HW. lia.
Qed.

Lemma yields_prepares {A} W (o : outcome A) P : prepares W o P → yields W o P.
Proof. unfold yields, prepares. destruct o; [done|]. by intros []. Qed.

Lemma yields_weaken {A} (W W' : Prop) (o : outcome A) P :
  (W' → W) → yields W o P → yields W' o P.
Proof. unfold yields. intros HW Ho. eapply owp_mono; [exact Ho|done|]. by cbn; auto. Qed.

Lemma yields_val {A} (W : Prop) (o : outcome A) :
  (W → is_val o = true) → yields W o (λ a, o = Val a).
Proof. unfold yields. destruct o; cbn; [done|]. by intros HW H%HW. Qed.

Lemma yields_bind {A B} W (o : outcome A) (k : A → outcome B) P Q :
  yields W o P → (∀ a, P a → yields W (k a) Q) → yields W (let? a := o in k a) Q.
Proof. intros Ho Hk. apply owp_obind. by eapply owp_mono; [exact Ho|apply Hk|]. Qed.

Lemma wp_yields_or {S A B} W (o : outcome A) (k : A → M S B) s P Φ Ψ :
  yields W o P → (∀ e, ¬ W → Ψ e s) → (∀ a, P a → wp (k a) s Φ Ψ) →
  wp (let! a := lift o in k a) s Φ Ψ.
Proof. intros Ho He Hk. apply wp_lift_bind. by eapply owp_mono; [exact Ho|apply Hk|apply He]. Qed.

Lemma wp_yields {S A B} (W : Prop) (o : outcome A) (k : A → M S B) s P Φ :
  yields W o P → (∀ a, P a → wp (k a) s Φ (λ _ _, ¬ W)) →
  wp (let! a := lift o in k a) s Φ (λ _ _, ¬ W).
Proof. intros Ho. by apply (wp_yields_or W). Qed.

Lemma yields_one {A} (W : Prop) (r : Z * A) (P : A → Prop) :
  (W → r.1 = 1) → (∀ a, r = (1, a) → P a) → yields W (run_pure (OpensslCallIsOne (ret r))) P.
Proof. intros HW H. by apply yields_prepares, (prepares_one W). Qed.
Lemma yields_ptr {A} (W : Prop) (o : option A) (P : A → Prop) :
  (W → o ≠ None) → (∀ a, o = Some a → P a) → yields W (run_pure (OpensslCallPtr (ret o))) P.
Proof. intros HW H. by apply yields_prepares, (prepares_ptr W). Qed.

Create Rewrite HintDb calls.
#[export] Hint Rewrite @run_pure_IsPositive @run_pure_IsNonNegative @run_pure_Ptr
  @run_pure_IsOne : calls.

(** Decomposes [H : o = Val x] for a chain of checked calls. *)
Ltac outcomes H :=
  repeat (let a := fresh "a" in let Ha := fresh "Ha" in
          apply obind_Val in H as (a & Ha & H); cbn beta in H).
