(* ===== verification/ErrorQueue.v ===== *)
(** * Error reports: [OpenSSLException] of [src/src/mococrw/openssl_wrap.h] and
      [generateOpenSSLErrorString] of [src/src/openssl_wrap.cpp]

    OpenSSL's functions add the errors they meet to a queue of their thread.  The
    exception for a failed call takes the oldest error from the queue and shows it;
    nothing ever clears the queue.  The other files write the text of such an
    exception as the fragment [ErrorQueue]; here the queue is part of the state,
    the fragment is filled in, and the text that each exception shows is determined
    ([error_reports]).  [realises] relates a computation of the other files to its form
    with the queue; checked calls, sequences and handlers that add text preserve it. *)

From S2P Require Import Prelude CheckCall.

(** ** The OpenSSL functions *)

(** [SSL_ERR_error_string] with a null buffer. *)
Class ErrorAPI := {
  ERRORS : Type;
  SSL_ERR_get_error : M ERRORS Z;
  SSL_ERR_error_string (error : Z) : bytes;
}.

Section Reports.
Context {api : ErrorAPI}.

(** ** Class [OpenSSLException] *)

(** The text ["%s: %d"] of an error code. *)
Definition error_text (error : Z) : bytes :=
  SSL_ERR_error_string error ++ str ": " ++ str (pretty error).

Definition generateOpenSSLErrorString : M ERRORS bytes :=
  let! error := SSL_ERR_get_error in ret (error_text error).

(** The constructor without a message. *)
Definition new_OpenSSLException : M ERRORS exn :=
  let! message := generateOpenSSLErrorString in ret (OpenSSLException [Raw message]).

(** ** Checked calls in a state with the queue *)

Definition on_errors {S A} (m : M ERRORS A) : M (S * ERRORS) A :=
  zoom snd (λ q s, (s.1, q)) m.

(** [OpenSSLExceptionErrorPolicy::handleError] *)
Definition handleError {S R} (rv : R) : M (S * ERRORS) () :=
  let! e := on_errors new_OpenSSLException in throw e.

(** A policy looks at the returned value. *)
Definition on_value {S R} (P : ReturnCheckPolicy S R) : ReturnCheckPolicy (S * ERRORS) R :=
  {| preCall := None; returnValueIsOk rv s := returnValueIsOk P rv s.1 |}.

Definition callReporting {S R} (P : ReturnCheckPolicy S R) (callable : M (S * ERRORS) R) :
    M (S * ERRORS) R := callChecked (on_value P) handleError callable.
End Reports.

(** ** What OpenSSL promises

    "ERR_get_error() returns the earliest error code from the thread's error queue and
    removes the entry"; it returns 0 when there is none. *)
Class ErrorSpec (api : ErrorAPI) := {
  queued : ERRORS → list Z;
  get_error_spec q : wp_total SSL_ERR_get_error q (λ e q',
    e = default 0 (head (queued q)) ∧ queued q' = tail (queued q));
}.

(** A function of OpenSSL: what it does, and the errors that it adds to the queue. *)
Record ssl_function {S R : Type} := mkFunction {
  does : S → R * S;
  errors : S → list Z;
}.
Arguments ssl_function : clear implicits.
Arguments mkFunction {S R}.

(** ** Filling in the fragment *)

Definition is_queue (f : fragment) : bool := match f with ErrorQueue => true | _ => false end.
Definition fill (text : bytes) (f : fragment) : fragment :=
  match f with ErrorQueue => Raw text | _ => f end.

(** The exception with its text, and whether it shows an error of the queue. *)
Definition told (text : bytes) (e : exn) : exn :=
  match e with
  | MoCOCrWException w => MoCOCrWException (fill text <$> w)
  | OpenSSLException w => OpenSSLException (fill text <$> w)
  | RuntimeError w => RuntimeError (fill text <$> w)
  | OutOfRange w => OutOfRange (fill text <$> w)
  | e => e
  end.
Definition asks (e : exn) : bool := existsb is_queue (what e).

Section Facts.
Context {api : ErrorAPI} {spec : ErrorSpec api}.

Definition oldest (codes : list Z) : bytes := error_text (default 0 (head codes)).

(** [m'] does what [m] does and adds errors to the queue; the exceptions of [m] are thrown
    with the text of the oldest error, which is taken from the queue. *)
Definition realises {S A} (m : M S A) (m' : M (S * ERRORS) A) : Prop :=
  ∀ s q, ∃ new q',
    match m s with
    | (Val a, s') => m' (s, q) = (Val a, (s', q')) ∧ queued q' = queued q ++ new
    | (Throw e, s') =>
        let codes := queued q ++ new in
        m' (s, q) = (Throw (told (oldest codes) e), (s', q')) ∧
        queued q' = if asks e then tail codes else codes
    end.

(** The function as it is called in the other files, which leave the queue out, and how it
    is called in the state with the queue. *)
Definition without_queue {S R} (f : ssl_function S R) : M S R :=
  λ s, (Val (does f s).1, (does f s).2).
Definition implements {S R} (f : ssl_function S R) (c : M (S * ERRORS) R) : Prop :=
  ∀ s q, ∃ q', c (s, q) = (Val (does f s).1, ((does f s).2, q')) ∧
               queued q' = queued q ++ errors f s.

Lemma fill_none text w : existsb is_queue w = false → fill text <$> w = w.
Proof.
  induction w as [|f w IH]; [done|]. cbn [existsb]. intros [Hf Hw]%orb_false_iff.
  rewrite fmap_cons, IH by done. by destruct f.
Qed.

Lemma told_none text e : asks e = false → told text e = e.
Proof. unfold asks. intros He. destruct e; cbn in *; try done; by rewrite fill_none. Qed.

(** Computations without calls. *)
Lemma realises_ret {S A} (a : A) : realises (S := S) (ret a) (ret a).
Proof. intros s q. exists [], q. cbn. by rewrite app_nil_r. Qed.

Lemma realises_throw {S A} e : asks e = false → realises (S := S) (A := A) (throw e) (throw e).
Proof. intros He s q. exists [], q. cbn. by rewrite He, app_nil_r, told_none. Qed.

(** Sequences: the queue grows until an exception is thrown. *)
Lemma realises_bind {S A B} (m : M S A) m' (k : A → M S B) k' :
  realises m m' → (∀ a, realises (k a) (k' a)) → realises (bind m k) (bind m' k').
Proof.
  intros Hm Hk s q. destruct (Hm s q) as (new & q1 & H). unfold bind.
  destruct (m s) as [[a|e] s1].
  - destruct H as [-> Hq]. destruct (Hk a s1 q1) as (new' & q2 & Hk'). exists (new ++ new'), q2.
    destruct (k a s1) as [[b|e] s2]; cbn zeta in *; rewrite Hq, <-app_assoc in Hk'; exact Hk'.
  - destruct H as [-> Hq]. by exists new, q1.
Qed.

(** Handlers that put a text in front of an exception, or change its class. *)
Lemma realises_rewrap {S A} (m : M S A) m' (h : exn → exn) :
  realises m m' → (∀ text e, told text (h e) = h (told text e)) → (∀ e, asks (h e) = asks e) →
  realises (try_catch m (λ e, throw (h e))) (try_catch m' (λ e, throw (h e))).
Proof.
  intros Hm Ht Ha s q. destruct (Hm s q) as (new & q1 & H). exists new, q1.
  unfold try_catch. destruct (m s) as [[a|e] s1]; destruct H as [-> Hq]; [done|].
  cbn. by rewrite Ht, Ha.
Qed.

Lemma new_exception_spec q :
  wp_total new_OpenSSLException q (λ e q',
    e = OpenSSLException [Raw (oldest (queued q))] ∧ queued q' = tail (queued q)).
Proof.
  unfold new_OpenSSLException, generateOpenSSLErrorString. rewrite !wp_bind.
  eapply wp_mono; [apply get_error_spec| |by cbn].
  cbn. intros e q' [He Hq']. by rewrite He.
Qed.

(** One checked call: it returns what OpenSSL's function gives, or throws the oldest of
    the errors that were queued before and by the function. *)
Lemma reporting_spec {S R} (P : ReturnCheckPolicy S R) (f : ssl_function S R) c s q
    (Hf : implements f c) :
  let codes := queued q ++ errors f s in
  let '(rv, s') := does f s in
  ∃ q', if returnValueIsOk P rv s' then
    callReporting P c (s, q) = (Val rv, (s', q')) ∧ queued q' = codes
  else
    callReporting P c (s, q) = (Throw (OpenSSLException [Raw (oldest codes)]), (s', q')) ∧
    queued q' = tail codes.
Proof.
  cbn zeta. destruct (Hf s q) as (q1 & Hc & Hq1).
  unfold callReporting, callChecked, callPrecCallIfPresent, policyHandeledReturnValue, bind, ret,
    gets, handleError, on_errors, zoom. cbn [preCall on_value].
  rewrite Hc. destruct (does f s) as [rv s']; cbn [fst snd returnValueIsOk on_value].
  destruct (returnValueIsOk P rv s'); cbn [negb]; [by exists q1|].
  pose proof (new_exception_spec q1) as H. unfold wp in H. unfold bind, throw.
  cbn [fst snd].
  destruct (new_OpenSSLException q1) as [[e|] q2]; [|done]. destruct H as [-> Hq2].
  exists q2. by rewrite <-Hq1.
Qed.

(** A checked call with the queue realises the checked call of the other files. *)
Lemma realises_checked {S R} (P : ReturnCheckPolicy S R) (f : ssl_function S R) c :
  preCall P = None → implements f c →
  realises (callChecked P OpenSSLExceptionErrorPolicy (without_queue f)) (callReporting P c).
Proof.
  intros HP Hf s q. unfold callChecked, callPrecCallIfPresent, policyHandeledReturnValue, without_queue, bind, ret,
    gets, OpenSSLExceptionErrorPolicy, throw. rewrite HP.
  pose proof (reporting_spec P f c s q Hf) as H. cbn zeta in H.
  destruct (does f s) as [rv s']; cbn [fst snd] in *. destruct H as (q' & H).
  exists (errors f s), q'. by destruct (returnValueIsOk P rv s').
Qed.
End Facts.

(** ** Sequences of calls *)

(** A call of the wrapper: its policy, what OpenSSL's function does and how it is called. *)
Record checked_call `{ErrorSpec} {S : Type} := mkCall {
  result : Type;
  policy : ReturnCheckPolicy S result;
  policy_looks : preCall policy = None;
  function : ssl_function S result;
  callable : M (S * ERRORS) result;
  callable_ok : implements function callable;
}.
Arguments checked_call {api _} S.

Section Sequences.
Context {api : ErrorAPI} {spec : ErrorSpec api} {S : Type}.
Implicit Types (c : checked_call S) (calls : list (checked_call S)) (s : S).

(** A caller that catches every exception and keeps its text. *)
Definition report c : M (S * ERRORS) (list message) :=
  try_catch (callReporting (policy c) (callable c) ;; ret []) (λ e, ret [what e]).
Fixpoint reports calls : M (S * ERRORS) (list message) :=
  match calls with
  | [] => ret []
  | c :: calls => let! r := report c in let! rs := reports calls in ret (r ++ rs)
  end.

(** What OpenSSL does in a sequence of calls: whether one fails, the states in between, the
    errors that are queued, and the number of failures. *)
Definition fails c s : bool :=
  let '(rv, s') := does (function c) s in negb (returnValueIsOk (policy c) rv s').
Definition after c s : S := (does (function c) s).2.
Fixpoint final calls s : S :=
  match calls with [] => s | c :: calls => final calls (after c s) end.
Fixpoint all_errors calls s : list Z :=
  match calls with [] => [] | c :: calls => errors (function c) s ++ all_errors calls (after c s) end.
Fixpoint failures calls s : nat :=
  match calls with
  | [] => 0
  | c :: calls => (if fails c s then 1 else 0) + failures calls (after c s)
  end.

(** "A function that fails adds at least one error to the queue." *)
Fixpoint explained calls s : Prop :=
  match calls with
  | [] => True
  | c :: calls => (fails c s = true → errors (function c) s ≠ []) ∧ explained calls (after c s)
  end.

(** The stricter habit under which the messages are right: one error for a failure, none
    for a success. *)
Fixpoint one_error_each calls s : Prop :=
  match calls with
  | [] => True
  | c :: calls => length (errors (function c) s) = (if fails c s then 1 else 0)%nat ∧
                  one_error_each calls (after c s)
  end.

Definition text_of (error : Z) : message := [Raw (error_text error)].

Lemma report_spec c s q :
  let codes := queued q ++ errors (function c) s in
  ∃ q', if fails c s then
    report c (s, q) = (Val [text_of (default 0 (head codes))], (after c s, q')) ∧
    queued q' = tail codes
  else report c (s, q) = (Val [], (after c s, q')) ∧ queued q' = codes.
Proof.
  cbn zeta. unfold fails, after, report, try_catch, bind.
  pose proof (reporting_spec (policy c) _ _ s q (callable_ok c)) as H. cbn zeta in H.
  destruct (does (function c) s) as [rv s']. destruct H as [q' H]. exists q'.
  destruct (returnValueIsOk (policy c) rv s'); destruct H as [-> Hq']; by cbn.
Qed.

Lemma reports_spec calls s q :
  explained calls s →
  let codes := queued q ++ all_errors calls s in
  let n := failures calls s in
  ∃ q', reports calls (s, q) = (Val (text_of <$> take n codes), (final calls s, q')) ∧
        queued q' = drop n codes.
Proof.
  revert s q. induction calls as [|c calls IH]; intros s q; cbn.
  { intros _. exists q. by rewrite app_nil_r. }
  intros [Hc Hcalls]. destruct (report_spec c s q) as [q1 Hr]. unfold bind.
  rewrite app_assoc. destruct (fails c s).
  - destruct Hr as [-> Hq1]. destruct (IH _ q1 Hcalls) as (q2 & -> & Hq2). exists q2.
    rewrite Hq1 in *. specialize (Hc eq_refl).
    by destruct (queued q ++ errors (function c) s) as [|e codes] eqn:He;
      [apply app_nil in He as [_ ?]|].
  - destruct Hr as [-> Hq1]. destruct (IH _ q1 Hcalls) as (q2 & -> & Hq2). exists q2.
    by rewrite Hq1 in *.
Qed.

Lemma one_error_explained calls s : one_error_each calls s → explained calls s.
Proof.
  revert s. induction calls as [|c calls IH]; intros s; cbn; [done|]. intros [Hl Hc].
  split; [|by apply IH]. intros Hf. rewrite Hf in Hl. by destruct (errors (function c) s).
Qed.

Lemma one_error_length calls s :
  one_error_each calls s → length (all_errors calls s) = failures calls s.
Proof.
  revert s. induction calls as [|c calls IH]; intros s; cbn; [done|]. intros [Hl Hc].
  by rewrite length_app, Hl, IH.
Qed.

End Sequences.

(** ** An error queue *)

Module ListQueue.
#[export] Instance list_errors : ErrorAPI := {
  ERRORS := list Z;
  SSL_ERR_get_error q := (Val (default 0 (head q)), tail q);
  SSL_ERR_error_string _ := str "error";
}.
#[export] Program Instance list_errors_spec : ErrorSpec list_errors := {
  queued q := q;
}.
Next Obligation. done. Qed.

(** A function that counts its calls, returns [rv] and queues [new]. *)
Definition counts (rv : Z) (new : list Z) : ssl_function nat (Z * ()) :=
  mkFunction (λ n, ((rv, ()), S n)) (λ _, new).
Definition counts_call (rv : Z) (new : list Z) : M (nat * list Z) (Z * ()) :=
  λ '(n, q), (Val (rv, ()), (S n, q ++ new)).
Lemma counts_ok rv new : implements (counts rv new) (counts_call rv new).
Proof. intros s q. by exists (q ++ new). Qed.
Definition call (rv : Z) (new : list Z) : checked_call nat :=
  {| result := Z * (); policy := OpenSSLIsOneReturnCheckPolicy;
     policy_looks := eq_refl; function := counts rv new; callable := counts_call rv new;
     callable_ok := counts_ok rv new |}.

(** The first call fails with two errors, so the exception of the last one shows the second
    of them, and its own error stays in the queue. *)
Lemma stale_report :
  reports [call 0 [11; 12]; call 1 []; call 0 [13]] (0%nat, []) =
  (Val [text_of 11; text_of 12], (3%nat, [13])).
Proof. reflexivity. Qed.

End ListQueue.
