(* ===== verification/Ownership.v ===== *)
(** * Who frees what: the smart pointers of [src/src/mococrw/openssl_wrap.h]

    OpenSSL's objects live on a heap and are freed once, by the deleters of the smart
    pointers that own them.  The other files write objects as values; here the heap is
    explicit: an object is an address, the locals of a function are smart pointers, and
    every call may fail.  The functions of [src/src/openssl_wrap.cpp],
    [src/src/asymmetric_crypto_ctx.cpp], [src/src/key.cpp], [src/src/padding_mode.cpp] and
    [src/src/x509.cpp] with more than one owner to account for are written down with their
    calls in order; what they compute is left out (it is the matter of the other files), a
    test of computed data is a question with either answer. *)

From stdpp Require Import gmap strings.
From S2P Require Import Prelude.

(** ** The heap *)

(** The live objects, each with the objects that it has taken over and frees with itself. *)
Abbreviation heap := (gmap Z (list Z)).
Record world := mkWorld { live : heap; asked : nat }.

(** The answers to the questions of a run: whether the [n]-th call succeeds (or the [n]-th
    test is passed), whether a failing call leaves an object in its output parameter,
    whether it returns 0 rather than a negative number, and whether a succeeding call leaves
    its output parameter null (where the code allows for it). *)
Class Answers := {
  ok : nat → bool;
  leaves : nat → bool;
  zero : nat → bool;
  null : nat → bool;
}.

Definition free_ (h : heap) (p : Z) : heap := foldr delete (delete p h) (default [] (h !! p)).

Definition parts_of (h : heap) (p : Z) : list Z := default [] (h !! p).

(** Freeing what is not live is undefined. *)
Definition free (p : Z) : M world () := λ w,
  if bool_decide (is_Some (live w !! p)) then (Val (), mkWorld (free_ (live w) p) (asked w))
  else (Throw UndefinedBehaviour, w).

(** A call with objects that are not live is undefined. *)
Definition use (objs : list Z) : M world () := λ w,
  if bool_decide (Forall (λ p, is_Some (live w !! p)) objs) then (Val (), w)
  else (Throw UndefinedBehaviour, w).

Definition allocate : M world Z := λ w,
  let p := fresh (dom (live w)) in (Val p, mkWorld (<[p := []]> (live w)) (asked w)).

(** ** The deleters

    [SSLDeleter], [SSLRetDeleter] and [SSLFree] differ in the type of the function they call. *)

Definition SSLDeleter (ptr : option Z) : M world () :=
  match ptr with Some p => free p | None => ret () end.

(** ** Functions and their smart pointers

    The locals of a block are smart pointers, by name; one without an entry is null, as all
    are until their declaration is reached.  At its end - also when an exception passes -
    the deleters run in the reverse order of the declarations. *)
Abbreviation locals := (gmap string Z).
Abbreviation frame := (world * locals)%type.

Definition block {A} (names : list string) (init : locals) (body : M frame A) : M world A := λ w,
  let '(o, (w', vars)) := body (w, init) in
  match mapM_ (λ x, SSLDeleter (vars !! x)) (rev names) w' with
  | (Val _, w'') => (o, w'')
  | (Throw e, w'') => (Throw e, w'')
  end.

Definition on_world {A} (m : M world A) : M frame A := zoom fst (λ w s, (w, s.2)) m.

(** [get], on a pointer that is not null *)
Definition pointer (x : string) : M frame Z := λ s,
  match s.2 !! x with Some p => (Val p, s) | None => (Throw UndefinedBehaviour, s) end.
(** The comparison with [nullptr] *)
Definition is_null (x : string) : M frame bool := gets (λ s, bool_decide (s.2 !! x = None)).
Definition release (x : string) : M frame Z :=
  let! p := pointer x in modify (λ s, (s.1, delete x s.2)) ;; ret p.
(** An initialisation, or an assignment: what the pointer had before is freed. *)
Definition assign (x : string) (m : M world Z) : M frame () :=
  let! p := on_world m in
  let! old := gets (λ s, s.2 !! x) in
  modify (λ s, (s.1, <[x := p]> s.2)) ;; on_world (SSLDeleter old).

(** The end of the scope of some locals, where the function goes on. *)
Definition destroy (x : string) : M frame () :=
  let! p := gets (λ s, s.2 !! x) in
  modify (λ s, (s.1, delete x s.2)) ;; on_world (SSLDeleter p).
Definition leave_scope (names : list string) : M frame () := mapM_ destroy (rev names).

Section Wrapper.
Context {answers : Answers}.

(** ** Calls *)

Definition ask : M world bool := λ w, (Val (ok (asked w)), mkWorld (live w) (S (asked w))).

(** A checked call with the objects [objs]. *)
Definition checked (objs : list Z) : M world () :=
  use objs ;; let! b := ask in throw_if (negb b) (OpenSSLException [ErrorQueue]).

(** A checked call of a function that makes an object. *)
Definition new_object (objs : list Z) : M world Z := checked objs ;; allocate.

(** A call of a function that writes the object it makes to an output parameter: whether it
    succeeds, and the parameter. *)
Definition output_object (objs : list Z) : M world (bool * option Z) :=
  use objs ;;
  let! l := (λ w, (Val (leaves (asked w)), w)) in
  let! b := ask in
  if b || l then let! p := allocate in ret (b, Some p) else ret (b, None).

(** The same, where a call that succeeds may still write no object. *)
Definition output_or_null (objs : list Z) : M world (bool * option Z) :=
  use objs ;;
  let! (l, e) := (λ w, (Val (leaves (asked w), null (asked w)), w)) in
  let! b := ask in
  if (if b then negb e else l) then let! p := allocate in ret (b, Some p) else ret (b, None).

(** A checked call of a function that makes [p] a part of [owner] when it succeeds, in
    place of the parts that it had. *)
Definition give (owner : Z) (ps : list Z) : M world () := λ w,
  (Val (), mkWorld (<[owner := ps]> (foldr delete (live w) (parts_of (live w) owner))) (asked w)).
Definition taking_call (owner : Z) (ps : list Z) : M world () :=
  use (owner :: ps) ;;
  let! b := ask in
  if b then give owner ps else throw (OpenSSLException [ErrorQueue]).

(** The same under the policy that accepts every result but a negative one. *)
Definition taking_call_non_negative (owner : Z) (ps : list Z) : M world () :=
  use (owner :: ps) ;;
  let! z := (λ w, (Val (zero (asked w)), w)) in
  let! b := ask in
  if b then give owner ps else throw_if (negb z) (OpenSSLException [ErrorQueue]).

(** The memory of a vector or a string. *)
Definition new_vector : M world () := let! b := ask in throw_if (negb b) BadAlloc.

(** A test of computed data that ends in an exception. *)
Definition test (e : exn) : M world () := let! b := ask in throw_if b e.

Definition createManagedOpenSSLObject : M world Z := new_object [].

(** [catch (const OpenSSLException &e) { throw MoCOCrWException(e.what()); }] *)
Definition as_MoCOCrWException {A} (m : M frame A) : M frame A :=
  try_catch m (λ e, match e with
                    | OpenSSLException w => throw (MoCOCrWException w)
                    | _ => throw e
                    end).

(** ** Numbers *)

Definition Asn1IntegerToInt64_objects (number : Z) : M world () :=
  block ["maxLong"; "zero"] ∅
    (assign "maxLong" createManagedOpenSSLObject ;;
     assign "zero" createManagedOpenSSLObject ;;
     let! maxLong := pointer "maxLong" in
     let! zero := pointer "zero" in
     on_world
       (checked [zero] ;;
        checked [maxLong] ;;
        use [number; maxLong] ;;
        let! above := ask in
        let! outside := (if above then ret true else use [number; zero] ;; ask) in
        throw_if outside (OpenSSLException [Str "Number is out of the accepted range."]) ;;
        use [number])).

Definition Asn1IntegerToString_objects (number : Z) : M world () :=
  block ["bnNumber"; "strNumber"] ∅
    (assign "bnNumber" (new_object [number]) ;;
     let! bnNumber := pointer "bnNumber" in
     assign "strNumber" (new_object [bnNumber]) ;;
     let! strNumber := pointer "strNumber" in
     on_world (use [strNumber] ;; new_vector)).

Definition Asn1IntegerToBinary_objects (number : Z) : M world () :=
  block ["bnNumber"] ∅
    (assign "bnNumber" (new_object [number]) ;;
     let! bnNumber := pointer "bnNumber" in
     on_world (checked [bnNumber] ;; new_vector ;; checked [bnNumber])).

Definition _X509_set_serialNumber_objects (x : Z) : M world () :=
  block ["asn1Serial"] ∅
    (on_world (test (OpenSSLException [Str "Serial number is out of the accepted range."])) ;;
     assign "asn1Serial" createManagedOpenSSLObject ;;
     let! asn1Serial := pointer "asn1Serial" in
     on_world (checked [asn1Serial] ;; checked [x; asn1Serial])).

(** ** ECDSA signatures *)

Definition _BN_bin2bn_objects : M world Z :=
  test (OpenSSLException [Str "INT_MAX is the maximum supported size for BIGNUM"]) ;;
  new_object [].

(** The parameters [r] and [s] are smart pointers; both are released before the call. *)
Definition _ECDSA_SIG_set0_objects (sig r s : Z) : M world () :=
  block ["r"; "s"] (<["r" := r]> (<["s" := s]> ∅))
    (let! r := release "r" in
     let! s := release "s" in
     on_world (taking_call sig [r; s])).

(** [OpenSSLGuardedOutputBuffer]: a smart pointer whose address is the output parameter. *)
Definition output_pointer (x : string) (objs : list Z) : M frame bool :=
  let! (b, ptr) := on_world (output_or_null objs) in
  match ptr with Some p => assign x (ret p) | None => ret () end ;; ret b.

Definition _i2d_ECDSA_SIG_objects (sig : Z) : M world () :=
  block ["outputBuffer"] ∅
    (let! ok := output_pointer "outputBuffer" [sig] in
     throw_if (negb ok)
       (OpenSSLException [Str "ECDSA Signature serialization to DER failed."]) ;;
     let! missing := is_null "outputBuffer" in
     throw_if missing (OpenSSLException
       [Str "ECDSA Signature serialization to DER failed: Returned no data"]) ;;
     let! outputBuffer := pointer "outputBuffer" in
     on_world (use [outputBuffer] ;; new_vector)).

(** [r] and [s] are parts of the signature and used through it. *)
Definition _Asn1ECSignatureToIEEE1363EcSignature_objects : M world () :=
  block ["ecdsa"] ∅
    (assign "ecdsa" (new_object []) ;;
     let! ecdsa := pointer "ecdsa" in
     on_world
       (checked [ecdsa] ;; checked [ecdsa] ;;
        new_vector ;; checked [ecdsa] ;;
        new_vector ;; checked [ecdsa] ;;
        new_vector)).

Definition _IEEE1363EcSignatureToAsn1ECSignature_objects : M world () :=
  block ["r"; "s"; "ecdsa"] ∅
    (on_world (test (MoCOCrWException [Str "Invalid signature size."])) ;;
     assign "r" _BN_bin2bn_objects ;;
     assign "s" _BN_bin2bn_objects ;;
     assign "ecdsa" createManagedOpenSSLObject ;;
     let! ecdsa := pointer "ecdsa" in
     let! r := release "r" in
     let! s := release "s" in
     on_world (_ECDSA_SIG_set0_objects ecdsa r s) ;;
     on_world (_i2d_ECDSA_SIG_objects ecdsa)).

(** ** Keys *)

Definition _EVP_PKEY_keygen_objects (ctx : Z) : M world Z :=
  let! (b, ptr) := output_object [ctx] in
  (if b then ret () else SSLDeleter ptr ;; throw (OpenSSLException [ErrorQueue])) ;;
  match ptr with Some p => ret p | None => throw UndefinedBehaviour end.

Definition _EVP_PKEY_paramgen_objects (ctx : Z) : M world Z :=
  let! (b, ptr) := output_object [ctx] in
  throw_if (negb b) (OpenSSLException [ErrorQueue]) ;;
  match ptr with Some p => ret p | None => throw UndefinedBehaviour end.

Definition RSASpec_generate_objects : M world Z :=
  block ["keyCtx"; "pkey"] ∅
    (assign "keyCtx" (new_object []) ;;
     let! keyCtx := pointer "keyCtx" in
     on_world (checked [keyCtx] ;; checked [keyCtx]) ;;
     assign "pkey" (_EVP_PKEY_keygen_objects keyCtx) ;;
     release "pkey").

Definition ECCSpec_generate_objects (edwards : bool) : M world Z :=
  block ["pkey"; "keyCtx"; "paramCtx"; "params"] ∅
    (as_MoCOCrWException
       ((if edwards then assign "keyCtx" (new_object []) else
           assign "paramCtx" (new_object []) ;;
           let! paramCtx := pointer "paramCtx" in
           on_world (checked [paramCtx] ;; checked [paramCtx] ;; checked [paramCtx]) ;;
           assign "params" (_EVP_PKEY_paramgen_objects paramCtx) ;;
           let! params := pointer "params" in
           assign "keyCtx" (new_object [params]) ;;
           leave_scope ["paramCtx"; "params"]) ;;
        let! keyCtx := pointer "keyCtx" in
        on_world (checked [keyCtx]) ;;
        assign "pkey" (_EVP_PKEY_keygen_objects keyCtx)) ;;
     release "pkey").

Definition _EC_KEY_oct2key_objects : M world Z :=
  block ["key"] ∅
    (assign "key" (new_object []) ;;
     let! key := pointer "key" in
     on_world (checked [key]) ;;
     release "key").

Definition fromECPoint_objects : M world Z :=
  block ["ec_key"; "evp_key"] ∅
    (on_world (test (MoCOCrWException [Str "Curve not supported"])) ;;
     assign "ec_key" _EC_KEY_oct2key_objects ;;
     assign "evp_key" (new_object []) ;;
     let! evp_key := pointer "evp_key" in
     let! ec_key := pointer "ec_key" in
     on_world (checked [evp_key; ec_key]) ;;
     release "evp_key").

(** [pbuf] is a plain pointer. *)
Definition _EC_KEY_key2buf_objects (evp : Z) : M world () :=
  checked [evp] ;;
  let! (b, pbuf) := output_object [evp] in
  throw_if (negb b) (OpenSSLException [ErrorQueue]) ;;
  match pbuf with
  | Some p => use [p] ;; new_vector ;; free p
  | None => throw UndefinedBehaviour
  end.

Definition _EVP_derive_key_objects (peerkey key : Z) : M world () :=
  block ["ctx"] ∅
    (assign "ctx" (new_object [key]) ;;
     let! ctx := pointer "ctx" in
     on_world
       (checked [ctx] ;; checked [ctx; peerkey] ;; checked [ctx] ;; new_vector ;; checked [ctx])).

(** ** RSA encryption *)

(** The context takes the label over, and the pointer is released after the call. *)
Definition OAEPPadding_prepare_objects (ctx : Z) : M world () :=
  block ["label_copy"] ∅
    (as_MoCOCrWException
       (on_world (checked [ctx] ;; test (RuntimeError [Str "Unknown digest type"]) ;;
                  checked [ctx] ;; test (RuntimeError [Str "Unknown digest type"]) ;;
                  checked [ctx]) ;;
        let! labelled := on_world ask in
        if labelled then
          assign "label_copy" (new_object []) ;;
          let! label_copy := pointer "label_copy" in
          on_world (use [label_copy]) ;;
          on_world (taking_call_non_negative ctx [label_copy]) ;;
          let! _ := release "label_copy" in ret ()
        else ret ())).

Definition RSAEncryptionPublicKeyCtx_encrypt_objects (key : Z) : M world () :=
  block ["encryptedMessage"; "keyCtx"] ∅
    (as_MoCOCrWException
       (assign "keyCtx" (new_object [key]) ;;
        let! keyCtx := pointer "keyCtx" in
        on_world
          (test (MoCOCrWException [Str "Message size exceeds possible key size"]) ;;
           use [key] ;; test (MoCOCrWException [Str "Message can't be encrypted"]) ;;
           checked [keyCtx] ;;
           OAEPPadding_prepare_objects keyCtx ;;
           checked [keyCtx]) ;;
        assign "encryptedMessage" (new_object []) ;;
        let! encryptedMessage := pointer "encryptedMessage" in
        on_world (checked [keyCtx; encryptedMessage]) ;;
        leave_scope ["keyCtx"]) ;;
     let! encryptedMessage := pointer "encryptedMessage" in
     on_world (use [encryptedMessage] ;; new_vector)).

(** ** Verification of certificates *)

(** [buildStackFromContainer]; a stack refers to its elements and does not own them. *)
Definition buildStackFromContainer_objects (cnt : list Z) : M world Z :=
  block ["stack"] ∅
    (assign "stack" createManagedOpenSSLObject ;;
     let! stack := pointer "stack" in
     on_world (mapM_ (λ elem, checked [stack; elem]) cnt) ;;
     release "stack").

(** The verification uses everything that the context refers to. *)
Definition X509Certificate_verify_objects (self : Z) (trusted intermediate crls : list Z) :
    M world () :=
  block ["caStore"; "intermediateStack"; "verifyCtx"; "crlStack"] ∅
    (on_world (test (MoCOCrWException [Str "CRL check for all certificates requested"])) ;;
     assign "caStore" createManagedOpenSSLObject ;;
     let! caStore := pointer "caStore" in
     on_world (mapM_ (λ cert, checked [caStore; cert]) trusted) ;;
     assign "intermediateStack" (buildStackFromContainer_objects intermediate) ;;
     assign "verifyCtx" createManagedOpenSSLObject ;;
     let! intermediateStack := pointer "intermediateStack" in
     let! verifyCtx := pointer "verifyCtx" in
     on_world (checked [verifyCtx; caStore; self; intermediateStack] ;; checked [verifyCtx] ;;
               use [verifyCtx] ;; checked [verifyCtx]) ;;
     let! crlStack :=
       (if bool_decide (crls = []) then ret [] else
        assign "crlStack" (buildStackFromContainer_objects crls) ;;
        let! crlStack := pointer "crlStack" in
        on_world (use [verifyCtx; crlStack]) ;; ret [crlStack]) in
     as_MoCOCrWException
       (on_world (checked ([verifyCtx; caStore; self; intermediateStack] ++ crlStack ++
                           trusted ++ intermediate ++ crls)))).
End Wrapper.

(** ** Triples

    [owns N h m Φ Ψ]: started with the objects [h] of its own, on a heap with any others,
    [m] leaves the others as they are, and [Φ] (or [Ψ]) holds of what it then owns.  It may
    use the objects [N] among the others. *)
Definition others (N : list Z) (hf : heap) : Prop := Forall (λ p, is_Some (hf !! p)) N.

Definition owns {A} (N : list Z) (h : heap) (m : M world A)
    (Φ : A → heap → Prop) (Ψ : exn → heap → Prop) : Prop :=
  ∀ hf n, h ##ₘ hf → others N hf →
    let own Q w' := ∃ h', live w' = h' ∪ hf ∧ h' ##ₘ hf ∧ Q h' in
    wp m (mkWorld (h ∪ hf) n) (λ a, own (Φ a)) (λ e, own (Ψ e)).

Definition owns_in {A} (N : list Z) (v : locals) (h : heap) (m : M frame A)
    (Φ : A → locals → heap → Prop) (Ψ : exn → locals → heap → Prop) : Prop :=
  ∀ hf n, h ##ₘ hf → others N hf →
    let own Q s' := ∃ h', live s'.1 = h' ∪ hf ∧ h' ##ₘ hf ∧ Q s'.2 h' in
    wp m (mkWorld (h ∪ hf) n, v) (λ a, own (Φ a)) (λ e, own (Ψ e)).

(** An exception of the program: nothing is owned any more. *)
Definition thrown (e : exn) : Prop := e ≠ UndefinedBehaviour.

(** [tidy N m Φ]: [m] frees everything but what [Φ] says its result owns, and everything
    when it throws. *)
Definition tidy {A} (N : list Z) (m : M world A) (Φ : A → heap → Prop) : Prop :=
  owns N ∅ m Φ (λ e h, thrown e ∧ h = ∅).

Abbreviation nothing := (λ _ h, h = ∅).
Abbreviation the_object := (λ p h, h = {[p := []]}).

Section Rules.
Context {answers : Answers}.
Implicit Types (N objs : list Z) (h : heap) (v : locals).

Lemma owns_ret {A} N h (a : A) (Φ : A → heap → Prop) Ψ : Φ a h → owns N h (ret a) Φ Ψ.
Proof. intros HΦ hf n Hd _. by exists h. Qed.
Lemma owns_throw {A} N h e (Φ : A → heap → Prop) (Ψ : exn → heap → Prop) :
  Ψ e h → owns N h (throw e) Φ Ψ.
Proof. intros HΨ hf n Hd _. by exists h. Qed.
Lemma owns_bind {A B} N h (m : M world A) (k : A → M world B) Φ Ψ :
  owns N h m (λ a h', owns N h' (k a) Φ Ψ) Ψ → owns N h (bind m k) Φ Ψ.
Proof.
  intros Hm hf n Hd HN. apply wp_bind. eapply wp_mono; [by apply Hm| |done].
  intros a [h' n'] (h1 & Hh & Hd1 & Hk). cbn in Hh. subst h'. by apply Hk.
Qed.
Lemma owns_mono {A} N h (m : M world A) Φ Ψ (Φ' : A → heap → Prop) (Ψ' : exn → heap → Prop) :
  owns N h m Φ Ψ → (∀ a h', Φ a h' → Φ' a h') → (∀ e h', Ψ e h' → Ψ' e h') → owns N h m Φ' Ψ'.
Proof.
  intros Hm HΦ HΨ hf n Hd HN. eapply wp_mono; [by apply Hm|..]; cbn;
    intros ? ? (h' & ? & ? & ?); exists h'; eauto.
Qed.

(** What is owned is still there after a step that owns something else. *)
Lemma owns_frame {A} N N' h0 h1 (m : M world A) Φ Ψ :
  owns N' h0 m Φ Ψ → h0 ##ₘ h1 → (∀ p, p ∈ N' → p ∈ N ∨ is_Some (h1 !! p)) →
  owns N (h0 ∪ h1) m (λ a h, ∃ h', h = h' ∪ h1 ∧ h' ##ₘ h1 ∧ Φ a h')
                     (λ e h, ∃ h', h = h' ∪ h1 ∧ h' ##ₘ h1 ∧ Ψ e h').
Proof.
  intros Hm Hd HN' hf n Hd1 HN. apply map_disjoint_union_l in Hd1 as [Hd0 Hd1].
  rewrite <-map_union_assoc.
  assert (others N' (h1 ∪ hf)) as Ho.
  { apply Forall_forall. intros p [Hp|[x Hp]]%HN'.
    - unfold others in HN. rewrite Forall_forall in HN. apply HN in Hp as [x Hp].
      destruct (h1 !! p) as [y|] eqn:Hy.
      + exists y. by apply lookup_union_Some_l.
      + exists x. by rewrite lookup_union_r.
    - exists x. by apply lookup_union_Some_l. }
  eapply wp_mono; [apply (Hm (h1 ∪ hf)); [by apply map_disjoint_union_r|done]|..]; cbn;
    intros ? ? (h' & -> & [? ?]%map_disjoint_union_r & ?);
    exists (h' ∪ h1); rewrite <-map_union_assoc, map_disjoint_union_l; eauto 10.
Qed.

(** Calls. *)
Lemma use_ok N h objs (Φ : () → heap → Prop) Ψ :
  (∀ p, p ∈ objs → p ∈ N ∨ is_Some (h !! p)) → Φ () h → owns N h (use objs) Φ Ψ.
Proof.
  intros Hobjs HΦ hf n Hd HN. unfold wp, use. cbn. rewrite bool_decide_true; [by exists h|].
  apply Forall_forall. intros p [Hp|[x Hp]]%Hobjs.
  - unfold others in HN. rewrite Forall_forall in HN. apply HN in Hp as [x Hp].
    exists x. by apply lookup_union_Some_r.
  - exists x. by apply lookup_union_Some_l.
Qed.

Lemma ask_ok N h (Φ : bool → heap → Prop) Ψ : (∀ b, Φ b h) → owns N h ask Φ Ψ.
Proof. intros HΦ hf n Hd HN. by exists h. Qed.

Lemma allocate_ok N h (Φ : Z → heap → Prop) Ψ :
  (∀ p, h !! p = None → Φ p (<[p := []]> h)) → owns N h allocate Φ Ψ.
Proof.
  intros HΦ hf n Hd HN. set (p := fresh (dom (h ∪ hf))).
  assert (h !! p = None ∧ hf !! p = None) as [Hp Hpf].
  { apply lookup_union_None, not_elem_of_dom, is_fresh. }
  exists (<[p := []]> h). cbn. split_and!; [apply insert_union_l| |by apply HΦ].
  by apply map_disjoint_insert_l_2.
Qed.

(** The parts of an object are its own. *)
Definition closed_at h p : Prop := Forall (λ q, is_Some (h !! q)) (default [] (h !! p)).

Lemma foldr_delete_union (ps : list Z) h hf :
  Forall (λ q, hf !! q = None) ps → foldr delete (h ∪ hf) ps = foldr delete h ps ∪ hf.
Proof.
  induction 1 as [|q ps Hq _ IH]; [done|]. cbn. rewrite IH, delete_union.
  by rewrite (delete_id hf).
Qed.

Lemma foldr_delete_disjoint (ps : list Z) h hf : h ##ₘ hf → foldr delete h ps ##ₘ hf.
Proof. intros Hd. induction ps; cbn; [done|]. by apply map_disjoint_delete_l. Qed.

Lemma disjoint_None h hf p : h ##ₘ hf → is_Some (h !! p) → hf !! p = None.
Proof. intros Hd [x Hx]. by eapply map_disjoint_Some_l. Qed.

Lemma free_union h hf p :
  h ##ₘ hf → is_Some (h !! p) → closed_at h p → free_ (h ∪ hf) p = free_ h p ∪ hf.
Proof.
  intros Hd Hp Hc. unfold free_. destruct Hp as [ps Hps].
  rewrite (lookup_union_Some_l _ _ _ _ Hps), Hps. unfold closed_at in Hc. rewrite Hps in Hc.
  cbn in *. rewrite delete_union, (delete_id hf) by eauto using disjoint_None.
  apply foldr_delete_union. eapply Forall_impl; [exact Hc|]. eauto using disjoint_None.
Qed.

Lemma free_disjoint h hf p : h ##ₘ hf → free_ h p ##ₘ hf.
Proof. intros Hd. by apply foldr_delete_disjoint, map_disjoint_delete_l. Qed.

Lemma free_ok N h p (Φ : () → heap → Prop) Ψ :
  is_Some (h !! p) → closed_at h p → Φ () (free_ h p) → owns N h (free p) Φ Ψ.
Proof.
  intros Hp Hc HΦ hf n Hd HN. unfold wp, free. cbn. rewrite bool_decide_true.
  2: { destruct Hp as [x Hp]. exists x. by apply lookup_union_Some_l. }
  exists (free_ h p). cbn. by rewrite free_union; eauto using free_disjoint.
Qed.

(** The rules for functions with locals. *)
Lemma owns_in_ret {A} N v h (a : A) (Φ : A → locals → heap → Prop) Ψ :
  Φ a v h → owns_in N v h (ret a) Φ Ψ.
Proof. intros HΦ hf n Hd _. by exists h. Qed.
Lemma owns_in_bind {A B} N v h (m : M frame A) (k : A → M frame B) Φ Ψ :
  owns_in N v h m (λ a v' h', owns_in N v' h' (k a) Φ Ψ) Ψ → owns_in N v h (bind m k) Φ Ψ.
Proof.
  intros Hm hf n Hd HN. apply wp_bind. eapply wp_mono; [by apply Hm| |done].
  intros a [[h' n'] v'] (h1 & Hh & Hd1 & Hk). cbn in Hh. subst h'. by apply Hk.
Qed.
Lemma owns_in_pointer N v h x p (Φ : Z → locals → heap → Prop) Ψ :
  v !! x = Some p → Φ p v h → owns_in N v h (pointer x) Φ Ψ.
Proof. intros Hx HΦ hf n Hd _. unfold wp, pointer. cbn. rewrite Hx. by exists h. Qed.
Lemma owns_in_is_null N v h x (Φ : bool → locals → heap → Prop) Ψ :
  Φ (bool_decide (v !! x = None)) v h → owns_in N v h (is_null x) Φ Ψ.
Proof. intros HΦ hf n Hd _. by exists h. Qed.
Lemma owns_in_release N v h x p (Φ : Z → locals → heap → Prop) Ψ :
  v !! x = Some p → Φ p (delete x v) h → owns_in N v h (release x) Φ Ψ.
Proof.
  intros Hx HΦ hf n Hd _. unfold wp, release, bind, pointer. cbn. rewrite Hx. by exists h.
Qed.
Lemma owns_in_world {A} N v h (m : M world A) Φ Ψ :
  owns N h m (λ a h', Φ a v h') (λ e h', Ψ e v h') → owns_in N v h (on_world m) Φ Ψ.
Proof.
  intros Hm hf n Hd HN. unfold on_world. apply wp_zoom. by apply Hm.
Qed.

(** The end of a block. *)
Definition cleanup (names : list string) v : M world () :=
  mapM_ (λ x, SSLDeleter (v !! x)) (rev names).
Lemma owns_block {A} N names init h (body : M frame A) (Φ : A → heap → Prop) Ψ :
  owns_in N init h body
    (λ a v h', owns N h' (cleanup names v) (λ _, Φ a) (λ _ _, False))
    (λ e v h', owns N h' (cleanup names v) (λ _, Ψ e) (λ _ _, False)) →
  owns N h (block names init body) Φ Ψ.
Proof.
  intros Hb hf n Hd HN. specialize (Hb hf n Hd HN). unfold wp, block in *.
  destruct (body _) as [[a|e] [[h' n'] v']]; destruct Hb as (h1 & Hh & Hd1 & Hc);
    cbn in Hh; subst h'; specialize (Hc hf n' Hd1 HN); unfold wp, cleanup in Hc;
    destruct (mapM_ _ _ _) as [[[]|] w'']; try done; by destruct Hc as (? & _ & _ & []).
Qed.

(** A function that is tidy, called by one with objects of its own. *)
Lemma owns_tidy {A} N N' h (m : M world A) own (Φ : A → heap → Prop) (Ψ : exn → heap → Prop) :
  tidy N' m own → (∀ p, p ∈ N' → p ∈ N ∨ is_Some (h !! p)) →
  (∀ a h0, own a h0 → h0 ##ₘ h → Φ a (h0 ∪ h)) → (∀ e, thrown e → Ψ e h) →
  owns N h m Φ Ψ.
Proof.
  intros Hm HN' HΦ HΨ. pose proof (owns_frame N N' ∅ h m _ _ Hm (map_disjoint_empty_l h) HN') as H.
  rewrite map_empty_union in H. eapply owns_mono; [exact H|..]; cbn.
  - intros a h' (h0 & -> & Hd & Ha). by apply HΦ.
  - intros e h' (h0 & -> & Hd & He & ->). rewrite map_empty_union. by apply HΨ.
Qed.

(** An initialisation: the pointer owns the new object. *)
Lemma owns_in_assign N N' v h x (m : M world Z) (Φ : () → locals → heap → Prop) Ψ :
  tidy N' m the_object → v !! x = None → (∀ p, p ∈ N' → p ∈ N ∨ is_Some (h !! p)) →
  (∀ p, h !! p = None → Φ () (<[x := p]> v) (<[p := []]> h)) → (∀ e, thrown e → Ψ e v h) →
  owns_in N v h (assign x m) Φ Ψ.
Proof.
  intros Hm Hx HN' HΦ HΨ. apply owns_in_bind, owns_in_world.
  eapply owns_tidy; [exact Hm|exact HN'| |exact HΨ]. cbn. intros p h0 -> Hd hf n Hd' HN.
  rewrite map_disjoint_singleton_l in Hd. unfold wp, bind, gets, modify. cbn. rewrite Hx. cbn.
  rewrite <-insert_union_singleton_l in *. exists (<[p := []]> h). by eauto.
Qed.

Lemma owns_in_keep N v h x p (Φ : () → locals → heap → Prop) Ψ :
  v !! x = None → Φ () (<[x := p]> v) h → owns_in N v h (assign x (ret p)) Φ Ψ.
Proof.
  intros Hx HΦ hf n Hd HN. unfold wp, assign, bind, on_world, zoom, ret, gets, modify. cbn.
  rewrite Hx. by exists h.
Qed.
Lemma owns_in_throw_if N v h b e (Φ : () → locals → heap → Prop) (Ψ : exn → locals → heap → Prop) :
  (b = true → Ψ e v h) → (b = false → Φ () v h) → owns_in N v h (throw_if b e) Φ Ψ.
Proof. intros HΨ HΦ hf n Hd _. destruct b; exists h; auto. Qed.

(** ** The calls are tidy *)

Lemma checked_tidy N objs : (∀ p, p ∈ objs → p ∈ N) → tidy N (checked objs) nothing.
Proof.
  intros Hobjs. apply owns_bind, use_ok; [auto|]. apply owns_bind, ask_ok. intros [].
  - by apply owns_ret.
  - by apply owns_throw.
Qed.

Lemma new_object_tidy N objs : (∀ p, p ∈ objs → p ∈ N) → tidy N (new_object objs) the_object.
Proof.
  intros Hobjs. apply owns_bind. eapply owns_mono; [by apply checked_tidy| |done].
  cbn. intros _ h ->. by apply allocate_ok.
Qed.

Lemma output_object_ok N h objs (Φ : bool * option Z → heap → Prop) Ψ :
  (∀ p, p ∈ objs → p ∈ N ∨ is_Some (h !! p)) →
  (∀ b p, h !! p = None → (b = false → ∃ n, leaves n = true) → Φ (b, Some p) (<[p := []]> h)) →
  Φ (false, None) h → owns N h (output_object objs) Φ Ψ.
Proof.
  intros Hobjs HS HF. apply owns_bind, use_ok; [done|]. apply owns_bind.
  intros hf n Hd HN. exists h. split_and!; [done..|]. revert n HN.
  assert (∀ n, owns N h (let! b := ask in
            if b || leaves n then let! p := allocate in ret (b, Some p) else ret (b, None)) Φ Ψ).
  { intros n. apply owns_bind, ask_ok. intros b.
    destruct (b || leaves n) eqn:Hb.
    - apply owns_bind, allocate_ok. intros p Hp. apply owns_ret, HS; [done|].
      intros ->. by exists n.
    - apply orb_false_iff in Hb as [-> _]. by apply owns_ret. }
  done.
Qed.
Lemma output_or_null_ok N h objs (Φ : bool * option Z → heap → Prop) Ψ :
  (∀ p, p ∈ objs → p ∈ N ∨ is_Some (h !! p)) →
  (∀ b p, h !! p = None → Φ (b, Some p) (<[p := []]> h)) →
  (∀ b, Φ (b, None) h) → owns N h (output_or_null objs) Φ Ψ.
Proof.
  intros Hobjs HS HF. apply owns_bind, use_ok; [done|]. apply owns_bind.
  intros hf n Hd HN. exists h. split_and!; [done..|]. revert n HN.
  assert (∀ l e, owns N h (let! b := ask in if (if b then negb e else l)
            then let! p := allocate in ret (b, Some p) else ret (b, None)) Φ Ψ).
  { intros l e. apply owns_bind, ask_ok. intros b. destruct (if b then negb e else l).
    - apply owns_bind, allocate_ok. intros p Hp. by apply owns_ret, HS.
    - by apply owns_ret. }
  done.
Qed.

(** ** Rules for one step *)

Lemma checked_ok N h objs (Φ : () → heap → Prop) (Ψ : exn → heap → Prop) :
  (∀ p, p ∈ objs → p ∈ N ∨ is_Some (h !! p)) → Φ () h → (∀ e, thrown e → Ψ e h) →
  owns N h (checked objs) Φ Ψ.
Proof.
  intros Hobjs HΦ HΨ. apply owns_bind, use_ok; [done|]. apply owns_bind, ask_ok. intros [].
  - by apply owns_ret.
  - by apply owns_throw, HΨ.
Qed.

Lemma new_vector_ok N h (Φ : () → heap → Prop) (Ψ : exn → heap → Prop) :
  Φ () h → (∀ e, thrown e → Ψ e h) → owns N h new_vector Φ Ψ.
Proof.
  intros HΦ HΨ. apply owns_bind, ask_ok. intros []; [by apply owns_ret|by apply owns_throw, HΨ].
Qed.

(** Only an allocation of a vector throws [BadAlloc]. *)
Lemma new_vector_spec N h (Φ : () → heap → Prop) (Ψ : exn → heap → Prop) :
  Φ () h → Ψ BadAlloc h → owns N h new_vector Φ Ψ.
Proof.
  intros HΦ HΨ. apply owns_bind, ask_ok. intros []; [by apply owns_ret|by apply owns_throw].
Qed.

Lemma give_ok N h owner ps (Φ : () → heap → Prop) Ψ :
  h !! owner = Some [] → Φ () (<[owner := ps]> h) → owns N h (give owner ps) Φ Ψ.
Proof.
  intros Ho HΦ hf n Hd HN. exists (<[owner := ps]> h). cbn. unfold parts_of.
  rewrite (lookup_union_Some_l _ _ _ _ Ho). cbn. split_and!; [apply insert_union_l| |done].
  apply map_disjoint_insert_l_2; [|done]. by apply (disjoint_None h).
Qed.

Lemma taking_call_ok N h owner ps (Φ : () → heap → Prop) (Ψ : exn → heap → Prop) :
  h !! owner = Some [] → (∀ p, p ∈ owner :: ps → p ∈ N ∨ is_Some (h !! p)) →
  Φ () (<[owner := ps]> h) → Ψ (OpenSSLException [ErrorQueue]) h →
  owns N h (taking_call owner ps) Φ Ψ.
Proof.
  intros Ho Hps HΦ HΨ. apply owns_bind, use_ok; [done|]. apply owns_bind, ask_ok.
  intros []; [by apply give_ok|by apply owns_throw].
Qed.

(** A result of 0 passes for a success, but nothing was taken over. *)
Lemma taking_call_non_negative_ok N h owner ps (Φ : () → heap → Prop) (Ψ : exn → heap → Prop) :
  h !! owner = Some [] → (∀ p, p ∈ owner :: ps → p ∈ N ∨ is_Some (h !! p)) →
  Φ () (<[owner := ps]> h) → ((∃ n, zero n = true) → Φ () h) → (∀ e, thrown e → Ψ e h) →
  owns N h (taking_call_non_negative owner ps) Φ Ψ.
Proof.
  intros Ho Hps HΦ HΦ0 HΨ. apply owns_bind, use_ok; [done|]. apply owns_bind.
  intros hf n Hd HN. exists h. split_and!; [done..|]. revert n HN.
  assert (∀ n, owns N h (let! b := ask in if b then give owner ps else
    throw_if (negb (zero n)) (OpenSSLException [ErrorQueue])) Φ Ψ); [|done].
  intros n. apply owns_bind, ask_ok. intros []; [by apply give_ok|].
  destruct (zero n) eqn:Hz; [apply owns_ret, HΦ0; by exists n|by apply owns_throw, HΨ].
Qed.

Lemma throw_if_ok N h b e (Φ : () → heap → Prop) (Ψ : exn → heap → Prop) :
  thrown e → Φ () h → (∀ e, thrown e → Ψ e h) → owns N h (throw_if b e) Φ Ψ.
Proof. intros He HΦ HΨ. destruct b; [by apply owns_throw, HΨ|by apply owns_ret]. Qed.

Lemma test_ok N h e (Φ : () → heap → Prop) (Ψ : exn → heap → Prop) :
  thrown e → Φ () h → (∀ e, thrown e → Ψ e h) → owns N h (test e) Φ Ψ.
Proof. intros He HΦ HΨ. apply owns_bind, ask_ok. intros b. by apply throw_if_ok. Qed.

Lemma checked_all_ok {B} N h (f : B → list Z) l (Φ : () → heap → Prop) (Ψ : exn → heap → Prop) :
  (∀ b p, b ∈ l → p ∈ f b → p ∈ N ∨ is_Some (h !! p)) → Φ () h → (∀ e, thrown e → Ψ e h) →
  owns N h (mapM_ (λ b, checked (f b)) l) Φ Ψ.
Proof.
  intros Hl HΦ HΨ. induction l as [|b l IH]; [by apply owns_ret|].
  apply owns_bind, checked_ok; [|apply IH|done]; intros; eapply Hl; try done; set_solver.
Qed.

(** The deleters at the end of a scope. *)
Lemma owns_deleter_null N h x v (Φ : () → heap → Prop) Ψ :
  v !! x = None → Φ () h → owns N h (SSLDeleter (v !! x)) Φ Ψ.
Proof. intros ->. by apply owns_ret. Qed.

Lemma free_parts_ok N h p ps (Φ : () → heap → Prop) Ψ :
  h !! p = Some ps → Forall (λ q, is_Some (h !! q)) ps → Φ () (foldr delete (delete p h) ps) →
  owns N h (free p) Φ Ψ.
Proof. intros Hp Hps HΦ. apply free_ok; unfold closed_at, free_; by rewrite Hp. Qed.

Lemma owns_deleter N h x v p ps (Φ : () → heap → Prop) Ψ :
  v !! x = Some p → h !! p = Some ps → Forall (λ q, is_Some (h !! q)) ps →
  Φ () (foldr delete (delete p h) ps) → owns N h (SSLDeleter (v !! x)) Φ Ψ.
Proof. intros -> Hp Hps HΦ. by eapply free_parts_ok. Qed.

Lemma owns_in_destroy N v h x p ps (Φ : () → locals → heap → Prop) Ψ :
  v !! x = Some p → h !! p = Some ps → Forall (λ q, is_Some (h !! q)) ps →
  Φ () (delete x v) (foldr delete (delete p h) ps) → owns_in N v h (destroy x) Φ Ψ.
Proof.
  intros Hx Hp Hps HΦ hf n Hd HN. unfold destroy, wp, bind, gets, modify. cbn. rewrite Hx. cbn.
  pose proof (free_parts_ok N h p ps (λ a h', Φ a (delete x v) h') (λ _ _, False) Hp Hps HΦ
                hf n Hd HN) as H. unfold wp, on_world, zoom in *. cbn in *.
  destruct (free p _) as [[[]|e] w']; [exact H|by destruct H as (? & _ & _ & [])].
Qed.

(** The handlers. *)
Definition moco (e : exn) : exn :=
  match e with OpenSSLException w => MoCOCrWException w | _ => e end.
Lemma thrown_moco e : thrown e → thrown (moco e).
Proof. by destruct e. Qed.

Lemma owns_in_handler {A} N v h (m : M frame A) Φ Ψ :
  owns_in N v h m Φ (λ e, Ψ (moco e)) → owns_in N v h (as_MoCOCrWException m) Φ Ψ.
Proof.
  intros Hm hf n Hd HN. apply wp_try_catch. eapply wp_mono; [by apply Hm|done|].
  intros e s (h' & Hh & Hd' & HΨ). by destruct e; exists h'.
Qed.

Lemma is_Some_insert h p q ps : is_Some (h !! p) → is_Some (<[q := ps]> h !! p).
Proof. intros Hp. apply lookup_insert_is_Some'. by right. Qed.
Lemma is_Some_inserted h p ps : is_Some (<[p := ps]> h !! p).
Proof. by rewrite lookup_insert_eq. Qed.
End Rules.

Create HintDb heaps.
Create HintDb tidies.
#[export] Hint Resolve is_Some_insert is_Some_inserted list_elem_of_here list_elem_of_further : heaps.
#[export] Hint Resolve thrown_moco : heaps.
#[export] Hint Extern 1 (tidy _ (new_object _) _) => by apply new_object_tidy : tidies.
#[export] Hint Extern 1 (tidy _ createManagedOpenSSLObject _) => by apply new_object_tidy : tidies.

(** [available]: the objects of a call are among those of the function or of its caller. *)
Ltac available :=
  let q := fresh "q" in let Hq := fresh "Hq" in
  intros q Hq; cbn [app] in Hq;
  repeat (apply elem_of_cons in Hq as [->|Hq]);
  first [by apply not_elem_of_nil in Hq
        |by auto
        |left; by auto 10 with heaps
        |right; by auto 10 with heaps].

(** [fresh_object]: a new object is none of the others. *)
Ltac fresh_object :=
  let p := fresh "p" in let Hp := fresh "Hp" in intros p Hp;
  repeat (apply lookup_insert_None in Hp as [Hp ?]).

(** Heaps of functions that began without objects. *)
Ltac heap_eq :=
  rewrite ?delete_insert_ne, ?delete_insert_eq, ?delete_insert_ne, ?delete_insert_eq,
    ?delete_insert_ne, ?delete_insert_eq, ?delete_empty by congruence.

(** The object behind a pointer, and its parts. *)
Ltac find_object :=
  repeat (rewrite lookup_insert_ne by congruence); rewrite lookup_insert_eq; reflexivity.
Ltac parts_live := repeat constructor; auto 10 with heaps.
Ltac freed := cbn [foldr]; heap_eq.

(** [at_end]: the deleters of a block. *)
Ltac at_end :=
  cbn [cleanup rev app mapM_];
  repeat first
    [ progress apply owns_bind
    | apply owns_ret
    | eapply owns_deleter_null; [reflexivity|]
    | eapply owns_deleter; [reflexivity|find_object|parts_live|freed] ];
  heap_eq; try done; eauto with heaps.

(** [step]: one step of a function. *)
Ltac step :=
  lazymatch goal with
  | |- tidy _ _ _ => red
  | |- owns _ _ (block _ _ _) _ _ => apply owns_block
  | |- owns_in _ _ _ (bind _ _) _ _ => apply owns_in_bind
  | |- owns_in _ _ _ (on_world _) _ _ => apply owns_in_world
  | |- owns_in _ _ _ (as_MoCOCrWException _) _ _ => apply owns_in_handler
  | |- owns_in _ _ _ (ret _) _ _ => apply owns_in_ret
  | |- owns_in _ _ _ (pointer _) _ _ => eapply owns_in_pointer; [reflexivity|]
  | |- owns_in _ _ _ (is_null _) _ _ => apply owns_in_is_null; cbn
  | |- owns_in _ _ _ (release _) _ _ => eapply owns_in_release; [reflexivity|]
  | |- owns_in _ _ _ (leave_scope _) _ _ => unfold leave_scope; cbn [rev app mapM_]
  | |- owns_in _ _ _ (destroy _) _ _ =>
      eapply owns_in_destroy; [reflexivity|find_object|parts_live|freed]
  | |- owns _ _ (bind _ _) _ _ => apply owns_bind
  | |- owns _ _ (ret _) _ _ => apply owns_ret
  | |- owns _ _ (checked _) _ _ => apply checked_ok; [available| |intros ? ?; at_end]
  | |- owns _ _ (use _) _ _ => apply use_ok; [available|]
  | |- owns _ _ new_vector _ _ => apply new_vector_ok; [|intros ? ?; at_end]
  | |- owns _ _ (test _) _ _ => apply test_ok; [done| |intros ? ?; at_end]
  | |- owns _ _ (throw_if _ _) _ _ => apply throw_if_ok; [done| |intros ? ?; at_end]
  | |- owns _ _ ask _ _ => apply ask_ok; intros []
  | |- owns _ _ (throw _) _ _ => apply owns_throw
  | |- owns _ _ (free _) _ _ => eapply free_parts_ok; [find_object|parts_live|freed]
  | |- owns _ _ (SSLDeleter None) _ _ => apply owns_ret
  | |- owns _ _ (SSLDeleter (Some _)) _ _ => eapply free_parts_ok; [find_object|parts_live|freed]
  | |- owns_in _ _ _ (assign _ _) _ _ =>
      eapply owns_in_assign; [solve [eauto with tidies]|reflexivity|available
                             |fresh_object|intros ? ?; at_end]
  end.
Ltac steps := repeat step.

(** [tidy_function f]: by running it. *)
Tactic Notation "tidy_function" reference(f) := unfold f; steps; at_end.

Section Functions.
Context {answers : Answers}.

Lemma Asn1IntegerToInt64_tidy number : tidy [number] (Asn1IntegerToInt64_objects number) nothing.
Proof. tidy_function Asn1IntegerToInt64_objects. Qed.
Lemma Asn1IntegerToString_tidy number : tidy [number] (Asn1IntegerToString_objects number) nothing.
Proof. tidy_function Asn1IntegerToString_objects. Qed.
Lemma Asn1IntegerToBinary_tidy number : tidy [number] (Asn1IntegerToBinary_objects number) nothing.
Proof. tidy_function Asn1IntegerToBinary_objects. Qed.
Lemma set_serialNumber_tidy x : tidy [x] (_X509_set_serialNumber_objects x) nothing.
Proof. tidy_function _X509_set_serialNumber_objects. Qed.

Lemma bin2bn_tidy : tidy [] _BN_bin2bn_objects the_object.
Proof.
  apply owns_bind, test_ok; [done|by apply new_object_tidy|by intros].
Qed.

Lemma Asn1ECSignatureToIEEE_tidy :
  tidy [] _Asn1ECSignatureToIEEE1363EcSignature_objects nothing.
Proof. tidy_function _Asn1ECSignatureToIEEE1363EcSignature_objects. Qed.

(** The handler of [_EVP_PKEY_keygen] frees a key that a failing call left behind. *)
Lemma keygen_tidy ctx : tidy [ctx] (_EVP_PKEY_keygen_objects ctx) the_object.
Proof.
  unfold _EVP_PKEY_keygen_objects. apply owns_bind, output_object_ok; [available|..].
  - intros b p Hp _. destruct b; steps; at_end.
  - steps; at_end.
Qed.

(** The functions without such a handler rely on a call that leaves nothing behind. *)
Lemma paramgen_tidy ctx (Hleaves : ∀ n, leaves n = false) :
  tidy [ctx] (_EVP_PKEY_paramgen_objects ctx) the_object.
Proof.
  unfold _EVP_PKEY_paramgen_objects. apply owns_bind, output_object_ok; [available|..].
  - intros b p Hp Hb. destruct b; [by apply owns_bind, owns_ret, owns_ret|]. destruct (Hb eq_refl) as [n Hn]. congruence.
  - apply owns_bind. cbn. apply owns_throw. done.
Qed.
End Functions.
#[export] Hint Resolve bin2bn_tidy keygen_tidy : tidies.
#[export] Hint Extern 2 (tidy _ (_EVP_PKEY_paramgen_objects _) _) => by apply paramgen_tidy : tidies.

Section Functions.
Context {answers : Answers}.

Lemma RSASpec_generate_tidy : tidy [] RSASpec_generate_objects the_object.
Proof. tidy_function RSASpec_generate_objects. Qed.

Lemma ECCSpec_generate_tidy edwards (Hleaves : ∀ n, leaves n = false) :
  tidy [] (ECCSpec_generate_objects edwards) the_object.
Proof. unfold ECCSpec_generate_objects. destruct edwards; steps; at_end. Qed.
Lemma oct2key_tidy : tidy [] _EC_KEY_oct2key_objects the_object.
Proof. tidy_function _EC_KEY_oct2key_objects. Qed.
#[local] Hint Resolve oct2key_tidy : tidies.
Lemma fromECPoint_tidy : tidy [] fromECPoint_objects the_object.
Proof. tidy_function fromECPoint_objects. Qed.
Lemma derive_key_tidy peerkey key : tidy [peerkey; key] (_EVP_derive_key_objects peerkey key) nothing.
Proof. tidy_function _EVP_derive_key_objects. Qed.

Lemma i2d_tidy sig : tidy [sig] (_i2d_ECDSA_SIG_objects sig) nothing.
Proof.
  unfold _i2d_ECDSA_SIG_objects, output_pointer. do 3 step. apply owns_in_bind, owns_in_world.
  apply output_or_null_ok; [available|..].
  - intros b p Hp. apply owns_in_bind, owns_in_keep; [done|]. steps.
    apply owns_in_throw_if; intros Hb; [by at_end|]. steps.
    apply owns_in_throw_if; intros Hn; [by at_end|]. steps. at_end.
  - intros b. steps. apply owns_in_throw_if; intros Hb; [by at_end|]. steps.
    apply owns_in_throw_if; intros Hn; [by at_end|done].
Qed.

(** Both numbers are lost when the call fails: the smart pointers have released them. *)
Lemma set0_ok N h sig r s (Φ : () → heap → Prop) (Ψ : exn → heap → Prop) :
  h !! sig = Some [] → is_Some (h !! r) → is_Some (h !! s) →
  Φ () (<[sig := [r; s]]> h) → Ψ (OpenSSLException [ErrorQueue]) h →
  owns N h (_ECDSA_SIG_set0_objects sig r s) Φ Ψ.
Proof.
  intros Hsig Hr Hs HΦ HΨ. unfold _ECDSA_SIG_set0_objects. steps.
  apply taking_call_ok; [done| |at_end..].
  intros q Hq. right. repeat (apply elem_of_cons in Hq as [->|Hq]); [by eexists|done..|].
  by apply not_elem_of_nil in Hq.
Qed.

Definition lost_numbers (h : heap) : Prop :=
  ∃ r s, r ≠ s ∧ h = <[s := []]> (<[r := []]> ∅).

Lemma IEEEToAsn1_objects :
  owns [] ∅ _IEEE1363EcSignatureToAsn1ECSignature_objects nothing
    (λ e h, thrown e ∧ (h = ∅ ∨ e = OpenSSLException [ErrorQueue] ∧ lost_numbers h)).
Proof.
  unfold _IEEE1363EcSignatureToAsn1ECSignature_objects. steps.
  apply set0_ok; [by simplify_map_eq|auto with heaps..| |].
  - apply owns_in_world. eapply owns_tidy; [apply i2d_tidy|available|..].
    + cbn. intros _ h0 -> _. rewrite map_empty_union. at_end.
    + intros e He. at_end.
  - at_end. split; [done|]. right. split; [done|]. exists p, p0.
    done.
Qed.

(** The plain pointer is lost when the vector cannot be allocated. *)
Definition lost_buffer (h : heap) : Prop := ∃ p, h = <[p := []]> ∅.

Lemma key2buf_objects evp (Hleaves : ∀ n, leaves n = false) :
  owns [evp] ∅ (_EC_KEY_key2buf_objects evp) nothing
    (λ e h, thrown e ∧ (h = ∅ ∨ e = BadAlloc ∧ lost_buffer h)).
Proof.
  unfold _EC_KEY_key2buf_objects. do 2 step. apply owns_bind, output_object_ok; [available|..].
  - intros b p Hp Hb. destruct b; [|destruct (Hb eq_refl) as [n Hn]; congruence].
    apply owns_bind, owns_ret. do 3 step. apply new_vector_spec.
    + steps. done.
    + split; [done|]. right. split; [done|]. by exists p.
  - apply owns_bind. cbn. apply owns_throw. split; [done|by left].
Qed.

Lemma OAEP_prepare_ok N h ctx (Φ : () → heap → Prop) (Ψ : exn → heap → Prop) :
  h !! ctx = Some [] → (∀ l, h !! l = None → Φ () (<[ctx := [l]]> (<[l := []]> h))) →
  ((∃ n, zero n = true) → ∀ l, h !! l = None → Φ () (<[l := []]> h)) → Φ () h →
  (∀ e, thrown e → Ψ e h) → owns N h (OAEPPadding_prepare_objects ctx) Φ Ψ.
Proof.
  intros Hctx HΦl HΦ0 HΦ HΨ. unfold OAEPPadding_prepare_objects.
  assert (∀ p, p ∈ [ctx] → p ∈ N ∨ is_Some (h !! p)) as Hin.
  { intros p [->|[]%not_elem_of_nil]%elem_of_cons. right. by exists []. }
  steps; [|at_end]. assert (p ≠ ctx) as Hne by congruence.
  apply taking_call_non_negative_ok; [by rewrite lookup_insert_ne|..].
  - intros q Hq. apply elem_of_cons in Hq as [->|Hq]; [right|revert q Hq; available].
    apply is_Some_insert. by exists [].
  - steps. at_end.
  - intros Hz. steps. at_end.
  - intros e He. at_end. rewrite delete_id by done. auto with heaps.
Qed.

Lemma encrypt_tidy key (Hzero : ∀ n, zero n = false) :
  tidy [key] (RSAEncryptionPublicKeyCtx_encrypt_objects key) nothing.
Proof.
  unfold RSAEncryptionPublicKeyCtx_encrypt_objects. steps. apply OAEP_prepare_ok; [find_object|..].
  - fresh_object. steps. at_end.
  - intros [n Hn]. congruence.
  - steps. at_end.
  - intros e He. at_end.
Qed.

Lemma buildStack_tidy cnt : tidy cnt (buildStackFromContainer_objects cnt) the_object.
Proof.
  unfold buildStackFromContainer_objects. steps. apply checked_all_ok.
  - intros c p' Hc Hp'. apply elem_of_cons in Hp' as [->|Hp']; [right; auto with heaps|].
    apply list_elem_of_singleton in Hp' as ->. by left.
  - steps. at_end.
  - intros e He. at_end.
Qed.
#[local] Hint Resolve buildStack_tidy : tidies.

Lemma verify_tidy self trusted intermediate crls :
  tidy (self :: trusted ++ intermediate ++ crls)
    (X509Certificate_verify_objects self trusted intermediate crls) nothing.
Proof.
  unfold X509Certificate_verify_objects. set (N := self :: _).
  assert (∀ q, q ∈ self :: trusted ++ intermediate ++ crls → q ∈ N) as HN by done.
  setoid_rewrite elem_of_cons in HN. setoid_rewrite elem_of_app in HN.
  setoid_rewrite elem_of_app in HN. steps.
  apply checked_all_ok; [|steps|intros e He; at_end].
  { intros c q Hc Hq. apply elem_of_cons in Hq as [->|Hq]; [right; auto with heaps|].
    apply list_elem_of_singleton in Hq as ->. left. auto. }
  assert (∀ (h : heap) q, q ∈ trusted ++ intermediate ++ crls → q ∈ N ∨ is_Some (h !! q)) as Hrest.
  { intros h q Hq. left. apply HN. rewrite !elem_of_app in Hq. auto. }
  case_bool_decide as Hc.
  - steps. all: at_end.
  - steps. all: at_end.
Qed.

(** C21. Objects of OpenSSL are released exactly once.  Whatever call fails and whichever
    exception ends it, each of these functions uses live objects only, frees nothing twice,
    leaves the objects of others alone and ends with no object of its own but the one that
    it returns: the integer conversions, the setter of the serial number, both ECDSA
    conversions, key generation, the key from a point, the key agreement, RSA encryption
    with OAEP and certificate verification.  The exceptions are exact: a call of
    ECDSA_SIG_set0 that fails loses both numbers, the export of a point loses the buffer
    when the vector cannot be allocated, RSA encryption needs a call for the label that
    does not return 0, and the functions without a handler need failing calls that leave
    their output parameters alone. *)
Theorem objects_released :
  (∀ number, tidy [number] (Asn1IntegerToInt64_objects number) nothing ∧
             tidy [number] (Asn1IntegerToString_objects number) nothing ∧
             tidy [number] (Asn1IntegerToBinary_objects number) nothing) ∧
  (∀ x, tidy [x] (_X509_set_serialNumber_objects x) nothing) ∧
  tidy [] _Asn1ECSignatureToIEEE1363EcSignature_objects nothing ∧
  owns [] ∅ _IEEE1363EcSignatureToAsn1ECSignature_objects nothing
    (λ e h, thrown e ∧ (h = ∅ ∨ e = OpenSSLException [ErrorQueue] ∧ lost_numbers h)) ∧
  tidy [] RSASpec_generate_objects the_object ∧
  tidy [] fromECPoint_objects the_object ∧
  (∀ peerkey key, tidy [peerkey; key] (_EVP_derive_key_objects peerkey key) nothing) ∧
  (∀ self trusted intermediate crls,
    tidy (self :: trusted ++ intermediate ++ crls)
      (X509Certificate_verify_objects self trusted intermediate crls) nothing) ∧
  ((∀ n, leaves n = false) →
   (∀ edwards, tidy [] (ECCSpec_generate_objects edwards) the_object) ∧
   ∀ evp, owns [evp] ∅ (_EC_KEY_key2buf_objects evp) nothing
            (λ e h, thrown e ∧ (h = ∅ ∨ e = BadAlloc ∧ lost_buffer h))) ∧
  ((∀ n, zero n = false) →
   ∀ key, tidy [key] (RSAEncryptionPublicKeyCtx_encrypt_objects key) nothing).
Proof.
  repeat match goal with |- _ ∧ _ => split | |- ∀ _, _ => intro end;
    eauto using Asn1IntegerToInt64_tidy, Asn1IntegerToString_tidy, Asn1IntegerToBinary_tidy,
      set_serialNumber_tidy, Asn1ECSignatureToIEEE_tidy, IEEEToAsn1_objects,
      RSASpec_generate_tidy, fromECPoint_tidy, derive_key_tidy, verify_tidy,
      ECCSpec_generate_tidy, key2buf_objects, encrypt_tidy.
Qed.
End Functions.

(** ** Runs *)

Module Runs.
(** The questions with the answer yes. *)
Definition answering (yes : list nat) (zeros : bool) : Answers :=
  {| ok n := bool_decide (n ∈ yes); leaves _ := false; zero _ := zeros;
     null _ := false |}.
Definition empty_world : world := mkWorld ∅ 0.
Definition left_over {A} (m : M world A) : outcome A * nat :=
  let '(o, w) := m empty_world in (o, base.size (live w)).

(** The two tests and the last call have the answer no. *)
Lemma set0_loses_numbers :
  left_over (_IEEE1363EcSignatureToAsn1ECSignature_objects
               (answers := answering [2; 4; 5]%nat false)) =
  (Throw (OpenSSLException [ErrorQueue]), 2%nat).
Proof. vm_compute. reflexivity. Qed.

(** [evp] and the buffer are left. *)
Lemma key2buf_loses_buffer :
  left_over (let! evp := allocate in
             _EC_KEY_key2buf_objects (answers := answering [0; 1]%nat false) evp) =
  (Throw BadAlloc, 2%nat).
Proof. vm_compute. reflexivity. Qed.

(** [key] and the label are left, and the encryption succeeds. *)
Lemma label_lost :
  left_over (let! key := allocate in
             RSAEncryptionPublicKeyCtx_encrypt_objects
               (answers := answering [0; 3; 4; 6; 8; 9; 10; 12; 13; 14; 15]%nat true) key) =
  (Val (), 2%nat).
Proof. vm_compute. reflexivity. Qed.

Lemma objects_released_witness :
  tidy [] (ECCSpec_generate_objects (answers := answering [0; 1]%nat false) true) the_object ∧
  tidy [7] (RSAEncryptionPublicKeyCtx_encrypt_objects (answers := answering [0]%nat false) 7) nothing.
Proof.
  split.
  - destruct (objects_released (answers := answering [0; 1]%nat false))
      as (_ & _ & _ & _ & _ & _ & _ & _ & He & _). by apply He.
  - destruct (objects_released (answers := answering [0]%nat false))
      as (_ & _ & _ & _ & _ & _ & _ & _ & _ & He). by apply He.
Defined.
End Runs.
