(* ===== verification/SymmetricMemory.v ===== *)
(** * The cipher output buffer: [src/src/symmetric_memory.cpp] and
    [src/src/mococrw/symmetric_memory.h]

    [CipherMemoryStrategyI] is the interface a cipher writes its output to;
    [CipherMemoryStrategySpec] is what an implementation promises: the buffer
    is one byte stream, written at its end and read from its front.
    [QueueOfVectorsMemoryStrategy] keeps the chunks of that stream in a deque
    and reads across chunk boundaries; it is shown to implement the stream,
    with its byte counter exact and its assertions never failing. *)

From S2P Require Import Prelude.

(** ** The interface *)

Class CipherMemoryStrategyI (St : Type) := {
  strategy_init : St;
  strategy_write : bytes → M St ();
  strategy_read : Z → M St bytes;
  strategy_readAll : M St bytes;
}.

(** What a client of the interface relies on. *)
Class CipherMemoryStrategySpec (St : Type) `{CipherMemoryStrategyI St} := {
  strategy_ok : St → Prop;
  contents : St → bytes;
  strategy_init_spec : strategy_ok strategy_init ∧ contents strategy_init = [];
  strategy_write_spec s chunk :
    strategy_ok s →
    wp_total (strategy_write chunk) s (λ _ s',
      strategy_ok s' ∧ contents s' = contents s ++ chunk);
  strategy_read_spec s n :
    strategy_ok s → 0 ≤ n ≤ SIZE_MAX →
    wp_total (strategy_read n) s (λ out s',
      strategy_ok s' ∧ out = take (Z.to_nat n) (contents s) ∧
      contents s' = drop (Z.to_nat n) (contents s));
  strategy_readAll_spec s :
    strategy_ok s →
    wp_total strategy_readAll s (λ out s',
      strategy_ok s' ∧ out = contents s ∧ contents s' = []);
}.

(** ** The queue of vectors *)

Record QueueOfVectorsMemoryStrategy := mkQueue {
  _queue : list bytes;
  _totalBytesStored : Z;
}.

Definition set_queue (q : list bytes) (s : QueueOfVectorsMemoryStrategy) :=
  {| _queue := q; _totalBytesStored := _totalBytesStored s |}.
Definition set_totalBytesStored (n : Z) (s : QueueOfVectorsMemoryStrategy) :=
  {| _queue := _queue s; _totalBytesStored := n |}.

Module QueueOfVectors.
Definition init : QueueOfVectorsMemoryStrategy :=
  {| _queue := []; _totalBytesStored := 0 |}.

(** [_queue.front()]; on an empty deque the behaviour is undefined. *)
Definition front : M QueueOfVectorsMemoryStrategy bytes :=
  let! q := gets _queue in
  match q with
  | b :: _ => ret b
  | [] => throw UndefinedBehaviour
  end.

Definition pop_front : M QueueOfVectorsMemoryStrategy () :=
  let! q := gets _queue in
  match q with
  | _ :: q' => modify (set_queue q')
  | [] => throw UndefinedBehaviour
  end.

(** [_totalBytesStored -= n;] on a [size_t]. *)
Definition sub_totalBytesStored (n : Z) : M QueueOfVectorsMemoryStrategy () :=
  modify (λ s, set_totalBytesStored (to_size_t (_totalBytesStored s - n)) s).

Definition write (chunk : bytes) : M QueueOfVectorsMemoryStrategy () :=
  modify (λ s, set_totalBytesStored
                 (to_size_t (_totalBytesStored s + size chunk)) s) ;;
  modify (λ s, set_queue (_queue s ++ [chunk]) s).

Definition _readCompleteBlock : M QueueOfVectorsMemoryStrategy bytes :=
  let! bufferToReturn := front in
  pop_front ;;
  sub_totalBytesStored (size bufferToReturn) ;;
  ret bufferToReturn.

(** [output] is passed by reference: its new value is the result. *)
Definition _readPartialBlock (requestedSize : Z) (output : bytes) :
    M QueueOfVectorsMemoryStrategy bytes :=
  let! block := front in
  assert_ (requestedSize <? size block) ;;
  let output' := output ++ take (Z.to_nat requestedSize) block in
  let! q := gets _queue in
  modify (set_queue (drop (Z.to_nat requestedSize) block :: tail q)) ;;
  sub_totalBytesStored requestedSize ;;
  ret output'.

(** The copying loop of [readAll]: one block per iteration. *)
Definition readAll_body (bufferToReturn : bytes) :
    M QueueOfVectorsMemoryStrategy (bytes + bytes) :=
  let! q := gets _queue in
  match q with
  | [] => ret (inr bufferToReturn)
  | block :: _ => pop_front ;; ret (inl (bufferToReturn ++ block))
  end.

Definition readAll : M QueueOfVectorsMemoryStrategy bytes :=
  let! q := gets _queue in
  if size q =? 1 then
    let! bufferToReturn := front in
    modify (set_queue []) ;;
    modify (set_totalBytesStored 0) ;;
    ret bufferToReturn
  else
    let! bufferToReturn := iter (S (length q)) readAll_body [] in
    sub_totalBytesStored (size bufferToReturn) ;;
    let! total := gets _totalBytesStored in
    assert_ (total =? 0) ;;
    ret bufferToReturn.

(** The loop of [read] that takes as many complete blocks as fit. *)
Definition read_body (requestedBufferSize : Z) (bufferToReturn : bytes) :
    M QueueOfVectorsMemoryStrategy (bytes + bytes) :=
  let! q := gets _queue in
  match q with
  | [] => ret (inr bufferToReturn)
  | block :: _ =>
      if size block <=? to_size_t (requestedBufferSize - size bufferToReturn) then
        let! block := _readCompleteBlock in
        ret (inl (bufferToReturn ++ block))
      else ret (inr bufferToReturn)
  end.

Definition read (requestedBufferSize : Z) : M QueueOfVectorsMemoryStrategy bytes :=
  let! q := gets _queue in
  match q with
  | [] => ret []
  | block :: _ =>
      if size block =? requestedBufferSize then _readCompleteBlock
      else if requestedBufferSize <? size block then
        _readPartialBlock requestedBufferSize []
      else if size q =? 1 then readAll
      else
        let! bufferToReturn := iter (S (length q)) (read_body requestedBufferSize) [] in
        let! q' := gets _queue in
        if (size bufferToReturn <? requestedBufferSize) &&
           negb (match q' with [] => true | _ => false end)
        then _readPartialBlock
               (to_size_t (requestedBufferSize - size bufferToReturn)) bufferToReturn
        else ret bufferToReturn
  end.
End QueueOfVectors.

#[export] Instance queue_strategy : CipherMemoryStrategyI QueueOfVectorsMemoryStrategy := {
  strategy_init := QueueOfVectors.init;
  strategy_write := QueueOfVectors.write;
  strategy_read := QueueOfVectors.read;
  strategy_readAll := QueueOfVectors.readAll;
}.

(** ** The queue implements the stream *)

Module QueueFacts.
Import QueueOfVectors.

Definition stored (s : QueueOfVectorsMemoryStrategy) : bytes := concat (_queue s).

(** The counter is the number of bytes held, modulo the width of [size_t]. *)
Definition invariant (s : QueueOfVectorsMemoryStrategy) : Prop :=
  _totalBytesStored s = to_size_t (size (stored s)).

Lemma to_size_t_sub a b : to_size_t (to_size_t a - b) = to_size_t (a - b).
Proof. unfold to_size_t. by rewrite Zminus_mod_idemp_l. Qed.

Lemma to_size_t_add a b : to_size_t (to_size_t a + b) = to_size_t (a + b).
Proof. unfold to_size_t. by rewrite Zplus_mod_idemp_l. Qed.

Lemma init_spec : invariant init ∧ stored init = [].
Proof. done. Qed.

Lemma write_spec s chunk :
  invariant s →
  wp_total (write chunk) s (λ _ s', invariant s' ∧ stored s' = stored s ++ chunk).
Proof.
  unfold invariant, stored, write. intros Hinv. wp_simpl.
  cbn. rewrite concat_app. cbn. rewrite app_nil_r.
  by rewrite Hinv, to_size_t_add, size_app.
Qed.

Lemma readCompleteBlock_spec s block q :
  invariant s → _queue s = block :: q →
  wp_total _readCompleteBlock s (λ out s',
    invariant s' ∧ out = block ∧ _queue s' = q).
Proof.
  unfold invariant, stored, _readCompleteBlock, front, pop_front, sub_totalBytesStored.
  intros Hinv Hq. wp_simpl.
  rewrite Hq. wp_simpl. rewrite Hq. wp_simpl.
  cbn. rewrite Hinv, Hq, to_size_t_sub. cbn. rewrite size_app.
  repeat split. f_equal. lia.
Qed.

Lemma readPartialBlock_spec s block q n output :
  invariant s → _queue s = block :: q → 0 ≤ n < size block →
  wp_total (_readPartialBlock n output) s (λ out s',
    invariant s' ∧ out = output ++ take (Z.to_nat n) block ∧
    _queue s' = drop (Z.to_nat n) block :: q).
Proof.
  unfold invariant, stored, _readPartialBlock, front, sub_totalBytesStored.
  intros Hinv Hq Hn. wp_simpl. rewrite Hq. wp_simpl.
  destruct (Z.ltb_spec n (size block)); [|lia]. wp_simpl. rewrite Hq.
  cbn. rewrite Hinv, Hq, to_size_t_sub. cbn. rewrite !size_app, size_drop by lia.
  repeat split. f_equal. lia.
Qed.

Lemma readAll_loop s :
  ∀ fuel, (length (_queue s) < fuel)%nat →
  wp_total (iter fuel readAll_body []) s (λ out s',
    out = stored s ∧ _queue s' = [] ∧ _totalBytesStored s' = _totalBytesStored s).
Proof.
  intros fuel Hfuel.
  apply (wp_iter (λ l s', l ++ stored s' = stored s ∧
                          _totalBytesStored s' = _totalBytesStored s)
                 (λ _ s', length (_queue s'))); [|done|done].
  intros l s' [Hl Ht]. unfold readAll_body, pop_front. wp_simpl.
  destruct (_queue s') as [|block q] eqn:Hq; wp_simpl.
  - unfold stored in Hl. rewrite Hq, app_nil_r in Hl. done.
  - rewrite Hq. wp_simpl. cbn. unfold stored in *. rewrite Hq in Hl. cbn in Hl.
    cbn. rewrite <- app_assoc. repeat split; [done|done|lia].
Qed.

Lemma readAll_spec s :
  invariant s →
  wp_total readAll s (λ out s',
    invariant s' ∧ out = stored s ∧ stored s' = []).
Proof.
  intros Hinv. unfold readAll, front, sub_totalBytesStored. wp_simpl.
  destruct (Z.eqb_spec (size (_queue s)) 1) as [H1|H1]; wp_simpl.
  - unfold size in H1. destruct (_queue s) as [|block [|]] eqn:Hq; cbn in H1; try lia.
    wp_simpl. unfold invariant, stored. rewrite Hq. cbn. rewrite app_nil_r. done.
  - eapply wp_mono; [apply readAll_loop; lia| |done].
    intros out s' (-> & Hq & Ht). wp_simpl. cbn.
    rewrite Ht, Hinv, to_size_t_sub, Z.sub_diag. cbn.
    unfold invariant, stored. cbn. rewrite Hq. done.
Qed.

(** The first loop of [read] moves whole blocks: it stops when the queue is
    empty or when its first block does not fit any more. *)
Lemma read_loop s n :
  invariant s → n ≤ SIZE_MAX →
  ∀ fuel, (length (_queue s) < fuel)%nat → 0 ≤ n →
  wp_total (iter fuel (read_body n) []) s (λ out s',
    invariant s' ∧ out ++ stored s' = stored s ∧ size out ≤ n ∧
    match _queue s' with [] => True | block :: _ => n < size out + size block end).
Proof.
  intros Hinv Hmax fuel Hfuel Hn.
  apply (wp_iter (λ l s', invariant s' ∧ l ++ stored s' = stored s ∧ size l ≤ n)
                 (λ _ s', length (_queue s'))); [|by split_and!|done].
  intros l s' (Hinv' & Hl & Hle). unfold read_body. wp_simpl.
  destruct (_queue s') as [|block q] eqn:Hq; wp_simpl; [by rewrite Hq|].
  pose proof (size_nonneg l).
  rewrite to_size_t_id by (unfold SIZE_MAX in *; lia).
  destruct (Z.leb_spec (size block) (n - size l)); wp_simpl.
  - eapply wp_mono; [by apply readCompleteBlock_spec| |done].
    intros out s'' (Hinv'' & -> & Hq''). wp_simpl. rewrite Hq''.
    unfold stored in *. rewrite Hq in Hl. cbn in Hl. rewrite Hq''. sizes.
    rewrite <- app_assoc. cbn. split_and!; [done|done|lia|lia].
  - rewrite Hq. repeat split; [done|done|lia|lia].
Qed.

Lemma read_spec s n :
  invariant s → 0 ≤ n ≤ SIZE_MAX →
  wp_total (read n) s (λ out s',
    invariant s' ∧ out = take (Z.to_nat n) (stored s) ∧
    stored s' = drop (Z.to_nat n) (stored s)).
Proof.
  intros Hinv Hn. unfold read. wp_simpl.
  destruct (_queue s) as [|block q] eqn:Hq; wp_simpl.
  { unfold stored. rewrite Hq. cbn. rewrite take_nil, drop_nil. done. }
  destruct (Z.eqb_spec (size block) n) as [<-|Hne].
  { eapply wp_mono; [by apply readCompleteBlock_spec| |done].
    intros out s' (Hinv' & -> & Hq'). unfold stored. rewrite Hq, Hq'. cbn.
    unfold size. rewrite Nat2Z.id, take_app_length, drop_app_length. done. }
  destruct (Z.ltb_spec n (size block)) as [Hlt|Hge].
  { eapply wp_mono; [apply (readPartialBlock_spec s block q); [done|done|lia]| |done].
    intros out s' (Hinv' & -> & Hq'). unfold stored. rewrite Hq, Hq'. cbn.
    unfold size in Hlt. rewrite take_app_le, drop_app_le by lia. done. }
  destruct (Z.eqb_spec (size (block :: q)) 1) as [H1|H1].
  { eapply wp_mono; [by apply readAll_spec| |done].
    intros out s' (Hinv' & -> & Hst). rewrite Hst.
    assert (length (stored s) ≤ Z.to_nat n)%nat.
    { unfold stored. rewrite Hq. destruct q; [|unfold size in H1; cbn in H1; lia].
      cbn. rewrite app_nil_r. unfold size in *. lia. }
    rewrite take_ge, drop_ge by done. done. }
  rewrite <- Hq. wp_simpl.
  eapply wp_mono; [apply read_loop; [done|lia|lia|lia]| |done].
  intros buf s' (Hinv' & Hst & Hle & Hnext). wp_simpl.
  rewrite <- Hst. pose proof (size_nonneg buf).
  destruct (_queue s') as [|block' q'] eqn:Hq'.
  - rewrite andb_false_r. wp_simpl. unfold stored. rewrite Hq'. cbn.
    rewrite app_nil_r. unfold size in Hle.
    rewrite take_ge, drop_ge by lia. done.
  - destruct (Z.ltb_spec (size buf) n) as [Hlt|Hge']; cbn [negb andb].
    + rewrite to_size_t_id by (unfold SIZE_MAX in *; lia).
      eapply wp_mono; [apply (readPartialBlock_spec s' block' q'); [done|done|lia]| |done].
      intros out s'' (Hinv'' & -> & Hq''). unfold stored. rewrite Hq', Hq''.
      cbn. unfold size in *.
      rewrite take_app_ge, drop_app_ge by lia.
      replace (Z.to_nat n - length buf)%nat with (Z.to_nat (n - Z.of_nat (length buf))) by lia.
      rewrite take_app_le, drop_app_le by lia. done.
    + wp_simpl. assert (size buf = n) as <- by lia.
      unfold size. rewrite Nat2Z.id, take_app_length, drop_app_length. done.
Qed.
End QueueFacts.

#[export] Instance queue_strategy_spec :
    CipherMemoryStrategySpec QueueOfVectorsMemoryStrategy := {
  strategy_ok := QueueFacts.invariant;
  contents := QueueFacts.stored;
  strategy_init_spec := QueueFacts.init_spec;
  strategy_write_spec := QueueFacts.write_spec;
  strategy_read_spec := QueueFacts.read_spec;
  strategy_readAll_spec := QueueFacts.readAll_spec;
}.

(** ** Properties *)

(** The calls a client makes, and the buffer as one byte string. *)
Inductive memory_op :=
| Write (chunk : bytes)
| Read (length : Z)
| ReadAll.

Definition memory_exec (o : memory_op) : M QueueOfVectorsMemoryStrategy bytes :=
  match o with
  | Write c => QueueOfVectors.write c ;; ret []
  | Read n => QueueOfVectors.read n
  | ReadAll => QueueOfVectors.readAll
  end.

Fixpoint memory_run (os : list memory_op) : M QueueOfVectorsMemoryStrategy (list bytes) :=
  match os with
  | [] => ret []
  | o :: os' =>
      let! r := memory_exec o in let! rs := memory_run os' in ret (r :: rs)
  end.

Definition stream_exec (o : memory_op) (b : bytes) : bytes * bytes :=
  match o with
  | Write c => ([], b ++ c)
  | Read n => (take (Z.to_nat n) b, drop (Z.to_nat n) b)
  | ReadAll => (b, [])
  end.

Fixpoint stream_run (os : list memory_op) (b : bytes) : list bytes * bytes :=
  match os with
  | [] => ([], b)
  | o :: os' =>
      let '(r, b') := stream_exec o b in
      let '(rs, b'') := stream_run os' b' in (r :: rs, b'')
  end.

Definition memory_op_ok (o : memory_op) : Prop :=
  match o with Read n => 0 ≤ n ≤ SIZE_MAX | _ => True end.

Lemma memory_exec_spec o s :
  memory_op_ok o → QueueFacts.invariant s →
  wp_total (memory_exec o) s (λ r s',
    QueueFacts.invariant s' ∧
    stream_exec o (QueueFacts.stored s) = (r, QueueFacts.stored s')).
Proof.
  intros Ho Hs. destruct o; cbn [memory_exec stream_exec].
  - rewrite wp_bind. eapply wp_mono; [by apply QueueFacts.write_spec| |done].
    intros [] s' [? Hc]. wp_simpl. by rewrite Hc.
  - eapply wp_mono; [by apply QueueFacts.read_spec| |done].
    intros r s' (? & -> & Hc). by rewrite Hc.
  - eapply wp_mono; [by apply QueueFacts.readAll_spec| |done].
    intros r s' (? & -> & Hc). by rewrite Hc.
Qed.

(** C4. The queue of vectors refines one byte string: every sequence of writes
    and reads, in any order and across any chunk boundaries, returns what the
    same sequence returns on a string written at its end and read from its
    front.  No call fails - neither an assertion nor an access to an empty
    deque - and the byte counter stays exact. *)
Theorem queue_refines_stream (os : list memory_op) (Hos : Forall memory_op_ok os) :
  wp_total (memory_run os) QueueOfVectors.init (λ rs s',
    stream_run os [] = (rs, QueueFacts.stored s') ∧
    _totalBytesStored s' = to_size_t (size (QueueFacts.stored s'))).
Proof.
  change [] with (QueueFacts.stored QueueOfVectors.init).
  assert (Hinv : QueueFacts.invariant QueueOfVectors.init) by done.
  revert Hinv. generalize QueueOfVectors.init.
  induction Hos as [|o os Ho Hos IH]; intros s Hinv; cbn [memory_run stream_run].
  - by wp_simpl.
  - rewrite wp_bind. eapply wp_mono; [by apply memory_exec_spec| |done].
    intros r s' [Hinv' ->]. rewrite wp_bind. eapply wp_mono; [by apply IH| |done].
    intros rs s'' [-> Hc]. by wp_simpl.
Qed.

Lemma queue_refines_stream_witness :
  let os := [Write (str "abc"); Write (str "de"); Read 4; Write (str "f"); ReadAll] in
  Forall memory_op_ok os ∧
  wp_total (memory_run os) QueueOfVectors.init (λ rs s',
    stream_run os [] = (rs, QueueFacts.stored s') ∧
    _totalBytesStored s' = to_size_t (size (QueueFacts.stored s'))).
Proof.
  intros os. assert (Hos : Forall memory_op_ok os).
  { repeat apply Forall_cons_2; try apply Forall_nil_2; cbn; unfold SIZE_MAX; lia. }
  split; [exact Hos|]. exact (queue_refines_stream os Hos).
Defined.
