(* ===== verification/Util.v ===== *)
(** * Utilities: [src/src/util.cpp] and [src/src/mococrw/util.h]

    Hexadecimal conversion, random bytes, cleansing of vectors and the scope
    guard [Finally].  [fromHex] is built on the C library's [strtoul], which is
    modelled with its white space, sign and prefix rules, since the code
    relies on its verdict for each two-character chunk. *)

From S2P Require Import Prelude CheckCall.

(** ** The C library functions used *)

(** [isspace] in the "C" locale. *)
Definition isspace (b : Byte.byte) : bool :=
  let v := byte_val b in (v =? 32) || ((9 <=? v) && (v <=? 13)).

Definition hex_value (b : Byte.byte) : option Z :=
  let v := byte_val b in
  if (48 <=? v) && (v <=? 57) then Some (v - 48)
  else if (97 <=? v) && (v <=? 102) then Some (v - 87)
  else if (65 <=? v) && (v <=? 70) then Some (v - 55)
  else None.

(** [s.c_str()] as the C library sees it: up to the first NUL. *)
Fixpoint c_str (s : bytes) : bytes :=
  match s with
  | [] => []
  | b :: s' => if byte_val b =? 0 then [] else b :: c_str s'
  end.

Fixpoint skip_spaces (s : bytes) : bytes :=
  match s with
  | b :: s' => if isspace b then skip_spaces s' else s
  | [] => []
  end.

(** The digits of a base 16 number: its value and the text that follows. *)
Fixpoint hex_digits (acc : Z) (s : bytes) : Z * bytes :=
  match s with
  | b :: s' => match hex_value b with
               | Some d => hex_digits (acc * 16 + d) s'
               | None => (acc, s)
               end
  | [] => (acc, [])
  end.

Definition starts_with_hex_digit (s : bytes) : bool :=
  match s with
  | b :: _ => match hex_value b with Some _ => true | None => false end
  | [] => false
  end.

(** [strtoul(s, &endptr, 16)]: the value, the text at [endptr] and [errno]
    ([ERANGE] on overflow, unchanged otherwise, here 0).  A "0x" prefix counts
    only when a digit follows it; without a digit nothing is converted. *)
Definition ERANGE : Z := 34.
Definition ULONG_MAX : Z := 18446744073709551615.

Definition strtoul16 (s : bytes) : Z * bytes * Z :=
  let s1 := skip_spaces s in
  let '(neg, s2) := match s1 with
    | b :: r => if byte_val b =? 45 then (true, r)
                else if byte_val b =? 43 then (false, r) else (false, s1)
    | [] => (false, []) end in
  let s3 := match s2 with
    | z :: x :: r =>
        if (byte_val z =? 48) && ((byte_val x =? 120) || (byte_val x =? 88)) &&
           starts_with_hex_digit r
        then r else s2
    | _ => s2 end in
  if starts_with_hex_digit s3 then
    let '(v, rest) := hex_digits 0 s3 in
    if ULONG_MAX <? v then (ULONG_MAX, rest, ERANGE)
    else ((if neg then to_size_t (- v) else v), rest, 0)
  else (0, s, 0).

(** [needle] occurs in [s] at position 0. *)
Fixpoint is_prefix (needle s : bytes) : bool :=
  match needle, s with
  | [], _ => true
  | b :: n', c :: s' => bool_decide (b = c) && is_prefix n' s'
  | _ :: _, [] => false
  end.

(** [s.rfind(needle)]: the position of the last occurrence, if any. *)
Fixpoint rfind (needle s : bytes) : option Z :=
  match s with
  | [] => if is_prefix needle [] then Some 0 else None
  | _ :: s' =>
      match rfind needle s' with
      | Some p => Some (p + 1)
      | None => if is_prefix needle s then Some 0 else None
      end
  end.

(** ** Hexadecimal strings *)

Definition hex_digit (v : Z) : Byte.byte :=
  to_uint8 (if v <? 10 then v + 48 else v + 87).

(** Streaming one byte with [std::hex], [setfill('0')] and [setw(2)]. *)
Definition hex_of_byte (b : Byte.byte) : bytes :=
  [hex_digit (byte_val b / 16); hex_digit (byte_val b mod 16)].

Fixpoint toHex (data : bytes) : bytes :=
  match data with
  | [] => []
  | b :: data' => hex_of_byte b ++ toHex data'
  end.

Definition invalid_hex (hexData : bytes) : exn :=
  MoCOCrWException [Str "Invalid hex string: "; Raw hexData].

(** One iteration of the loop of [fromHex]: the chunk at position [i]. *)
Definition fromHex_chunk (hexData : bytes) (i : Z) : outcome Byte.byte :=
  let encodedByte := c_str (take 2 (drop (Z.to_nat i) hexData)) in
  let '(value, rest, errno) := strtoul16 encodedByte in
  let b := to_uint8 value in
  if negb (errno =? 0) && (byte_val b =? 0) then Throw (invalid_hex hexData)
  else
    let nonempty := match encodedByte with [] => false | _ => true end in
    let at_end := match rest with [] => true | _ => false end in
    if negb (nonempty && at_end) then Throw (invalid_hex hexData) else Val b.

Definition fromHex_body (hexData : bytes) (st : Z * bytes) :
    outcome (Z * bytes + bytes) :=
  let '(i, binary) := st in
  if i <? size hexData then
    let? b := fromHex_chunk hexData i in Val (inl (i + 2, binary ++ [b]))
  else Val (inr binary).

Definition fromHex (hexData : bytes) : outcome bytes :=
  let startPos := match rfind (str "0x") hexData with
                  | Some p => if p =? 0 then 2 else 0
                  | None => 0
                  end in
  oiter (S (length hexData)) (fromHex_body hexData) (startPos, []).

(** ** Random bytes *)

(** OpenSSL's random generator: the call returns the bytes it wrote. *)
Class RandAPI := {
  RAND_STATE : Type;
  SSL_RAND_bytes : Z → M RAND_STATE (Z * bytes);
}.

(** [RAND_bytes(buf, num)] writes [num] bytes ("puts num cryptographically
    strong pseudo-random bytes into buf"), none for a [num] of zero. *)
Class RandSpec `{RandAPI} : Prop := {
  RAND_bytes_spec num st :
    0 ≤ num →
    wp_total (SSL_RAND_bytes num) st (λ '(rv, out) _, rv = 1 → size out = num);
}.

Definition _RAND_bytes `{RandAPI} (buf : bytes) (num : Z) : M RAND_STATE bytes :=
  let! out := OpensslCallIsOne (SSL_RAND_bytes num) in
  lift (write_buffer buf out).

(** [buffer.size()] is converted to the [int] parameter of [_RAND_bytes]. *)
Definition cryptoRandomBytes `{RandAPI} (length : Z) : M RAND_STATE bytes :=
  let buffer := zeros length in
  _RAND_bytes buffer (to_int (size buffer)).

(** ** Cleansing and scope guards *)

(** [OPENSSL_cleanse] overwrites the elements with zeroes; an empty vector is
    left alone. *)
Definition vectorCleanse (vec : bytes) : bytes :=
  if 0 <? size vec then zeros (size vec) else vec.

(** [utility::Finally]: [func] runs when the scope is left, normally or by an
    exception. *)
Definition Finally {S A} (func : S → S) (scope : M S A) : M S A := λ s,
  let '(o, s') := scope s in (o, func s').

(** ** Facts *)

Lemma wp_Finally {S A} (func : S → S) (scope : M S A) s Φ Ψ :
  wp (Finally func scope) s Φ Ψ ↔
  wp scope s (λ a s', Φ a (func s')) (λ e s', Ψ e (func s')).
Proof. unfold wp, Finally. by destruct (scope s) as [[a|e] s']. Qed.

#[export] Hint Rewrite @wp_Finally : mococrw.

Lemma size_vectorCleanse v : size (vectorCleanse v) = size v.
Proof.
  unfold vectorCleanse. destruct (Z.ltb_spec 0 (size v)); [|done].
  apply size_zeros. lia.
Qed.

Lemma vectorCleanse_zero v b : b ∈ vectorCleanse v → b = Byte.x00.
Proof.
  unfold vectorCleanse. destruct (Z.ltb_spec 0 (size v)) as [|Hle].
  - unfold zeros. intros [? _]%elem_of_replicate. done.
  - rewrite (size_0 v) by (pose proof (size_nonneg v); lia).
    intros ?%elem_of_nil. done.
Qed.

Lemma rfind_None_notin x y s : y ∉ s → rfind [x; y] s = None.
Proof.
  induction s as [|b s IH]; [done|].
  intros [Hb Hs]%not_elem_of_cons. cbn. rewrite IH by done.
  case_bool_decide; [|done]. cbn. destruct s as [|c s]; [done|].
  apply not_elem_of_cons in Hs as [Hc _]. by rewrite bool_decide_eq_false_2.
Qed.

Lemma rfind_front x y s : y ∉ s → x ≠ y → rfind [x; y] (x :: y :: s) = Some 0.
Proof.
  intros Hs Hxy. cbn -[rfind]. change (rfind [x; y] (x :: y :: s))
    with (match rfind [x; y] (y :: s) with Some p => Some (p + 1)
          | None => if is_prefix [x; y] (x :: y :: s) then Some 0 else None end).
  replace (rfind [x; y] (y :: s)) with (@None Z).
  - cbn. by rewrite !bool_decide_eq_true_2.
  - cbn. rewrite rfind_None_notin by done. by rewrite bool_decide_eq_false_2.
Qed.

Lemma toHex_app d e : toHex (d ++ e) = toHex d ++ toHex e.
Proof. induction d as [|b d IH]; [done|]. cbn. by rewrite IH. Qed.

Lemma size_toHex d : size (toHex d) = 2 * size d.
Proof. induction d as [|b d IH]; [done|]. cbn. sizes. lia. Qed.

(** The letter x is not a hexadecimal digit. *)
Lemma toHex_no_x d : Byte.x78 ∉ toHex d.
Proof.
  induction d as [|b d IH]; [apply not_elem_of_nil|]. cbn.
  rewrite !not_elem_of_cons. split_and!; [| |done]; clear; by destruct b.
Qed.

(** The two digits of a byte are read back as that byte. *)
Lemma fromHex_chunk_hex pre b rest :
  fromHex_chunk (pre ++ hex_of_byte b ++ rest) (size pre) = Val b.
Proof.
  unfold fromHex_chunk, size. rewrite Nat2Z.id, drop_app_length.
  change (take 2 (hex_of_byte b ++ rest)) with (hex_of_byte b).
  generalize (invalid_hex (pre ++ hex_of_byte b ++ rest)).
  intros e. by destruct b.
Qed.

Lemma fromHex_loop pre d e fuel :
  (length e < fuel)%nat →
  oiter fuel (fromHex_body (pre ++ toHex (d ++ e))) (size pre + 2 * size d, d)
  = Val (d ++ e).
Proof.
  revert d fuel. induction e as [|b e IH]; intros d fuel Hfuel;
    (destruct fuel as [|fuel]; [cbn in Hfuel; lia|]); cbn [oiter fromHex_body].
  - rewrite app_nil_r, size_app, size_toHex.
    destruct (Z.ltb_spec (size pre + 2 * size d) (size pre + 2 * size d)); [lia|done].
  - rewrite size_app, size_toHex, size_app, size_cons. pose proof (size_nonneg e).
    destruct (Z.ltb_spec (size pre + 2 * size d) (size pre + 2 * (size d + (1 + size e))));
      [|lia].
    replace (pre ++ toHex (d ++ b :: e)) with ((pre ++ toHex d) ++ hex_of_byte b ++ toHex e)
      by (rewrite toHex_app; cbn; by rewrite <- app_assoc).
    replace (size pre + 2 * size d) with (size (pre ++ toHex d))
      by (rewrite size_app, size_toHex; lia).
    rewrite fromHex_chunk_hex. cbn [obind].
    specialize (IH (d ++ [b]) fuel). rewrite <- !app_assoc in IH. cbn in IH, Hfuel.
    rewrite toHex_app in IH. cbn in IH. rewrite <- app_assoc. cbn.
    replace (size (pre ++ toHex d) + 2) with (size pre + 2 * size (d ++ [b]))
      by (rewrite !size_app, size_toHex, size_cons, size_nil; lia).
    apply IH. lia.
Qed.

(** The loop either produces one byte per started pair of characters or stops
    at a chunk it rejects; it never runs out of fuel. *)
Lemma fromHex_loop_total hexData i binary fuel :
  0 ≤ i → (Z.to_nat (size hexData - i) < fuel)%nat →
  match oiter fuel (fromHex_body hexData) (i, binary) with
  | Val v => size v = size binary + Z.max 0 ((size hexData - i + 1) / 2)
  | Throw e => e = invalid_hex hexData
  end.
Proof.
  revert i binary. induction fuel as [|fuel IH]; intros i binary Hi Hfuel; [lia|].
  cbn [oiter fromHex_body]. destruct (Z.ltb_spec i (size hexData)) as [Hlt|Hge].
  - assert (Hc : match fromHex_chunk hexData i with
                 | Val _ => True | Throw e => e = invalid_hex hexData end).
    { unfold fromHex_chunk. destruct (strtoul16 _) as [[v r] er].
      by repeat case_match; simplify_eq. }
    destruct (fromHex_chunk hexData i) as [b|e]; [|done]. cbn [obind].
    specialize (IH (i + 2) (binary ++ [b])).
    destruct (oiter fuel _ _) as [v|e].
    + rewrite IH by lia. rewrite size_app, size_cons, size_nil.
      replace (size hexData - i + 1) with (size hexData - (i + 2) + 1 + 1 * 2) by lia.
      rewrite Z.div_add by lia.
      assert (0 ≤ (size hexData - (i + 2) + 1) / 2) by (apply Z.div_pos; lia). lia.
    + apply IH; lia.
  - cbn [obind]. assert ((size hexData - i + 1) / 2 < 1) by (apply Z.div_lt_upper_bound; lia).
    lia.
Qed.

(** ** Properties *)

(** C23. Hexadecimal round trip: decoding what [toHex] wrote gives the data
    back, with or without the optional "0x" prefix. *)
Theorem fromHex_toHex (d : bytes) :
  fromHex (toHex d) = Val d ∧ fromHex (str "0x" ++ toHex d) = Val d.
Proof.
  split; unfold fromHex.
  - change (str "0x") with [Byte.x30; Byte.x78].
    rewrite rfind_None_notin by apply toHex_no_x.
    pose proof (size_toHex d). unfold size in *.
    apply (fromHex_loop [] [] d). lia.
  - change (str "0x") with [Byte.x30; Byte.x78].
    change ([Byte.x30; Byte.x78] ++ toHex d) with (Byte.x30 :: Byte.x78 :: toHex d).
    rewrite rfind_front by (apply toHex_no_x || done). cbn [Z.eqb].
    pose proof (size_toHex d). unfold size in *.
    apply (fromHex_loop [Byte.x30; Byte.x78] [] d). cbn. lia.
Qed.

(** [fromHex] always returns: one byte for each started pair of characters
    after the prefix, or a MoCOCrWException that names the whole input. *)
Theorem fromHex_total (s : bytes) :
  match fromHex s with
  | Val v =>
      let prefix := if bool_decide (rfind (str "0x") s = Some 0) then 2 else 0 in
      size v = (size s - prefix + 1) / 2
  | Throw e => e = invalid_hex s
  end.
Proof.
  assert (Hprefix : rfind (str "0x") s = Some 0 → 2 ≤ size s).
  { destruct s as [|a [|b s]]; [done| |sizes; pose proof (size_nonneg s); lia].
    change (str "0x") with [Byte.x30; Byte.x78]. cbn. by rewrite andb_false_r. }
  pose proof (size_nonneg s). unfold fromHex.
  replace (match rfind (str "0x") s with Some p => if p =? 0 then 2 else 0 | None => 0 end)
    with (if bool_decide (rfind (str "0x") s = Some 0) then 2 else 0).
  - set (start := if bool_decide _ then 2 else 0).
    assert (Hstart : 0 ≤ start ≤ 2 ∧ (start ≤ size s)).
    { subst start. case_bool_decide; [specialize (Hprefix H0)|]; lia. }
    pose proof (fromHex_loop_total s start [] (S (length s))) as Hl.
    destruct (oiter _ _ _) as [v|e]; [|apply Hl; unfold size in *; lia].
    rewrite Hl by (unfold size in *; lia). rewrite size_nil.
    assert (0 ≤ (size s - start + 1) / 2) by (apply Z.div_pos; lia). cbv zeta. lia.
  - destruct (rfind (str "0x") s) as [q|]; [|by case_bool_decide].
    destruct (Z.eqb_spec q 0) as [->|]; case_bool_decide; by simplify_eq.
Qed.

(** Signs and blanks inside a chunk are accepted, although the header
    promises an exception for invalid characters: "-1" decodes to 0xff, "+f 1"
    to 0x0f 0x01. *)
Theorem fromHex_accepts_invalid :
  fromHex (str "-1") = Val [Byte.xff] ∧
  fromHex (str "+f 1") = Val [Byte.x0f; Byte.x01].
Proof. by vm_compute. Qed.

Section RandomBytes.
Context `{RandSpec}.

(** [cryptoRandomBytes] hands its [size_t] length to an [int] parameter:
    of 2^32 + k requested bytes only the first k are random, the other 2^32
    are the zeroes the vector was created with. *)
Theorem cryptoRandomBytes_truncates (k : Z) (st : RAND_STATE) (Hk : 0 ≤ k ≤ INT_MAX) :
  wp (cryptoRandomBytes (4294967296 + k)) st
    (λ buf _, ∃ random, size random = k ∧ buf = random ++ zeros 4294967296)
    (λ e _, e = OpenSSLException [ErrorQueue]).
Proof.
  unfold cryptoRandomBytes, _RAND_bytes.
  rewrite size_zeros by lia.
  rewrite to_int_wrap by done. unfold INT_MAX in *.
  wp_simpl. call_one RAND_bytes_spec; [lia|].
  wp_simpl.
  unfold write_buffer. rewrite size_zeros by lia.
  destruct (Z.leb_spec (size out) (4294967296 + k)); [|lia].
  exists out. split; [done|]. f_equal. unfold zeros. rewrite drop_replicate.
  f_equal. unfold size in Hok. lia.
Qed.

(** Within the range of [int] every byte comes from the generator. *)
Lemma cryptoRandomBytes_spec (n : Z) (st : RAND_STATE) :
  0 ≤ n ≤ INT_MAX →
  wp (cryptoRandomBytes n) st (λ buf _, size buf = n)
    (λ e _, e = OpenSSLException [ErrorQueue]).
Proof.
  intros Hn. unfold cryptoRandomBytes, _RAND_bytes.
  rewrite size_zeros, to_int_id by (unfold INT_MIN, INT_MAX in *; lia).
  wp_simpl. call_one RAND_bytes_spec; [lia|].
  wp_simpl.
  unfold write_buffer. rewrite size_zeros by lia.
  destruct (Z.leb_spec (size out) n); [|lia].
  unfold zeros. rewrite drop_replicate, size_app, size_replicate.
  unfold size in *. lia.
Qed.
End RandomBytes.

(** A concrete generator: a counter, each call filling with its low byte. *)
Module CounterRand.
#[export] Instance api : RandAPI := {
  RAND_STATE := Z;
  SSL_RAND_bytes num := λ st,
    (Val (1, replicate (Z.to_nat num) (to_uint8 st)), st + 1);
}.

#[export] Instance spec : RandSpec.
Proof.
  constructor. intros num st Hnum. unfold wp. cbn. intros _.
  rewrite size_replicate. lia.
Qed.
End CounterRand.

Lemma cryptoRandomBytes_truncates_witness :
  0 ≤ 16 ≤ INT_MAX ∧
  wp (@cryptoRandomBytes CounterRand.api (4294967296 + 16)) (7 : @RAND_STATE CounterRand.api)
    (λ buf _, ∃ random, size random = 16 ∧ buf = random ++ zeros 4294967296)
    (λ e _, e = OpenSSLException [ErrorQueue]).
Proof.
  assert (Hk : 0 ≤ 16 ≤ INT_MAX) by (unfold INT_MAX; lia).
  split; [exact Hk|].
  exact (@cryptoRandomBytes_truncates CounterRand.api CounterRand.spec 16 7 Hk).
Defined.
