(* ===== verification/SymmetricCrypto.v ===== *)
(** * AES ciphers: [src/src/symmetric_crypto.cpp] and
    [src/src/mococrw/symmetric_crypto.h]

    [EvpCipherAPI] lists the OpenSSL cipher functions the code calls and
    [EvpCipherSpec] their documented behaviour.  Module [Impl] models
    [AESCipher::Impl] over any output buffer that implements
    [CipherMemoryStrategyI], module [AESCipherBuilder] the builder. *)

From S2P Require Import Prelude CheckCall SymmetricMemory Util.

(** ** Enumerations *)

Inductive SymmetricCipherMode := GCM | CBC | CTR.
Inductive SymmetricCipherKeySize := S_128 | S_256.
Inductive SymmetricCipherPadding := NO | PKCS.
Inductive Operation := Encryption | Decryption.

#[export] Instance SymmetricCipherMode_eq_dec : EqDecision SymmetricCipherMode.
Proof. solve_decision. Defined.
#[export] Instance Operation_eq_dec : EqDecision Operation.
Proof. solve_decision. Defined.

Definition getSymmetricCipherKeySize (keySize : SymmetricCipherKeySize) : Z :=
  match keySize with S_128 => 128 / 8 | S_256 => 256 / 8 end.

Definition getDefaultIVLength (mode : SymmetricCipherMode) : Z :=
  match mode with GCM => 12 | CBC | CTR => 16 end.

Definition isAuthenticatedCipherMode (mode : SymmetricCipherMode) : bool :=
  match mode with GCM => true | CTR | CBC => false end.

(** ** The OpenSSL interface *)

(** The commands of [EVP_CIPHER_CTX_ctrl] that the code uses. *)
Inductive evp_ctrl := EVP_CTRL_GCM_SET_IVLEN | EVP_CTRL_GCM_GET_TAG | EVP_CTRL_GCM_SET_TAG.

Definition EVP_MAX_BLOCK_LENGTH : Z := 32.

(** A call is a computation over the context it is given.  [CipherUpdate] reads
    the first [inl] bytes of its input, and [CipherInit] as many bytes of the IV as
    [EVP_CIPHER_iv_length] says; with a null output pointer
    ([out = false]) the input is associated data.  The bytes written through an
    output pointer, cut to the reported length, are part of the result. *)
Class EvpCipherAPI := {
  EVP_CIPHER : Type;
  EVP_CIPHER_CTX : Type;
  EVP_aes_256_gcm : EVP_CIPHER;
  EVP_aes_128_gcm : EVP_CIPHER;
  EVP_aes_256_cbc : EVP_CIPHER;
  EVP_aes_128_cbc : EVP_CIPHER;
  EVP_aes_256_ctr : EVP_CIPHER;
  EVP_aes_128_ctr : EVP_CIPHER;
  EVP_CIPHER_iv_length : EVP_CIPHER → Z;
  SSL_EVP_CIPHER_CTX_new : option EVP_CIPHER_CTX;
  SSL_EVP_CIPHER_CTX_reset : M EVP_CIPHER_CTX (Z * ());
  SSL_EVP_CIPHER_CTX_ctrl (type : evp_ctrl) (arg : Z) (ptr : bytes) :
    M EVP_CIPHER_CTX (Z * bytes);
  SSL_EVP_CipherInit_ex (cipher : option EVP_CIPHER) (key iv : option bytes) (enc : Z) :
    M EVP_CIPHER_CTX (Z * ());
  SSL_EVP_CipherUpdate (out : bool) (input : bytes) (inl : Z) :
    M EVP_CIPHER_CTX (Z * bytes);
  SSL_EVP_CipherFinal_ex : M EVP_CIPHER_CTX (Z * bytes);
  SSL_EVP_CIPHER_CTX_key_length : EVP_CIPHER_CTX → Z;
  SSL_EVP_CIPHER_CTX_iv_length : EVP_CIPHER_CTX → Z;
  SSL_EVP_CIPHER_CTX_set_padding (pad : Z) : M EVP_CIPHER_CTX (Z * ());
}.

(** ** The wrappers of [openssl_wrap.cpp] *)

Section Wrappers.
Context `{EvpCipherAPI}.

Definition _EVP_CIPHER_CTX_new : outcome EVP_CIPHER_CTX :=
  match SSL_EVP_CIPHER_CTX_new with
  | Some ctx => Val ctx
  | None => Throw (OpenSSLException [ErrorQueue])
  end.

Definition _EVP_CIPHER_CTX_reset : M EVP_CIPHER_CTX () :=
  OpensslCallIsOne SSL_EVP_CIPHER_CTX_reset.

Definition _EVP_CIPHER_CTX_ctrl (type : evp_ctrl) (arg : Z) (ptr : bytes) :
    M EVP_CIPHER_CTX bytes :=
  OpensslCallIsOne (SSL_EVP_CIPHER_CTX_ctrl type arg ptr).

(** The IV is a pointer to its bytes: to choose a cipher with an IV that is shorter
    than the cipher's is to read past the end of a vector. *)
Definition _EVP_CipherInit_ex (cipher : option EVP_CIPHER) (key iv : option bytes)
    (enc : Z) : M EVP_CIPHER_CTX () :=
  match cipher, iv with
  | Some c, Some v => throw_if (size v <? EVP_CIPHER_iv_length c) UndefinedBehaviour
  | _, _ => ret ()
  end ;;
  OpensslCallIsOne (SSL_EVP_CipherInit_ex cipher key iv enc).

Definition _EVP_CipherUpdate (out : bool) (input : bytes) (inl : Z) :
    M EVP_CIPHER_CTX bytes :=
  OpensslCallIsOne (SSL_EVP_CipherUpdate out input inl).

Definition _EVP_CipherFinal_ex : M EVP_CIPHER_CTX bytes :=
  OpensslCallIsOne SSL_EVP_CipherFinal_ex.

Definition _EVP_CIPHER_CTX_key_length : M EVP_CIPHER_CTX Z :=
  let! res := gets SSL_EVP_CIPHER_CTX_key_length in
  throw_if (res <=? 0) (OpenSSLException
    [Str "SSL_EVP_CIPHER_CTX_key_length() failed. Operation is unsupported by a given cipher."]) ;;
  ret res.

Definition _EVP_CIPHER_CTX_iv_length : M EVP_CIPHER_CTX Z :=
  let! res := gets SSL_EVP_CIPHER_CTX_iv_length in
  throw_if (res =? 0) (OpenSSLException [Str "The cipher does not use an IV."]) ;;
  ret res.

Definition _EVP_CIPHER_CTX_set_padding (pad : Z) : M EVP_CIPHER_CTX () :=
  OpensslCallIsOne (SSL_EVP_CIPHER_CTX_set_padding pad).
End Wrappers.

(** ** [AESCipher::Impl] *)

Record AESCipherImpl {api : EvpCipherAPI} {St : Type} := mkImpl {
  _mode : SymmetricCipherMode;
  _iv : bytes;
  _authTag : bytes;
  (** not initialised by the constructor *)
  _requestedAuthTagLength : option Z;
  _operation : Operation;
  _ctx : EVP_CIPHER_CTX;
  _bufferStrategy : St;
  _isFinished : bool;
  _isUpdated : bool;
}.
Arguments AESCipherImpl {api} St.

Module Impl.
Section Impl.
Context {api : EvpCipherAPI} {St : Type} {strat : CipherMemoryStrategyI St}.
Abbreviation Impl := (AESCipherImpl St).

Definition set_ctx (c : EVP_CIPHER_CTX) (i : Impl) : Impl :=
  {| _mode := _mode i; _iv := _iv i; _authTag := _authTag i;
     _requestedAuthTagLength := _requestedAuthTagLength i; _operation := _operation i;
     _ctx := c; _bufferStrategy := _bufferStrategy i;
     _isFinished := _isFinished i; _isUpdated := _isUpdated i |}.
Definition set_buffer (b : St) (i : Impl) : Impl :=
  {| _mode := _mode i; _iv := _iv i; _authTag := _authTag i;
     _requestedAuthTagLength := _requestedAuthTagLength i; _operation := _operation i;
     _ctx := _ctx i; _bufferStrategy := b;
     _isFinished := _isFinished i; _isUpdated := _isUpdated i |}.
Definition set_isFinished (b : bool) (i : Impl) : Impl :=
  {| _mode := _mode i; _iv := _iv i; _authTag := _authTag i;
     _requestedAuthTagLength := _requestedAuthTagLength i; _operation := _operation i;
     _ctx := _ctx i; _bufferStrategy := _bufferStrategy i;
     _isFinished := b; _isUpdated := _isUpdated i |}.
Definition set_isUpdated (b : bool) (i : Impl) : Impl :=
  {| _mode := _mode i; _iv := _iv i; _authTag := _authTag i;
     _requestedAuthTagLength := _requestedAuthTagLength i; _operation := _operation i;
     _ctx := _ctx i; _bufferStrategy := _bufferStrategy i;
     _isFinished := _isFinished i; _isUpdated := b |}.
Definition set_authTag (t : bytes) (i : Impl) : Impl :=
  {| _mode := _mode i; _iv := _iv i; _authTag := t;
     _requestedAuthTagLength := _requestedAuthTagLength i; _operation := _operation i;
     _ctx := _ctx i; _bufferStrategy := _bufferStrategy i;
     _isFinished := _isFinished i; _isUpdated := _isUpdated i |}.
Definition set_requestedAuthTagLength (n : Z) (i : Impl) : Impl :=
  {| _mode := _mode i; _iv := _iv i; _authTag := _authTag i;
     _requestedAuthTagLength := Some n; _operation := _operation i;
     _ctx := _ctx i; _bufferStrategy := _bufferStrategy i;
     _isFinished := _isFinished i; _isUpdated := _isUpdated i |}.

Definition on_ctx {A} (m : M EVP_CIPHER_CTX A) : M Impl A := zoom _ctx set_ctx m.
Definition on_buffer {A} (m : M St A) : M Impl A := zoom _bufferStrategy set_buffer m.

Definition getEVPCipherConstructorForModeAndSize (mode : SymmetricCipherMode)
    (keySize : SymmetricCipherKeySize) : EVP_CIPHER :=
  match mode with
  | GCM => match keySize with S_256 => EVP_aes_256_gcm | S_128 => EVP_aes_128_gcm end
  | CBC => match keySize with S_256 => EVP_aes_256_cbc | S_128 => EVP_aes_128_cbc end
  | CTR => match keySize with S_256 => EVP_aes_256_ctr | S_128 => EVP_aes_128_ctr end
  end.

Definition enc_flag (op : Operation) : Z :=
  match op with Encryption => 1 | Decryption => 0 end.

Definition wrong_size (what : string) (got expected : Z) : exn :=
  MoCOCrWException [Str "Invalid size of "; Str what; Str " "; Num got;
                    Str " bytes. Must be "; Num expected; Str " bytes."].

(** The first half of the constructor: the cipher is selected and the sizes
    of key and IV are checked (or, for GCM, the IV length is set). *)
Definition check_parameters (mode : SymmetricCipherMode)
    (keySize : SymmetricCipherKeySize) (secretKey iv : bytes) (operation : Operation) :
    M EVP_CIPHER_CTX () :=
  let evpCipher := getEVPCipherConstructorForModeAndSize mode keySize in
  _EVP_CipherInit_ex (Some evpCipher) None None (enc_flag operation) ;;
  let! len := _EVP_CIPHER_CTX_key_length in
  let expectedKeySize := to_size_t len in
  throw_if (negb (size secretKey =? expectedKeySize))
           (wrong_size "Key" (size secretKey) expectedKeySize) ;;
  match mode with
  | GCM =>
      throw_if (size iv =? 0) (MoCOCrWException
        [Str "IV is empty, but AES-GCM does not support empty IVs."]) ;;
      _EVP_CIPHER_CTX_ctrl EVP_CTRL_GCM_SET_IVLEN (to_int (size iv)) [] ;; ret ()
  | CTR | CBC =>
      let! len := _EVP_CIPHER_CTX_iv_length in
      let expectedIVSize := to_size_t len in
      throw_if (negb (size iv =? expectedIVSize))
               (wrong_size "IV" (size iv) expectedIVSize)
  end.

(** The second half: the context is reset and started with key and IV. *)
Definition start (mode : SymmetricCipherMode) (keySize : SymmetricCipherKeySize)
    (padding : SymmetricCipherPadding) (secretKey iv : bytes) (operation : Operation) :
    M EVP_CIPHER_CTX () :=
  let evpCipher := getEVPCipherConstructorForModeAndSize mode keySize in
  _EVP_CIPHER_CTX_reset ;;
  _EVP_CipherInit_ex (Some evpCipher) (Some secretKey) (Some iv) (enc_flag operation) ;;
  match padding with
  | PKCS => ret ()
  | NO => _EVP_CIPHER_CTX_set_padding 0
  end.

Definition configure (mode : SymmetricCipherMode) (keySize : SymmetricCipherKeySize)
    (padding : SymmetricCipherPadding) (secretKey iv : bytes) (operation : Operation) :
    M EVP_CIPHER_CTX () :=
  check_parameters mode keySize secretKey iv operation ;;
  start mode keySize padding secretKey iv operation.

Definition new (mode : SymmetricCipherMode) (keySize : SymmetricCipherKeySize)
    (padding : SymmetricCipherPadding) (secretKey iv : bytes) (operation : Operation) :
    outcome Impl :=
  let? ctx := _EVP_CIPHER_CTX_new in
  match configure mode keySize padding secretKey iv operation ctx with
  | (Val _, ctx') =>
      Val {| _mode := mode; _iv := iv; _authTag := [];
             _requestedAuthTagLength := None; _operation := operation; _ctx := ctx';
             _bufferStrategy := strategy_init; _isFinished := false; _isUpdated := false |}
  | (Throw e, _) => Throw e
  end.

Definition update (message : bytes) : M Impl () :=
  let! finished := gets _isFinished in
  throw_if finished (MoCOCrWException
    [Str "Further calls to update() are not allowed once finish() was called."]) ;;
  throw_if (to_size_t (INT_MAX - EVP_MAX_BLOCK_LENGTH) <? size message)
           (MoCOCrWException [Str "Message is too big."]) ;;
  let processingChunkSize := to_int (size message) in
  if processingChunkSize <=? 0 then ret ()
  else
    let processedChunk := zeros (processingChunkSize + EVP_MAX_BLOCK_LENGTH) in
    let! out := on_ctx (_EVP_CipherUpdate true message (to_int (size message))) in
    let! processedChunk := lift (write_buffer processedChunk out) in
    let processingChunkSize := size out in
    (if 0 <? processingChunkSize then
       on_buffer (strategy_write (resize processingChunkSize processedChunk))
     else ret ()) ;;
    modify (set_isUpdated true).

Definition addAssociatedData (associatedData : bytes) : M Impl () :=
  let! updated := gets _isUpdated in
  throw_if updated (MoCOCrWException [Str
    "Further calls to addAssociatedData() are not allowed once update() was called."]) ;;
  let! finished := gets _isFinished in
  throw_if finished (MoCOCrWException [Str
    "Further calls to addAssociatedData() are not allowed once finish() was called."]) ;;
  on_ctx (_EVP_CipherUpdate false associatedData (to_int (size associatedData))) ;;
  ret ().

Definition read (length : Z) : M Impl bytes := on_buffer (strategy_read length).

Definition readAll : M Impl bytes := on_buffer strategy_readAll.

(** The exception that replaces an OpenSSL error of an authenticated
    decryption. *)
Definition authentication_failed : exn :=
  MoCOCrWException [Str "Unable to decrypt authenticated ciphertext. Either ciphertext was modified or wrong combination of key, iv and authTag was used."].

Definition finish_handler (e : exn) : M Impl bytes :=
  match e with
  | OpenSSLException _ =>
      let! i := get in
      if isAuthenticatedCipherMode (_mode i) && bool_decide (_operation i = Decryption)
      then throw authentication_failed else throw e
  | _ => throw e
  end.

(** The tag of an authenticated decryption is handed over. *)
Definition finish_setTag : M Impl () :=
  let! i := get in
  if isAuthenticatedCipherMode (_mode i) && bool_decide (_operation i = Decryption) then
    throw_if (size (_authTag i) =? 0) (MoCOCrWException [Str
      "Authentication Tag must be set before calling finish() for cipher which implements authenticated encryption."]) ;;
    on_ctx (_EVP_CIPHER_CTX_ctrl EVP_CTRL_GCM_SET_TAG
              (to_int (size (_authTag i))) (_authTag i)) ;;
    ret ()
  else ret ().

(** The tag of an authenticated encryption is fetched; its length was left
    uninitialised if nobody set it. *)
Definition finish_getTag : M Impl () :=
  let! i := get in
  if bool_decide (_mode i = GCM) && bool_decide (_operation i = Encryption) then
    match _requestedAuthTagLength i with
    | None => throw UndefinedBehaviour
    | Some len =>
        modify (set_authTag (resize len (_authTag i))) ;;
        let! tag := on_ctx (_EVP_CIPHER_CTX_ctrl EVP_CTRL_GCM_GET_TAG (to_int len)
                              (resize len (_authTag i))) in
        let! buf := lift (write_buffer (resize len (_authTag i)) tag) in
        modify (set_authTag buf)
    end
  else ret ().

Definition finish : M Impl bytes :=
  let! finished := gets _isFinished in
  throw_if finished (MoCOCrWException [Str "finish() can't be called twice."]) ;;
  let processedChunk := zeros EVP_MAX_BLOCK_LENGTH in
  finish_setTag ;;
  let! out := try_catch (on_ctx _EVP_CipherFinal_ex) finish_handler in
  let! processedChunk := lift (write_buffer processedChunk out) in
  let processingChunkSize := size out in
  finish_getTag ;;
  on_buffer (strategy_write (resize processingChunkSize processedChunk)) ;;
  modify (set_isFinished true) ;;
  on_buffer strategy_readAll.

Definition getIV : M Impl bytes := gets _iv.
Definition setAuthTagLength (length : Z) : M Impl () :=
  modify (set_requestedAuthTagLength length).
Definition getAuthTag : M Impl bytes := gets _authTag.
Definition setAuthTag (authTag : bytes) : M Impl () := modify (set_authTag authTag).
End Impl.
End Impl.

(** ** The builder and the public classes *)

(** The mode agnostic interface of a cipher. *)
Class SymmetricCipherI (C : Type) := {
  cipher_update : bytes → M C ();
  cipher_read : Z → M C bytes;
  cipher_readAll : M C bytes;
  cipher_finish : M C bytes;
  cipher_getIV : M C bytes;
}.

(** What a client of the interface may rely on when it only reads the result of
    [finish]: the cipher computes one function of all it was fed.  Its calls succeed for
    the inputs that the last argument of [cipher_open] describes, given in pieces
    that are not too big. *)
Class SymmetricCipherSpec (C : Type) `{SymmetricCipherI C} := {
  cipher_open : C → (bytes → bytes) → bytes → (bytes → Prop) → Prop;
  cipher_update_spec c f d V x :
    cipher_open c f d V →
    wp (cipher_update x) c (λ _ c', cipher_open c' f (d ++ x) V)
      (λ _ _, INT_MAX - EVP_MAX_BLOCK_LENGTH < size x ∨ ∀ y, ¬ V (d ++ x ++ y));
  cipher_finish_spec c f d V :
    cipher_open c f d V →
    wp cipher_finish c (λ r _, r = f d) (λ _ _, ¬ V d);
}.

(** What a cipher with authentication offers besides. *)
Class AuthenticatedEncryptionI (C : Type) := {
  cipher_setAuthTag : bytes → M C ();
  cipher_getAuthTag : M C bytes;
  cipher_addAssociatedData : bytes → M C ();
}.

(** [AESCipher] and [AuthenticatedAESCipher] own an [Impl] and forward to it;
    the default output buffer is the queue of vectors. *)
Abbreviation AESCipher := (AESCipherImpl QueueOfVectorsMemoryStrategy).

#[export] Instance AESCipher_cipher `{EvpCipherAPI} : SymmetricCipherI AESCipher := {
  cipher_update := Impl.update;
  cipher_read := Impl.read;
  cipher_readAll := Impl.readAll;
  cipher_finish := Impl.finish;
  cipher_getIV := Impl.getIV;
}.

#[export] Instance AuthenticatedAESCipher_cipher `{EvpCipherAPI} :
    AuthenticatedEncryptionI AESCipher := {
  cipher_setAuthTag := Impl.setAuthTag;
  cipher_getAuthTag := Impl.getAuthTag;
  cipher_addAssociatedData := Impl.addAssociatedData;
}.

Definition AESCipher_new `{EvpCipherAPI} (mode : SymmetricCipherMode)
    (keySize : SymmetricCipherKeySize) (padding : SymmetricCipherPadding)
    (secretKey iv : bytes) (operation : Operation) : outcome AESCipher :=
  Impl.new mode keySize padding secretKey iv operation.

Definition AuthenticatedAESCipher_new `{EvpCipherAPI} (mode : SymmetricCipherMode)
    (keySize : SymmetricCipherKeySize) (padding : SymmetricCipherPadding)
    (secretKey iv : bytes) (authTagLength : Z) (operation : Operation) :
    outcome AESCipher :=
  let? cipher := AESCipher_new mode keySize padding secretKey iv operation in
  Val (Impl.set_requestedAuthTagLength authTagLength cipher).

Definition DefaultAuthTagLength : Z := 16.

Record AESCipherBuilder := mkBuilder {
  b_iv : bytes;
  b_mode : SymmetricCipherMode;
  b_keySize : SymmetricCipherKeySize;
  b_padding : SymmetricCipherPadding;
  b_secretKey : bytes;
  b_authTagLength : Z;
}.

Module Builder.
Definition new (mode : SymmetricCipherMode) (keySize : SymmetricCipherKeySize)
    (secretKey : bytes) : AESCipherBuilder :=
  {| b_iv := []; b_mode := mode; b_keySize := keySize; b_padding := PKCS;
     b_secretKey := secretKey; b_authTagLength := DefaultAuthTagLength |}.

Definition setIV (iv : bytes) (b : AESCipherBuilder) : AESCipherBuilder :=
  {| b_iv := iv; b_mode := b_mode b; b_keySize := b_keySize b;
     b_padding := b_padding b; b_secretKey := b_secretKey b;
     b_authTagLength := b_authTagLength b |}.

Definition setPadding (padding : SymmetricCipherPadding) (b : AESCipherBuilder) :
    AESCipherBuilder :=
  {| b_iv := b_iv b; b_mode := b_mode b; b_keySize := b_keySize b;
     b_padding := padding; b_secretKey := b_secretKey b;
     b_authTagLength := b_authTagLength b |}.

Definition setAuthTagLength (length : Z) (b : AESCipherBuilder) : AESCipherBuilder :=
  {| b_iv := b_iv b; b_mode := b_mode b; b_keySize := b_keySize b;
     b_padding := b_padding b; b_secretKey := b_secretKey b;
     b_authTagLength := length |}.

(** The destructor cleanses the key. *)
Definition destroy (b : AESCipherBuilder) : AESCipherBuilder :=
  {| b_iv := b_iv b; b_mode := b_mode b; b_keySize := b_keySize b;
     b_padding := b_padding b; b_secretKey := vectorCleanse (b_secretKey b);
     b_authTagLength := b_authTagLength b |}.

Section Build.
Context {api : EvpCipherAPI} {rand : RandAPI}.

Definition build_error (s : string) : exn := MoCOCrWException [Str s].

(** The IV of an encryptor: the one that was set, or a fresh random one of
    the mode's default length. *)
Definition chooseIV (b : AESCipherBuilder) : M RAND_STATE bytes :=
  if size (b_iv b) =? 0 then cryptoRandomBytes (getDefaultIVLength (b_mode b))
  else ret (b_iv b).

Definition buildEncryptor (b : AESCipherBuilder) : M RAND_STATE AESCipher :=
  throw_if (isAuthenticatedCipherMode (b_mode b)) (build_error
    "Specified cipher supports authenticated encryption. buildAuthenticatedEncryptor() should be used instead.") ;;
  let! iv := chooseIV b in
  lift (AESCipher_new (b_mode b) (b_keySize b) (b_padding b) (b_secretKey b) iv
          Encryption).

Definition buildDecryptor (b : AESCipherBuilder) : outcome AESCipher :=
  if isAuthenticatedCipherMode (b_mode b) then Throw (build_error
    "Specified cipher supports authenticated encryption. buildAuthenticatedDecryptor() should be used instead.")
  else AESCipher_new (b_mode b) (b_keySize b) (b_padding b) (b_secretKey b) (b_iv b)
         Decryption.

Definition buildAuthenticatedEncryptor (b : AESCipherBuilder) : M RAND_STATE AESCipher :=
  throw_if (negb (isAuthenticatedCipherMode (b_mode b))) (build_error
    "Specified cipher does not support authenticated encryption. buildEncryptor() should be used instead.") ;;
  let! iv := chooseIV b in
  lift (AuthenticatedAESCipher_new (b_mode b) (b_keySize b) (b_padding b)
          (b_secretKey b) iv (b_authTagLength b) Encryption).

Definition buildAuthenticatedDecryptor (b : AESCipherBuilder) : outcome AESCipher :=
  if negb (isAuthenticatedCipherMode (b_mode b)) then Throw (build_error
    "Specified cipher does not support authenticated encryption. buildDecryptor() should be used instead.")
  else if negb (b_authTagLength b =? DefaultAuthTagLength) then Throw (build_error
    "It does not make sense to set length of the authentication tag for a decryptor. This setting will be ignored and will confuse reader of your code.")
  else AuthenticatedAESCipher_new (b_mode b) (b_keySize b) (b_padding b)
         (b_secretKey b) (b_iv b) (b_authTagLength b) Decryption.
End Build.
End Builder.

(** ** The documented behaviour of the OpenSSL functions *)

(** What a context was initialised with. *)
Record session {api : EvpCipherAPI} := mkSession {
  s_cipher : EVP_CIPHER;
  s_key : bytes;
  s_iv : bytes;
  s_enc : Z;
  s_padding : bool;
}.
Arguments session : clear implicits.
Arguments session {api}.

(** What has gone through a context since: the associated data, the input, the
    output so far and the tag to be verified. *)
Record progress := mkProgress {
  p_aad : bytes;
  p_in : bytes;
  p_out : bytes;
  p_tag : bytes;
}.

Definition no_progress : progress := {| p_aad := []; p_in := []; p_out := []; p_tag := [] |}.

Class EvpCipherSpec (api : EvpCipherAPI) := {
  (** key length of a cipher, in bytes *)
  key_length : EVP_CIPHER → Z;
  is_gcm : EVP_CIPHER → bool;
  (** 16 for CBC; 1 for the stream modes *)
  block_size : EVP_CIPHER → Z;
  (** the complete result of a cipher, and its authentication tag *)
  evp_crypt : session → bytes → bytes → bytes;
  evp_tag : session → bytes → bytes → bytes;
  (** a context that holds nothing; one that runs a session; one whose session
      is finished *)
  fresh : EVP_CIPHER_CTX;
  started : EVP_CIPHER_CTX → session → progress → Prop;
  finalised : EVP_CIPHER_CTX → session → progress → Prop;

  aes_params :
    key_length EVP_aes_256_gcm = 32 ∧ key_length EVP_aes_128_gcm = 16 ∧
    key_length EVP_aes_256_cbc = 32 ∧ key_length EVP_aes_128_cbc = 16 ∧
    key_length EVP_aes_256_ctr = 32 ∧ key_length EVP_aes_128_ctr = 16 ∧
    EVP_CIPHER_iv_length EVP_aes_256_gcm = 12 ∧ EVP_CIPHER_iv_length EVP_aes_128_gcm = 12 ∧
    EVP_CIPHER_iv_length EVP_aes_256_cbc = 16 ∧ EVP_CIPHER_iv_length EVP_aes_128_cbc = 16 ∧
    EVP_CIPHER_iv_length EVP_aes_256_ctr = 16 ∧ EVP_CIPHER_iv_length EVP_aes_128_ctr = 16 ∧
    is_gcm EVP_aes_256_gcm = true ∧ is_gcm EVP_aes_128_gcm = true ∧
    is_gcm EVP_aes_256_cbc = false ∧ is_gcm EVP_aes_128_cbc = false ∧
    is_gcm EVP_aes_256_ctr = false ∧ is_gcm EVP_aes_128_ctr = false;
  (** "EVP_CIPHER_CTX_new() creates a cipher context." *)
  CTX_new_spec ctx : SSL_EVP_CIPHER_CTX_new = Some ctx → ctx = fresh;
  (** "EVP_CIPHER_CTX_reset() clears all information from a cipher context and
      frees up any allocated memory associated with it, except the ctx itself." *)
  CTX_reset_spec ctx :
    wp_total SSL_EVP_CIPHER_CTX_reset ctx (λ '(rv, _) ctx', rv = 1 → ctx' = fresh);
  (** setting only the cipher makes its lengths available *)
  CipherInit_cipher_spec c enc :
    wp_total (SSL_EVP_CipherInit_ex (Some c) None None enc) fresh (λ '(rv, _) ctx',
      rv = 1 → SSL_EVP_CIPHER_CTX_key_length ctx' = key_length c ∧
               SSL_EVP_CIPHER_CTX_iv_length ctx' = EVP_CIPHER_iv_length c);
  (** key and IV are pointers: the cipher reads as many bytes as its lengths say *)
  CipherInit_spec c key iv enc :
    key_length c ≤ size key → EVP_CIPHER_iv_length c ≤ size iv →
    wp_total (SSL_EVP_CipherInit_ex (Some c) (Some key) (Some iv) enc) fresh
      (λ '(rv, _) ctx', rv = 1 →
        started ctx' {| s_cipher := c; s_key := take (Z.to_nat (key_length c)) key;
                        s_iv := take (Z.to_nat (EVP_CIPHER_iv_length c)) iv; s_enc := enc;
                        s_padding := true |} no_progress);
  ctrl_total ctx type arg ptr :
    wp_total (SSL_EVP_CIPHER_CTX_ctrl type arg ptr) ctx (λ _ _, True);
  set_padding_spec ctx s pad :
    started ctx s no_progress →
    wp_total (SSL_EVP_CIPHER_CTX_set_padding pad) ctx (λ '(rv, _) ctx', rv = 1 →
      started ctx' {| s_cipher := s_cipher s; s_key := s_key s; s_iv := s_iv s;
                      s_enc := s_enc s; s_padding := negb (pad =? 0) |} no_progress);
  CipherUpdate_spec ctx s p input inl :
    started ctx s p → 0 ≤ inl ≤ size input →
    wp_total (SSL_EVP_CipherUpdate true input inl) ctx (λ '(rv, out) ctx', rv = 1 →
      size out ≤ inl + EVP_MAX_BLOCK_LENGTH ∧
      started ctx' s {| p_aad := p_aad p; p_in := p_in p ++ take (Z.to_nat inl) input;
                        p_out := p_out p ++ out; p_tag := p_tag p |});
  CipherUpdate_aad_spec ctx s p input inl :
    started ctx s p → is_gcm (s_cipher s) = true → p_in p = [] → 0 ≤ inl ≤ size input →
    wp_total (SSL_EVP_CipherUpdate false input inl) ctx (λ '(rv, _) ctx', rv = 1 →
      started ctx' s {| p_aad := p_aad p ++ take (Z.to_nat inl) input; p_in := p_in p;
                        p_out := p_out p; p_tag := p_tag p |});
  set_tag_spec ctx s p arg ptr :
    started ctx s p → arg ≤ size ptr →
    wp_total (SSL_EVP_CIPHER_CTX_ctrl EVP_CTRL_GCM_SET_TAG arg ptr) ctx
      (λ '(rv, _) ctx', rv = 1 →
        1 ≤ arg ≤ 16 ∧
        started ctx' s {| p_aad := p_aad p; p_in := p_in p; p_out := p_out p;
                          p_tag := take (Z.to_nat arg) ptr |});
  (** finalisation completes the result; without padding it "will return an
      error if any data remains in a partial block"; an authenticated decryption
      succeeds only if the tag that was set is the tag of what was decrypted *)
  CipherFinal_spec ctx s p :
    started ctx s p →
    wp_total SSL_EVP_CipherFinal_ex ctx (λ '(rv, out) ctx', rv = 1 →
      size out ≤ EVP_MAX_BLOCK_LENGTH ∧
      evp_crypt s (p_aad p) (p_in p) = p_out p ++ out ∧
      (s_padding s = true ∨ size (p_in p) mod block_size (s_cipher s) = 0) ∧
      (is_gcm (s_cipher s) = true → s_enc s = 0 →
        p_tag p = take (length (p_tag p)) (evp_tag s (p_aad p) (p_in p))) ∧
      finalised ctx' s p);
  get_tag_spec ctx s p arg ptr :
    finalised ctx s p → arg ≤ size ptr →
    wp_total (SSL_EVP_CIPHER_CTX_ctrl EVP_CTRL_GCM_GET_TAG arg ptr) ctx
      (λ '(rv, tag) _, rv = 1 →
        1 ≤ arg ≤ 16 ∧ tag = take (Z.to_nat arg) (evp_tag s (p_aad p) (p_in p)));
  evp_tag_size s aad data : size (evp_tag s aad data) = 16;
  (** a cipher decrypts what it encrypted *)
  evp_crypt_inverse c key iv pad aad data :
    pad = true ∨ size data mod block_size c = 0 →
    evp_crypt {| s_cipher := c; s_key := key; s_iv := iv; s_enc := 0; s_padding := pad |} aad
      (evp_crypt {| s_cipher := c; s_key := key; s_iv := iv; s_enc := 1; s_padding := pad |}
        aad data) = data;
  (** the tag belongs to the ciphertext, whichever side computes it *)
  evp_tag_inverse c key iv pad aad data :
    let at_ enc := {| s_cipher := c; s_key := key; s_iv := iv; s_enc := enc; s_padding := pad |} in
    is_gcm c = true →
    evp_tag (at_ 0) aad (evp_crypt (at_ 1) aad data) = evp_tag (at_ 1) aad data;
}.

(** OpenSSL carries the calls out: it does not run out of memory, and no call fails
    whose arguments and context are what its documentation asks for. *)
Record EvpCipherWorks {api : EvpCipherAPI} (spec : EvpCipherSpec api) : Prop := {
  CTX_new_works : SSL_EVP_CIPHER_CTX_new ≠ None;
  CTX_reset_works ctx : succeeds SSL_EVP_CIPHER_CTX_reset ctx;
  CipherInit_cipher_works c enc : succeeds (SSL_EVP_CipherInit_ex (Some c) None None enc) fresh;
  set_ivlen_works c enc n ptr :
    is_gcm c = true → 1 ≤ n ≤ INT_MAX →
    wp_total (SSL_EVP_CipherInit_ex (Some c) None None enc) fresh
      (λ r ctx, r.1 = 1 → succeeds (SSL_EVP_CIPHER_CTX_ctrl EVP_CTRL_GCM_SET_IVLEN n ptr) ctx);
  CipherInit_works c key iv enc :
    key_length c ≤ size key → EVP_CIPHER_iv_length c ≤ size iv →
    succeeds (SSL_EVP_CipherInit_ex (Some c) (Some key) (Some iv) enc) fresh;
  set_padding_works ctx s pad :
    started ctx s no_progress → succeeds (SSL_EVP_CIPHER_CTX_set_padding pad) ctx;
  CipherUpdate_works ctx s p input inl :
    started ctx s p → 0 ≤ inl ≤ size input → inl ≤ INT_MAX - EVP_MAX_BLOCK_LENGTH →
    succeeds (SSL_EVP_CipherUpdate true input inl) ctx;
  CipherUpdate_aad_works ctx s p input inl :
    started ctx s p → is_gcm (s_cipher s) = true → p_in p = [] →
    0 ≤ inl ≤ size input → inl ≤ INT_MAX →
    succeeds (SSL_EVP_CipherUpdate false input inl) ctx;
  set_tag_works ctx s p arg ptr :
    started ctx s p → is_gcm (s_cipher s) = true → s_enc s = 0 → 1 ≤ arg ≤ 16 → arg ≤ size ptr →
    succeeds (SSL_EVP_CIPHER_CTX_ctrl EVP_CTRL_GCM_SET_TAG arg ptr) ctx;
  (** an encryption is finalised once the data fits the padding; a decryption if
      its input is what such an encryption gave and, where there is a tag to be
      verified, this is the right one *)
  CipherFinal_works ctx s p :
    started ctx s p →
    (s_enc s = 1 → s_padding s = true ∨ size (p_in p) mod block_size (s_cipher s) = 0) →
    (s_enc s = 0 → ∃ data,
      (s_padding s = true ∨ size data mod block_size (s_cipher s) = 0) ∧
      p_in p = evp_crypt {| s_cipher := s_cipher s; s_key := s_key s; s_iv := s_iv s;
                            s_enc := 1; s_padding := s_padding s |} (p_aad p) data) →
    (is_gcm (s_cipher s) = true → s_enc s = 0 →
      p_tag p ≠ [] ∧ p_tag p = take (length (p_tag p)) (evp_tag s (p_aad p) (p_in p))) →
    succeeds SSL_EVP_CipherFinal_ex ctx;
  get_tag_works ctx s p arg ptr :
    finalised ctx s p → is_gcm (s_cipher s) = true → s_enc s = 1 → 1 ≤ arg ≤ 16 →
    arg ≤ size ptr →
    succeeds (SSL_EVP_CIPHER_CTX_ctrl EVP_CTRL_GCM_GET_TAG arg ptr) ctx;
}.
