(* ===== verification/XorCipher.v ===== *)
(** * A concrete cipher

    Every byte is combined with the first byte of the key; the tag is a
    checksum of key and associated data.  It keeps what it is given, as
    [EvpCipherSpec] describes it: the specification can be satisfied, and the
    witnesses have something to run. *)

From S2P Require Import Prelude CheckCall SymmetricCrypto.

Module XorCipher.
Record ctx := mkCtx {
  x_cipher : option (SymmetricCipherMode * SymmetricCipherKeySize);
  x_key : bytes; x_iv : bytes; x_enc : Z; x_pad : bool;
  x_aad : bytes; x_in : bytes; x_out : bytes; x_tag : bytes; x_final : bool;
}.

Definition empty : ctx := mkCtx None [] [] 0 true [] [] [] [] false.

Definition crypt (key data : bytes) : bytes :=
  (λ b, to_uint8 (Z.lxor (byte_val b) (byte_val (default Byte.x00 (head key))))) <$> data.
Definition tag (key aad : bytes) : bytes :=
  replicate 16 (to_uint8 (foldr Z.add 0 (byte_val <$> key ++ aad))).

Definition klen (c : SymmetricCipherMode * SymmetricCipherKeySize) : Z :=
  getSymmetricCipherKeySize c.2.
Definition ilen (c : SymmetricCipherMode * SymmetricCipherKeySize) : Z :=
  getDefaultIVLength c.1.
Definition gcm (c : SymmetricCipherMode * SymmetricCipherKeySize) : bool :=
  isAuthenticatedCipherMode c.1.

Definition ctrl (type : evp_ctrl) (arg : Z) (ptr : bytes) : M ctx (Z * bytes) := λ x,
  match type with
  | EVP_CTRL_GCM_SET_IVLEN => (Val (1, []), x)
  | EVP_CTRL_GCM_SET_TAG =>
      if (1 <=? arg) && (arg <=? 16) then
        (Val (1, []), mkCtx (x_cipher x) (x_key x) (x_iv x) (x_enc x) (x_pad x)
           (x_aad x) (x_in x) (x_out x) (take (Z.to_nat arg) ptr) (x_final x))
      else (Val (0, []), x)
  | EVP_CTRL_GCM_GET_TAG =>
      if (1 <=? arg) && (arg <=? 16) then
        (Val (1, take (Z.to_nat arg) (tag (x_key x) (x_aad x))), x)
      else (Val (0, []), x)
  end.

Definition init (c : option (SymmetricCipherMode * SymmetricCipherKeySize))
    (key iv : option bytes) (enc : Z) : M ctx (Z * ()) := λ x,
  let cut n (o : option bytes) := take (Z.to_nat n) (default [] o) in
  (Val (1, ()), mkCtx c (cut (default 0 (klen <$> c)) key) (cut (default 0 (ilen <$> c)) iv)
     enc true [] [] [] [] false).

Definition update (out : bool) (input : bytes) (inl : Z) : M ctx (Z * bytes) := λ x,
  let d := take (Z.to_nat inl) input in
  if out then
    let r := crypt (x_key x) d in
    (Val (1, r), mkCtx (x_cipher x) (x_key x) (x_iv x) (x_enc x) (x_pad x)
       (x_aad x) (x_in x ++ d) (x_out x ++ r) (x_tag x) (x_final x))
  else (Val (1, []), mkCtx (x_cipher x) (x_key x) (x_iv x) (x_enc x) (x_pad x)
       (x_aad x ++ d) (x_in x) (x_out x) (x_tag x) (x_final x)).

Definition verified (x : ctx) : bool :=
  negb (default false (gcm <$> x_cipher x)) || negb (x_enc x =? 0) ||
  bool_decide (x_tag x = take (length (x_tag x)) (tag (x_key x) (x_aad x))).

Definition final : M ctx (Z * bytes) := λ x,
  if verified x then
    (Val (1, []), mkCtx (x_cipher x) (x_key x) (x_iv x) (x_enc x) (x_pad x)
       (x_aad x) (x_in x) (x_out x) (x_tag x) true)
  else (Val (0, []), x).

#[export] Instance api : EvpCipherAPI := {
  EVP_CIPHER := SymmetricCipherMode * SymmetricCipherKeySize;
  EVP_CIPHER_CTX := ctx;
  EVP_aes_256_gcm := (GCM, S_256); EVP_aes_128_gcm := (GCM, S_128);
  EVP_aes_256_cbc := (CBC, S_256); EVP_aes_128_cbc := (CBC, S_128);
  EVP_aes_256_ctr := (CTR, S_256); EVP_aes_128_ctr := (CTR, S_128);
  EVP_CIPHER_iv_length := ilen;
  SSL_EVP_CIPHER_CTX_new := Some empty;
  SSL_EVP_CIPHER_CTX_reset := λ _, (Val (1, ()), empty);
  SSL_EVP_CIPHER_CTX_ctrl := ctrl;
  SSL_EVP_CipherInit_ex := init;
  SSL_EVP_CipherUpdate := update;
  SSL_EVP_CipherFinal_ex := final;
  SSL_EVP_CIPHER_CTX_key_length x := default 0 (klen <$> x_cipher x);
  SSL_EVP_CIPHER_CTX_iv_length x := default 0 (ilen <$> x_cipher x);
  SSL_EVP_CIPHER_CTX_set_padding pad := λ x,
    (Val (1, ()), mkCtx (x_cipher x) (x_key x) (x_iv x) (x_enc x) (negb (pad =? 0))
       (x_aad x) (x_in x) (x_out x) (x_tag x) (x_final x));
}.

(** [x] holds the session and the progress; [b]: it is finished. *)
Definition holds (b : bool) (x : ctx) (s : session) (p : progress) : Prop :=
  x = mkCtx (Some (s_cipher s)) (s_key s) (s_iv s) (s_enc s) (s_padding s)
        (p_aad p) (p_in p) (p_out p) (p_tag p) b ∧
  p_out p = crypt (s_key s) (p_in p).

Lemma lxor_byte a b : to_uint8 (Z.lxor (byte_val (to_uint8 (Z.lxor (byte_val a) b))) b)
  = to_uint8 (Z.lxor (Z.lxor (byte_val a) b) b) ∨ ¬ (0 ≤ b < 256).
Proof.
  destruct (decide (0 ≤ b < 256)) as [Hb|]; [left|by right].
  f_equal. f_equal. unfold byte_val at 1, to_uint8.
  pose proof (byte_val_range a).
  assert (Hx : 0 ≤ Z.lxor (byte_val a) b < 256).
  { assert (0 ≤ Z.lxor (byte_val a) b) by (apply Z.lxor_nonneg; lia). split; [done|].
    destruct (decide (0 < Z.lxor (byte_val a) b)); [|lia].
    apply (Z.log2_lt_pow2 _ 8); [done|].
    eapply Z.le_lt_trans; [apply Z.log2_lxor; lia|].
    pose proof (Z.log2_le_mono (byte_val a) 255). pose proof (Z.log2_le_mono b 255).
    assert (Z.log2 255 = 7) by done. lia. }
  rewrite Z.mod_small by done.
  destruct (Byte.of_N _) as [c|] eqn:Hc.
  - cbn. apply Byte.to_of_N in Hc. rewrite Hc. lia.
  - apply Byte.of_N_None_iff in Hc. lia.
Qed.

Lemma crypt_crypt key data : crypt key (crypt key data) = data.
Proof.
  unfold crypt. rewrite <- list_fmap_compose. rewrite <- (list_fmap_id data) at 2.
  apply list_fmap_ext. intros _ a _. cbn.
  destruct (lxor_byte a (byte_val (default Byte.x00 (head key)))) as [->|[]];
    [|apply byte_val_range].
  rewrite Z.lxor_assoc, Z.lxor_nilpotent, Z.lxor_0_r. apply to_uint8_byte_val.
Qed.

#[export] Instance spec : EvpCipherSpec api.
Proof.
  refine {|
    key_length := (klen : @EVP_CIPHER api → Z);
    is_gcm := (gcm : @EVP_CIPHER api → bool); block_size _ := 1;
    evp_crypt s _ data := crypt (s_key s) data;
    evp_tag s aad _ := tag (s_key s) aad;
    fresh := (empty : @EVP_CIPHER_CTX api);
    started := (holds false : @EVP_CIPHER_CTX api → _);
    finalised := (holds true : @EVP_CIPHER_CTX api → _) |}.
  - done.
  - by intros ? [= ->].
  - done.
  - done.
  - done.
  - intros ? [] arg ?; unfold wp; cbn; destruct (1 <=? arg), (arg <=? 16); done.
  - by intros ? s pad [-> ?].
  - intros ? s p input inl [-> Hp] Hinl. unfold wp. cbn. intros _. split.
    + unfold crypt, size. rewrite length_fmap, length_take.
      unfold EVP_MAX_BLOCK_LENGTH. lia.
    + split; [done|]. cbn. rewrite Hp. unfold crypt. by rewrite fmap_app.
  - by intros ? s p input inl [-> Hp] _ _ _.
  - intros ? s p arg ptr [-> Hp] _. unfold wp. cbn.
    destruct (Z.leb_spec 1 arg), (Z.leb_spec arg 16); cbn; by intros.
  - intros ? s p [-> Hp]. unfold wp. cbn. unfold final.
    destruct (verified _) eqn:Hv; cbn; [|done]. intros _.
    split_and!; [done|by rewrite app_nil_r|right; apply Z.mod_1_r| |done].
    intros Hg He. unfold verified in Hv. cbn in Hv. rewrite Hg, He in Hv. cbn in Hv.
    by apply bool_decide_eq_true in Hv.
  - intros ? s p arg ptr [-> Hp] _. unfold wp. cbn.
    destruct (Z.leb_spec 1 arg), (Z.leb_spec arg 16); cbn; by intros.
  - done.
  - intros. cbn. apply crypt_crypt.
  - done.
Defined.

Lemma cipher_works : EvpCipherWorks spec.
Proof.
  constructor; unfold succeeds, wp; try done.
  - intros ctx s p arg ptr _ _ _ [H1 H2] _. cbn.
    by rewrite (proj2 (Z.leb_le 1 arg)), (proj2 (Z.leb_le arg 16)).
  - intros ctx s p [-> Hp] _ _ Htag. cbn. unfold final.
    destruct (verified _) eqn:Hv; [done|exfalso]. revert Hv. unfold verified. cbn in *.
    destruct (gcm (s_cipher s)); cbn; [|done].
    destruct (Z.eqb_spec (s_enc s) 0) as [He|]; cbn; [|done].
    rewrite bool_decide_eq_false. intros []. by apply Htag.
  - intros ctx s p arg ptr _ _ _ [H1 H2] _. cbn.
    by rewrite (proj2 (Z.leb_le 1 arg)), (proj2 (Z.leb_le arg 16)).
Qed.
End XorCipher.
