(* ===== verification/AESFacts.v ===== *)
(** * Correctness of the AES ciphers

    The cipher object is a stream transformer: whatever way the input is cut
    into [update] calls and the output into [read] calls, the bytes returned
    are the result of the cipher on the whole input.  The proofs use the output
    buffer through [CipherMemoryStrategySpec] and OpenSSL through
    [EvpCipherSpec]; the witnesses run the concrete cipher of [XorCipher]. *)

From S2P Require Import Prelude CheckCall SymmetricMemory Util SymmetricCrypto XorCipher.

(** ** Sequences of operations *)

Inductive aes_op :=
| Update (message : bytes)
| AddAssociatedData (associatedData : bytes)
| Read (length : Z)
| ReadAll
| SetAuthTag (tag : bytes)
| SetAuthTagLength (length : Z)
| GetAuthTag
| GetIV
| Finish.

(** Arguments in the range of their C++ types; associated data only where the
    class offers it, and of a size that fits the [int] it is converted to. *)
Definition op_ok (mode : SymmetricCipherMode) (o : aes_op) : Prop :=
  match o with
  | Read n | SetAuthTagLength n => 0 ≤ n ≤ SIZE_MAX
  | AddAssociatedData a => isAuthenticatedCipherMode mode = true ∧ size a ≤ INT_MAX
  | _ => True
  end.

Definition op_data (o : aes_op) : bytes := match o with Update m => m | _ => [] end.
Definition op_aad (o : aes_op) : bytes :=
  match o with AddAssociatedData a => a | _ => [] end.

Section Run.
Context {api : EvpCipherAPI} {St : Type} {strat : CipherMemoryStrategyI St}.

(** One call by a client; the result is what it adds to the output stream. *)
Definition exec (o : aes_op) : M (AESCipherImpl St) bytes :=
  match o with
  | Update m => Impl.update m ;; ret []
  | AddAssociatedData a => Impl.addAssociatedData a ;; ret []
  | Read n => Impl.read n
  | ReadAll => Impl.readAll
  | SetAuthTag t => Impl.setAuthTag t ;; ret []
  | SetAuthTagLength n => Impl.setAuthTagLength n ;; ret []
  | GetAuthTag => Impl.getAuthTag ;; ret []
  | GetIV => Impl.getIV ;; ret []
  | Finish => Impl.finish
  end.

Fixpoint run (os : list aes_op) : M (AESCipherImpl St) bytes :=
  match os with
  | [] => ret []
  | o :: os' => let! out := exec o in let! outs := run os' in ret (out ++ outs)
  end.
End Run.

Definition data_of (os : list aes_op) : bytes := concat (op_data <$> os).
Definition aad_of (os : list aes_op) : bytes := concat (op_aad <$> os).

Section Facts.
Context {api : EvpCipherAPI} {spec : EvpCipherSpec api}.
Context {St : Type} {strat : CipherMemoryStrategyI St}
        {strat_spec : CipherMemoryStrategySpec St}.
Implicit Types (i : AESCipherImpl St).

(** The session a constructor call opens. *)
Definition session_of (mode : SymmetricCipherMode) (keySize : SymmetricCipherKeySize)
    (padding : SymmetricCipherPadding) (secretKey iv : bytes) (operation : Operation) :
    session :=
  let c := Impl.getEVPCipherConstructorForModeAndSize mode keySize in
  {| s_cipher := c; s_key := secretKey; s_iv := take (Z.to_nat (EVP_CIPHER_iv_length c)) iv;
     s_enc := Impl.enc_flag operation;
     s_padding := match padding with PKCS => true | NO => false end |}.

(** What never changes after the construction. *)
Definition matches (s : session) i : Prop :=
  is_gcm (s_cipher s) = isAuthenticatedCipherMode (_mode i) ∧
  s_enc s = Impl.enc_flag (_operation i) ∧
  (∀ len, _requestedAuthTagLength i = Some len → 0 ≤ len).

(** [i] runs the session [s], has been given [aad] and [data] and has returned
    [out]; either more is to come, or the result is complete. *)
Inductive tracks (s : session) (aad data out : bytes) i : Prop :=
| tracks_running tag :
    matches s i →
    _isFinished i = false →
    strategy_ok (_bufferStrategy i) →
    started (_ctx i) s {| p_aad := aad; p_in := data;
                          p_out := out ++ contents (_bufferStrategy i); p_tag := tag |} →
    (_isUpdated i = false → data = []) →
    tracks s aad data out i
| tracks_finished :
    matches s i →
    _isFinished i = true →
    strategy_ok (_bufferStrategy i) →
    evp_crypt s aad data = out →
    contents (_bufferStrategy i) = [] →
    tracks s aad data out i.

Lemma key_size_eq mode keySize :
  key_length (Impl.getEVPCipherConstructorForModeAndSize mode keySize)
  = getSymmetricCipherKeySize keySize.
Proof. destruct aes_params as (?&?&?&?&?&?&_). by destruct mode, keySize. Qed.

Lemma iv_size_eq mode keySize :
  EVP_CIPHER_iv_length (Impl.getEVPCipherConstructorForModeAndSize mode keySize)
  = getDefaultIVLength mode.
Proof.
  destruct aes_params as (_&_&_&_&_&_&?&?&?&?&?&?&_). by destruct mode, keySize.
Qed.

Lemma is_gcm_eq mode keySize :
  is_gcm (Impl.getEVPCipherConstructorForModeAndSize mode keySize)
  = isAuthenticatedCipherMode mode.
Proof.
  destruct aes_params as (_&_&_&_&_&_&_&_&_&_&_&_&?&?&?&?&?&?).
  by destruct mode, keySize.
Qed.

Lemma key_size_range keySize : 0 < getSymmetricCipherKeySize keySize ≤ 32.
Proof. by destruct keySize. Qed.

Lemma iv_size_range mode : 0 < getDefaultIVLength mode ≤ 16.
Proof. by destruct mode. Qed.

(** OpenSSL carries its calls out. *)
Abbreviation Works := (EvpCipherWorks spec).

(** The failed call is the second of two reasons. *)
Ltac under_right :=
  let s := fresh in let H := fresh in intros s H; right; revert s H.

(** The second half of the constructor does not depend on the context that
    the first half prepared. *)
Lemma start_spec mode keySize padding (secretKey iv : bytes) operation ctx :
  size secretKey = getSymmetricCipherKeySize keySize →
  wp (Impl.start mode keySize padding secretKey iv operation) ctx
    (λ _ ctx', getDefaultIVLength mode ≤ size iv ∧
       started ctx' (session_of mode keySize padding secretKey iv operation) no_progress)
    (λ e _, (e = UndefinedBehaviour ∧ size iv < getDefaultIVLength mode) ∨
            (e = OpenSSLException [ErrorQueue] ∧ ¬ Works)).
Proof.
  intros Hkey. unfold Impl.start, _EVP_CIPHER_CTX_reset, _EVP_CipherInit_ex. wp_simpl.
  call_one CTX_reset_spec; [|under_right; not_works CTX_reset_works].
  subst s'. wp_simpl. rewrite iv_size_eq.
  destruct (Z.ltb_spec (size iv) (getDefaultIVLength mode)) as [|Hiv]; wp_simpl; [by left|].
  call_one CipherInit_spec; [rewrite key_size_eq; lia|rewrite iv_size_eq; lia| |].
  2: { under_right. not_works CipherInit_works; [by rewrite key_size_eq, Hkey|by rewrite iv_size_eq]. }
  rewrite key_size_eq in Hok.
  rewrite (take_ge secretKey) in Hok by (unfold size in Hkey; lia).
  unfold session_of. destruct padding; wp_simpl; [|done].
  unfold _EVP_CIPHER_CTX_set_padding. call_one set_padding_spec; [done|done|].
  under_right. not_works set_padding_works.
Qed.

(** The reasons for which a construction is refused. *)
Definition refused (mode : SymmetricCipherMode) (keySize : SymmetricCipherKeySize)
    (secretKey iv : bytes) (e : exn) : Prop :=
  (size secretKey ≠ getSymmetricCipherKeySize keySize ∧
   e = Impl.wrong_size "Key" (size secretKey) (getSymmetricCipherKeySize keySize)) ∨
  (mode ≠ GCM ∧ size iv ≠ getDefaultIVLength mode ∧
   e = Impl.wrong_size "IV" (size iv) (getDefaultIVLength mode)) ∨
  (mode = GCM ∧ iv = [] ∧ e = MoCOCrWException
     [Str "IV is empty, but AES-GCM does not support empty IVs."]) ∨
  e = OpenSSLException [ErrorQueue].

(** The parameters a construction accepts. *)
Definition accepted (mode : SymmetricCipherMode) (keySize : SymmetricCipherKeySize)
    (secretKey iv : bytes) : Prop :=
  size secretKey = getSymmetricCipherKeySize keySize ∧
  if isAuthenticatedCipherMode mode then 0 < size iv
  else size iv = getDefaultIVLength mode.

Lemma check_iv_length_spec mode keySize (iv : bytes) ctx (Ψ : exn → EVP_CIPHER_CTX → Prop) :
  mode ≠ GCM →
  SSL_EVP_CIPHER_CTX_iv_length ctx
    = EVP_CIPHER_iv_length (Impl.getEVPCipherConstructorForModeAndSize mode keySize) →
  (size iv ≠ getDefaultIVLength mode →
   ∀ c, Ψ (Impl.wrong_size "IV" (size iv) (getDefaultIVLength mode)) c) →
  wp (let! len := _EVP_CIPHER_CTX_iv_length in
      let expectedIVSize := to_size_t len in
      throw_if (negb (size iv =? expectedIVSize))
               (Impl.wrong_size "IV" (size iv) expectedIVSize)) ctx
    (λ _ _, size iv = getDefaultIVLength mode) Ψ.
Proof.
  intros Hm Hlen HΨ. pose proof (iv_size_range mode).
  unfold _EVP_CIPHER_CTX_iv_length. wp_simpl. rewrite Hlen, iv_size_eq.
  destruct (Z.eqb_spec (getDefaultIVLength mode) 0); [lia|]. wp_simpl.
  rewrite to_size_t_id by (unfold SIZE_MAX; lia).
  destruct (Z.eqb_spec (size iv) (getDefaultIVLength mode)); cbn [negb]; auto.
Qed.

(** The first half accepts what it should, provided OpenSSL can be told the
    length of the IV. *)
Lemma check_parameters_spec mode keySize (secretKey iv : bytes) operation :
  wp (Impl.check_parameters mode keySize secretKey iv operation) fresh
    (λ _ _, accepted mode keySize secretKey iv)
    (λ e _, refused mode keySize secretKey iv e ∧
            ¬ (Works ∧ accepted mode keySize secretKey iv ∧ size iv ≤ INT_MAX)).
Proof.
  pose proof (key_size_range keySize). set (c := Impl.getEVPCipherConstructorForModeAndSize mode keySize).
  unfold Impl.check_parameters, _EVP_CIPHER_CTX_key_length, _EVP_CipherInit_ex.
  rewrite wp_bind.
  apply wp_IsOne_ok;
    [|intros s' Hf; split; [unfold refused; auto|by intros [HW _]; apply Hf, HW]].
  pose proof (CipherInit_cipher_spec c (Impl.enc_flag operation)) as Hi.
  assert (Hiw : wp_total (SSL_EVP_CipherInit_ex (Some c) None None (Impl.enc_flag operation)) fresh
    (λ r ctx, r.1 = 1 → Works → 1 ≤ size iv ≤ INT_MAX → mode = GCM →
      succeeds (SSL_EVP_CIPHER_CTX_ctrl EVP_CTRL_GCM_SET_IVLEN (size iv) []) ctx)).
  { unfold wp in Hi |- *. destruct (SSL_EVP_CipherInit_ex _ _ _ _ _) as [[r|] ctx] eqn:Hc;
      [|done]. intros Hrv HW Hn Hm.
    pose proof (set_ivlen_works _ HW c (Impl.enc_flag operation) (size iv) []) as Hs.
    unfold wp in Hs. rewrite Hc in Hs. apply Hs; [|done..]. unfold c. by rewrite is_gcm_eq, Hm. }
  eapply wp_mono; [exact (wp_and _ _ _ _ _ _ Hi Hiw)| |by intros ?? []]. clear Hi Hiw.
  intros [rv []] ctx [Hi Hiw] Hrv. cbn in Hrv. specialize (Hiw Hrv).
  destruct (Hi Hrv) as [Hkl Hil]. clear Hi.
  unfold c in Hkl, Hil. rewrite key_size_eq in Hkl. cbn beta.
  rewrite wp_bind. wp_simpl. rewrite Hkl.
  destruct (Z.leb_spec (getSymmetricCipherKeySize keySize) 0); [lia|]. wp_simpl.
  rewrite to_size_t_id by (unfold SIZE_MAX; lia).
  destruct (Z.eqb_spec (size secretKey) (getSymmetricCipherKeySize keySize)) as [Hkey|Hkey];
    cbn [negb]; [|unfold refused, accepted; tauto].
  destruct mode eqn:Hm; cbn [isAuthenticatedCipherMode] in *.
  - wp_simpl. destruct (Z.eqb_spec (size iv) 0) as [Hz|Hnz].
    { split; [right; right; left; split_and!; [done|by apply size_0|done]|].
      unfold accepted. cbn. lia. }
    unfold _EVP_CIPHER_CTX_ctrl. pose proof (size_nonneg iv). wp_simpl.
    apply wp_IsOne_ok; [eapply wp_mono; [apply ctrl_total|intros; split; [done|cbn; lia]|done]|].
    intros s' Hf. split; [unfold refused; auto|]. intros (HW & _ & Hmax).
    rewrite to_int_id in Hf by (unfold INT_MIN; lia). apply Hf, Hiw; done || lia.
  - eapply wp_mono; [eapply (check_iv_length_spec CBC)|..]; [done|exact Hil| |done|].
    2: { intros e s' HΨ. exact HΨ. }
    intros Hn ?. split; [unfold refused; auto|by intros (_ & [_ Heq] & _)].
  - eapply wp_mono; [eapply (check_iv_length_spec CTR)|..]; [done|exact Hil| |done|].
    2: { intros e s' HΨ. exact HΨ. }
    intros Hn ?. split; [unfold refused; auto|by intros (_ & [_ Heq] & _)].
Qed.

(** The checks accept any IV for GCM that is not empty, but the second
    initialisation reads twelve bytes of it. *)
Definition read_past_end (mode : SymmetricCipherMode) (keySize : SymmetricCipherKeySize)
    (secretKey iv : bytes) : Prop :=
  accepted mode keySize secretKey iv ∧ mode = GCM ∧ 1 ≤ size iv < 12.

Lemma accepted_short mode keySize (secretKey iv : bytes) :
  accepted mode keySize secretKey iv → size iv < getDefaultIVLength mode →
  read_past_end mode keySize secretKey iv.
Proof.
  intros Ha Hs. split; [done|]. destruct Ha as [_ Hiv].
  destruct mode; cbn in *; [split; [done|lia]|lia|lia].
Qed.

(** What a construction throws. *)
Definition not_built (mode : SymmetricCipherMode) (keySize : SymmetricCipherKeySize)
    (secretKey iv : bytes) (e : exn) : Prop :=
  (e = UndefinedBehaviour ∧ read_past_end mode keySize secretKey iv) ∨
  (refused mode keySize secretKey iv e ∧
   ¬ (Works ∧ accepted mode keySize secretKey iv ∧ size iv ≤ INT_MAX)).

Lemma configure_spec mode keySize padding (secretKey iv : bytes) operation :
  wp (Impl.configure mode keySize padding secretKey iv operation) fresh
    (λ _ ctx', accepted mode keySize secretKey iv ∧ getDefaultIVLength mode ≤ size iv ∧
       started ctx' (session_of mode keySize padding secretKey iv operation) no_progress)
    (λ e _, not_built mode keySize secretKey iv e).
Proof.
  unfold Impl.configure. rewrite wp_bind.
  eapply wp_mono; [apply check_parameters_spec| |by intros; right].
  intros [] ctx' Hacc. cbn beta.
  eapply wp_mono; [apply start_spec, Hacc|by intros [] ? []|].
  intros e ? [[-> Hs]|[-> Hf]]; [left; split; [done|by apply accepted_short]|].
  right. unfold refused. tauto.
Qed.

(** A constructed cipher runs the session of its parameters from the start. *)
Lemma new_spec mode keySize padding (secretKey iv : bytes) operation :
  match Impl.new (St := St) mode keySize padding secretKey iv operation with
  | Val i => (accepted mode keySize secretKey iv ∧ getDefaultIVLength mode ≤ size iv) ∧
      _mode i = mode ∧ _iv i = iv ∧ _operation i = operation ∧ _authTag i = [] ∧
      tracks (session_of mode keySize padding secretKey iv operation) [] [] [] i
  | Throw e => not_built mode keySize secretKey iv e
  end.
Proof.
  unfold Impl.new, _EVP_CIPHER_CTX_new.
  destruct SSL_EVP_CIPHER_CTX_new as [ctx|] eqn:Hctx; cbn [obind];
    [|right; split; [unfold refused; auto|by intros [HW _]; apply (CTX_new_works _ HW)]].
  apply CTX_new_spec in Hctx as ->.
  pose proof (configure_spec mode keySize padding secretKey iv operation) as Hc.
  unfold wp in Hc. destruct (Impl.configure _ _ _ _ _ _ _) as [[[]|e] ctx']; [|done].
  destruct Hc as (Hacc & Hlen & Hst). destruct strategy_init_spec as [Hok Hnil].
  split_and!; try done. eapply (tracks_running _ _ _ _ _ []); try done.
  { split_and!; [apply is_gcm_eq|done|done]. } cbn. by rewrite Hnil.
Qed.

(** ** Every operation advances the stream *)

Lemma gcm_session mode keySize padding (secretKey iv : bytes) operation :
  is_gcm (s_cipher (session_of mode keySize padding secretKey iv operation))
  = isAuthenticatedCipherMode mode.
Proof. apply is_gcm_eq. Qed.

Lemma update_tracks s aad data out m i :
  tracks s aad data out i →
  wp (Impl.update m) i (λ _ i', tracks s aad (data ++ m) out i')
    (λ _ _, ¬ (Works ∧ _isFinished i = false ∧ size m ≤ INT_MAX - EVP_MAX_BLOCK_LENGTH)).
Proof.
  intros [tag Hm Hfin Hok Hst Hupd|Hm Hfin ? ? ?]; unfold Impl.update; wp_simpl;
    rewrite Hfin; wp_simpl; [|by intros (_ & ? & _); congruence].
  pose proof (size_nonneg m).
  rewrite to_size_t_id by (unfold SIZE_MAX, INT_MAX, EVP_MAX_BLOCK_LENGTH; lia).
  destruct (Z.ltb_spec (INT_MAX - EVP_MAX_BLOCK_LENGTH) (size m)) as [|Hle]; [lia|].
  rewrite to_int_id by (unfold INT_MIN, INT_MAX, EVP_MAX_BLOCK_LENGTH in *; lia).
  destruct (Z.leb_spec (size m) 0).
  { rewrite (size_0 m), app_nil_r by lia. by eapply tracks_running. }
  wp_simpl. unfold Impl.on_ctx, _EVP_CipherUpdate. wp_simpl.
  call_one CipherUpdate_spec; [exact Hst|lia| |].
  2: { intros s' Hf [HW _]. apply Hf. eapply CipherUpdate_works; [done..|lia|lia]. }
  destruct Hok0 as [Hsz Hst']. cbn in Hst'.
  destruct (write_buffer_resize (zeros (size m + EVP_MAX_BLOCK_LENGTH)) out0)
    as (buf & -> & Hbuf).
  { rewrite size_zeros; unfold EVP_MAX_BLOCK_LENGTH in *; lia. }
  wp_simpl. rewrite Hbuf. rewrite take_ge in Hst' by (unfold size; lia).
  destruct (Z.ltb_spec 0 (size out0)); wp_simpl.
  - unfold Impl.on_buffer. wp_simpl.
    eapply wp_mono; [by apply strategy_write_spec| |done].
    intros [] b (Hb & Hc). wp_simpl. eapply tracks_running; [done|done|done| |done].
    cbn. by rewrite Hc, app_assoc.
  - rewrite (size_0 out0) in Hst' by (pose proof (size_nonneg out0); lia).
    rewrite app_nil_r in Hst'. by eapply tracks_running.
Qed.

(** The length of the associated data is converted to [int]. *)
Lemma addAssociatedData_tracks_int s aad data out a i :
  tracks s aad data out i → is_gcm (s_cipher s) = true → 0 ≤ to_int (size a) →
  wp (Impl.addAssociatedData a) i
    (λ _ i', tracks s (aad ++ take (Z.to_nat (to_int (size a))) a) data out i')
    (λ _ _, ¬ (Works ∧ _isFinished i = false ∧ _isUpdated i = false)).
Proof.
  intros [tag Hm Hfin Hok Hst Hupd|Hm Hfin ? ? ?] Hg Ha;
    unfold Impl.addAssociatedData; wp_simpl;
    (destruct (_isUpdated i) eqn:Hu; wp_simpl; [by intros (_ & _ & ?); congruence|]);
    rewrite Hfin; wp_simpl; [|by intros (_ & ? & _); congruence].
  pose proof (size_nonneg a). rewrite (Hupd eq_refl) in *.
  unfold Impl.on_ctx, _EVP_CipherUpdate. wp_simpl.
  assert (Hle : to_int (size a) ≤ size a ∧ to_int (size a) ≤ INT_MAX).
  { unfold to_int, INT_MAX in *. pose proof (Z.mod_le (size a + 2147483648) 4294967296).
    pose proof (Z.mod_pos_bound (size a + 2147483648) 4294967296). lia. }
  call_one CipherUpdate_aad_spec; [exact Hst|done|done|lia| |].
  2: { intros s' Hf [HW _]. apply Hf. eapply CipherUpdate_aad_works; [done..|lia|lia]. }
  cbn in Hok0. wp_simpl. by eapply tracks_running.
Qed.

Lemma addAssociatedData_tracks s aad data out a i :
  tracks s aad data out i → is_gcm (s_cipher s) = true → size a ≤ INT_MAX →
  wp (Impl.addAssociatedData a) i (λ _ i', tracks s (aad ++ a) data out i')
    (λ _ _, ¬ (Works ∧ _isFinished i = false ∧ _isUpdated i = false)).
Proof.
  intros Htr Hg Ha. pose proof (size_nonneg a).
  assert (Hi : to_int (size a) = size a) by (apply to_int_id; unfold INT_MIN; lia).
  pose proof (addAssociatedData_tracks_int s aad data out a i Htr Hg) as Hwp.
  rewrite Hi, take_ge in Hwp by (unfold size; lia). by apply Hwp.
Qed.

Lemma read_tracks s aad data out n i :
  tracks s aad data out i → 0 ≤ n ≤ SIZE_MAX →
  wp_total (Impl.read n) i (λ r i', tracks s aad data (out ++ r) i').
Proof.
  intros [tag Hm Hfin Hok Hst Hupd|Hm Hfin Hok He Hc] Hn;
    unfold Impl.read, Impl.on_buffer; wp_simpl;
    (eapply wp_mono; [by apply strategy_read_spec| |done]);
    intros r b (Hb & -> & Hr); cbn beta.
  - eapply tracks_running; [done|done|done| |done]. cbn.
    by rewrite Hr, <- app_assoc, take_drop.
  - rewrite Hc, take_nil, app_nil_r. rewrite Hc, drop_nil in Hr. by apply tracks_finished.
Qed.

Lemma readAll_tracks s aad data out i :
  tracks s aad data out i →
  wp_total Impl.readAll i (λ r i', tracks s aad data (out ++ r) i').
Proof.
  intros [tag Hm Hfin Hok Hst Hupd|Hm Hfin Hok He Hc];
    unfold Impl.readAll, Impl.on_buffer; wp_simpl;
    (eapply wp_mono; [by apply strategy_readAll_spec| |done]);
    intros r b (Hb & -> & Hr); cbn beta.
  - eapply tracks_running; [done|done|done| |done]. cbn. by rewrite Hr, app_nil_r.
  - rewrite Hc, app_nil_r. by apply tracks_finished.
Qed.
(** What a successful [finish] establishes. *)
Definition finish_post (s : session) (aad data out : bytes) i (r : bytes) i' : Prop :=
  _isFinished i' = true ∧ tracks s aad data (out ++ r) i' ∧
  evp_crypt s aad data = out ++ r ∧
  (s_padding s = true ∨ size data mod block_size (s_cipher s) = 0) ∧
  (_mode i = GCM → _operation i = Decryption →
     1 ≤ to_int (size (_authTag i)) ≤ 16 ∧
     ∃ tag, tag = take (Z.to_nat (to_int (size (_authTag i)))) (_authTag i) ∧
            tag = take (length tag) (evp_tag s aad data)) ∧
  (_mode i = GCM → _operation i = Encryption → ∀ len,
     _requestedAuthTagLength i = Some len → len ≤ INT_MAX →
     _authTag i' = take (Z.to_nat len) (evp_tag s aad data) ∧ 1 ≤ len ≤ 16).

(** A cipher that can be finished: the input is complete, the tag to be verified is
    the right one, the length of the tag to be made is known. *)
Definition finishable (s : session) (aad data : bytes) i : Prop :=
  _isFinished i = false ∧
  (s_enc s = 1 → s_padding s = true ∨ size data mod block_size (s_cipher s) = 0) ∧
  (s_enc s = 0 → ∃ m,
    (s_padding s = true ∨ size m mod block_size (s_cipher s) = 0) ∧
    data = evp_crypt {| s_cipher := s_cipher s; s_key := s_key s; s_iv := s_iv s;
                        s_enc := 1; s_padding := s_padding s |} aad m) ∧
  (_mode i = GCM → _operation i = Decryption →
     1 ≤ size (_authTag i) ≤ 16 ∧ _authTag i = take (length (_authTag i)) (evp_tag s aad data)) ∧
  (_mode i = GCM → _operation i = Encryption →
     ∃ len, _requestedAuthTagLength i = Some len ∧ 1 ≤ len ≤ 16).

(** The last step of [finish]: the final chunk is written and all is read. *)
Lemma finish_flush s aad data out last i (Φ : bytes → AESCipherImpl St → Prop) Ψ :
  matches s i → strategy_ok (_bufferStrategy i) →
  evp_crypt s aad data = (out ++ contents (_bufferStrategy i)) ++ last →
  (∀ b, let i' := Impl.set_buffer b (Impl.set_isFinished true i) in
    tracks s aad data (out ++ contents (_bufferStrategy i) ++ last) i' →
    Φ (contents (_bufferStrategy i) ++ last) i') →
  wp (Impl.on_buffer (strategy_write last) ;;
      modify (Impl.set_isFinished true) ;;
      Impl.on_buffer strategy_readAll) i Φ Ψ.
Proof.
  intros Hm Hok Hev HΦ. unfold Impl.on_buffer. wp_simpl.
  eapply wp_mono; [by apply strategy_write_spec| |done].
  intros [] b (Hb & Hc). wp_simpl. cbn [_bufferStrategy Impl.set_isFinished Impl.set_buffer].
  eapply wp_mono; [by apply strategy_readAll_spec| |done].
  intros r b' (Hb' & -> & Hc'). rewrite Hc. apply HΦ. apply tracks_finished; try done.
  by rewrite Hev, app_assoc.
Qed.
Lemma finish_setTag_spec s p i :
  started (_ctx i) s p → matches s i →
  wp Impl.finish_setTag i
    (λ _ i', ∃ c tag, i' = Impl.set_ctx c i ∧
       started c s {| p_aad := p_aad p; p_in := p_in p; p_out := p_out p; p_tag := tag |} ∧
       (_mode i = GCM → _operation i = Decryption →
        1 ≤ to_int (size (_authTag i)) ≤ 16 ∧
        tag = take (Z.to_nat (to_int (size (_authTag i)))) (_authTag i)))
    (λ _ _, ¬ (Works ∧ (_mode i = GCM → _operation i = Decryption →
                        1 ≤ size (_authTag i) ≤ 16))).
Proof.
  intros Hst (Hg & He & _). unfold Impl.finish_setTag. wp_simpl.
  destruct (isAuthenticatedCipherMode (_mode i)
            && bool_decide (_operation i = Decryption)) eqn:Hc; wp_simpl.
  - apply andb_true_iff in Hc as [Hm Ho%bool_decide_eq_true].
    assert (Hgcm : _mode i = GCM) by (by destruct (_mode i)).
    destruct (Z.eqb_spec (size (_authTag i)) 0) as [Hz|Hnz].
    { intros [_ Hr]. specialize (Hr Hgcm Ho). lia. }
    unfold Impl.on_ctx, _EVP_CIPHER_CTX_ctrl. wp_simpl.
    pose proof (size_nonneg (_authTag i)).
    call_one set_tag_spec; [exact Hst| | |].
    { unfold to_int. pose proof (Z.mod_le (size (_authTag i) + 2147483648) 4294967296). lia. }
    2: { intros s' Hf [HW Hr]. apply Hf. specialize (Hr Hgcm Ho).
         rewrite to_int_id by (unfold INT_MIN, INT_MAX; lia).
         eapply set_tag_works; [done..|by rewrite Hg|by rewrite He, Ho|done|done]. }
    destruct Hok as [Hr Hs]. wp_simpl. eauto 10.
  - exists (_ctx i), (p_tag p). split_and!; [by destruct i|by destruct p|].
    intros Hm Ho. rewrite Hm, Ho in Hc. done.
Qed.

Lemma finish_getTag_spec s p i :
  finalised (_ctx i) s p → matches s i →
  wp Impl.finish_getTag i
    (λ _ i', ∃ c t, i' = Impl.set_authTag t (Impl.set_ctx c i) ∧
       (_mode i = GCM → _operation i = Encryption → ∀ len,
          _requestedAuthTagLength i = Some len → len ≤ INT_MAX →
          t = take (Z.to_nat len) (evp_tag s (p_aad p) (p_in p)) ∧ 1 ≤ len ≤ 16))
    (λ _ _, ¬ (Works ∧ (_mode i = GCM → _operation i = Encryption →
                        ∃ len, _requestedAuthTagLength i = Some len ∧ 1 ≤ len ≤ 16))).
Proof.
  intros Hfin (Hg & He & Hlen). unfold Impl.finish_getTag. wp_simpl.
  destruct (bool_decide (_mode i = GCM)
            && bool_decide (_operation i = Encryption)) eqn:Hc; wp_simpl.
  - apply andb_true_iff in Hc as [Hm%bool_decide_eq_true Ho%bool_decide_eq_true].
    destruct (_requestedAuthTagLength i) as [len|] eqn:Hreq; wp_simpl.
    2: { intros [_ Hr]. by destruct (Hr Hm Ho) as (? & ? & _). }
    specialize (Hlen _ eq_refl). unfold Impl.on_ctx, _EVP_CIPHER_CTX_ctrl. wp_simpl.
    call_one get_tag_spec; [exact Hfin| | |].
    { rewrite size_resize by done. unfold to_int.
      pose proof (Z.mod_le (len + 2147483648) 4294967296). lia. }
    2: { intros s' Hf [HW Hr]. apply Hf. destruct (Hr Hm Ho) as (? & [= <-] & Hl).
         rewrite to_int_id by (unfold INT_MIN, INT_MAX; lia).
         eapply get_tag_works; [done..|by rewrite Hg, Hm|by rewrite He, Ho|done|].
         by rewrite size_resize. }
    destruct Hok as [Hr Ht]. wp_simpl.
    destruct (write_buffer _ out) as [buf|] eqn:Hbuf.
    2: { intros [_ Hx]. destruct (Hx Hm Ho) as (? & [= <-] & Hl).
         rewrite to_int_id in Ht by (unfold INT_MIN, INT_MAX; lia). subst out.
         revert Hbuf. apply write_buffer_fits. rewrite size_resize by done.
         rewrite size_take; [lia|]. rewrite evp_tag_size. lia. }
    exists s', buf. split; [by destruct i|]. intros _ _ len' [= <-] Hmax.
    rewrite to_int_id in * by (unfold INT_MIN; lia). subst out.
    split; [|done]. apply write_buffer_full in Hbuf; [done|].
    rewrite size_resize by done. rewrite size_take; [done|].
    rewrite evp_tag_size. lia.
  - exists (_ctx i), (_authTag i). split; [by destruct i|].
    intros Hm Ho. by rewrite Hm, Ho in Hc.
Qed.

Lemma enc_flag_0 op : Impl.enc_flag op = 0 → op = Decryption.
Proof. by destruct op. Qed.

Lemma finish_spec s aad data out i :
  tracks s aad data out i →
  wp Impl.finish i (λ r i', finish_post s aad data out i r i')
    (λ _ _, ¬ (Works ∧ finishable s aad data i)).
Proof.
  intros [tag Hm Hfin Hok Hst Hupd|Hm Hfin ? ? ?]; unfold Impl.finish; wp_simpl;
    rewrite Hfin; wp_simpl; [|by intros (_ & ? & _); congruence].
  eapply wp_mono; [by apply finish_setTag_spec| |].
  2: { intros e i' Hn (HW & _ & _ & _ & Ht & _). apply Hn. split; [done|].
       intros Hmode Ho. by destruct (Ht Hmode Ho). }
  intros [] i' (c & tag' & -> & Hst' & Htag). cbn [p_aad p_in p_out] in Hst'.
  unfold Impl.on_ctx at 1, _EVP_CipherFinal_ex. wp_simpl.
  call_one CipherFinal_spec; [exact Hst'| |].
  2: { intros c' Hf. cut (¬ (Works ∧ finishable s aad data i)).
       { intros Hn. unfold Impl.finish_handler. wp_simpl. by destruct (_ && _). }
       intros (HW & _ & Henc & Hdec & Htg & _). apply Hf.
       eapply CipherFinal_works; [done|exact Hst'|done|done|]. cbn.
       destruct Hm as (Hg & He & _). rewrite Hg, He. intros Hmode Ho%enc_flag_0.
       assert (Hgcm : _mode i = GCM) by (by destruct (_mode i)).
       destruct (Htg Hgcm Ho) as [Hr Ht]. destruct (Htag Hgcm Ho) as [_ ->].
       rewrite to_int_id by (unfold INT_MIN, INT_MAX; lia).
       rewrite take_ge by (unfold size; lia). split; [|done]. intros Hz. rewrite Hz in Hr.
       rewrite size_nil in Hr; lia. }
  cbn in Hok0. destruct Hok0 as (Hsz & Hev & Hblk & Hver & Hfinal).
  destruct (write_buffer_resize (zeros EVP_MAX_BLOCK_LENGTH) out0) as (buf & -> & Hbuf).
  { rewrite size_zeros; unfold EVP_MAX_BLOCK_LENGTH in *; lia. }
  wp_simpl. rewrite Hbuf.
  eapply wp_mono; [by apply (finish_getTag_spec s)| |].
  2: { intros e i' Hn (HW & _ & _ & _ & _ & Hl). by apply Hn. }
  intros [] i' (c' & t & -> & Hget).
  eapply finish_flush; [exact Hm|exact Hok|exact Hev|].
  intros b i' Htr. unfold finish_post. cbn in Hget |- *.
  split_and!; try done.
  - by rewrite Hev, app_assoc.
  - intros Hmode Hop. destruct (Htag Hmode Hop) as [Hr Ht].
    split; [done|]. exists tag'. split; [done|]. destruct Hm as (Hg & Henc & _).
    apply Hver; [by rewrite Hg, Hmode|by rewrite Henc, Hop].
Qed.

(** ** Runs *)

Lemma exec_tracks s mode aad data out o i :
  tracks s aad data out i → is_gcm (s_cipher s) = isAuthenticatedCipherMode mode →
  op_ok mode o →
  wp (exec o) i (λ r i', tracks s (aad ++ op_aad o) (data ++ op_data o) (out ++ r) i')
    (λ _ _, True).
Proof.
  intros Htr Hg Ho. destruct o; cbn [exec op_aad op_data]; rewrite ?app_nil_r.
  - wp_simpl. eapply wp_mono; [by apply update_tracks| |done].
    intros [] i' Hi. wp_simpl. by rewrite app_nil_r.
  - wp_simpl. destruct Ho as [Hmode Ha].
    eapply wp_mono; [apply addAssociatedData_tracks; [done|by rewrite Hg|done]| |done].
    intros [] i' Hi. wp_simpl. by rewrite app_nil_r.
  - eapply wp_mono; [by apply read_tracks|done|done].
  - eapply wp_mono; [by apply readAll_tracks|done|done].
  - unfold Impl.setAuthTag. wp_simpl. rewrite ?app_nil_r.
    destruct Htr; [by eapply tracks_running|by apply tracks_finished].
  - unfold Impl.setAuthTagLength. wp_simpl. rewrite ?app_nil_r.
    assert (Hm' : matches s i → matches s (Impl.set_requestedAuthTagLength length i)).
    { intros (? & ? & ?). split_and!; [done|done|].
      intros len [= <-]. apply Ho. }
    destruct Htr; [by eapply tracks_running; [apply Hm'|..]|
                   by apply tracks_finished; [apply Hm'|..]].
  - unfold Impl.getAuthTag. wp_simpl. by rewrite ?app_nil_r.
  - unfold Impl.getIV. wp_simpl. by rewrite ?app_nil_r.
  - eapply wp_mono; [by apply finish_spec| |done]. intros r i' Hp. apply Hp.
Qed.

Lemma run_tracks s mode os aad data out i :
  tracks s aad data out i → is_gcm (s_cipher s) = isAuthenticatedCipherMode mode →
  Forall (op_ok mode) os →
  wp (run os) i (λ r i', tracks s (aad ++ aad_of os) (data ++ data_of os) (out ++ r) i')
    (λ _ _, True).
Proof.
  intros Htr Hg Hos. revert aad data out i Htr.
  induction Hos as [|o os Ho Hos IH]; intros aad data out i Htr; cbn [run].
  - wp_simpl. by rewrite !app_nil_r.
  - wp_simpl. eapply wp_mono; [by eapply exec_tracks| |done].
    intros r i' Htr'. cbn beta in Htr' |- *. wp_simpl. eapply wp_mono; [by apply IH| |done].
    intros r' i'' Htr''. wp_simpl. unfold aad_of, data_of in *. cbn.
    rewrite !app_assoc. done.
Qed.

Lemma tracks_finished_result s aad data out i :
  tracks s aad data out i → _isFinished i = true → evp_crypt s aad data = out.
Proof. by intros [tag ? Hf|] Hf'; [congruence|]. Qed.

Lemma tracks_matches s aad data out i : tracks s aad data out i → matches s i.
Proof. by intros []. Qed.
End Facts.

(** What a constructed cipher remembers of its parameters. *)
Lemma new_fields {api : EvpCipherAPI} {St} {strat : CipherMemoryStrategyI St}
    mode keySize padding secretKey iv operation (i : AESCipherImpl St) :
  Impl.new mode keySize padding secretKey iv operation = Val i →
  _mode i = mode ∧ _iv i = iv ∧ _operation i = operation ∧
  _authTag i = [] ∧ _isFinished i = false ∧ _isUpdated i = false.
Proof.
  unfold Impl.new, _EVP_CIPHER_CTX_new.
  destruct SSL_EVP_CIPHER_CTX_new; cbn [obind]; [|done].
  by destruct (Impl.configure _ _ _ _ _ _ _) as [[|] ?]; [intros [= <-]|].
Qed.

(** ** Properties *)

Section Properties.
Context {api : EvpCipherAPI} {spec : EvpCipherSpec api}.
Context {St : Type} {strat : CipherMemoryStrategyI St}
        {strat_spec : CipherMemoryStrategySpec St}.
Implicit Types (i : AESCipherImpl St).


(** A finished run computes the cipher, and then the data fits the padding. *)
Lemma finished_run mode keySize padding secretKey iv operation i os i1 out last i2 :
  Impl.new mode keySize padding secretKey iv operation = Val i →
  Forall (op_ok mode) os →
  run os i = (Val out, i1) → Impl.finish i1 = (Val last, i2) →
  (mode = GCM → _mode i1 = GCM) ∧ _operation i1 = operation ∧
  finish_post (session_of mode keySize padding secretKey iv operation)
    (aad_of os) (data_of os) out i1 last i2.
Proof.
  intros Hnew Hos Hrun Hfin.
  pose proof (new_spec (St := St) mode keySize padding secretKey iv operation) as Hn.
  rewrite Hnew in Hn. destruct Hn as (_ & _ & _ & _ & _ & Htr).
  pose proof (run_tracks _ mode os _ _ _ _ Htr (is_gcm_eq _ _) Hos) as Hwp.
  apply (wp_run _ _ _ _ _ _ Hrun) in Hwp. cbn beta iota in Hwp.
  destruct (tracks_matches _ _ _ _ _ Hwp) as (Hg & He & _).
  split_and!; [| |exact (wp_run _ _ _ _ _ _ Hfin (finish_spec _ _ _ _ _ Hwp))].
  - intros ->. unfold session_of in Hg. cbn [s_cipher] in Hg. rewrite is_gcm_eq in Hg.
    by destruct (_mode i1).
  - cbn in He. by destruct operation, (_operation i1).
Qed.

(** Round trip: a decryptor that is fed, in any pieces it takes, what an
    encryptor with the same parameters handed out, and is given the same
    associated data, hands out what the encryptor was fed, in all modes, key
    sizes and paddings. *)
Theorem aes_roundtrip mode keySize padding secretKey iv
    (e : AESCipherImpl St) es c1 e1 c2 e2
    (d : AESCipherImpl St) ds p1 d1 p2 d2
    (He : Impl.new mode keySize padding secretKey iv Encryption = Val e)
    (Hd : Impl.new mode keySize padding secretKey iv Decryption = Val d)
    (Hes : Forall (op_ok mode) es) (Hds : Forall (op_ok mode) ds)
    (Hre : run es e = (Val c1, e1)) (Hfe : Impl.finish e1 = (Val c2, e2))
    (Hrd : run ds d = (Val p1, d1)) (Hfd : Impl.finish d1 = (Val p2, d2))
    (Hdata : data_of ds = c1 ++ c2) (Haad : aad_of ds = aad_of es) :
  p1 ++ p2 = data_of es.
Proof.
  destruct (finished_run _ _ _ _ _ _ _ _ _ _ _ _ He Hes Hre Hfe)
    as (_ & _ & _ & _ & Hc & Hblk & _).
  destruct (finished_run _ _ _ _ _ _ _ _ _ _ _ _ Hd Hds Hrd Hfd)
    as (_ & _ & _ & _ & Hp & _).
  rewrite <- Hp, Hdata, Haad, <- Hc. unfold session_of, Impl.enc_flag.
  by apply evp_crypt_inverse.
Qed.


(** C26. What the constructor does with its parameters, whatever they are.  It
    returns only for a key of the cipher's key size and an IV of 16 bytes (CBC, CTR) or
    of at least 12 bytes (GCM), and the object has these parameters.  A GCM IV of 1 to
    11 bytes passes the checks too, but the code then reads twelve bytes of it, past
    its end: undefined behaviour, and the only way to it.  Every other failure names
    one of the reasons - size of the key, size of the IV, an empty GCM IV - or is
    OpenSSL's, and cannot happen for parameters that pass the checks, an IV of at most
    INT_MAX bytes and an OpenSSL that carries out its calls. *)
Theorem aes_new_checks mode keySize padding secretKey iv operation :
  match Impl.new (St := St) mode keySize padding secretKey iv operation with
  | Val i => (accepted mode keySize secretKey iv ∧ getDefaultIVLength mode ≤ size iv) ∧
             _mode i = mode ∧ _iv i = iv ∧ _operation i = operation
  | Throw e =>
      (e = UndefinedBehaviour ∧ read_past_end mode keySize secretKey iv) ∨
      (refused mode keySize secretKey iv e ∧
       ¬ (EvpCipherWorks spec ∧ accepted mode keySize secretKey iv ∧ size iv ≤ INT_MAX))
  end.
Proof.
  pose proof (new_spec (St := St) mode keySize padding secretKey iv operation) as Hn.
  destruct (Impl.new _ _ _ _ _ _); [|exact Hn].
  destruct Hn as (? & ? & ? & ? & _). done.
Qed.

(** Call order: after [finish], [update], [addAssociatedData] and [finish]
    throw a MoCOCrWException and change nothing; so does [addAssociatedData]
    after a non-empty [update]. *)
Theorem aes_call_order i m a (Hdone : _isFinished i = true ∨ _isUpdated i = true) :
  (∃ w, Impl.addAssociatedData a i = (Throw (MoCOCrWException w), i)) ∧
  (_isFinished i = true →
   (∃ w, Impl.update m i = (Throw (MoCOCrWException w), i)) ∧
   (∃ w, Impl.finish i = (Throw (MoCOCrWException w), i))).
Proof.
  split; [|intros Hf; split].
  - unfold Impl.addAssociatedData, throw_if, bind, gets. destruct (_isUpdated i) eqn:Hu.
    + by eexists.
    + destruct Hdone as [Hf|]; [|done]. cbn. rewrite Hf. by eexists.
  - unfold Impl.update, throw_if, bind, gets. cbn. rewrite Hf. by eexists.
  - unfold Impl.finish, throw_if, bind, gets. cbn. rewrite Hf. by eexists.
Qed.

(** AES-GCM ignores all but the first twelve bytes of a custom IV (the
    context whose IV length was set is reset before it is used): two ciphers
    whose IVs agree on twelve bytes give the same output on the same input. *)
Theorem gcm_iv_truncated keySize padding secretKey iv1 iv2 operation
    (i j : AESCipherImpl St) os1 out1 i' os2 out2 j'
    (Hiv1 : 12 ≤ size iv1) (Hiv2 : 12 ≤ size iv2)
    (Hprefix : take 12 iv1 = take 12 iv2)
    (Hi : Impl.new GCM keySize padding secretKey iv1 operation = Val i)
    (Hj : Impl.new GCM keySize padding secretKey iv2 operation = Val j)
    (Hos1 : Forall (op_ok GCM) os1) (Hos2 : Forall (op_ok GCM) os2)
    (Hr1 : run os1 i = (Val out1, i')) (Hr2 : run os2 j = (Val out2, j'))
    (Hf1 : _isFinished i' = true) (Hf2 : _isFinished j' = true)
    (Hdata : data_of os1 = data_of os2) (Haad : aad_of os1 = aad_of os2) :
  out1 = out2.
Proof.
  pose proof (new_spec (St := St) GCM keySize padding secretKey iv1 operation) as Hn1.
  pose proof (new_spec (St := St) GCM keySize padding secretKey iv2 operation) as Hn2.
  rewrite Hi in Hn1. rewrite Hj in Hn2.
  destruct Hn1 as (_ & _ & _ & _ & _ & Htr1).
  destruct Hn2 as (_ & _ & _ & _ & _ & Htr2).
  pose proof (run_tracks _ GCM os1 _ _ _ _ Htr1 (is_gcm_eq _ _) Hos1) as Hwp1.
  pose proof (run_tracks _ GCM os2 _ _ _ _ Htr2 (is_gcm_eq _ _) Hos2) as Hwp2.
  apply (wp_run _ _ _ _ _ _ Hr1) in Hwp1. apply (wp_run _ _ _ _ _ _ Hr2) in Hwp2.
  cbn beta iota in Hwp1, Hwp2.
  apply tracks_finished_result in Hwp1; [|done]. apply tracks_finished_result in Hwp2; [|done].
  cbn [app] in Hwp1, Hwp2. rewrite <- Hwp1, <- Hwp2, Hdata, Haad.
  unfold session_of. rewrite iv_size_eq.
  change (Z.to_nat (getDefaultIVLength GCM)) with 12%nat. by rewrite Hprefix.
Qed.

(** Associated data is not limited to the range of [int]: of 2^32 + k
    bytes only the first k are authenticated, without an error. *)
Theorem gcm_aad_truncated (s : session) (aad data out a : bytes) (k : Z) i
    (Htr : tracks s aad data out i) (Hg : is_gcm (s_cipher s) = true)
    (Hk : 0 ≤ k ≤ INT_MAX) (Ha : size a = 4294967296 + k) :
  wp (Impl.addAssociatedData a) i
    (λ _ i', tracks s (aad ++ take (Z.to_nat k) a) data out i')
    (λ _ _, ¬ (EvpCipherWorks spec ∧ _isFinished i = false ∧ _isUpdated i = false)).
Proof.
  assert (Hint : to_int (size a) = k) by (rewrite Ha; by apply to_int_wrap).
  pose proof (addAssociatedData_tracks_int s aad data out a i Htr Hg) as Hwp.
  rewrite Hint in Hwp. apply Hwp. lia.
Qed.
End Properties.

(** *** The builder *)

Section BuilderProperties.
Context {api : EvpCipherAPI} {rand : RandAPI} {rand_spec : RandSpec}.

(** The choice of the IV: the one that was set, or a fresh one. *)
Definition iv_chosen (b : AESCipherBuilder) (iv : bytes) : Prop :=
  if size (b_iv b) =? 0 then size iv = getDefaultIVLength (b_mode b) else iv = b_iv b.

Lemma chooseIV_spec b st :
  wp (Builder.chooseIV b) st (λ iv _, iv_chosen b iv)
    (λ e _, e = OpenSSLException [ErrorQueue]).
Proof.
  unfold Builder.chooseIV, iv_chosen. destruct (size (b_iv b) =? 0); [|by wp_simpl].
  apply cryptoRandomBytes_spec. by destruct (b_mode b).
Qed.

(** The encryptors of the builder: [buildEncryptor] serves CBC and CTR,
    [buildAuthenticatedEncryptor] serves GCM, each refuses the other modes; the
    cipher built has the mode of the builder, encrypts, and has the IV that was
    set or, if none was, a random one of the mode's default length. *)
Theorem builder_encryptor (b : AESCipherBuilder) (st : RAND_STATE) :
  wp (Builder.buildEncryptor b) st
    (λ c _, isAuthenticatedCipherMode (b_mode b) = false ∧ _mode c = b_mode b ∧
            _operation c = Encryption ∧ iv_chosen b (_iv c))
    (λ e st', isAuthenticatedCipherMode (b_mode b) = true →
            st' = st ∧ ∃ w, e = MoCOCrWException w) ∧
  wp (Builder.buildAuthenticatedEncryptor b) st
    (λ c _, isAuthenticatedCipherMode (b_mode b) = true ∧ _mode c = b_mode b ∧
            _operation c = Encryption ∧ iv_chosen b (_iv c) ∧
            _requestedAuthTagLength c = Some (b_authTagLength b))
    (λ e st', isAuthenticatedCipherMode (b_mode b) = false →
            st' = st ∧ ∃ w, e = MoCOCrWException w).
Proof.
  unfold Builder.buildEncryptor, Builder.buildAuthenticatedEncryptor.
  split; wp_simpl; destruct (isAuthenticatedCipherMode (b_mode b)); cbn [negb].
  - intros _. split; [done|by eexists].
  - rewrite wp_bind. eapply wp_mono; [apply chooseIV_spec| |by intros].
    intros iv st' Hiv. wp_simpl. destruct (AESCipher_new _ _ _ _ _ _) as [c|e] eqn:Hc.
    + apply new_fields in Hc as (? & <- & ? & _). done.
    + by intros.
  - rewrite wp_bind. eapply wp_mono; [apply chooseIV_spec| |by intros].
    intros iv st' Hiv. wp_simpl. unfold AuthenticatedAESCipher_new.
    destruct (AESCipher_new _ _ _ _ _ _) as [c|e] eqn:Hc; cbn [obind].
    + apply new_fields in Hc as (? & <- & ? & _). done.
    + by intros.
  - intros _. split; [done|by eexists].
Qed.

(** The decryptors of the builder: they serve the same modes as the
    encryptors, use the IV that was set as it is - without one, the build of an
    authenticated decryptor fails - and refuse a tag length other than the
    default. *)
Theorem builder_decryptor {spec : EvpCipherSpec api} (b : AESCipherBuilder) :
  match Builder.buildDecryptor b with
  | Val c => isAuthenticatedCipherMode (b_mode b) = false ∧ _mode c = b_mode b ∧
             _operation c = Decryption ∧ _iv c = b_iv b
  | Throw e => isAuthenticatedCipherMode (b_mode b) = true →
               ∃ w, e = MoCOCrWException w
  end ∧
  match Builder.buildAuthenticatedDecryptor b with
  | Val c => isAuthenticatedCipherMode (b_mode b) = true ∧ _mode c = b_mode b ∧
             _operation c = Decryption ∧ _iv c = b_iv b ∧ b_iv b ≠ [] ∧
             b_authTagLength b = DefaultAuthTagLength
  | Throw e => isAuthenticatedCipherMode (b_mode b) = false ∨
               b_authTagLength b ≠ DefaultAuthTagLength →
               ∃ w, e = MoCOCrWException w
  end.
Proof.
  unfold Builder.buildDecryptor, Builder.buildAuthenticatedDecryptor.
  split; destruct (isAuthenticatedCipherMode (b_mode b)) eqn:Hm; cbn [negb].
  - intros _. by eexists.
  - destruct (AESCipher_new _ _ _ _ _ _) as [c|e] eqn:Hc; [|done].
    by apply new_fields in Hc as (? & ? & ? & _).
  - destruct (Z.eqb_spec (b_authTagLength b) DefaultAuthTagLength); cbn [negb];
      [|by eexists].
    unfold AuthenticatedAESCipher_new.
    destruct (AESCipher_new _ _ _ _ _ _) as [c|e'] eqn:Hc; cbn [obind].
    + pose proof Hc as (? & ? & ? & _)%new_fields. split_and!; try done.
      intros Hnil. rewrite Hnil in Hc.
      pose proof (new_spec (St := QueueOfVectorsMemoryStrategy) (b_mode b) (b_keySize b)
                    (b_padding b) (b_secretKey b) [] Decryption) as Hn.
      unfold AESCipher_new in Hc. rewrite Hc in Hn. destruct Hn as [[[_ Hacc] _] _].
      rewrite Hm in Hacc. sizes. lia.
    + intros [|]; [done|congruence].
  - intros _. by eexists.
Qed.
End BuilderProperties.

(** ** Witnesses *)

Module Witnesses.
Import XorCipher.
Abbreviation Cipher := (@AESCipherImpl XorCipher.api QueueOfVectorsMemoryStrategy).

Definition key : bytes := replicate 16 Byte.x5a.
Definition iv12 : bytes := replicate 12 Byte.x01.
(** same first twelve bytes, then different ones *)
Definition iv13 : bytes := iv12 ++ [Byte.x02].
Definition iv14 : bytes := iv12 ++ [Byte.x03; Byte.x04].

Definition build (iv : bytes) (op : Operation) : outcome Cipher :=
  @Impl.new XorCipher.api QueueOfVectorsMemoryStrategy queue_strategy
    GCM S_128 PKCS key iv op.
Definition dummy : Cipher :=
  mkImpl XorCipher.api QueueOfVectorsMemoryStrategy GCM [] [] None Encryption
    XorCipher.empty QueueOfVectors.init false false.
Definition enc : Cipher := force dummy (build iv12 Encryption).
Definition dec : Cipher := force dummy (build iv12 Decryption).

Definition aad : bytes := str "header".
Definition eops : list aes_op :=
  [SetAuthTagLength 16; AddAssociatedData aad; Update (str "attack"); Read 3;
   Update (str " at dawn"); ReadAll].
Definition c1 : bytes := force [] (run eops enc).1.
Definition enc1 : Cipher := (run eops enc).2.
Definition c2 : bytes := force [] (Impl.finish enc1).1.
Definition enc2 : Cipher := (Impl.finish enc1).2.
Definition dops : list aes_op :=
  [AddAssociatedData aad; Update (take 5 (c1 ++ c2)); Update (drop 5 (c1 ++ c2));
   SetAuthTag (_authTag enc2)].
Definition dec1 : Cipher := (run dops dec).2.
Definition p1 : bytes := force [] (run dops dec).1.
Definition p2 : bytes := force [] (Impl.finish dec1).1.
Definition dec2 : Cipher := (Impl.finish dec1).2.

Ltac ops_ok :=
  repeat apply Forall_cons_2; try apply Forall_nil_2; cbn;
  unfold SIZE_MAX, INT_MAX; split_and?; first [done|lia|vm_compute; done].

Lemma enc_built : build iv12 Encryption = Val enc.
Proof. returns_val dummy (build iv12 Encryption). Qed.
Lemma dec_built : build iv12 Decryption = Val dec.
Proof. returns_val dummy (build iv12 Decryption). Qed.

Lemma eops_ok : Forall (op_ok GCM) eops.
Proof. ops_ok. Qed.

Lemma dops_ok : Forall (op_ok GCM) dops.
Proof. ops_ok. Qed.

Definition fops : list aes_op := eops ++ [Finish].
Definition c : bytes := force [] (run fops enc).1.
Definition encf : Cipher := (run fops enc).2.


Lemma aes_roundtrip_witness :
  run eops enc = (Val c1, enc1) ∧ Impl.finish enc1 = (Val c2, enc2) ∧
  run dops dec = (Val p1, dec1) ∧ Impl.finish dec1 = (Val p2, dec2) ∧
  p1 ++ p2 = str "attack at dawn".
Proof.
  assert (H1 : run eops enc = (Val c1, enc1))
    by returns ([] : bytes) (run eops) enc.
  assert (H2 : Impl.finish enc1 = (Val c2, enc2))
    by returns ([] : bytes) Impl.finish enc1.
  assert (H3 : run dops dec = (Val p1, dec1))
    by returns ([] : bytes) (run dops) dec.
  assert (H4 : Impl.finish dec1 = (Val p2, dec2))
    by returns ([] : bytes) Impl.finish dec1.
  split; [exact H1|split; [exact H2|split; [exact H3|split; [exact H4|]]]].
  refine (aes_roundtrip GCM S_128 PKCS key iv12 enc eops c1 enc1 c2 enc2
            dec dops p1 dec1 p2 dec2 enc_built dec_built eops_ok dops_ok
            H1 H2 H3 H4 _ _);
    by vm_compute.
Defined.


Lemma aes_new_checks_witness :
  (accepted GCM S_128 key iv12 ∧ _iv enc = iv12) ∧
  (build (str "short") Encryption = Throw UndefinedBehaviour ∧
   read_past_end GCM S_128 key (str "short")).
Proof.
  split.
  - pose proof (aes_new_checks (St := QueueOfVectorsMemoryStrategy) GCM S_128 PKCS key iv12
                  Encryption) as H.
    pose proof enc_built as Hb. unfold build in Hb. rewrite Hb in H.
    destruct H as ([? _] & _ & ? & _). split; assumption.
  - assert (Hb : build (str "short") Encryption = Throw UndefinedBehaviour) by by vm_compute.
    split; [exact Hb|].
    pose proof (aes_new_checks (St := QueueOfVectorsMemoryStrategy) GCM S_128 PKCS key
                  (str "short") Encryption) as H.
    unfold build in Hb. rewrite Hb in H.
    destruct H as [[_ H]|[[[H _]|[[H _]|[[_ [H _]]|H]]] _]]; [exact H|by destruct H..].
Defined.

Lemma aes_call_order_witness :
  _isFinished enc2 = true ∧
  ∃ w, Impl.update (str "more") enc2 = (Throw (MoCOCrWException w), enc2).
Proof.
  assert (Hf : _isFinished enc2 = true) by by vm_compute.
  split; [exact Hf|].
  exact (proj1 (proj2 (aes_call_order enc2 (str "more") [] (or_introl Hf)) Hf)).
Defined.

Definition ops : list aes_op := [Update (str "secret"); SetAuthTagLength 16; Finish].
Definition enc13 : Cipher := force dummy (build iv13 Encryption).
Definition enc14 : Cipher := force dummy (build iv14 Encryption).
Definition out13 : bytes := force [] (run ops enc13).1.
Definition out14 : bytes := force [] (run ops enc14).1.

Lemma gcm_iv_truncated_witness :
  iv13 ≠ iv14 ∧ take 12 iv13 = take 12 iv14 ∧ out13 = out14.
Proof.
  assert (Hi : build iv13 Encryption = Val enc13)
    by returns_val dummy (build iv13 Encryption).
  assert (Hj : build iv14 Encryption = Val enc14)
    by returns_val dummy (build iv14 Encryption).
  assert (Ho : Forall (op_ok GCM) ops) by ops_ok.
  assert (H1 : run ops enc13 = (Val out13, (run ops enc13).2))
    by returns ([] : bytes) (run ops) enc13.
  assert (H2 : run ops enc14 = (Val out14, (run ops enc14).2))
    by returns ([] : bytes) (run ops) enc14.
  split; [done|]. assert (Hp : take 12 iv13 = take 12 iv14) by done. split; [exact Hp|].
  refine (gcm_iv_truncated S_128 PKCS key iv13 iv14 Encryption enc13 enc14
            ops _ _ ops _ _ _ _ Hp Hi Hj Ho Ho H1 H2 _ _ eq_refl eq_refl);
    by vm_compute.
Defined.

Lemma enc_tracks : tracks (session_of GCM S_128 PKCS key iv12 Encryption) [] [] [] enc.
Proof.
  pose proof (new_spec (St := QueueOfVectorsMemoryStrategy) GCM S_128 PKCS key iv12
                Encryption) as H.
  pose proof enc_built as Hb. unfold build in Hb. rewrite Hb in H. apply H.
Qed.

Lemma gcm_aad_truncated_witness :
  size (zeros (4294967296 + 5)) = 4294967296 + 5 ∧
  wp (Impl.addAssociatedData (zeros (4294967296 + 5))) enc
    (λ _ i', tracks (session_of GCM S_128 PKCS key iv12 Encryption)
               ([] ++ take (Z.to_nat 5) (zeros (4294967296 + 5))) [] [] i') (λ _ _, True).
Proof.
  assert (Hs : size (zeros (4294967296 + 5)) = 4294967296 + 5) by (apply size_zeros; lia).
  split; [exact Hs|].
  refine (gcm_aad_truncated (session_of GCM S_128 PKCS key iv12 Encryption) [] [] []
            (zeros (4294967296 + 5)) 5 enc _ _ _ Hs).
  - exact enc_tracks.
  - done.
  - unfold INT_MAX. lia.
Defined.

Definition builder : AESCipherBuilder :=
  Builder.setPadding NO (Builder.new CTR S_128 key).

Lemma builder_encryptor_witness :
  is_val (@Builder.buildEncryptor XorCipher.api CounterRand.api builder
    (7 : @RAND_STATE CounterRand.api)).1 = true ∧
  wp (@Builder.buildEncryptor XorCipher.api CounterRand.api builder)
    (7 : @RAND_STATE CounterRand.api)
    (λ c _, isAuthenticatedCipherMode CTR = false ∧ _mode c = CTR ∧
            _operation c = Encryption ∧ iv_chosen builder (_iv c))
    (λ e st', isAuthenticatedCipherMode CTR = true →
       st' = (7 : @RAND_STATE CounterRand.api) ∧ ∃ w, e = MoCOCrWException w).
Proof.
  split; [by vm_compute|].
  exact (proj1 (@builder_encryptor XorCipher.api CounterRand.api CounterRand.spec
                  builder 7)).
Defined.
End Witnesses.
