(* ===== verification/AESProgress.v ===== *)
(** * The AES ciphers deliver

    [AESFacts] says what a cipher returns if it returns.  Here OpenSSL carries out
    its calls ([EvpCipherWorks]): a cipher with a key of its size and an IV of at
    least its default length is made, a run in the documented order returns, and a decryption of what an encryption handed
    out gives the message back. *)

From S2P Require Import Prelude CheckCall SymmetricMemory Util SymmetricCrypto XorCipher AESFacts.

(** ** Runs in the documented order *)

(** The calls between construction and [finish]: the message in pieces that are
    not too big, associated data in front of it, output at any time.  [updated]: there
    was a piece of the message already. *)
Fixpoint ordered (mode : SymmetricCipherMode) (updated : bool) (os : list aes_op) : Prop :=
  match os with
  | [] => True
  | Update m :: os' =>
      size m ≤ INT_MAX - EVP_MAX_BLOCK_LENGTH ∧ ordered mode (updated || (0 <? size m)) os'
  | AddAssociatedData a :: os' =>
      updated = false ∧ isAuthenticatedCipherMode mode = true ∧ size a ≤ INT_MAX ∧
      ordered mode updated os'
  | Read n :: os' => 0 ≤ n ≤ SIZE_MAX ∧ ordered mode updated os'
  | ReadAll :: os' | GetAuthTag :: os' | GetIV :: os' => ordered mode updated os'
  | SetAuthTag _ :: _ | SetAuthTagLength _ :: _ | Finish :: _ => False
  end.

Section Progress.
Context {api : EvpCipherAPI} {spec : EvpCipherSpec api}.
Context {St : Type} {strat : CipherMemoryStrategyI St}
        {strat_spec : CipherMemoryStrategySpec St}.
Implicit Types (i : AESCipherImpl St).

(** What these calls leave alone. *)
Definition framed i i' : Prop :=
  _mode i' = _mode i ∧ _operation i' = _operation i ∧ _authTag i' = _authTag i ∧
  _requestedAuthTagLength i' = _requestedAuthTagLength i ∧ _isFinished i' = _isFinished i.

#[export] Instance framed_preorder : PreOrder framed.
Proof.
  split; [by intros i|].
  intros i i' i'' (?&?&?&?&?) (?&?&?&?&?). unfold framed. split_and!; by etrans.
Qed.

Lemma frame_on_ctx {A} (m : M EVP_CIPHER_CTX A) i :
  wp (Impl.on_ctx m) i (λ _ i', framed i i' ∧ _isUpdated i' = _isUpdated i) (λ _ _, True).
Proof. unfold Impl.on_ctx, wp, zoom. by destruct (m _) as [[] ?]. Qed.

Lemma frame_on_buffer {A} (m : M St A) i :
  wp (Impl.on_buffer m) i (λ _ i', framed i i' ∧ _isUpdated i' = _isUpdated i) (λ _ _, True).
Proof. unfold Impl.on_buffer, wp, zoom. by destruct (m _) as [[] ?]. Qed.

Lemma update_frame m i :
  wp (Impl.update m) i
    (λ _ i', framed i i' ∧ (size m = 0 → _isUpdated i' = _isUpdated i)) (λ _ _, True).
Proof.
  unfold Impl.update. wp_simpl.
  destruct (_isFinished i); wp_simpl; [done|]. destruct (_ <? size m); [done|].
  destruct (Z.leb_spec (to_int (size m)) 0); [done|].
  assert (Hm : size m ≠ 0) by (intros Hz; rewrite Hz in *; done).
  wp_simpl. eapply wp_mono; [apply frame_on_ctx| |done].
  intros out i1 [Hf1 _]. wp_simpl. destruct (write_buffer _ _); [|done].
  assert (Hend : ∀ i2, framed i i2 →
    framed i (Impl.set_isUpdated true i2) ∧ (size m = 0 → true = _isUpdated i)) by done.
  destruct (0 <? size out); wp_simpl; [|by apply Hend].
  eapply wp_mono; [apply frame_on_buffer| |done]. intros [] i2 [Hf2 _]. wp_simpl.
  apply Hend. by etrans.
Qed.

Lemma addAssociatedData_frame a i :
  wp (Impl.addAssociatedData a) i
    (λ _ i', framed i i' ∧ _isUpdated i' = _isUpdated i) (λ _ _, True).
Proof.
  unfold Impl.addAssociatedData. wp_simpl.
  destruct (_isUpdated i) eqn:Hu; [done|]. wp_simpl. destruct (_isFinished i); [done|]. wp_simpl.
  eapply wp_mono; [apply frame_on_ctx| |done]. intros out i' [Hf He]. wp_simpl.
  by rewrite He, Hu.
Qed.

(** A cipher that can go on: it tracks the session, is not finished and takes
    associated data unless [updated]. *)
Definition going (mode : SymmetricCipherMode) (updated : bool) (s : session) aad data out i :=
  tracks s aad data out i ∧ is_gcm (s_cipher s) = isAuthenticatedCipherMode mode ∧
  _isFinished i = false ∧ (updated = false → _isUpdated i = false).

Lemma exec_returns mode updated s aad data out o os i :
  EvpCipherWorks spec → going mode updated s aad data out i → ordered mode updated (o :: os) →
  ∃ r i' updated', exec o i = (Val r, i') ∧ framed i i' ∧ ordered mode updated' os ∧
    going mode updated' s (aad ++ op_aad o) (data ++ op_data o) (out ++ r) i'.
Proof.
  intros HW (Htr & Hg & Hfin & Hu) Ho.
  assert (Hbase : ∀ Ψ updated',
    ordered mode updated' os →
    wp (exec o) i (λ r i', tracks s (aad ++ op_aad o) (data ++ op_data o) (out ++ r) i')
      Ψ → (∀ e i', ¬ Ψ e i') →
    wp (exec o) i (λ _ i', framed i i' ∧ (updated' = false → _isUpdated i' = false)) (λ _ _, True) →
    ∃ r i' updated', exec o i = (Val r, i') ∧ framed i i' ∧ ordered mode updated' os ∧
      going mode updated' s (aad ++ op_aad o) (data ++ op_data o) (out ++ r) i').
  { intros Ψ updated' Hos Ht Hn Hf.
    destruct (wp_returns _ _ _ _ (wp_and _ _ _ _ _ _ Ht Hf)) as (r & i' & He & Ht' & Hfr & Hu');
      [intros e i' [Hx _]; by apply (Hn e i')|].
    exists r, i', updated'. split_and!; try done; [].
    split_and!; try done. destruct Hfr as (_ & _ & _ & _ & ->). done. }
  destruct o; cbn [ordered] in Ho; try done; cbn [exec op_aad op_data] in *;
    rewrite ?app_nil_r in *.
  - destruct Ho as [Hm Hos]. eapply Hbase; [exact Hos| |..].
    + wp_simpl. eapply wp_mono; [by apply update_tracks| |intros e i' Hx; exact Hx].
      intros [] i' Ht. wp_simpl. by rewrite app_nil_r.
    + intros e i' Hx. by apply Hx.
    + wp_simpl. eapply wp_mono; [apply update_frame| |done]. intros [] i' [Hf He]. wp_simpl.
      split; [done|]. intros [Hupd Hz%Z.ltb_ge]%orb_false_iff. pose proof (size_nonneg message).
      rewrite He by lia. by apply Hu.
  - destruct Ho as (-> & Hmode & Ha & Hos). eapply Hbase; [exact Hos| |..].
    + wp_simpl. eapply wp_mono; [apply addAssociatedData_tracks; [done|by rewrite Hg|done]| |].
      * intros [] i' Ht. wp_simpl. by rewrite app_nil_r.
      * intros e i' Hx. exact Hx.
    + intros e i' Hx. by apply Hx; auto.
    + wp_simpl. eapply wp_mono; [apply addAssociatedData_frame| |done].
      intros [] i' [Hf He]. wp_simpl. by rewrite He.
  - destruct Ho as [Hn Hos]. eapply Hbase; [exact Hos|by apply read_tracks|auto|].
    eapply wp_mono; [apply frame_on_buffer| |done]. intros r i' [? He]. by rewrite He.
  - eapply Hbase; [exact Ho|by apply readAll_tracks|auto|].
    eapply wp_mono; [apply frame_on_buffer| |done]. intros r i' [? He]. by rewrite He.
  - eapply (Hbase (λ _ _, False)); [exact Ho| |auto|done].
    unfold Impl.getAuthTag, Impl.getIV. wp_simpl. by rewrite app_nil_r.
  - eapply (Hbase (λ _ _, False)); [exact Ho| |auto|done].
    unfold Impl.getAuthTag, Impl.getIV. wp_simpl. by rewrite app_nil_r.
Qed.

Lemma run_returns mode os : ∀ updated s aad data out i,
  EvpCipherWorks spec → going mode updated s aad data out i → ordered mode updated os →
  ∃ r i' updated', run os i = (Val r, i') ∧ framed i i' ∧
    going mode updated' s (aad ++ aad_of os) (data ++ data_of os) (out ++ r) i'.
Proof.
  induction os as [|o os IH]; intros updated s aad data out i HW Hi Ho.
  { exists [], i, updated. unfold aad_of, data_of. cbn. by rewrite !app_nil_r. }
  destruct (exec_returns _ _ _ _ _ _ _ _ _ HW Hi Ho) as (r & i1 & u1 & He & Hf & Ho' & Hi1).
  destruct (IH _ _ _ _ _ _ HW Hi1 Ho') as (r' & i2 & u2 & Hr & Hf' & Hi2).
  exists (r ++ r'), i2, u2. cbn [run]. unfold bind. rewrite He, Hr. split_and!; [done|by etrans|].
  unfold aad_of, data_of in *. cbn. by rewrite !app_assoc.
Qed.

Lemma finish_returns s aad data out i :
  EvpCipherWorks spec → tracks s aad data out i → finishable s aad data i →
  ∃ r i', Impl.finish i = (Val r, i') ∧ finish_post s aad data out i r i'.
Proof.
  intros HW Ht Hf. apply (wp_returns _ _ _ _ (finish_spec s aad data out i Ht)).
  intros e i' Hn. by apply Hn.
Qed.

(** A construction with parameters that the checks accept succeeds, if the IV is not
    shorter than what is read of it. *)
Lemma new_returns mode keySize padding secretKey iv operation :
  EvpCipherWorks spec → accepted mode keySize secretKey iv →
  getDefaultIVLength mode ≤ size iv ≤ INT_MAX →
  ∃ i, Impl.new (St := St) mode keySize padding secretKey iv operation = Val i ∧
    _mode i = mode ∧ _operation i = operation ∧
    going mode false (session_of mode keySize padding secretKey iv operation) [] [] [] i.
Proof.
  intros HW Ha [Hr Hs].
  pose proof (new_spec (St := St) mode keySize padding secretKey iv operation) as Hn.
  destruct (Impl.new _ _ _ _ _ _) as [i|e] eqn:Hi; 
    [|destruct Hn as [[_ [_ [-> Hs']]]|[_ []]]; [cbn in Hr; lia|done]].
  destruct Hn as (_ & Hm & _ & Ho & _ & Ht). exists i. split_and!; try done.
  apply new_fields in Hi as (_ & _ & _ & _ & Hf & Hu). split_and!; [done|apply is_gcm_eq|done|done].
Qed.

(** The length of the tag and the tag are set without a call of OpenSSL. *)
Lemma going_setTagLength mode u s aad data out i n :
  0 ≤ n → going mode u s aad data out i →
  going mode u s aad data out (Impl.set_requestedAuthTagLength n i).
Proof.
  intros Hn (Ht & Hg & Hf & Hu). split_and!; [|done..].
  destruct Ht as [tag (?&?&_) ? ? ? ?|(?&?&_) ? ? ? ?]; [eapply tracks_running|apply tracks_finished];
    try done; (split_and!; [done..|by intros len [= <-]]).
Qed.

Lemma going_setTag mode u s aad data out i t :
  going mode u s aad data out i → going mode u s aad data out (Impl.set_authTag t i).
Proof.
  intros (Ht & Hg & Hf & Hu). split_and!; [|done..].
  destruct Ht; [by eapply tracks_running|by apply tracks_finished].
Qed.
End Progress.

Section Properties.
Context {api : EvpCipherAPI} {spec : EvpCipherSpec api}.
Context {St : Type} {strat : CipherMemoryStrategyI St}
        {strat_spec : CipherMemoryStrategySpec St}.

(** A client that encrypts by the calls [os] and asks for a tag, and one that
    decrypts by the calls [os] and verifies a tag (which only GCM has). *)
Definition encrypt mode keySize padding secretKey iv (tagLength : Z) (os : list aes_op) :
    outcome (bytes * bytes) :=
  let? e := Impl.new (St := St) mode keySize padding secretKey iv Encryption in
  ((Impl.setAuthTagLength tagLength ;;
    let! c := run os in
    let! last := Impl.finish in
    let! tag := Impl.getAuthTag in ret (c ++ last, tag)) e).1.

Definition decrypt mode keySize padding secretKey iv (tag : bytes) (os : list aes_op) :
    outcome bytes :=
  let? d := Impl.new (St := St) mode keySize padding secretKey iv Decryption in
  ((Impl.setAuthTag tag ;;
    let! p := run os in
    let! last := Impl.finish in ret (p ++ last)) d).1.

Context (mode : SymmetricCipherMode) (keySize : SymmetricCipherKeySize)
        (padding : SymmetricCipherPadding) (secretKey iv : bytes).
Hypothesis works : EvpCipherWorks spec.
Hypothesis key_ok : accepted mode keySize secretKey iv.
Hypothesis iv_ok : getDefaultIVLength mode ≤ size iv ≤ INT_MAX.

Let c := Impl.getEVPCipherConstructorForModeAndSize mode keySize.
Let session := session_of mode keySize padding secretKey iv.

(** An encryption hands out the ciphertext and, for GCM, its tag. *)
Lemma encrypt_returns n os :
  1 ≤ n ≤ 16 → ordered mode false os →
  padding = PKCS ∨ size (data_of os) mod block_size c = 0 →
  ∃ tag, encrypt mode keySize padding secretKey iv n os =
      Val (evp_crypt (session Encryption) (aad_of os) (data_of os), tag) ∧
    (mode = GCM → tag = take (Z.to_nat n) (evp_tag (session Encryption) (aad_of os) (data_of os))).
Proof.
  intros Hn Ho Hpad. unfold encrypt.
  destruct (new_returns (St := St) mode keySize padding secretKey iv Encryption works
    key_ok iv_ok) as (i & -> & Hm & Hop & Hi).
  assert (Hi0 : going mode false (session Encryption) [] [] [] (Impl.set_requestedAuthTagLength n i))
    by (apply going_setTagLength; [lia|done]).
  destruct (run_returns mode os _ _ _ _ _ _ works Hi0 Ho)
    as (r & i1 & u & Hr & (Hm1 & Hop1 & Ht1 & Hl1 & Hf1) & (Htr & Hg & Hfin & _)).
  cbn in Hm1, Hop1, Ht1, Hl1. cbn [app] in Htr.
  destruct (finish_returns _ _ _ _ _ works Htr) as (last & i2 & Hl & Hpost).
  { split_and!; [done|..].
    - intros _. destruct Hpad as [-> | ?]; [by left|by right].
    - done.
    - intros _ Hd. congruence.
    - intros _ _. exists n. by rewrite Hl1. }
  cbn [obind]. unfold bind, Impl.setAuthTagLength, modify, Impl.getAuthTag, gets, ret.
  rewrite Hr, Hl. cbn. destruct Hpost as (_ & _ & He & _ & _ & Htag). exists (_authTag i2).
  rewrite He. split; [done|]. intros ->. apply Htag; [congruence|congruence|done|].
  unfold INT_MAX. lia.
Qed.

(** A decryption of a ciphertext, with the tag of this ciphertext for GCM. *)
Lemma decrypt_returns tag os m :
  ordered mode false os →
  padding = PKCS ∨ size m mod block_size c = 0 →
  data_of os = evp_crypt (session Encryption) (aad_of os) m →
  (mode = GCM → 1 ≤ size tag ≤ 16 ∧
     tag = take (length tag) (evp_tag (session Encryption) (aad_of os) m)) →
  decrypt mode keySize padding secretKey iv tag os = Val m.
Proof.
  intros Ho Hpad Hd Htag. unfold decrypt.
  destruct (new_returns (St := St) mode keySize padding secretKey iv Decryption works
    key_ok iv_ok) as (i & -> & Hm & Hop & Hi).
  apply (going_setTag _ _ _ _ _ _ _ tag) in Hi as Hi0.
  destruct (run_returns mode os _ _ _ _ _ _ works Hi0 Ho)
    as (r & i1 & u & Hr & (Hm1 & Hop1 & Ht1 & Hl1 & Hf1) & (Htr & Hg & Hfin & _)).
  assert (Hpad' : (match padding with PKCS => true | NO => false end) = true ∨
                  size m mod block_size c = 0) by (by destruct Hpad as [-> | ?]; [left|right]).
  cbn in Hm1, Hop1, Ht1, Hl1. cbn [app] in Htr.
  destruct (finish_returns _ _ _ _ _ works Htr) as (last & i2 & Hl & Hpost).
  { split_and!; [done|done|..].
    - intros _. exists m. split; [exact Hpad'|exact Hd].
    - intros Hg1 _. rewrite Ht1.
      destruct Htag as [Hs Ht]; [congruence|]. split; [done|]. rewrite Ht at 1. f_equal.
      rewrite Hd. unfold session_of. symmetry. apply evp_tag_inverse.
      rewrite is_gcm_eq. assert (mode = GCM) as -> by congruence. done.
    - intros _ He. congruence. }
  cbn [obind]. unfold bind, Impl.setAuthTag, modify, ret.
  rewrite Hr, Hl. cbn. destruct Hpost as (_ & _ & He & _). rewrite <- He, Hd.
  f_equal. unfold session_of. by apply evp_crypt_inverse.
Qed.
End Properties.

(** ** The interface *)

(** The inputs for which an AES cipher without authentication can be finished. *)
Definition complete_input {api : EvpCipherAPI} {spec : EvpCipherSpec api} (s : session)
    (data : bytes) : Prop :=
  (s_enc s = 1 → s_padding s = true ∨ size data mod block_size (s_cipher s) = 0) ∧
  (s_enc s = 0 → ∃ m,
    (s_padding s = true ∨ size m mod block_size (s_cipher s) = 0) ∧
    data = evp_crypt {| s_cipher := s_cipher s; s_key := s_key s; s_iv := s_iv s;
                        s_enc := 1; s_padding := s_padding s |} [] m).

(** An AES cipher from which nothing was read keeps the promise of
    [SymmetricCipherI]. *)
#[export] Instance AESCipher_spec {api : EvpCipherAPI} {spec : EvpCipherSpec api} :
    SymmetricCipherSpec AESCipher.
Proof.
  refine {| cipher_open := λ (c : AESCipher) f d V,
    ∃ s, f = evp_crypt s [] ∧ tracks s [] d [] c ∧
      ∀ x, V x → EvpCipherWorks spec ∧ _isFinished c = false ∧ _mode c ≠ GCM ∧
                 complete_input s x |}.
  - intros c f d V x (s & -> & Ht & HV).
    eapply wp_mono; [exact (wp_and _ _ _ _ _ _ (update_tracks _ _ _ _ x _ Ht) (update_frame x c))|..].
    + intros [] c' (Ht' & (Hm & _ & _ & _ & Hf) & _). exists s. rewrite Hm, Hf. done.
    + intros e c' [Hn _]. destruct (Z.lt_ge_cases (INT_MAX - EVP_MAX_BLOCK_LENGTH) (size x));
        [by left|right]. intros y (HW & Hf & _)%HV. by apply Hn.
  - intros c f d V (s & -> & Ht & HV).
    eapply wp_mono; [by apply finish_spec|by intros r c' (_ & _ & Hr & _)|].
    intros e c' Hn (HW & Hf & Hm & Henc & Hdec)%HV. apply Hn. split; [done|].
    by split_and!.
Defined.

(** C1. Encrypted messages are delivered, in all modes, key sizes and paddings: with a
    working OpenSSL, a key of the cipher's size and an IV of 16 bytes (CBC, CTR) or of 12
    bytes to INT_MAX (GCM; shorter ones are the undefined case of the constructor), an
    encryption in the documented order returns, and so does every decryption of what it
    handed out, however either side cuts the text into pieces of at most INT_MAX - 32 bytes,
    with the same associated data (GCM only, in front of the text, in pieces of at most
    INT_MAX bytes) and, for GCM, the tag of the requested length, 1 to 16 bytes.  It gives
    back the message.  Without padding the message must be of whole blocks. *)
Theorem aes_delivers {api : EvpCipherAPI} {spec : EvpCipherSpec api}
    {St} {strat : CipherMemoryStrategyI St} {strat_spec : CipherMemoryStrategySpec St}
    mode keySize padding (secretKey iv : bytes) (n : Z) (es : list aes_op)
    (Hworks : EvpCipherWorks spec) (Hparams : accepted mode keySize secretKey iv)
    (Hiv : getDefaultIVLength mode ≤ size iv ≤ INT_MAX) (Hn : 1 ≤ n ≤ 16)
    (Hes : ordered mode false es)
    (Hpad : padding = PKCS ∨ size (data_of es) mod
       block_size (Impl.getEVPCipherConstructorForModeAndSize mode keySize) = 0) :
  ∃ ct tag, encrypt (St := St) mode keySize padding secretKey iv n es = Val (ct, tag) ∧
    (mode = GCM → size tag = n) ∧
    ∀ ds, ordered mode false ds → data_of ds = ct → aad_of ds = aad_of es →
      decrypt (St := St) mode keySize padding secretKey iv tag ds = Val (data_of es).
Proof.
  destruct (encrypt_returns (St := St) mode keySize padding secretKey iv Hworks Hparams Hiv
    n es Hn Hes Hpad) as (tag & He & Ht).
  assert (Hsize : mode = GCM → size tag = n).
  { intros Hm. rewrite (Ht Hm). apply size_take. rewrite evp_tag_size. lia. }
  eexists _, tag. split_and!; [exact He|done|]. intros ds Hds Hd Ha.
  apply decrypt_returns; try done; rewrite ?Hd, ?Ha; [done|].
  intros Hm. rewrite (Hsize Hm). split; [done|]. rewrite (Ht Hm) at 1. f_equal.
  rewrite <- (Hsize Hm). unfold size. lia.
Qed.

(** GCM with associated data and a tag of twelve bytes. *)
Module Witnesses.
#[local] Existing Instance XorCipher.api.
#[local] Existing Instance XorCipher.spec.

Definition es : list aes_op :=
  [AddAssociatedData (str "header"); Update (str "attack "); Read 3; GetIV; Update (str "at dawn")].
Definition key : bytes := str "0123456789abcdef".
Definition iv : bytes := str "unique nonce".

Lemma aes_delivers_witness :
  ∃ ct tag, encrypt (St := QueueOfVectorsMemoryStrategy) GCM S_128 NO key iv 12 es
              = Val (ct, tag) ∧
    (GCM = GCM → size tag = 12) ∧
    ∀ ds, ordered GCM false ds → data_of ds = ct → aad_of ds = str "header" →
      decrypt (St := QueueOfVectorsMemoryStrategy) GCM S_128 NO key iv tag ds
        = Val (str "attack at dawn").
Proof.
  apply (aes_delivers GCM S_128 NO key iv 12 es XorCipher.cipher_works).
  - split; by vm_compute.
  - split; by vm_compute.
  - done.
  - cbn. split_and!; by vm_compute.
  - right. apply Z.mod_1_r.
Defined.
End Witnesses.
