(* ===== verification/OpenSSLWrap.v ===== *)
(** * Digest and cipher selection: [src/src/openssl_wrap.cpp]

    The enumerations of [src/src/mococrw/openssl_wrap.h] that name digests and
    CMAC ciphers, and the functions that turn them into OpenSSL's objects. *)

From S2P Require Import Prelude CheckCall SymmetricCrypto.

Inductive DigestTypes := SHA1 | SHA256 | SHA384 | SHA512 | SHA3_256 | SHA3_384 | SHA3_512 | NONE.
Inductive CmacCipherTypes := AES_CBC_128 | AES_CBC_256.

#[export] Instance DigestTypes_eq_dec : EqDecision DigestTypes.
Proof. solve_decision. Defined.

Definition EVP_MAX_MD_SIZE : Z := 64.

Class EvpMdAPI := {
  EVP_MD : Type;
  SSL_EVP_sha1 : EVP_MD;
  SSL_EVP_sha256 : EVP_MD;
  SSL_EVP_sha384 : EVP_MD;
  SSL_EVP_sha512 : EVP_MD;
  SSL_EVP_sha3_256 : EVP_MD;
  SSL_EVP_sha3_384 : EVP_MD;
  SSL_EVP_sha3_512 : EVP_MD;
  SSL_EVP_MD_size : EVP_MD → Z;
}.

Definition _EVP_MD_size `{EvpMdAPI} (md : EVP_MD) : Z := SSL_EVP_MD_size md.

Definition _getMDPtrFromDigestType `{EvpMdAPI} (type : DigestTypes) : outcome EVP_MD :=
  match type with
  | SHA1 => Val SSL_EVP_sha1
  | SHA256 => Val SSL_EVP_sha256
  | SHA384 => Val SSL_EVP_sha384
  | SHA512 => Val SSL_EVP_sha512
  | SHA3_256 => Val SSL_EVP_sha3_256
  | SHA3_384 => Val SSL_EVP_sha3_384
  | SHA3_512 => Val SSL_EVP_sha3_512
  | NONE => Throw (RuntimeError [Str "Unknown digest type"])
  end.

Definition _getCipherPtrFromCmacCipherType `{EvpCipherAPI} (cipherType : CmacCipherTypes) :
    EVP_CIPHER :=
  match cipherType with
  | AES_CBC_128 => EVP_aes_128_cbc
  | AES_CBC_256 => EVP_aes_256_cbc
  end.

(** The output size of a digest, in bytes. *)
Definition digest_size (type : DigestTypes) : Z :=
  match type with
  | SHA1 => 20
  | SHA256 | SHA3_256 => 32
  | SHA384 | SHA3_384 => 48
  | SHA512 | SHA3_512 => 64
  | NONE => 0
  end.

(** The sizes OpenSSL documents for its digests. *)
Class EvpMdSpec (api : EvpMdAPI) : Prop := {
  EVP_MD_size_spec type md :
    _getMDPtrFromDigestType type = Val md → SSL_EVP_MD_size md = digest_size type;
}.

(** A concrete set of digests: their own names. *)
Module NamedDigests.
#[export] Instance api : EvpMdAPI := {
  EVP_MD := DigestTypes;
  SSL_EVP_sha1 := SHA1; SSL_EVP_sha256 := SHA256; SSL_EVP_sha384 := SHA384;
  SSL_EVP_sha512 := SHA512; SSL_EVP_sha3_256 := SHA3_256; SSL_EVP_sha3_384 := SHA3_384;
  SSL_EVP_sha3_512 := SHA3_512; SSL_EVP_MD_size := digest_size;
}.

#[export] Instance spec : EvpMdSpec api.
Proof. constructor. by intros [] md [= <-]. Qed.
End NamedDigests.
