(* ===== verification/Hash.v ===== *)
(** * Message digests: [src/src/hash.cpp] and [src/src/mococrw/hash.h]

    Class [Hash] absorbs chunks until [digest] is called and then keeps the
    digest.  The one-shot functions of the header run it once. *)

From S2P Require Import Prelude CheckCall SymmetricCrypto OpenSSLWrap.

(** ** The OpenSSL interface *)

Class EvpDigestAPI {md : EvpMdAPI} := {
  EVP_MD_CTX : Type;
  SSL_EVP_MD_CTX_create : option EVP_MD_CTX;
  SSL_EVP_MD_CTX_init : EVP_MD_CTX → EVP_MD_CTX;
  SSL_EVP_DigestInit_ex (type : EVP_MD) : M EVP_MD_CTX (Z * ());
  SSL_EVP_DigestUpdate (d : bytes) (cnt : Z) : M EVP_MD_CTX (Z * ());
  (** writes the digest; its size is not asked for *)
  SSL_EVP_DigestFinal_ex : M EVP_MD_CTX (Z * bytes);
}.
Arguments EvpDigestAPI : clear implicits.

Section Wrappers.
Context {md : EvpMdAPI} {api : EvpDigestAPI md}.

Definition _EVP_MD_CTX_create : outcome EVP_MD_CTX :=
  run_pure (OpensslCallPtr (ret SSL_EVP_MD_CTX_create)).

Definition _EVP_MD_CTX_init : M EVP_MD_CTX () := modify SSL_EVP_MD_CTX_init.

Definition _EVP_DigestInit_ex (type : EVP_MD) : M EVP_MD_CTX () :=
  OpensslCallIsOne (SSL_EVP_DigestInit_ex type).

Definition _EVP_DigestUpdate (d : bytes) (cnt : Z) : M EVP_MD_CTX () :=
  OpensslCallIsOne (SSL_EVP_DigestUpdate d cnt).

Definition _EVP_DigestFinal_ex (buf : bytes) : M EVP_MD_CTX bytes :=
  let! out := OpensslCallIsOne SSL_EVP_DigestFinal_ex in
  lift (write_buffer buf out).
End Wrappers.

(** ** Class [Hash] *)

Record Hash {md : EvpMdAPI} {api : EvpDigestAPI md} := mkHash {
  _digestCtx : EVP_MD_CTX;
  _finalDigestValue : bytes;
  _digestType : DigestTypes;
}.
Arguments Hash : clear implicits.
Arguments Hash {md api}.

(** The map from digests to their lengths. *)
Definition lengthInBytes : list (DigestTypes * Z) :=
  [(SHA1, 160 / 8); (SHA256, 256 / 8); (SHA384, 384 / 8); (SHA512, 512 / 8);
   (SHA3_256, 256 / 8); (SHA3_384, 384 / 8); (SHA3_512, 512 / 8)].

(** [std::map::at]. *)
Fixpoint map_at {K V} `{EqDecision K} (m : list (K * V)) (k : K) : outcome V :=
  match m with
  | [] => Throw (OutOfRange [Str "map::at"])
  | (k', v) :: m' => if decide (k = k') then Val v else map_at m' k
  end.

Definition getDigestSize (digestType : DigestTypes) : outcome Z :=
  map_at lengthInBytes digestType.
Arguments getDigestSize : simpl never.

Module HashOps.
Section HashOps.
Context {md : EvpMdAPI} {api : EvpDigestAPI md}.

Definition set_digestCtx (c : EVP_MD_CTX) (h : Hash) : Hash :=
  {| _digestCtx := c; _finalDigestValue := _finalDigestValue h; _digestType := _digestType h |}.
Definition set_finalDigestValue (v : bytes) (h : Hash) : Hash :=
  {| _digestCtx := _digestCtx h; _finalDigestValue := v; _digestType := _digestType h |}.
Definition on_ctx {A} (m : M EVP_MD_CTX A) : M Hash A := zoom _digestCtx set_digestCtx m.

(** The constructor. *)
Definition new (digestType : DigestTypes) : outcome Hash :=
  let? digestFn := _getMDPtrFromDigestType digestType in
  let? ctx := _EVP_MD_CTX_create in
  match (_EVP_MD_CTX_init ;; _EVP_DigestInit_ex digestFn) ctx with
  | (Val _, ctx') =>
      Val {| _digestCtx := ctx'; _finalDigestValue := []; _digestType := digestType |}
  | (Throw e, _) => Throw e
  end.

Definition fromDigestType (digestType : DigestTypes) : outcome Hash := new digestType.

Definition digest : M Hash bytes :=
  let! v := gets _finalDigestValue in
  (if bool_decide (v = []) then
     let! t := gets _digestType in
     let! n := lift (getDigestSize t) in
     modify (set_finalDigestValue (resize n v)) ;;
     let! out := on_ctx (_EVP_DigestFinal_ex (resize n v)) in
     modify (set_finalDigestValue out)
   else ret ()) ;;
  gets _finalDigestValue.

(** [update(const uint8_t *chunk, size_t length)]; the overloads for vectors
    and strings pass their data and size. *)
Definition update_raw (chunk : bytes) (length : Z) : M Hash () :=
  let! v := gets _finalDigestValue in
  throw_if (negb (bool_decide (v = []))) (MoCOCrWException
    [Str "update method cannot be called after digest was called"]) ;;
  on_ctx (_EVP_DigestUpdate chunk length).

Definition update (chunk : bytes) : M Hash () := update_raw chunk (size chunk).

(** The factories. *)
Definition Hash_sha1 : outcome Hash := new SHA1.
Definition Hash_sha256 : outcome Hash := new SHA256.
Definition Hash_sha384 : outcome Hash := new SHA384.
Definition Hash_sha512 : outcome Hash := new SHA512.
Definition Hash_sha3_256 : outcome Hash := new SHA3_256.
Definition Hash_sha3_384 : outcome Hash := new SHA3_384.
Definition Hash_sha3_512 : outcome Hash := new SHA3_512.

(** [Hash::sha1().update(message).digest()] and its variants. *)
Definition digest_once (made : outcome Hash) (message : bytes) : outcome bytes :=
  let? h := made in
  fst ((update message ;; digest) h).
Definition one_shot (digestType : DigestTypes) (message : bytes) : outcome bytes :=
  digest_once (new digestType) message.

Definition sha1 (message : bytes) : outcome bytes := digest_once Hash_sha1 message.
Definition sha256 (message : bytes) : outcome bytes := digest_once Hash_sha256 message.
Definition sha384 (message : bytes) : outcome bytes := digest_once Hash_sha384 message.
Definition sha512 (message : bytes) : outcome bytes := digest_once Hash_sha512 message.
Definition sha3_256 (message : bytes) : outcome bytes := digest_once Hash_sha3_256 message.
Definition sha3_384 (message : bytes) : outcome bytes := digest_once Hash_sha3_384 message.
Definition sha3_512 (message : bytes) : outcome bytes := digest_once Hash_sha3_512 message.
End HashOps.
End HashOps.

(** ** The documented behaviour of the OpenSSL functions *)

Class EvpDigestSpec {md : EvpMdAPI} (api : EvpDigestAPI md) := {
  (** the digest of a message *)
  digest_of : EVP_MD → bytes → bytes;
  (** a context that runs a digest and has absorbed a message *)
  md_ctx : EVP_MD_CTX → EVP_MD → bytes → Prop;
  digest_of_size m d : size (digest_of m d) = SSL_EVP_MD_size m;
  DigestInit_spec ctx m :
    wp_total (SSL_EVP_DigestInit_ex m) (SSL_EVP_MD_CTX_init ctx)
      (λ '(rv, _) ctx', rv = 1 → md_ctx ctx' m []);
  DigestUpdate_spec ctx m x d cnt :
    md_ctx ctx m x → 0 ≤ cnt ≤ size d →
    wp_total (SSL_EVP_DigestUpdate d cnt) ctx
      (λ '(rv, _) ctx', rv = 1 → md_ctx ctx' m (x ++ take (Z.to_nat cnt) d));
  DigestFinal_spec ctx m x :
    md_ctx ctx m x →
    wp_total SSL_EVP_DigestFinal_ex ctx (λ '(rv, out) _, rv = 1 → out = digest_of m x);
}.

(** ** Facts *)

Lemma getDigestSize_eq t :
  getDigestSize t = if decide (t = NONE) then Throw (OutOfRange [Str "map::at"])
                    else Val (digest_size t).
Proof. by destruct t. Qed.

(** OpenSSL carries the calls out. *)
Record EvpDigestWorks `{spec : EvpDigestSpec} : Prop := {
  MD_CTX_create_works : SSL_EVP_MD_CTX_create ≠ None;
  DigestInit_works ctx m : succeeds (SSL_EVP_DigestInit_ex m) ctx;
  DigestUpdate_works ctx m x d cnt :
    md_ctx ctx m x → 0 ≤ cnt ≤ size d → succeeds (SSL_EVP_DigestUpdate d cnt) ctx;
  DigestFinal_works ctx m x : md_ctx ctx m x → succeeds SSL_EVP_DigestFinal_ex ctx;
}.
Arguments EvpDigestWorks {md api} spec.

Section Facts.
Context {md : EvpMdAPI} {md_spec : EvpMdSpec md}.
Context {api : EvpDigestAPI md} {spec : EvpDigestSpec api}.
Import HashOps.

(** [h] runs the digest [m] of type [t] and has absorbed [x]. *)
Definition absorbing (h : Hash) (t : DigestTypes) (m : EVP_MD) (x : bytes) : Prop :=
  _getMDPtrFromDigestType t = Val m ∧ _digestType h = t ∧
  _finalDigestValue h = [] ∧ md_ctx (_digestCtx h) m x.

Abbreviation Works := (EvpDigestWorks spec).

Lemma new_absorbing t :
  match new t with
  | Val h => ∃ m, absorbing h t m []
  | Throw e => t = NONE ∨ (e = OpenSSLException [ErrorQueue] ∧ ¬ Works)
  end.
Proof.
  unfold new, _EVP_MD_CTX_create.
  destruct (_getMDPtrFromDigestType t) as [m|] eqn:Hm; [|left; by destruct t].
  cbn [obind]. rewrite run_pure_Ptr. destruct SSL_EVP_MD_CTX_create as [ctx|] eqn:Hc; cbn [obind].
  2: { right. split; [done|]. intros HW. by apply (MD_CTX_create_works HW). }
  assert (Hwp : wp (_EVP_MD_CTX_init ;; _EVP_DigestInit_ex m) ctx
    (λ _ ctx', md_ctx ctx' m []) (λ e _, e = OpenSSLException [ErrorQueue] ∧ ¬ Works)).
  { unfold _EVP_MD_CTX_init, _EVP_DigestInit_ex. wp_simpl.
    call_one DigestInit_spec; [done|not_works DigestInit_works]. }
  unfold wp in Hwp. destruct ((_ ;; _) ctx) as [[[]|e] ctx']; [by exists m|by right].
Qed.

Lemma update_absorbing h t m x chunk :
  absorbing h t m x →
  wp (update chunk) h (λ _ h', absorbing h' t m (x ++ chunk))
    (λ e _, e = OpenSSLException [ErrorQueue] ∧ ¬ Works).
Proof.
  intros (Hm & Ht & Hv & Hc). unfold update, update_raw. wp_simpl.
  rewrite Hv, bool_decide_eq_true_2 by done. cbn [negb].
  unfold on_ctx, _EVP_DigestUpdate. wp_simpl.
  pose proof (size_nonneg chunk).
  call_one DigestUpdate_spec; [exact Hc|lia| |not_works DigestUpdate_works].
  rewrite take_ge in Hok by (unfold size; lia). done.
Qed.

Lemma updates_absorbing chunks h t m x :
  absorbing h t m x →
  wp (mapM_ update chunks) h (λ _ h', absorbing h' t m (x ++ concat chunks))
    (λ e _, e = OpenSSLException [ErrorQueue] ∧ ¬ Works).
Proof.
  revert h x. induction chunks as [|c chunks IH]; intros h x Hh; cbn [mapM_ concat].
  - wp_simpl. by rewrite app_nil_r.
  - wp_simpl. eapply wp_mono; [by apply update_absorbing| |done].
    intros [] h' Hh'. eapply wp_mono; [by apply IH| |done].
    intros [] h'' Hh''. by rewrite app_assoc.
Qed.

Lemma digest_size_pos t : t ≠ NONE → 0 < digest_size t.
Proof. by destruct t. Qed.

Lemma digest_absorbing h t m x :
  absorbing h t m x →
  wp digest h (λ v h', v = digest_of m x ∧ size v = digest_size t ∧
                       _finalDigestValue h' = v ∧ v ≠ [])
    (λ e _, e = OpenSSLException [ErrorQueue] ∧ ¬ Works).
Proof.
  intros (Hm & Ht & Hv & Hc). unfold digest. wp_simpl.
  rewrite Hv, bool_decide_eq_true_2 by done. wp_simpl.
  assert (t ≠ NONE) by (intros ->; done).
  rewrite Ht, getDigestSize_eq, decide_False by done. wp_simpl.
  assert (0 < digest_size t) by by apply digest_size_pos.
  unfold on_ctx, _EVP_DigestFinal_ex. wp_simpl.
  call_one DigestFinal_spec; [exact Hc| |not_works DigestFinal_works; exact Hc]. wp_simpl.
  subst out.
  assert (Hsz : size (digest_of m x) = digest_size t)
    by (rewrite digest_of_size; by apply EVP_MD_size_spec).
  destruct (write_buffer_resize (resize (digest_size t) []) (digest_of m x))
    as (buf & Hw & _); [rewrite size_resize; lia|].
  rewrite Hw. wp_simpl. cbn.
  apply write_buffer_full in Hw; [|rewrite size_resize; lia]. subst buf.
  split_and!; try done. intros Hnil. rewrite Hnil in Hsz. sizes. lia.
Qed.

Lemma one_shot_spec t x :
  owp (one_shot t x) (λ d, ∃ m, _getMDPtrFromDigestType t = Val m ∧ d = digest_of m x ∧
                       size d = digest_size t)
    (λ e, t = NONE ∨ ¬ Works).
Proof.
  unfold one_shot, digest_once. apply owp_obind. pose proof (new_absorbing t) as Hn.
  destruct (new t) as [h|e]; cbn; [|by destruct Hn as [->|[_ ?]]; [left|right]].
  destruct Hn as [m Hh].
  assert (Hwp : wp (update x ;; digest) h
    (λ d _, d = digest_of m x ∧ size d = digest_size t) (λ _ _, ¬ Works)).
  { rewrite wp_bind. eapply wp_mono; [by apply update_absorbing| |by intros e h' []].
    intros [] h' Hh'. eapply wp_mono; [by eapply digest_absorbing| |by intros e h'' []].
    cbn. by intros d h'' (-> & ? & _). }
  unfold wp in Hwp. destruct ((_ ;; _) h) as [[d|e] h']; cbn; [|by right].
  exists m. split; [apply Hh|done].
Qed.
End Facts.

(** ** Properties *)

Section Properties.
Context {md : EvpMdAPI} {api : EvpDigestAPI md}.
Import HashOps.

(** C27. Correctness of [Hash]: however the message is cut into chunks, [digest]
    returns the digest of the concatenation, of the size [getDigestSize] tells;
    it can be called again and returns the same, and any further [update] is
    refused without a change.  Only a missing digest type is refused, and nothing
    fails as long as OpenSSL carries out its calls. *)
Theorem hash_stream {md_spec : EvpMdSpec md} {spec : EvpDigestSpec api}
    (t : DigestTypes) (chunks : list bytes) (chunk : bytes) :
  match new t with
  | Val h => ∃ m, _getMDPtrFromDigestType t = Val m ∧
      wp (mapM_ update chunks ;; digest) h
        (λ v h', v = digest_of m (concat chunks) ∧ getDigestSize t = Val (size v) ∧
                 digest h' = (Val v, h') ∧
                 update chunk h' = (Throw (MoCOCrWException
                   [Str "update method cannot be called after digest was called"]), h'))
        (λ e _, e = OpenSSLException [ErrorQueue] ∧ ¬ EvpDigestWorks spec)
  | Throw e => t = NONE ∨ (e = OpenSSLException [ErrorQueue] ∧ ¬ EvpDigestWorks spec)
  end.
Proof.
  pose proof (new_absorbing t) as Hn. destruct (new t) as [h|e]; [|done].
  destruct Hn as [m Hh]. exists m. split; [apply Hh|].
  rewrite wp_bind. eapply wp_mono; [by apply updates_absorbing| |done].
  intros [] h' Hh'. eapply wp_mono; [by eapply digest_absorbing| |done].
  intros v h'' (-> & Hsz & Hv & Hne). cbn [app] in *. split_and!; [done| | |].
  - assert (t ≠ NONE) by (intros ->; by destruct Hh).
    by rewrite getDigestSize_eq, decide_False, Hsz by done.
  - unfold digest, bind, gets. rewrite Hv, bool_decide_eq_false_2 by done. cbn. by rewrite Hv.
  - unfold update, update_raw, bind, gets, throw_if.
    by rewrite Hv, bool_decide_eq_false_2 by done.
Qed.

(** A failure inside [digest] is not remembered: the buffer was already
    resized, so the next call takes its zero bytes for the digest and returns
    them without an error. *)
Theorem failed_digest_is_zero (h : Hash) (out : bytes) (c : EVP_MD_CTX)
    (Hfresh : _finalDigestValue h = []) (Htype : _digestType h ≠ NONE)
    (Hfail : SSL_EVP_DigestFinal_ex (_digestCtx h) = (Val (0, out), c)) :
  let '(r, h') := digest h in
  r = Throw (OpenSSLException [ErrorQueue]) ∧
  digest h' = (Val (zeros (digest_size (_digestType h))), h').
Proof.
  assert (Hd : digest h = (Throw (OpenSSLException [ErrorQueue]),
    set_digestCtx c (set_finalDigestValue (zeros (digest_size (_digestType h))) h))).
  { unfold digest, bind, gets, lift, modify, on_ctx, zoom, _EVP_DigestFinal_ex,
      OpensslCallIsOne, callChecked, bind. cbn.
    rewrite bool_decide_eq_true_2 by done. rewrite getDigestSize_eq, decide_False by done.
    cbn. rewrite Hfail. cbn. rewrite Hfresh.
    unfold resize. rewrite take_nil, size_nil, Z.sub_0_r. done. }
  rewrite Hd. split; [done|]. pose proof (digest_size_pos _ Htype).
  assert (zeros (digest_size (_digestType h)) ≠ []).
  { intros Hz. pose proof (size_zeros (digest_size (_digestType h))) as Hs.
    rewrite Hz in Hs. sizes. lia. }
  unfold digest, bind, gets. cbn. by rewrite bool_decide_eq_false_2 by done.
Qed.
End Properties.

(** ** Witnesses *)

(** A concrete digest: the length of the message, in the size of the digest.
    Finalisation fails for the messages that it is told to fail for. *)
Module LengthDigest.
Import NamedDigests.

Definition value (t : DigestTypes) (d : bytes) : bytes :=
  replicate (Z.to_nat (digest_size t)) (to_uint8 (size d)).

Definition failing (fails : bytes → bool) : EvpDigestAPI NamedDigests.api := {|
  EVP_MD_CTX := DigestTypes * bytes;
  SSL_EVP_MD_CTX_create := Some (NONE, []);
  SSL_EVP_MD_CTX_init := λ c, c;
  SSL_EVP_DigestInit_ex := λ t _, (Val (1, ()), (t, []));
  SSL_EVP_DigestUpdate := λ d cnt c, (Val (1, ()), (c.1, c.2 ++ take (Z.to_nat cnt) d));
  SSL_EVP_DigestFinal_ex := λ c,
    if fails c.2 then (Val (0, []), c) else (Val (1, value c.1 c.2), c);
|}.

Definition failing_spec fails : EvpDigestSpec (failing fails).
Proof.
  refine {| digest_of := (value : @EVP_MD NamedDigests.api → bytes → bytes);
            md_ctx := (λ c t x, c = (t, x)) : @EVP_MD_CTX _ (failing fails) → _ |}.
  - intros m d. unfold value. rewrite size_replicate. by destruct m.
  - by intros.
  - by intros ? m x d cnt ->.
  - intros ? m x ->. unfold wp. cbn. by destruct (fails x).
Defined.

#[export] Instance api : EvpDigestAPI NamedDigests.api := failing (λ _, false).
#[export] Instance spec : EvpDigestSpec api := failing_spec (λ _, false).

Lemma digest_works : EvpDigestWorks spec.
Proof. constructor; done. Qed.

Definition h256 : Hash := force (mkHash _ api (NONE, []) [] NONE) (HashOps.new SHA256).

Lemma hash_stream_witness :
  HashOps.new SHA256 = Val h256 ∧
  wp_total (mapM_ HashOps.update [str "ab"; str "c"] ;; HashOps.digest) h256
    (λ v h', v = value SHA256 (str "abc") ∧ getDigestSize SHA256 = Val (size v) ∧
             HashOps.digest h' = (Val v, h') ∧
             HashOps.update (str "d") h' = (Throw (MoCOCrWException
               [Str "update method cannot be called after digest was called"]), h')).
Proof.
  split; [done|].
  destruct (hash_stream (spec := spec) SHA256 [str "ab"; str "c"] (str "d")) as (m & [= <-] & H).
  eapply wp_mono; [exact H|done|]. intros e h' [_ Hn]. exact (Hn digest_works).
Defined.

(** Finalisation fails for messages of more than 100 bytes. *)
Definition limited : EvpDigestAPI NamedDigests.api := failing (λ d, 100 <? size d).
Definition overfull : Hash (api := limited) := mkHash _ limited (SHA1, zeros 101) [] SHA1.

Lemma failed_digest_is_zero_witness :
  _digestType overfull ≠ NONE ∧
  let '(r, h') := HashOps.digest overfull in
  r = Throw (OpenSSLException [ErrorQueue]) ∧ HashOps.digest h' = (Val (zeros 20), h').
Proof.
  split; [done|].
  exact (failed_digest_is_zero overfull [] (SHA1, zeros 101) eq_refl
           ltac:(discriminate) eq_refl).
Defined.
End LengthDigest.
