(* ===== verification/Mac.v ===== *)
(** * Message authentication codes: [src/src/mac.cpp] and [src/src/mococrw/mac.h]

    [MessageAuthenticationCode] is the interface the clients (ECIES) use and
    [MessageAuthenticationCodeSpec] what an implementation promises: it
    accumulates a message, computes one function of it and accepts exactly that
    value.  [HMAC] and [CMAC] implement it over OpenSSL's contexts. *)

From S2P Require Import Prelude CheckCall Util SymmetricCrypto XorCipher OpenSSLWrap.

(** ** The interface *)

Class MessageAuthenticationCode (Mac : Type) := {
  mac_update : bytes → M Mac ();
  mac_finish : M Mac bytes;
  mac_verify : bytes → M Mac ();
}.

Class MessageAuthenticationCodeSpec (Mac : Type) `{MessageAuthenticationCode Mac} := {
  (** computes the function and has absorbed the message; its calls succeed if the
      last argument holds *)
  mac_open : Mac → (bytes → bytes) → bytes → Prop → Prop;
  (** is finished with the value *)
  mac_done : Mac → bytes → Prop;
  mac_update_spec m f d W x :
    mac_open m f d W → size x ≤ INT_MAX →
    wp (mac_update x) m (λ _ m', mac_open m' f (d ++ x) W) (λ _ _, ¬ W);
  mac_finish_spec m f d W :
    mac_open m f d W →
    wp mac_finish m (λ r m', r = f d ∧ mac_done m' (f d)) (λ _ _, ¬ W);
  mac_verify_open_spec m f d W v :
    mac_open m f d W →
    wp (mac_verify v) m (λ _ m', v = f d ∧ mac_done m' (f d))
      (λ e _, W → v ≠ f d ∧ ∃ w, e = MoCOCrWException w);
  mac_verify_done_spec m v x :
    mac_done m x →
    wp (mac_verify v) m (λ _ m', v = x ∧ m' = m)
      (λ e m', v ≠ x ∧ m' = m ∧ ∃ w, e = MoCOCrWException w);
  mac_done_update_spec m v x :
    mac_done m v →
    ∃ w, mac_update x m = (Throw (MoCOCrWException w), m);
  mac_done_finish_spec m v :
    mac_done m v → ∃ w, mac_finish m = (Throw (MoCOCrWException w), m);
}.

(** ** The OpenSSL functions *)

(** Key and message lengths of HMAC are [int]s. *)
Class HmacAPI {md : EvpMdAPI} := {
  HMAC_CTX : Type;
  SSL_HMAC_CTX_new : option HMAC_CTX;
  SSL_HMAC_Init_ex (key : bytes) (key_len : Z) (md : EVP_MD) : M HMAC_CTX (Z * ());
  SSL_HMAC_Update (data : bytes) (len : Z) : M HMAC_CTX (Z * ());
  SSL_HMAC_Final : M HMAC_CTX (Z * bytes);
}.
Arguments HmacAPI : clear implicits.

Class CmacAPI {evp : EvpCipherAPI} := {
  CMAC_CTX : Type;
  SSL_EVP_CIPHER_key_length : EVP_CIPHER → Z;
  SSL_EVP_CIPHER_name : EVP_CIPHER → bytes;
  SSL_CMAC_CTX_new : option CMAC_CTX;
  SSL_CMAC_Init (key : bytes) (keylen : Z) (cipher : EVP_CIPHER) : M CMAC_CTX (Z * ());
  SSL_CMAC_Update (data : bytes) (dlen : Z) : M CMAC_CTX (Z * ());
  SSL_CMAC_Final : M CMAC_CTX (Z * bytes);
}.
Arguments CmacAPI : clear implicits.

Section HmacWrappers.
Context {md : EvpMdAPI} {api : HmacAPI md}.

Definition _HMAC_CTX_new : outcome HMAC_CTX := run_pure (OpensslCallPtr (ret SSL_HMAC_CTX_new)).

Definition _HMAC_Init_ex (key : bytes) (md : EVP_MD) : M HMAC_CTX () :=
  OpensslCallIsOne (SSL_HMAC_Init_ex key (to_int (size key)) md).

Definition _HMAC_Update (data : bytes) : M HMAC_CTX () :=
  OpensslCallIsOne (SSL_HMAC_Update data (to_int (size data))).

Definition _HMAC_Final : M HMAC_CTX bytes :=
  let length := EVP_MAX_MD_SIZE in
  let md := zeros length in
  let! out := OpensslCallIsOne SSL_HMAC_Final in
  let! md := lift (write_buffer md out) in
  ret (resize (size out) md).
End HmacWrappers.

Section CmacWrappers.
Context {evp : EvpCipherAPI} {api : CmacAPI evp}.

Definition _EVP_CIPHER_key_length (cipher : EVP_CIPHER) : Z := SSL_EVP_CIPHER_key_length cipher.
Definition _EVP_CIPHER_name (cipher : EVP_CIPHER) : bytes := SSL_EVP_CIPHER_name cipher.

Definition _CMAC_CTX_new : outcome CMAC_CTX := run_pure (OpensslCallPtr (ret SSL_CMAC_CTX_new)).

Definition _CMAC_Init (key : bytes) (cipher : EVP_CIPHER) : M CMAC_CTX () :=
  OpensslCallIsOne (SSL_CMAC_Init key (size key) cipher).

Definition _CMAC_Update (data : bytes) : M CMAC_CTX () :=
  OpensslCallIsOne (SSL_CMAC_Update data (size data)).

Definition _CMAC_Final : M CMAC_CTX bytes :=
  let cmac := zeros EVP_MAX_BLOCK_LENGTH in
  let! out := OpensslCallIsOne SSL_CMAC_Final in
  let! cmac := lift (write_buffer cmac out) in
  assert_ (size out <=? size cmac) ;;
  ret (resize (size out) cmac).
End CmacWrappers.

(** ** The implementation classes *)

(** [HMAC::Impl] and [CMAC::Impl] have the same members. *)
Record MacImpl (CTX : Type) := mkMac {
  _ctx : CTX;
  _isFinished : bool;
  _result : bytes;
}.
Arguments mkMac {CTX}.
Arguments _ctx {CTX}.
Arguments _isFinished {CTX}.
Arguments _result {CTX}.

(** They also have the same operations, up to the OpenSSL functions they call
    and the name in their messages. *)
Module MacOps.
Section MacOps.
Context {CTX : Type} (_Update : bytes → M CTX ()) (_Final : M CTX bytes) (name : string).

Definition set_ctx (c : CTX) (m : MacImpl CTX) : MacImpl CTX :=
  {| _ctx := c; _isFinished := _isFinished m; _result := _result m |}.
Definition set_isFinished (b : bool) (m : MacImpl CTX) : MacImpl CTX :=
  {| _ctx := _ctx m; _isFinished := b; _result := _result m |}.
Definition set_result (r : bytes) (m : MacImpl CTX) : MacImpl CTX :=
  {| _ctx := _ctx m; _isFinished := _isFinished m; _result := r |}.
Definition on_ctx {A} (m : M CTX A) : M (MacImpl CTX) A := zoom _ctx set_ctx m.

Definition update (message : bytes) : M (MacImpl CTX) () :=
  let! finished := gets _isFinished in
  throw_if finished (MoCOCrWException [Str "update() can't be called after finish()"]) ;;
  on_ctx (_Update message).

Definition finish : M (MacImpl CTX) bytes :=
  let! finished := gets _isFinished in
  throw_if finished (MoCOCrWException [Str "finish() can't be called twice."]) ;;
  let! r := on_ctx _Final in
  modify (set_result r) ;;
  modify (set_isFinished true) ;;
  gets _result.

(** [CRYPTO_memcmp] is zero exactly on equal memory. *)
Definition verify (macValue : bytes) : M (MacImpl CTX) () :=
  let! finished := gets _isFinished in
  (if negb finished then finish ;; ret () else ret ()) ;;
  let! result := gets _result in
  throw_if (negb (size macValue =? size result))
    (MoCOCrWException [Str name; Str " verification failed. Length differs."]) ;;
  throw_if (negb (bool_decide (macValue = result)))
    (MoCOCrWException [Str name; Str " verification failed. Calculated value: ";
       Raw (toHex result); Str ". Received value: "; Raw (toHex macValue)]).
End MacOps.
End MacOps.

Module HMAC.
Section HMAC.
Context {md : EvpMdAPI} {api : HmacAPI md}.
Abbreviation HMAC := (MacImpl HMAC_CTX).

Definition new (hashFunction : DigestTypes) (key : bytes) : outcome HMAC :=
  let? digestFn := _getMDPtrFromDigestType hashFunction in
  if bool_decide (key = []) then Throw (MoCOCrWException [Str "Key for HMAC is empty."])
  else
    let? ctx := _HMAC_CTX_new in
    match _HMAC_Init_ex key digestFn ctx with
    | (Val _, ctx') => Val {| _ctx := ctx'; _isFinished := false; _result := [] |}
    | (Throw e, _) => Throw e
    end.

Definition update : bytes → M HMAC () := MacOps.update _HMAC_Update.
Definition finish : M HMAC bytes := MacOps.finish _HMAC_Final.
Definition verify : bytes → M HMAC () := MacOps.verify _HMAC_Final "HMAC".
End HMAC.
End HMAC.

#[export] Instance HMAC_interface {md : EvpMdAPI} {api : HmacAPI md} :
    MessageAuthenticationCode (MacImpl HMAC_CTX) := {
  mac_update := HMAC.update; mac_finish := HMAC.finish; mac_verify := HMAC.verify;
}.

Module CMAC.
Section CMAC.
Context {evp : EvpCipherAPI} {api : CmacAPI evp}.
Abbreviation CMAC := (MacImpl CMAC_CTX).

Definition new (cipherType : CmacCipherTypes) (key : bytes) : outcome CMAC :=
  let cipher := _getCipherPtrFromCmacCipherType cipherType in
  let expectedKeySize := to_size_t (_EVP_CIPHER_key_length cipher) in
  if negb (size key =? expectedKeySize) then
    Throw (MoCOCrWException
      [Str "Invalid key size for "; Raw (_EVP_CIPHER_name cipher); Str ": Expected ";
       Num expectedKeySize; Str " bytes but got key with "; Num (size key); Str " bytes."])
  else
    let? ctx := _CMAC_CTX_new in
    match _CMAC_Init key cipher ctx with
    | (Val _, ctx') => Val {| _ctx := ctx'; _isFinished := false; _result := [] |}
    | (Throw e, _) => Throw e
    end.

Definition update : bytes → M CMAC () := MacOps.update _CMAC_Update.
Definition finish : M CMAC bytes := MacOps.finish _CMAC_Final.
Definition verify : bytes → M CMAC () := MacOps.verify _CMAC_Final "CMAC".
End CMAC.
End CMAC.

#[export] Instance CMAC_interface {evp : EvpCipherAPI} {api : CmacAPI evp} :
    MessageAuthenticationCode (MacImpl CMAC_CTX) := {
  mac_update := CMAC.update; mac_finish := CMAC.finish; mac_verify := CMAC.verify;
}.

(** ** The documented behaviour of the OpenSSL functions *)

Class HmacSpec {md : EvpMdAPI} (api : HmacAPI md) := {
  hmac : EVP_MD → bytes → bytes → bytes;
  (** computes HMAC with a digest and a key, has absorbed a message *)
  hmac_ctx : HMAC_CTX → EVP_MD → bytes → bytes → Prop;
  hmac_size m k d : size (hmac m k d) ≤ EVP_MAX_MD_SIZE;
  HMAC_Init_spec ctx m key len :
    SSL_HMAC_CTX_new = Some ctx → 0 ≤ len ≤ size key →
    wp_total (SSL_HMAC_Init_ex key len m) ctx
      (λ '(rv, _) ctx', rv = 1 → hmac_ctx ctx' m (take (Z.to_nat len) key) []);
  HMAC_Update_spec ctx m k x d len :
    hmac_ctx ctx m k x → 0 ≤ len ≤ size d →
    wp_total (SSL_HMAC_Update d len) ctx
      (λ '(rv, _) ctx', rv = 1 → hmac_ctx ctx' m k (x ++ take (Z.to_nat len) d));
  HMAC_Final_spec ctx m k x :
    hmac_ctx ctx m k x →
    wp_total SSL_HMAC_Final ctx (λ '(rv, out) _, rv = 1 → out = hmac m k x);
}.

(** OpenSSL carries the calls out. *)
Record HmacWorks {md : EvpMdAPI} {api : HmacAPI md} (spec : HmacSpec api) : Prop := {
  HMAC_CTX_new_works : SSL_HMAC_CTX_new ≠ None;
  HMAC_Init_works ctx m key len :
    SSL_HMAC_CTX_new = Some ctx → 0 ≤ len ≤ size key →
    succeeds (SSL_HMAC_Init_ex key len m) ctx;
  HMAC_Update_works ctx m k x d len :
    hmac_ctx ctx m k x → 0 ≤ len ≤ size d → succeeds (SSL_HMAC_Update d len) ctx;
  HMAC_Final_works ctx m k x : hmac_ctx ctx m k x → succeeds SSL_HMAC_Final ctx;
}.

Class CmacSpec {evp : EvpCipherAPI} (api : CmacAPI evp) := {
  cmac : EVP_CIPHER → bytes → bytes → bytes;
  cmac_ctx : CMAC_CTX → EVP_CIPHER → bytes → bytes → Prop;
  cmac_size c k d : size (cmac c k d) ≤ EVP_MAX_BLOCK_LENGTH;
  cmac_key_lengths :
    SSL_EVP_CIPHER_key_length EVP_aes_128_cbc = 16 ∧
    SSL_EVP_CIPHER_key_length EVP_aes_256_cbc = 32;
  CMAC_Init_spec ctx c key :
    SSL_CMAC_CTX_new = Some ctx → size key = SSL_EVP_CIPHER_key_length c →
    wp_total (SSL_CMAC_Init key (size key) c) ctx
      (λ '(rv, _) ctx', rv = 1 → cmac_ctx ctx' c key []);
  CMAC_Update_spec ctx c k x d :
    cmac_ctx ctx c k x →
    wp_total (SSL_CMAC_Update d (size d)) ctx
      (λ '(rv, _) ctx', rv = 1 → cmac_ctx ctx' c k (x ++ d));
  CMAC_Final_spec ctx c k x :
    cmac_ctx ctx c k x →
    wp_total SSL_CMAC_Final ctx (λ '(rv, out) _, rv = 1 → out = cmac c k x);
}.

Record CmacWorks {evp : EvpCipherAPI} {api : CmacAPI evp} (spec : CmacSpec api) : Prop := {
  CMAC_CTX_new_works : SSL_CMAC_CTX_new ≠ None;
  CMAC_Init_works ctx c key :
    SSL_CMAC_CTX_new = Some ctx → size key = SSL_EVP_CIPHER_key_length c →
    succeeds (SSL_CMAC_Init key (size key) c) ctx;
  CMAC_Update_works ctx c k x d :
    cmac_ctx ctx c k x → size d ≤ INT_MAX → succeeds (SSL_CMAC_Update d (size d)) ctx;
  CMAC_Final_works ctx c k x : cmac_ctx ctx c k x → succeeds SSL_CMAC_Final ctx;
}.

(** ** The implementations keep the promise of the interface *)

Section Generic.
Context {CTX : Type} (_Update : bytes → M CTX ()) (_Final : M CTX bytes) (name : string).
Context (R : CTX → (bytes → bytes) → bytes → Prop) (Works : Prop).
Context (Update_ok : ∀ c f d x, R c f d → size x ≤ INT_MAX →
  wp (_Update x) c (λ _ c', R c' f (d ++ x)) (λ _ _, ¬ Works)).
Context (Final_ok : ∀ c f d, R c f d → wp _Final c (λ r _, r = f d) (λ _ _, ¬ Works)).

Definition open_mac (m : MacImpl CTX) (f : bytes → bytes) (d : bytes) (W : Prop) : Prop :=
  _isFinished m = false ∧ R (_ctx m) f d ∧ (W → Works).
Definition done_mac (m : MacImpl CTX) (v : bytes) : Prop :=
  _isFinished m = true ∧ _result m = v.

Lemma update_open m f d W x :
  open_mac m f d W → size x ≤ INT_MAX →
  wp (MacOps.update _Update x) m (λ _ m', open_mac m' f (d ++ x) W) (λ _ _, ¬ W).
Proof.
  intros (Hf & HR & HW) Hx. unfold MacOps.update, MacOps.on_ctx. wp_simpl. rewrite Hf. wp_simpl.
  eapply wp_mono; [by apply Update_ok|by intros [] c' HR'|by intros e m' Hn HW'; apply Hn, HW].
Qed.

Lemma finish_open m f d W :
  open_mac m f d W →
  wp (MacOps.finish _Final) m (λ r m', r = f d ∧ done_mac m' (f d)) (λ _ _, ¬ W).
Proof.
  intros (Hf & HR & HW). unfold MacOps.finish, MacOps.on_ctx. wp_simpl. rewrite Hf. wp_simpl.
  eapply wp_mono; [by apply Final_ok| |by intros e m' Hn HW'; apply Hn, HW]. intros r c' ->. by wp_simpl.
Qed.

Lemma compare_spec (v x : bytes) m (Φ : () → MacImpl CTX → Prop) (Ψ : exn → MacImpl CTX → Prop) :
  _result m = x → (v = x → Φ () m) →
  (v ≠ x → ∀ w, Ψ (MoCOCrWException w) m) →
  wp (let! result := gets _result in
      throw_if (negb (size v =? size result))
        (MoCOCrWException [Str name; Str " verification failed. Length differs."]) ;;
      throw_if (negb (bool_decide (v = result)))
        (MoCOCrWException [Str name; Str " verification failed. Calculated value: ";
           Raw (toHex result); Str ". Received value: "; Raw (toHex v)])) m Φ Ψ.
Proof.
  intros Hr HΦ HΨ. wp_simpl. rewrite Hr.
  destruct (Z.eqb_spec (size v) (size x)) as [|Hne]; cbn [negb].
  - case_bool_decide; cbn [negb]; [by apply HΦ|by apply HΨ].
  - apply HΨ. by intros ->.
Qed.

Lemma verify_open m f d W v :
  open_mac m f d W →
  wp (MacOps.verify _Final name v) m (λ _ m', v = f d ∧ done_mac m' (f d))
    (λ e _, W → v ≠ f d ∧ ∃ w, e = MoCOCrWException w).
Proof.
  intros Ho. unfold MacOps.verify. rewrite wp_bind. wp_simpl.
  pose proof Ho as (Hf & _). rewrite Hf. cbn [negb].
  rewrite wp_bind. eapply wp_mono; [by apply finish_open| |by intros e m' Hn HW'; destruct (Hn HW')].
  intros r m' (-> & Hd). rewrite wp_ret.
  apply (compare_spec v (f d)); [apply Hd|by intros|]. intros Hne w _. eauto.
Qed.

Lemma verify_done m v x :
  done_mac m x →
  wp (MacOps.verify _Final name v) m (λ _ m', v = x ∧ m' = m)
    (λ e m', v ≠ x ∧ m' = m ∧ ∃ w, e = MoCOCrWException w).
Proof.
  intros [Hf Hr]. unfold MacOps.verify. rewrite wp_bind. wp_simpl. rewrite Hf. cbn [negb].
  rewrite wp_ret. apply (compare_spec v x); [done|done|]. intros Hne w. split_and!; [done|done|].
  by eexists.
Qed.

Lemma update_done m v x :
  done_mac m v → ∃ w, MacOps.update _Update x m = (Throw (MoCOCrWException w), m).
Proof.
  intros [Hf _]. unfold MacOps.update, bind, gets, throw_if. cbn. rewrite Hf. by eexists.
Qed.

Lemma finish_done m v :
  done_mac m v → ∃ w, MacOps.finish _Final m = (Throw (MoCOCrWException w), m).
Proof.
  intros [Hf _]. unfold MacOps.finish, bind, gets, throw_if. cbn. rewrite Hf. by eexists.
Qed.
End Generic.

Section HmacFacts.
Context {md : EvpMdAPI} {api : HmacAPI md} {spec : HmacSpec api}.

(** The context computes [f]. *)
Definition hmac_runs (c : HMAC_CTX) (f : bytes → bytes) (d : bytes) : Prop :=
  ∃ m k, f = hmac m k ∧ hmac_ctx c m k d.

Lemma HMAC_Update_ok c f d x :
  hmac_runs c f d → size x ≤ INT_MAX →
  wp (_HMAC_Update x) c (λ _ c', hmac_runs c' f (d ++ x)) (λ _ _, ¬ HmacWorks spec).
Proof.
  intros (m & k & -> & Hc) Hx. unfold _HMAC_Update. pose proof (size_nonneg x).
  rewrite to_int_id by (unfold INT_MIN; lia).
  call_one HMAC_Update_spec; [exact Hc|lia| |not_works HMAC_Update_works].
  rewrite take_ge in Hok by (unfold size; lia). by exists m, k.
Qed.

Lemma HMAC_Final_ok c f d :
  hmac_runs c f d → wp _HMAC_Final c (λ r _, r = f d) (λ _ _, ¬ HmacWorks spec).
Proof.
  intros (m & k & -> & Hc). unfold _HMAC_Final. wp_simpl.
  call_one HMAC_Final_spec; [exact Hc| |not_works HMAC_Final_works; exact Hc].
  wp_simpl. subst out.
  destruct (write_buffer_resize (zeros EVP_MAX_MD_SIZE) (hmac m k d)) as (buf & -> & Hb).
  { rewrite size_zeros by done. apply hmac_size. }
  by wp_simpl.
Qed.

#[export] Instance hmac_interface_spec : MessageAuthenticationCodeSpec (MacImpl HMAC_CTX) := {
  mac_open := open_mac hmac_runs (HmacWorks spec);
  mac_done := done_mac;
  mac_update_spec := update_open _HMAC_Update hmac_runs _ HMAC_Update_ok;
  mac_finish_spec := finish_open _HMAC_Final hmac_runs _ HMAC_Final_ok;
  mac_verify_open_spec := verify_open _HMAC_Final "HMAC" hmac_runs _ HMAC_Final_ok;
  mac_verify_done_spec := verify_done _HMAC_Final "HMAC";
  mac_done_update_spec := update_done _HMAC_Update;
  mac_done_finish_spec := finish_done _HMAC_Final;
}.

(** The reasons for which a construction is refused. *)
Lemma hmac_new_open hf key :
  size key ≤ INT_MAX →
  match HMAC.new hf key with
  | Val m => key ≠ [] ∧ ∃ md, _getMDPtrFromDigestType hf = Val md ∧
      mac_open m (hmac md key) [] (HmacWorks spec)
  | Throw e => hf = NONE ∨ key = [] ∨ ¬ HmacWorks spec
  end.
Proof.
  intros Hk. unfold HMAC.new, _HMAC_CTX_new.
  destruct (_getMDPtrFromDigestType hf) as [d|] eqn:Hd; cbn [obind];
    [|left; by destruct hf].
  case_bool_decide; [by right; left|].
  destruct SSL_HMAC_CTX_new as [ctx|] eqn:Hctx; cbn.
  2: { right; right. intros HW. by apply (HMAC_CTX_new_works _ HW). }
  assert (Hwp : wp (_HMAC_Init_ex key d) ctx
                  (λ _ c, hmac_ctx c d key []) (λ _ _, ¬ HmacWorks spec)).
  { unfold _HMAC_Init_ex. pose proof (size_nonneg key).
    rewrite to_int_id by (unfold INT_MIN; lia).
    call_one HMAC_Init_spec; [exact Hctx|lia| |not_works HMAC_Init_works].
    rewrite take_ge in Hok by (unfold size; lia). done. }
  unfold wp in Hwp. destruct (_HMAC_Init_ex key d ctx) as [[[]|e] c']; [|by right; right].
  split; [done|]. exists d. split; [done|]. split; [done|]. split; [by exists d, key|done].
Qed.
End HmacFacts.

Section CmacFacts.
Context {evp : EvpCipherAPI} {api : CmacAPI evp} {spec : CmacSpec api}.

Definition cmac_runs (c : CMAC_CTX) (f : bytes → bytes) (d : bytes) : Prop :=
  ∃ m k, f = cmac m k ∧ cmac_ctx c m k d.

Lemma CMAC_Update_ok c f d x :
  cmac_runs c f d → size x ≤ INT_MAX →
  wp (_CMAC_Update x) c (λ _ c', cmac_runs c' f (d ++ x)) (λ _ _, ¬ CmacWorks spec).
Proof.
  intros (m & k & -> & Hc) Hx. unfold _CMAC_Update.
  call_one CMAC_Update_spec; [exact Hc| |not_works CMAC_Update_works; exact Hc].
  by exists m, k.
Qed.

Lemma CMAC_Final_ok c f d :
  cmac_runs c f d → wp _CMAC_Final c (λ r _, r = f d) (λ _ _, ¬ CmacWorks spec).
Proof.
  intros (m & k & -> & Hc). unfold _CMAC_Final. wp_simpl.
  call_one CMAC_Final_spec; [exact Hc| |not_works CMAC_Final_works; exact Hc].
  wp_simpl. subst out.
  pose proof (cmac_size m k d) as Hsz.
  destruct (write_buffer_resize (zeros EVP_MAX_BLOCK_LENGTH) (cmac m k d)) as (buf & Hw & Hb);
    [by rewrite size_zeros|].
  rewrite Hw. apply size_write_buffer in Hw. rewrite size_zeros in Hw by done. wp_simpl.
  rewrite Hw. destruct (Z.leb_spec (size (cmac m k d)) EVP_MAX_BLOCK_LENGTH); [|lia].
  by wp_simpl.
Qed.

#[export] Instance cmac_interface_spec : MessageAuthenticationCodeSpec (MacImpl CMAC_CTX) := {
  mac_open := open_mac cmac_runs (CmacWorks spec);
  mac_done := done_mac;
  mac_update_spec := update_open _CMAC_Update cmac_runs _ CMAC_Update_ok;
  mac_finish_spec := finish_open _CMAC_Final cmac_runs _ CMAC_Final_ok;
  mac_verify_open_spec := verify_open _CMAC_Final "CMAC" cmac_runs _ CMAC_Final_ok;
  mac_verify_done_spec := verify_done _CMAC_Final "CMAC";
  mac_done_update_spec := update_done _CMAC_Update;
  mac_done_finish_spec := finish_done _CMAC_Final;
}.

Lemma cmac_new_open ct key :
  let cipher := _getCipherPtrFromCmacCipherType ct in
  match CMAC.new ct key with
  | Val m => size key = _EVP_CIPHER_key_length cipher ∧
      mac_open m (cmac cipher key) [] (CmacWorks spec)
  | Throw e => size key ≠ _EVP_CIPHER_key_length cipher ∨ ¬ CmacWorks spec
  end.
Proof.
  intros cipher. unfold CMAC.new, _CMAC_CTX_new. fold cipher.
  assert (Hlen : to_size_t (_EVP_CIPHER_key_length cipher) = _EVP_CIPHER_key_length cipher).
  { unfold _EVP_CIPHER_key_length, cipher. destruct cmac_key_lengths as [H1 H2].
    by destruct ct; cbn [_getCipherPtrFromCmacCipherType]; rewrite ?H1, ?H2. }
  rewrite Hlen. destruct (Z.eqb_spec (size key) (_EVP_CIPHER_key_length cipher)) as [Hsz|];
    cbn [negb]; [|by left].
  destruct SSL_CMAC_CTX_new as [ctx|] eqn:Hctx; cbn.
  2: { right. intros HW. by apply (CMAC_CTX_new_works _ HW). }
  assert (Hwp : wp (_CMAC_Init key cipher) ctx
    (λ _ c, cmac_ctx c cipher key []) (λ _ _, ¬ CmacWorks spec)).
  { unfold _CMAC_Init. call_one CMAC_Init_spec; [done..|not_works CMAC_Init_works]. }
  unfold wp in Hwp. destruct (_CMAC_Init _ _ ctx) as [[[]|e] c']; [|by right].
  split; [done|]. split; [done|]. split; [by eexists _, _|done].
Qed.
End CmacFacts.

(** ** Properties *)

(** What the clients of the interface may rely on, for a whole message. *)
Section Client.
Context {Mac : Type} `{MessageAuthenticationCodeSpec Mac}.
Implicit Types (m : Mac).

(** The object is finished with the value [v]: it accepts [v] only, says so
    with a MoCOCrWException otherwise, and refuses everything else. *)
Definition sealed m (v : bytes) : Prop :=
  (∀ w, mac_verify w m = (Val (), m) ↔ w = v) ∧
  (∀ w, w ≠ v → ∃ msg, mac_verify w m = (Throw (MoCOCrWException msg), m)) ∧
  (∀ x, ∃ msg, mac_update x m = (Throw (MoCOCrWException msg), m)) ∧
  (∃ msg, mac_finish m = (Throw (MoCOCrWException msg), m)).

Lemma done_sealed m v : mac_done m v → sealed m v.
Proof.
  intros Hd. split_and!; eauto using mac_done_update_spec, mac_done_finish_spec.
  - intros w. pose proof (mac_verify_done_spec m w v Hd) as Hv. unfold wp in Hv.
    destruct (mac_verify w m) as [[[]|e] m'].
    + destruct Hv as [-> ->]. done.
    + destruct Hv as (Hne & -> & _). split; [done|]. by intros.
  - intros w Hne. pose proof (mac_verify_done_spec m w v Hd) as Hv. unfold wp in Hv.
    destruct (mac_verify w m) as [[[]|e] m'].
    + by destruct Hv.
    + destruct Hv as (_ & -> & msg & ->). by exists msg.
Qed.

Lemma updates_open chunks m f d W :
  mac_open m f d W → Forall (λ x, size x ≤ INT_MAX) chunks →
  wp (mapM_ mac_update chunks) m (λ _ m', mac_open m' f (d ++ concat chunks) W) (λ _ _, ¬ W).
Proof.
  intros Hm Hs. revert m d Hm. induction Hs as [|x chunks Hx Hs IH]; intros m d Hm.
  - cbn. wp_simpl. by rewrite app_nil_r.
  - cbn. wp_simpl. eapply wp_mono; [by apply mac_update_spec| |done].
    intros [] m' Hm'. eapply wp_mono; [by apply IH| |done].
    intros [] m'' Hm''. by rewrite app_assoc.
Qed.

(** The whole of a computation: what it gives, and when it fails. *)
Definition computes_mac m chunks (f : bytes → bytes) (W : Prop) : Prop :=
  wp (mapM_ mac_update chunks ;; mac_finish) m
    (λ r m', r = f (concat chunks) ∧ sealed m' r) (λ _ _, ¬ W) ∧
  ∀ v, wp (mapM_ mac_update chunks ;; mac_verify v) m
    (λ _ m', v = f (concat chunks) ∧ sealed m' v)
    (λ e _, W → v ≠ f (concat chunks) ∧ ∃ w, e = MoCOCrWException w).

Lemma mac_stream chunks m f W :
  mac_open m f [] W → Forall (λ x, size x ≤ INT_MAX) chunks → computes_mac m chunks f W.
Proof.
  intros Hm Hs. split; [|intros v]; rewrite wp_bind;
    (eapply wp_mono; [by apply updates_open| |by intros e m' Hn ?; try destruct Hn]);
    intros [] m' Hm'.
  - eapply wp_mono; [by apply mac_finish_spec| |done].
    intros r m'' (-> & Hd). split; [done|]. by apply done_sealed.
  - eapply wp_mono; [by apply mac_verify_open_spec| |done].
    intros [] m'' (-> & Hd). split; [done|]. by apply done_sealed.
Qed.
End Client.

(** C10. Correctness of HMAC: the constructor refuses an empty key and a missing
    digest only; fed a message in any chunks, [finish] returns the HMAC of
    the whole message and [verify] accepts exactly that value, with a
    MoCOCrWException for any other; afterwards the object keeps accepting exactly
    that value and refuses to be updated or finished again.  Nothing else fails
    as long as OpenSSL carries out its calls.  Key and chunks have at most INT_MAX bytes
    each: their lengths are converted to int, and longer ones can be cut without an error
    ([hmac_update_truncates]). *)
Theorem hmac_correct {md : EvpMdAPI} {api : HmacAPI md} {spec : HmacSpec api}
    (hf : DigestTypes) (key : bytes) (chunks : list bytes)
    (Hkey : size key ≤ INT_MAX) (Hchunks : Forall (λ x, size x ≤ INT_MAX) chunks) :
  match HMAC.new hf key with
  | Val m => key ≠ [] ∧ ∃ d, _getMDPtrFromDigestType hf = Val d ∧
      computes_mac m chunks (hmac d key) (HmacWorks spec)
  | Throw e => hf = NONE ∨ key = [] ∨ ¬ HmacWorks spec
  end.
Proof.
  pose proof (hmac_new_open hf key Hkey) as Hn. destruct (HMAC.new hf key) as [m|]; [|done].
  destruct Hn as (Hne & d & Hd & Ho). split; [done|]. exists d. split; [done|].
  by apply mac_stream.
Qed.

(** Correctness of CMAC: the constructor accepts keys of the cipher's key
    length only; [finish] and [verify] behave as for HMAC. *)
Theorem cmac_correct {evp : EvpCipherAPI} {api : CmacAPI evp} {spec : CmacSpec api}
    (ct : CmacCipherTypes) (key : bytes) (chunks : list bytes)
    (Hchunks : Forall (λ x, size x ≤ INT_MAX) chunks) :
  let n := match ct with AES_CBC_128 => 16 | AES_CBC_256 => 32 end in
  match CMAC.new ct key with
  | Val m => size key = n ∧
      computes_mac m chunks (cmac (_getCipherPtrFromCmacCipherType ct) key) (CmacWorks spec)
  | Throw e => size key ≠ n ∨ ¬ CmacWorks spec
  end.
Proof.
  intros n. pose proof (cmac_new_open ct key) as Hn. cbv zeta in Hn.
  assert (Hlen : _EVP_CIPHER_key_length (_getCipherPtrFromCmacCipherType ct) = n).
  { unfold _EVP_CIPHER_key_length. destruct cmac_key_lengths as [H1 H2]. by destruct ct. }
  rewrite Hlen in Hn. destruct (CMAC.new ct key) as [m|]; [|done].
  destruct Hn as [Hk Ho]. split; [done|]. by apply mac_stream.
Qed.

(** [HMAC::update] hands the size of its message to an [int] parameter: of a
    chunk of 2^32 + k bytes only the first k are authenticated. *)
Theorem hmac_update_truncates {md : EvpMdAPI} {api : HmacAPI md} {spec : HmacSpec api}
    (m : MacImpl HMAC_CTX) (d : EVP_MD) (key x chunk : bytes) (k : Z)
    (Hopen : _isFinished m = false) (Hctx : hmac_ctx (_ctx m) d key x)
    (Hk : 0 ≤ k ≤ INT_MAX) (Hsize : size chunk = 4294967296 + k) :
  wp (HMAC.update chunk ;; HMAC.finish) m
    (λ r _, r = hmac d key (x ++ take (Z.to_nat k) chunk)) (λ _ _, ¬ HmacWorks spec).
Proof.
  unfold HMAC.update, MacOps.update, MacOps.on_ctx, _HMAC_Update. wp_simpl.
  rewrite Hopen, Hsize, to_int_wrap by done. wp_simpl.
  call_one HMAC_Update_spec; [exact Hctx|lia| |not_works HMAC_Update_works; lia].
  eapply wp_mono; [eapply (finish_open _ hmac_runs _ HMAC_Final_ok _ _ _ (HmacWorks spec))| |done].
  - split; [done|]. split; [by eexists _, _|done].
  - by intros r m' [-> _].
Qed.

(** ** Witnesses *)

(** A concrete code: a checksum of key and message in the size of the digest. *)
Module ChecksumMac.
Import NamedDigests.

Definition sum (d : bytes) : Z := foldr Z.add 0 (byte_val <$> d).
Definition value (t : DigestTypes) (k d : bytes) : bytes :=
  replicate (Z.to_nat (digest_size t)) (to_uint8 (sum k + sum d)).

#[export] Instance api : HmacAPI NamedDigests.api := {
  HMAC_CTX := DigestTypes * bytes * bytes;
  SSL_HMAC_CTX_new := Some (NONE, [], []);
  SSL_HMAC_Init_ex := λ key len t _, (Val (1, ()), (t, take (Z.to_nat len) key, []));
  SSL_HMAC_Update := λ d len c,
    (Val (1, ()), (c.1, c.2 ++ take (Z.to_nat len) d));
  SSL_HMAC_Final := λ c, (Val (1, value c.1.1 c.1.2 c.2), c);
}.

#[export] Instance spec : HmacSpec api.
Proof.
  refine {| hmac := (value : @EVP_MD NamedDigests.api → bytes → bytes → bytes);
            hmac_ctx := (λ c t k x, c = (t, k, x)) : @HMAC_CTX _ api → _ |}.
  - intros m k d. unfold value. rewrite size_replicate. by destruct m.
  - by intros.
  - by intros ? m k x d len ->.
  - by intros ? m k x ->.
Defined.

Definition key : bytes := str "key".
Definition mac : MacImpl (@HMAC_CTX _ api) :=
  force (mkMac (NONE, [], []) false []) (HMAC.new SHA256 key).

Lemma hmac_works : HmacWorks spec.
Proof. constructor; done. Qed.

Lemma hmac_correct_witness :
  HMAC.new SHA256 key = Val mac ∧
  computes_mac mac [str "ab"; str "c"] (value SHA256 key) (HmacWorks spec).
Proof.
  assert (Hc : Forall (λ x : bytes, size x ≤ INT_MAX) [str "ab"; str "c"]).
  { repeat apply Forall_cons_2; try apply Forall_nil_2; by vm_compute. }
  split; [done|].
  destruct (hmac_correct SHA256 key [str "ab"; str "c"] ltac:(by vm_compute) Hc)
    as (_ & d & Hd & H).
  injection Hd as <-. exact H.
Defined.

Lemma hmac_update_truncates_witness :
  size (zeros (4294967296 + 3)) = 4294967296 + 3 ∧
  wp (HMAC.update (zeros (4294967296 + 3)) ;; HMAC.finish) mac
    (λ r _, r = value SHA256 key ([] ++ take (Z.to_nat 3) (zeros (4294967296 + 3))))
    (λ _ _, ¬ HmacWorks spec).
Proof.
  assert (Hs : size (zeros (4294967296 + 3)) = 4294967296 + 3) by (apply size_zeros; lia).
  split; [exact Hs|].
  refine (hmac_update_truncates mac (SHA256 : @EVP_MD NamedDigests.api) key []
            (zeros (4294967296 + 3)) 3 eq_refl eq_refl _ Hs).
  unfold INT_MAX. lia.
Defined.
End ChecksumMac.

(** The same over the keys of a cipher. *)
Module ChecksumCmac.
Definition value (k d : bytes) : bytes :=
  replicate 16 (to_uint8 (ChecksumMac.sum k + ChecksumMac.sum d)).

#[export] Instance api : CmacAPI XorCipher.api := {
  CMAC_CTX := bytes * bytes;
  SSL_EVP_CIPHER_key_length := (XorCipher.klen : @EVP_CIPHER XorCipher.api → Z);
  SSL_EVP_CIPHER_name := λ _, str "AES-CBC";
  SSL_CMAC_CTX_new := Some ([], []);
  SSL_CMAC_Init := λ key len _ _, (Val (1, ()), (take (Z.to_nat len) key, []));
  SSL_CMAC_Update := λ d len c, (Val (1, ()), (c.1, c.2 ++ take (Z.to_nat len) d));
  SSL_CMAC_Final := λ c, (Val (1, value c.1 c.2), c);
}.

#[export] Instance spec : CmacSpec api.
Proof.
  refine {| cmac := λ _, value;
            cmac_ctx := (λ c _ k x, c = (k, x)) : @CMAC_CTX _ api → _ |}.
  - intros c k d. unfold value. by rewrite size_replicate.
  - done.
  - intros ctx c key _ Hk. unfold wp. cbn. intros _. f_equal. apply take_ge. unfold size. lia.
  - intros ? c k x d ->. unfold wp. cbn. intros _. f_equal. f_equal.
    apply take_ge. unfold size. lia.
  - by intros ? c k x ->.
Defined.

Definition key : bytes := replicate 16 Byte.x5a.
Definition mac : MacImpl (@CMAC_CTX _ api) :=
  force (mkMac (([], []) : @CMAC_CTX _ api) false []) (CMAC.new AES_CBC_128 key).

Lemma cmac_works : CmacWorks spec.
Proof. constructor; done. Qed.

Lemma cmac_correct_witness :
  CMAC.new AES_CBC_128 key = Val mac ∧ size key = 16 ∧
  computes_mac mac [str "ab"; str "c"] (value key) (CmacWorks spec).
Proof.
  assert (Hc : Forall (λ x : bytes, size x ≤ INT_MAX) [str "ab"; str "c"]).
  { repeat apply Forall_cons_2; try apply Forall_nil_2; by vm_compute. }
  split; [done|]. exact (cmac_correct (spec := spec) AES_CBC_128 key [str "ab"; str "c"] Hc).
Defined.
End ChecksumCmac.
