(* ===== verification/Kdf.v ===== *)
(** * Key derivation: [src/src/kdf.cpp] and [src/src/mococrw/kdf.h]

    [PBKDF2] and [X963KDF] behind the interface [KeyDerivationFunction]. *)

From S2P Require Import Prelude CheckCall OpenSSLWrap.

(** ** The interface *)

(** [deriveKey] changes neither the object nor anything else. *)
Class KeyDerivationFunction (K : Type) := {
  deriveKey : K → bytes → Z → bytes → outcome bytes;
}.

(** A derivation that succeeds gives as many bytes as were asked for, the same
    for the same input. *)
Class KeyDerivationFunctionSpec (K : Type) `{KeyDerivationFunction K} : Prop := {
  deriveKey_size k password n salt out :
    0 ≤ n ≤ SIZE_MAX → deriveKey k password n salt = Val out → size out = n;
}.

(** ** The OpenSSL functions *)

(** Lengths and iterations of PBKDF2 are [int]s; the bytes written to the
    output buffer are the result. *)
Class KdfAPI {md : EvpMdAPI} := {
  SSL_PKCS5_PBKDF2_HMAC (pass : bytes) (passlen : Z) (salt : bytes) (saltlen iter : Z)
    (digest : EVP_MD) (keylen : Z) : Z * bytes;
  SSL_ECDH_KDF_X9_63 (outlen : Z) (secret : bytes) (secretlen : Z) (sinfo : bytes)
    (sinfolen : Z) (md : EVP_MD) : Z * bytes;
}.
Arguments KdfAPI : clear implicits.

Section Kdf.
Context {md : EvpMdAPI} {api : KdfAPI md}.

Definition _PKCS5_PBKDF2_HMAC (pass salt : bytes) (iter : Z) (digest : EVP_MD) (out : bytes) :
    outcome bytes :=
  let? r := run_pure (OpensslCallIsOne (ret (SSL_PKCS5_PBKDF2_HMAC
              pass (to_int (size pass)) salt (to_int (size salt)) iter digest
              (to_int (size out))))) in
  write_buffer out r.

Definition _ECDH_KDF_X9_63 (out secret sinfo : bytes) (md : EVP_MD) : outcome bytes :=
  let? r := run_pure (OpensslCallIsOne (ret (SSL_ECDH_KDF_X9_63
              (size out) secret (size secret) sinfo (size sinfo) md))) in
  write_buffer out r.
End Kdf.

(** ** The classes *)

Record PBKDF2 := mkPBKDF2 {
  p_hashFunction : DigestTypes;
  p_iterations : Z;
}.

Record X963KDF := mkX963KDF {
  x_hashFunction : DigestTypes;
}.

Definition PBKDF2_deriveKey {md : EvpMdAPI} {api : KdfAPI md} (k : PBKDF2) (password : bytes) (outputLength : Z)
    (salt : bytes) : outcome bytes :=
  let derivedKey := zeros outputLength in
  let? digestFn := _getMDPtrFromDigestType (p_hashFunction k) in
  _PKCS5_PBKDF2_HMAC password salt (to_int (p_iterations k)) digestFn derivedKey.

Definition X963KDF_deriveKey {md : EvpMdAPI} {api : KdfAPI md} (k : X963KDF) (password : bytes) (outputLength : Z)
    (salt : bytes) : outcome bytes :=
  let derivedKey := zeros outputLength in
  let? digestFn := _getMDPtrFromDigestType (x_hashFunction k) in
  _ECDH_KDF_X9_63 derivedKey password salt digestFn.

#[export] Instance PBKDF2_interface {md : EvpMdAPI} {api : KdfAPI md} : KeyDerivationFunction PBKDF2 := {
  deriveKey := PBKDF2_deriveKey;
}.
#[export] Instance X963KDF_interface {md : EvpMdAPI} {api : KdfAPI md} : KeyDerivationFunction X963KDF := {
  deriveKey := X963KDF_deriveKey;
}.

(** ** The documented behaviour of the OpenSSL functions *)

(** Both fill the output buffer, of the length they are told, with a function of
    the other arguments. *)
Class KdfSpec {md : EvpMdAPI} (api : KdfAPI md) := {
  pbkdf2 : EVP_MD → bytes → bytes → Z → Z → bytes;
  x963 : EVP_MD → bytes → bytes → Z → bytes;
  pbkdf2_size m pass salt iter n : 0 ≤ n → size (pbkdf2 m pass salt iter n) = n;
  x963_size m secret sinfo n : 0 ≤ n → size (x963 m secret sinfo n) = n;
  PBKDF2_spec pass passlen salt saltlen iter m n out :
    0 ≤ passlen ≤ size pass → 0 ≤ saltlen ≤ size salt → 0 ≤ n →
    SSL_PKCS5_PBKDF2_HMAC pass passlen salt saltlen iter m n = (1, out) →
    out = pbkdf2 m (take (Z.to_nat passlen) pass) (take (Z.to_nat saltlen) salt) iter n;
  X963_spec n secret sinfo m out :
    0 ≤ n → SSL_ECDH_KDF_X9_63 n secret (size secret) sinfo (size sinfo) m = (1, out) →
    out = x963 m secret sinfo n;
}.

(** What X9.63 accepts: [ECDH_KDF_MAX] bytes of secret, information and output. *)
Definition ECDH_KDF_MAX : Z := 1073741824.

(** OpenSSL carries the calls out. *)
Record KdfWorks {md : EvpMdAPI} (api : KdfAPI md) : Prop := {
  PBKDF2_works pass passlen salt saltlen iter m n :
    0 ≤ passlen ≤ size pass → 0 ≤ saltlen ≤ size salt → 1 ≤ iter → 1 ≤ n ≤ INT_MAX →
    (SSL_PKCS5_PBKDF2_HMAC pass passlen salt saltlen iter m n).1 = 1;
  X963_works n secret sinfo m :
    1 ≤ n ≤ ECDH_KDF_MAX → size secret ≤ ECDH_KDF_MAX → size sinfo ≤ ECDH_KDF_MAX →
    (SSL_ECDH_KDF_X9_63 n secret (size secret) sinfo (size sinfo) m).1 = 1;
}.

(** ** Facts *)

(** Writing less than a whole buffer of zeroes leaves zeroes behind. *)
Lemma write_buffer_zeros n out :
  size out ≤ n → write_buffer (zeros n) out = Val (out ++ zeros (n - size out)).
Proof.
  intros Hle. pose proof (size_nonneg out). unfold write_buffer.
  rewrite size_zeros by lia. destruct (Z.leb_spec (size out) n); [|lia].
  unfold zeros. rewrite drop_replicate. do 3 f_equal. unfold size in *. lia.
Qed.

#[export] Instance PBKDF2_spec_interface {md : EvpMdAPI} {api : KdfAPI md} : KeyDerivationFunctionSpec PBKDF2.
Proof.
  constructor. intros k password n salt out Hn. cbn.
  unfold PBKDF2_deriveKey, _PKCS5_PBKDF2_HMAC.
  destruct (_getMDPtrFromDigestType _); [|done]. cbn [obind].
  destruct (run_pure _); [|done]. cbn [obind]. intros ->%size_write_buffer.
  apply size_zeros. lia.
Qed.

#[export] Instance X963KDF_spec_interface {md : EvpMdAPI} {api : KdfAPI md} : KeyDerivationFunctionSpec X963KDF.
Proof.
  constructor. intros k password n salt out Hn. cbn.
  unfold X963KDF_deriveKey, _ECDH_KDF_X9_63.
  destruct (_getMDPtrFromDigestType _); [|done]. cbn [obind].
  destruct (run_pure _); [|done]. cbn [obind]. intros ->%size_write_buffer.
  apply size_zeros. lia.
Qed.

(** ** Properties *)

Section Properties.
Context {md : EvpMdAPI} {api : KdfAPI md} {spec : KdfSpec api}.

(** The outcome of a derivation by the digest [t]: the key [f] computes, or an
    error of OpenSSL, which [W] excludes; without a digest, a runtime error. *)
Definition derives (t : DigestTypes) (f : EVP_MD → bytes) (W : Prop) (o : outcome bytes) : Prop :=
  match _getMDPtrFromDigestType t with
  | Val m => o = Val (f m) ∨ (o = Throw (OpenSSLException [ErrorQueue]) ∧ ¬ W)
  | Throw e => o = Throw e
  end.

(** A call that fills the buffer, checked. *)
Lemma derive_call (call : Z * bytes) (n : Z) (r : bytes) (W : Prop) :
  (call.1 = 1 → call.2 = r) → size r = n → (W → call.1 = 1) →
  let o := obind (run_pure (OpensslCallIsOne (ret call))) (write_buffer (zeros n)) in
  o = Val r ∨ (o = Throw (OpenSSLException [ErrorQueue]) ∧ ¬ W).
Proof.
  intros Hr Hn HW. cbv zeta. rewrite run_pure_IsOne.
  destruct (Z.eqb_spec call.1 1) as [H1|H1]; cbn [obind]; [left|right; auto].
  rewrite (Hr H1), write_buffer_zeros by lia. by rewrite Hn, Z.sub_diag, app_nil_r.
Qed.

Lemma x963_derives (t : DigestTypes) (password salt : bytes) (n : Z) :
  0 ≤ n ≤ SIZE_MAX →
  derives t (λ m, x963 m password salt n)
    (KdfWorks api ∧ 1 ≤ n ≤ ECDH_KDF_MAX ∧ size password ≤ ECDH_KDF_MAX ∧
     size salt ≤ ECDH_KDF_MAX)
    (deriveKey {| x_hashFunction := t |} password n salt).
Proof.
  intros Hn. unfold derives. cbn. unfold X963KDF_deriveKey, _ECDH_KDF_X9_63. cbn [x_hashFunction].
  destruct (_getMDPtrFromDigestType t) as [m|]; [|done]. cbn [obind].
  rewrite size_zeros by lia. apply derive_call; [|apply x963_size; lia|].
  - intros H1. eapply X963_spec; [lia|]. by rewrite <- H1, <- surjective_pairing.
  - intros (HW & ? & ? & ?). by apply X963_works.
Qed.

Lemma pbkdf2_derives (t : DigestTypes) (iterations : Z) (password salt : bytes) (n : Z) :
  0 ≤ n ≤ INT_MAX → size password ≤ INT_MAX → size salt ≤ INT_MAX →
  derives t (λ m, pbkdf2 m password salt (to_int iterations) n)
    (KdfWorks api ∧ 1 ≤ n ∧ 1 ≤ to_int iterations)
    (deriveKey {| p_hashFunction := t; p_iterations := iterations |} password n salt).
Proof.
  intros Hn Hp Hs. pose proof (size_nonneg password). pose proof (size_nonneg salt).
  assert (Hi : ∀ z, 0 ≤ z → z ≤ INT_MAX → to_int z = z)
    by (intros; apply to_int_id; unfold INT_MIN; lia).
  unfold derives. cbn. unfold PBKDF2_deriveKey, _PKCS5_PBKDF2_HMAC.
  cbn [p_hashFunction p_iterations].
  destruct (_getMDPtrFromDigestType t) as [m|]; [|done]. cbn [obind].
  rewrite size_zeros, (Hi n), (Hi (size password)), (Hi (size salt)) by lia.
  apply derive_call; [|apply pbkdf2_size; lia|].
  - intros H1. etrans;
      [eapply (PBKDF2_spec password (size password) salt (size salt) _ _ n); [lia..|];
       by rewrite <- H1, <- surjective_pairing|].
    by rewrite !take_ge by (unfold size; lia).
  - intros (HW & ? & ?). apply PBKDF2_works; [done|lia..].
Qed.

(** C28. Key derivation: for lengths in the range of [int], PBKDF2 derives the key
    of the requested length from the whole password and the whole salt, and so
    does X9.63 for lengths of any size; with at least one byte and one iteration
    asked for, and X9.63 within its limits, nothing fails as long as OpenSSL carries
    out its calls. *)
Theorem kdf_correct (t : DigestTypes) (iterations : Z) (password salt : bytes) (n : Z)
    (Hn : 0 ≤ n ≤ SIZE_MAX) :
  derives t (λ m, x963 m password salt n)
    (KdfWorks api ∧ 1 ≤ n ≤ ECDH_KDF_MAX ∧ size password ≤ ECDH_KDF_MAX ∧
     size salt ≤ ECDH_KDF_MAX)
    (deriveKey {| x_hashFunction := t |} password n salt) ∧
  (n ≤ INT_MAX → size password ≤ INT_MAX → size salt ≤ INT_MAX →
   derives t (λ m, pbkdf2 m password salt (to_int iterations) n)
     (KdfWorks api ∧ 1 ≤ n ∧ 1 ≤ to_int iterations)
     (deriveKey {| p_hashFunction := t; p_iterations := iterations |} password n salt)).
Proof. split; [by apply x963_derives|]. intros. apply pbkdf2_derives; [lia|done..]. Qed.

(** The length PBKDF2 passes on is an [int]: of 2^32 + k requested bytes only the
    first k are derived, the others are zero. *)
Lemma pbkdf2_truncates (t : DigestTypes) (m : EVP_MD) (iterations : Z) (password salt : bytes)
    (k : Z) :
  0 ≤ k ≤ INT_MAX → size password ≤ INT_MAX → size salt ≤ INT_MAX →
  _getMDPtrFromDigestType t = Val m →
  let o := deriveKey {| p_hashFunction := t; p_iterations := iterations |}
             password (4294967296 + k) salt in
  o = Val (pbkdf2 m password salt (to_int iterations) k ++ zeros 4294967296) ∨
  o = Throw (OpenSSLException [ErrorQueue]).
Proof.
  intros Hk Hp Hs Hm. pose proof (size_nonneg password). pose proof (size_nonneg salt).
  assert (Hi : ∀ z, 0 ≤ z → z ≤ INT_MAX → to_int z = z)
    by (intros; apply to_int_id; unfold INT_MIN; lia).
  cbn. unfold PBKDF2_deriveKey, _PKCS5_PBKDF2_HMAC. cbn [p_hashFunction p_iterations].
  rewrite Hm. cbn [obind].
  rewrite run_pure_IsOne, size_zeros, to_int_wrap, (Hi (size password)), (Hi (size salt))
    by lia.
  destruct (SSL_PKCS5_PBKDF2_HMAC _ _ _ _ _ _ _) as [rv out] eqn:Hcall. cbn [fst snd].
  destruct (Z.eqb_spec rv 1) as [->|]; [|by right].
  apply PBKDF2_spec in Hcall; [|lia|lia|lia].
  rewrite !take_ge in Hcall by (unfold size; lia).
  left. cbn [obind]. pose proof (pbkdf2_size m password salt (to_int iterations) k ltac:(lia)).
  subst out. rewrite write_buffer_zeros by lia.
  do 2 f_equal. rewrite H1. f_equal. lia.
Qed.
End Properties.

(** ** Witness *)

(** A concrete derivation: the bytes of secret and salt, repeated. *)
Module RepeatKdf.
Import NamedDigests.

Definition stream (d : bytes) (n : Z) : bytes :=
  (λ i, nth (i mod length d)%nat d Byte.x00) <$> seq 0 (Z.to_nat n).

#[export] Instance api : KdfAPI NamedDigests.api := {
  SSL_PKCS5_PBKDF2_HMAC pass passlen salt saltlen _ _ n :=
    (1, stream (take (Z.to_nat passlen) pass ++ take (Z.to_nat saltlen) salt) n);
  SSL_ECDH_KDF_X9_63 n secret _ sinfo _ _ := (1, stream (secret ++ sinfo) n);
}.

Lemma size_stream d n : 0 ≤ n → size (stream d n) = n.
Proof. intros. unfold stream, size. rewrite length_fmap, length_seq. lia. Qed.

#[export] Instance spec : KdfSpec api.
Proof.
  refine {| pbkdf2 := λ _ pass salt _ n, stream (pass ++ salt) n;
            x963 := λ _ secret sinfo n, stream (secret ++ sinfo) n |}.
  - intros. by apply size_stream.
  - intros. by apply size_stream.
  - by intros ? ? ? ? ? ? ? ? _ _ _ [= <-].
  - by intros ? ? ? ? ? _ [= <-].
Defined.

Lemma kdf_works : KdfWorks api.
Proof. by constructor. Qed.

Lemma kdf_correct_witness :
  0 ≤ 80 ≤ SIZE_MAX ∧
  derives SHA256 (λ _, stream (str "secret" ++ str "salt") 80)
    (KdfWorks api ∧ 1 ≤ 80 ≤ ECDH_KDF_MAX ∧ size (str "secret") ≤ ECDH_KDF_MAX ∧
     size (str "salt") ≤ ECDH_KDF_MAX)
    (deriveKey {| x_hashFunction := SHA256 |} (str "secret") 80 (str "salt")).
Proof.
  assert (Hn : 0 ≤ 80 ≤ SIZE_MAX) by (unfold SIZE_MAX; lia). split; [exact Hn|].
  exact (proj1 (kdf_correct SHA256 1000 (str "secret") (str "salt") 80 Hn)).
Defined.
End RepeatKdf.
