(* ===== verification/Bio.v ===== *)
(** * Basic I/O: [src/src/bio.cpp] and [src/src/mococrw/bio.h]

    A [BioObject] of type MEM is the buffer through which everything is read
    from and written to PEM and DER. *)

From S2P Require Import Prelude CheckCall Util.

(** ** The OpenSSL functions *)

(** [gets] and [read] return their count and the bytes they put in the buffer. *)
Class BioAPI := {
  BIO : Type;
  SSL_BIO_new_mem : option BIO;
  SSL_BIO_new_file (filename mode : bytes) : option BIO;
  SSL_BIO_gets (size : Z) : M BIO (Z * bytes);
  SSL_BIO_puts (buf : bytes) : M BIO Z;
  SSL_BIO_write (data : bytes) (len : Z) : M BIO Z;
  SSL_BIO_read (len : Z) : M BIO (Z * bytes);
}.

Inductive BioTypes := MEM | FILE.
Inductive FileMode := READ | WRITE.
Inductive FileType := TEXT | BINARY.

Section Bio.
Context {api : BioAPI}.

(** ** The wrappers *)

Definition _BIO_new_mem : outcome BIO := run_pure (OpensslCallPtr (ret SSL_BIO_new_mem)).
Definition _BIO_new_file (filename mode : bytes) : outcome BIO :=
  run_pure (OpensslCallPtr (ret (SSL_BIO_new_file filename mode))).

Definition not_implemented (method : string) : exn :=
  OpenSSLException [Str "Method '"; Str method; Str "' not implemented for this BIO"].

(** The buffer is overwritten in place. *)
Definition _BIO_gets (buf : bytes) : M BIO (Z * bytes) :=
  let! (rv, out) := SSL_BIO_gets (size buf) in
  throw_if (rv =? -2) (not_implemented "gets") ;;
  let! buf := lift (write_buffer buf out) in
  ret (rv, buf).

Definition _BIO_puts (buf : bytes) : M BIO Z :=
  let! rv := SSL_BIO_puts (c_str buf) in
  throw_if (rv =? -2) (not_implemented "puts") ;;
  ret rv.

Definition _BIO_write (data : bytes) : M BIO Z :=
  throw_if (INT_MAX <? size data)
    (OpenSSLException [Str "BIO_write cannot be called with so much data"]) ;;
  let! rv := SSL_BIO_write data (to_int (size data)) in
  throw_if (rv =? -2) (not_implemented "write") ;;
  ret rv.

Definition _BIO_read (buf : bytes) (numBytes : Z) : M BIO (Z * bytes) :=
  throw_if (INT_MAX <? numBytes)
    (OpenSSLException [Str "BIO_read cannot be called with so much data"]) ;;
  let buf := resize numBytes buf in
  let! (rv, out) := SSL_BIO_read (to_int numBytes) in
  let! buf := lift (write_buffer buf out) in
  throw_if (rv =? -2) (not_implemented "read") ;;
  ret (rv, if 0 <? rv then resize rv buf else resize 0 buf).

(** ** Class [BioObject] *)

Definition BioObject_new (type : BioTypes) : outcome BIO :=
  match type with
  | MEM => _BIO_new_mem
  | FILE => Throw (RuntimeError [Str "Unsupported type: "; Num 1])
  end.

(** [write(const std::string &)] *)
Definition write_string (buf : bytes) : M BIO () := _BIO_puts buf ;; ret ().

(** [write(const std::vector<uint8_t> &)] *)
Definition write_vector (buf : bytes) : M BIO () :=
  let! written := _BIO_write buf in
  throw_if ((written <? 0) || (to_size_t written <? size buf))
    (RuntimeError [Str "Could not write all data. Reason unknown (OpenSSL reported a count of ";
       Num written; Str ")"]).

Definition corrupted : exn :=
  RuntimeError [Str "OpenSSL corrupted the memory. Your best option now is to terminate."].

(** One iteration of the loop of [flushToString] on the buffer and the stream. *)
Definition flushToString_body (st : bytes * bytes) : M BIO (bytes * bytes + bytes) :=
  let '(buffer, ostream) := st in
  let! (count, buffer) := _BIO_gets buffer in
  if count <? 0 then
    throw (RuntimeError [Str "Could not read the string. Reason unknown (OpenSSL reported a count of ";
             Num count; Str ")"])
  else if 2048 <? count then throw corrupted
  else
    let ostream := ostream ++ take (Z.to_nat count) buffer in
    if 0 <? count then ret (inl (buffer, ostream)) else ret (inr ostream).

Definition flushToString (fuel : nat) : M BIO bytes :=
  iter fuel flushToString_body (zeros 2048, []).

Definition flushToVector_body (st : bytes * bytes) : M BIO (bytes * bytes + bytes) :=
  let '(tmpBuffer, outputBuffer) := st in
  let! (count, tmpBuffer) := _BIO_read tmpBuffer 2048 in
  if count <? 0 then ret (inr outputBuffer)
  else if 2048 <? to_size_t count then throw corrupted
  else
    let outputBuffer := outputBuffer ++ tmpBuffer in
    if 0 <? count then ret (inl (tmpBuffer, outputBuffer)) else ret (inr outputBuffer).

Definition flushToVector (fuel : nat) : M BIO bytes :=
  iter fuel flushToVector_body ([], []).

(** A computation in a new memory BIO, a local variable of its function. *)
Definition with_bio {A} (m : M BIO A) : outcome A :=
  let? b := BioObject_new MEM in (m b).1.

(** ** Class [FileBio] *)

Definition FileBio_new (filename : bytes) (mode : FileMode) (type : FileType) : outcome BIO :=
  let modeStr := match mode with READ => str "r" | WRITE => str "w" end in
  let modeStr := match type with BINARY => modeStr ++ str "b" | TEXT => modeStr end in
  _BIO_new_file (c_str filename) modeStr.
End Bio.

(** ** The documented behaviour of memory BIOs *)

Class BioSpec (api : BioAPI) := {
  (** the BIO holds the bytes that were written and not yet read *)
  mem_bio : BIO → bytes → Prop;
  BIO_new_spec b : SSL_BIO_new_mem = Some b → mem_bio b [];
  (** "BIO_gets() ... reads the line ... size - 1 bytes at most"; the buffer gets
      the bytes and a NUL *)
  BIO_gets_spec b d n :
    mem_bio b d → 2 ≤ n →
    wp_total (SSL_BIO_gets n) b (λ '(rv, out) b',
      (d = [] ∧ rv = 0 ∧ out = [Byte.x00] ∧ mem_bio b' []) ∨
      (∃ line rest, d = line ++ rest ∧ 1 ≤ size line ≤ n - 1 ∧ rv = size line ∧
         out = line ++ [Byte.x00] ∧ mem_bio b' rest));
  (** all is written, or nothing *)
  BIO_write_spec b d data len :
    mem_bio b d → 0 ≤ len ≤ size data →
    wp_total (SSL_BIO_write data len) b (λ rv b',
      (rv = len ∧ mem_bio b' (d ++ take (Z.to_nat len) data)) ∨ (rv = -1 ∧ mem_bio b' d));
  BIO_puts_spec b d data :
    mem_bio b d →
    wp_total (SSL_BIO_puts data) b (λ rv b',
      (rv = size data ∧ mem_bio b' (d ++ data)) ∨ (rv = -1 ∧ mem_bio b' d));
  (** an empty memory BIO reports -1, "retry" *)
  BIO_read_spec b d n :
    mem_bio b d → 1 ≤ n →
    wp_total (SSL_BIO_read n) b (λ '(rv, out) b',
      (d = [] ∧ rv = -1 ∧ out = [] ∧ mem_bio b' []) ∨
      (∃ rest, d = out ++ rest ∧ 1 ≤ size out ≤ n ∧ rv = size out ∧ mem_bio b' rest));
}.

(** Memory is there, for what is written too. *)
Record BioWorks {api : BioAPI} (spec : BioSpec api) : Prop := {
  BIO_new_works : SSL_BIO_new_mem ≠ None;
  BIO_puts_works b d data : mem_bio b d → 1 ≤ size data ≤ INT_MAX →
    wp_total (SSL_BIO_puts data) b (λ rv _, rv ≠ -1);
  BIO_write_works b d data : mem_bio b d → 1 ≤ size data ≤ INT_MAX →
    wp_total (SSL_BIO_write data (size data)) b (λ rv _, rv ≠ -1);
}.

(** ** Facts *)

Section Facts.
Context {api : BioAPI} {spec : BioSpec api}.

Lemma take_write_buffer buf out b :
  write_buffer buf out = Val b → take (length out) b = out.
Proof.
  unfold write_buffer. case_match; [|done]. intros [= <-].
  by rewrite take_app_length.
Qed.

Lemma write_vector_spec b d data :
  mem_bio b d → size data ≤ INT_MAX →
  wp (write_vector data) b (λ _ b', mem_bio b' (d ++ data))
    (λ e b', mem_bio b' d ∧ (∃ w, e = RuntimeError w) ∧ ¬ (BioWorks spec ∧ 1 ≤ size data)).
Proof.
  intros Hb Hs. pose proof (size_nonneg data). unfold write_vector, _BIO_write. wp_simpl.
  destruct (Z.ltb_spec INT_MAX (size data)); [lia|].
  rewrite to_int_id by (unfold INT_MIN; lia). rewrite wp_bind.
  assert (Hw : wp_total (SSL_BIO_write data (size data)) b (λ rv _,
      BioWorks spec ∧ 1 ≤ size data → rv ≠ -1)).
  { unfold wp. pose proof (BIO_write_spec b d data (size data) Hb ltac:(lia)) as Hw. unfold wp in Hw.
    destruct (SSL_BIO_write data (size data) b) as [[rv|e] b'] eqn:Hrun; [|done]. intros [HW H1].
    pose proof (BIO_write_works _ HW b d data Hb ltac:(lia)) as Hn. unfold wp in Hn.
    by rewrite Hrun in Hn. }
  eapply wp_mono; [apply (wp_and _ _ _ _ _ _ (BIO_write_spec b d data (size data) Hb ltac:(lia)) Hw)
    | |by intros ? ? [[] _]].
  intros rv b' [[[-> Hb']|[-> Hb']] Hn]; wp_simpl.
  - rewrite take_ge in Hb' by (unfold size; lia).
    destruct (Z.eqb_spec (size data) (-2)); [lia|]. wp_simpl.
    rewrite to_size_t_id by (unfold SIZE_MAX, INT_MAX in *; lia).
    destruct (Z.ltb_spec (size data) 0); [lia|]. by rewrite Z.ltb_irrefl.
  - split; [done|]. split; [by eexists|]. by intros HW%Hn.
Qed.

(** A string is written up to its first NUL, and a failure goes unnoticed. *)
Lemma write_string_spec b d data :
  mem_bio b d →
  wp_total (write_string data) b (λ _ b', mem_bio b' (d ++ c_str data) ∨
    (mem_bio b' d ∧ ¬ (BioWorks spec ∧ 1 ≤ size (c_str data) ≤ INT_MAX))).
Proof.
  intros Hb. unfold write_string, _BIO_puts. wp_simpl.
  assert (Hw : wp_total (SSL_BIO_puts (c_str data)) b (λ rv _,
      BioWorks spec ∧ 1 ≤ size (c_str data) ≤ INT_MAX → rv ≠ -1)).
  { unfold wp. pose proof (BIO_puts_spec b d (c_str data) Hb) as Hw. unfold wp in Hw.
    destruct (SSL_BIO_puts (c_str data) b) as [[rv|e] b'] eqn:Hrun; [|done]. intros [HW H1].
    pose proof (BIO_puts_works _ HW b d (c_str data) Hb H1) as Hn. unfold wp in Hn.
    by rewrite Hrun in Hn. }
  eapply wp_mono; [apply (wp_and _ _ _ _ _ _ (BIO_puts_spec b d (c_str data) Hb) Hw)
    | |by intros ? ? [[] _]].
  intros rv b' [[[-> Hb']|[-> Hb']] Hn]; wp_simpl.
  - pose proof (size_nonneg (c_str data)).
    destruct (Z.eqb_spec (size (c_str data)) (-2)); [lia|]. wp_simpl. by left.
  - right. split; [done|]. by intros HW%Hn.
Qed.

Lemma flushToString_spec b d :
  mem_bio b d → ∀ fuel, (S (length d) < fuel)%nat →
  wp_total (flushToString fuel) b (λ s b', s = d ∧ mem_bio b' []).
Proof.
  intros Hb fuel Hf. unfold flushToString.
  apply (wp_iter (λ l b', size l.1 = 2048 ∧ ∃ rest, mem_bio b' rest ∧ d = l.2 ++ rest)
           (λ l _, S (length d) - length l.2)%nat).
  2: { split; [done|]. by exists d. }
  2: cbn; lia.
  intros [buf acc] b1 (Hbuf & rest & Hb1 & Hd). cbn in Hbuf, Hd.
  unfold flushToString_body, _BIO_gets. rewrite wp_bind, wp_bind, Hbuf.
  eapply wp_mono; [apply BIO_gets_spec; [exact Hb1|lia]| |done].
  intros [rv out] b2 [(-> & -> & -> & Hb2)|(line & rest' & -> & Hl & -> & -> & Hb2)].
  - wp_simpl. destruct (write_buffer buf [Byte.x00]) as [buf'|] eqn:Hw.
    2: { unfold write_buffer in Hw. rewrite Hbuf in Hw. done. }
    wp_simpl. cbn. wp_simpl. rewrite app_nil_r in Hd. by rewrite app_nil_r.
  - wp_simpl. destruct (Z.eqb_spec (size line) (-2)); [lia|]. wp_simpl.
    destruct (write_buffer buf (line ++ [Byte.x00])) as [buf'|] eqn:Hw.
    2: { unfold write_buffer in Hw. rewrite Hbuf in Hw. sizes.
         destruct (Z.leb_spec (size line + (1 + 0)) 2048); [done|lia]. }
    pose proof (size_write_buffer _ _ _ Hw) as Hsz.
    apply take_write_buffer in Hw.
    assert (Ht : take (length line) buf' = line).
    { rewrite length_app in Hw. cbn in Hw.
      replace (length line) with (length line `min` (length line + 1))%nat at 1 by lia.
      rewrite <- take_take, Hw. by rewrite take_app_length. }
    wp_simpl. destruct (Z.ltb_spec (size line) 0); [lia|].
    destruct (Z.ltb_spec 2048 (size line)); [lia|].
    destruct (Z.ltb_spec 0 (size line)); [|lia]. wp_simpl. cbn.
    replace (Z.to_nat (size line)) with (length line) by (unfold size; lia). rewrite Ht.
    split; [split; [lia|]|].
    + exists rest'. by rewrite Hd, app_assoc.
    + rewrite Hd, !length_app. unfold size in Hl. lia.
Qed.

Lemma flushToVector_spec b d :
  mem_bio b d → ∀ fuel, (S (length d) < fuel)%nat →
  wp_total (flushToVector fuel) b (λ s b', s = d ∧ mem_bio b' []).
Proof.
  intros Hb fuel Hf. unfold flushToVector.
  apply (wp_iter (λ l b', ∃ rest, mem_bio b' rest ∧ d = l.2 ++ rest)
           (λ l _, S (length d) - length l.2)%nat).
  2: by exists d.
  2: cbn; lia.
  intros [buf acc] b1 (rest & Hb1 & Hd). cbn in Hd.
  unfold flushToVector_body, _BIO_read. wp_simpl.
  change (INT_MAX <? 2048) with false. wp_simpl.
  change (to_int 2048) with 2048. rewrite wp_bind.
  eapply wp_mono; [apply BIO_read_spec; [exact Hb1|lia]| |done].
  intros [rv out] b2 [(-> & -> & -> & Hb2)|(rest' & -> & Hl & -> & Hb2)].
  - wp_simpl. unfold write_buffer. rewrite size_nil.
    pose proof (size_nonneg (resize 2048 buf)).
    destruct (Z.leb_spec 0 (size (resize 2048 buf))); [|lia]. wp_simpl.
    cbn. wp_simpl. rewrite app_nil_r in Hd. done.
  - wp_simpl. destruct (write_buffer_resize (resize 2048 buf) out) as (buf' & -> & Hr).
    { rewrite size_resize; lia. }
    wp_simpl. destruct (Z.eqb_spec (size out) (-2)); [lia|]. wp_simpl.
    destruct (Z.ltb_spec (size out) 0); [lia|].
    rewrite to_size_t_id by (unfold SIZE_MAX; lia).
    destruct (Z.ltb_spec 2048 (size out)); [lia|].
    destruct (Z.ltb_spec 0 (size out)); [|lia]. wp_simpl. cbn. rewrite Hr.
    split.
    + exists rest'. by rewrite Hd, app_assoc.
    + rewrite Hd, !length_app. unfold size in Hl. lia.
Qed.

Lemma BioObject_new_ok b : BioObject_new MEM = Val b → mem_bio b [].
Proof.
  cbn. unfold _BIO_new_mem. rewrite run_pure_Ptr. intros Hb. apply BIO_new_spec.
  destruct SSL_BIO_new_mem; [by injection Hb as ->|done].
Qed.

Lemma with_bio_ok {A} (m : M BIO A) x (P : A → Prop) Ψ :
  (∀ b, mem_bio b [] → wp m b (λ r _, P r) Ψ) → with_bio m = Val x → P x.
Proof.
  intros Hm H. unfold with_bio in H. outcomes H. apply BioObject_new_ok in Ha.
  eapply wp_fst; [exact H|by apply Hm].
Qed.

(** *** Documents: objects that are written to and read from a new memory BIO *)

Lemma with_bio_steps {A} (W : Prop) (m : M BIO A) P Ψ :
  (W → BioWorks spec) → (¬ W → Ψ (OpenSSLException [ErrorQueue])) →
  (∀ b, mem_bio b [] → wp m b (λ a _, P a) (λ e _, Ψ e)) → owp (with_bio m) P Ψ.
Proof.
  intros HW HΨ Hm. unfold with_bio. cbn. unfold _BIO_new_mem. rewrite run_pure_Ptr.
  destruct SSL_BIO_new_mem as [b|] eqn:Hb; cbn [obind].
  - specialize (Hm b (BIO_new_spec b Hb)). unfold wp in Hm. by destruct (m b) as [[a|e] b'].
  - apply HΨ. intros H%HW. by destruct (BIO_new_works _ H).
Qed.

Lemma with_bio_prepares {A} (W : Prop) (m : M BIO A) P :
  (W → BioWorks spec) →
  (∀ b, mem_bio b [] → wp m b (λ a _, P a) (λ e _, e = OpenSSLException [ErrorQueue] ∧ ¬ W)) →
  prepares W (with_bio m) P.
Proof. intros HW Hm. by apply (with_bio_steps W). Qed.

(** A call that writes a text with [T]. *)
Definition writes (W : Prop) (T : bytes → Prop) (call : M BIO (Z * ())) : Prop :=
  ∀ b d, mem_bio b d →
    wp_total call b (λ r b', r.1 = 1 → ∃ t, T t ∧ mem_bio b' (d ++ t)) ∧ (W → succeeds call b).

Lemma writes_text W text (call : M BIO (Z * ())) :
  (∀ b d, mem_bio b d → wp_total call b (λ '(rv, _) b', rv = 1 → mem_bio b' (d ++ text))) →
  (W → ∀ b d, mem_bio b d → succeeds call b) → writes W (λ t, t = text) call.
Proof.
  intros Hcall HW b d Hb. split; [|intros H; by eapply HW].
  eapply wp_mono; [by apply Hcall| |done]. intros [rv []] b' H Hrv. exists text. by auto.
Qed.

Lemma writes_ok W T call (flush : M BIO bytes) b :
  writes W T call → mem_bio b [] →
  (∀ b t, T t → mem_bio b t → wp_total flush b (λ s b', s = t ∧ mem_bio b' [])) →
  wp (OpensslCallIsOne call ;; flush) b (λ t _, T t)
    (λ e _, e = OpenSSLException [ErrorQueue] ∧ ¬ W).
Proof.
  intros Hcall Hb Hflush. destruct (Hcall b [] Hb) as [Hspec Hworks]. rewrite wp_bind. apply wp_IsOne_ok.
  - eapply wp_mono; [exact Hspec| |done]. intros [rv []] b' Hrv H. destruct (Hrv H) as (t & Ht & Hb').
    eapply wp_mono; [by eapply Hflush| |done]. by intros s b'' [-> _].
  - intros b' Hn. split; [done|]. intros H. by apply Hn, Hworks.
Qed.

Lemma written W T call (flush : M BIO bytes) :
  (W → BioWorks spec) → writes W T call →
  (∀ b t, T t → mem_bio b t → wp_total flush b (λ s b', s = t ∧ mem_bio b' [])) →
  prepares W (with_bio (OpensslCallIsOne call ;; flush)) T.
Proof. intros HW Hcall Hflush. apply with_bio_prepares; [done|]. intros b Hb. by apply writes_ok. Qed.

Lemma written_vector W T call fuel :
  (W → BioWorks spec) → writes W T call → (∀ t, T t → (S (length t) < fuel)%nat) →
  prepares W (with_bio (OpensslCallIsOne call ;; flushToVector fuel)) T.
Proof. intros HW Hcall Hf. apply written; [done..|]. intros b t Ht Hb. by apply flushToVector_spec, Hf. Qed.

Lemma written_string W T call fuel :
  (W → BioWorks spec) → writes W T call → (∀ t, T t → (S (length t) < fuel)%nat) →
  prepares W (with_bio (OpensslCallIsOne call ;; flushToString fuel)) T.
Proof. intros HW Hcall Hf. apply written; [done..|]. intros b t Ht Hb. by apply flushToString_spec, Hf. Qed.

(** A call that reads the object of a text. *)
Definition reads {A} (W : Prop) (text : bytes) (P : A → Prop) (call : M BIO (option A)) : Prop :=
  ∀ b, mem_bio b text →
    wp_total call b (λ o _, ∀ x, o = Some x → P x) ∧ (W → gives_object call b).

Lemma reads_ok {A} W text P (call : M BIO (option A)) b :
  reads W text P call → mem_bio b text →
  wp (OpensslCallPtr call) b (λ x _, P x) (λ e _, e = OpenSSLException [ErrorQueue] ∧ ¬ W).
Proof.
  intros Hcall Hb. destruct (Hcall b Hb) as [Hspec Hworks]. apply wp_Ptr_ok.
  - eapply wp_mono; [exact Hspec| |done]. intros o b' H x Hx. by apply H.
  - intros b' Hn. split; [done|]. intros H. by apply Hn, Hworks.
Qed.

(** A vector may not be written, which is reported. *)
Lemma read_vector {A} W text P (call : M BIO (option A)) :
  (W → BioWorks spec ∧ 1 ≤ size text) → size text ≤ INT_MAX → reads W text P call →
  owp (with_bio (write_vector text ;; OpensslCallPtr call)) P
    (λ e, (e = OpenSSLException [ErrorQueue] ∨ ∃ w, e = RuntimeError w) ∧ ¬ W).
Proof.
  intros HW Hs Hcall. apply (with_bio_steps W); [by intros []%HW|by split; [left|]|]. intros b Hb.
  rewrite wp_bind. eapply wp_mono; [by apply (write_vector_spec b [])| |].
  - intros [] b' Hb'. eapply wp_mono; [by eapply reads_ok|done|]. intros e b'' [-> ?]. by split; [left|].
  - intros e b' (_ & He & Hn). split; [by right|]. by intros H%HW.
Qed.

(** A string that is not written at all leaves nothing to read. *)
Lemma read_string {A} W text P (call : M BIO (option A)) :
  (W → BioWorks spec ∧ 1 ≤ size text ≤ INT_MAX) → c_str text = text → reads W text P call →
  (∀ b, mem_bio b [] → wp_total call b (λ o _, o = None)) →
  prepares W (with_bio (write_string text ;; OpensslCallPtr call)) P.
Proof.
  intros HW Ht Hcall Hempty. apply with_bio_prepares; [by intros []%HW|]. intros b Hb. rewrite wp_bind.
  eapply wp_mono; [by apply write_string_spec| |done]. intros [] b'. rewrite Ht.
  intros [Hb'|[Hb' Hn]]; [by eapply reads_ok|].
  apply wp_OpensslCallPtr. eapply wp_mono; [by apply Hempty| |done]. intros o b'' ->.
  split; [done|]. by intros H%HW.
Qed.

(** A memory BIO returns what was written to it: after any sequence of
    vectors was written successfully, [flushToString] and [flushToVector] return
    their concatenation and leave the BIO empty; their loops end after at most
    one iteration per byte and one more.  With memory at hand, writing vectors
    that are not empty succeeds. *)
Theorem bio_write_flush (b : BIO) (chunks : list bytes) (fuel : nat)
    (Hb : BioObject_new MEM = Val b)
    (Hs : Forall (λ x, size x ≤ INT_MAX) chunks)
    (Hfuel : (S (length (concat chunks)) < fuel)%nat) :
  wp (mapM_ write_vector chunks) b
    (λ _ b',
       wp_total (flushToString fuel) b' (λ s b'', s = concat chunks ∧ mem_bio b'' []) ∧
       wp_total (flushToVector fuel) b' (λ s b'', s = concat chunks ∧ mem_bio b'' []))
    (λ e _, (∃ w, e = RuntimeError w) ∧ ¬ (BioWorks spec ∧ [] ∉ chunks)).
Proof.
  assert (Hb0 : mem_bio b []).
  { apply BIO_new_spec. cbn in Hb. unfold _BIO_new_mem in Hb.
    destruct SSL_BIO_new_mem as [b'|]; [|done]. cbn in Hb. by injection Hb as ->. }
  assert (Hw : ∀ d b0, mem_bio b0 d →
    wp (mapM_ write_vector chunks) b0 (λ _ b', mem_bio b' (d ++ concat chunks))
      (λ e _, (∃ w, e = RuntimeError w) ∧ ¬ (BioWorks spec ∧ [] ∉ chunks))).
  { clear Hfuel Hb0. induction Hs as [|x xs Hx Hxs IH]; intros d b0 Hd; cbn.
    - wp_simpl. by rewrite app_nil_r.
    - wp_simpl. eapply wp_mono; [by apply write_vector_spec| |].
      + intros [] b' Hb'. rewrite app_assoc. eapply wp_mono; [by apply IH|done|].
        intros e b'' [He Hn]. split; [done|]. intros [HW Hne]. apply Hn. split; [done|].
        intros Hin. apply Hne. by right.
      + intros e b' (_ & He & Hn). split; [done|]. intros [HW Hne]. apply Hn. split; [done|].
        destruct x; [destruct Hne; by left|]. rewrite size_cons. pose proof (size_nonneg x). lia. }
  eapply wp_mono; [by apply (Hw [])| |done].
  intros [] b' Hb'. cbn in Hb'.
  split; [by apply flushToString_spec|by apply flushToVector_spec].
Qed.
End Facts.

(** ** A concrete memory BIO: a byte string *)
Module MemBio.
#[export] Instance api : BioAPI := {
  BIO := bytes;
  SSL_BIO_new_mem := Some [];
  SSL_BIO_new_file := λ _ _, None;
  SSL_BIO_gets := λ n d,
    let line := take (Z.to_nat (n - 1)) d in
    (Val (size line, line ++ [Byte.x00]), drop (Z.to_nat (n - 1)) d);
  SSL_BIO_puts := λ x d, (Val (size x), d ++ x);
  SSL_BIO_write := λ x len d, (Val len, d ++ take (Z.to_nat len) x);
  SSL_BIO_read := λ n d,
    match d with
    | [] => (Val (-1, []), [])
    | _ => (Val (size (take (Z.to_nat n) d), take (Z.to_nat n) d), drop (Z.to_nat n) d)
    end;
}.

Lemma size_take_pos (d : bytes) n :
  d ≠ [] → 1 ≤ n → 1 ≤ size (take (Z.to_nat n) d) ≤ n.
Proof.
  intros Hd Hn. unfold size. rewrite length_take.
  destruct d; [done|]. cbn [length]. lia.
Qed.

#[export] Instance spec : BioSpec api.
Proof.
  refine {| mem_bio := (λ b d, b = d) : @BIO api → bytes → Prop |}.
  - by intros b [= <-].
  - intros b d n -> Hn. unfold wp. cbn. destruct (decide (d = [])) as [->|Hd].
    + left. by rewrite take_nil, drop_nil.
    + right. eexists _, _. split; [by rewrite take_drop|]. split; [|done].
      pose proof (size_take_pos d (n - 1) Hd). lia.
  - intros b d x len -> Hl. unfold wp. cbn. by left.
  - intros b d x ->. unfold wp. cbn. by left.
  - intros b d n -> Hn. unfold wp. cbn. destruct (decide (d = [])) as [->|Hd].
    + by left.
    + destruct d as [|c d]; [done|]. right. eexists. split; [by rewrite take_drop|].
      split; [|done]. by apply size_take_pos.
Defined.

Lemma mem_bio_works : BioWorks spec.
Proof.
  split; [done| |]; intros b d data -> Hd; unfold wp; cbn; lia.
Qed.

Lemma bio_write_flush_witness :
  let chunks := [str "line one"; [Byte.x0a; Byte.x00]; str "line two"] in
  BioObject_new MEM = Val ([] : @BIO api) ∧
  wp (mapM_ write_vector chunks) ([] : @BIO api)
    (λ _ b',
       wp_total (flushToString 30) b' (λ s b'', s = concat chunks ∧ mem_bio b'' []) ∧
       wp_total (flushToVector 30) b' (λ s b'', s = concat chunks ∧ mem_bio b'' []))
    (λ e _, (∃ w, e = RuntimeError w) ∧ ¬ (BioWorks spec ∧ [] ∉ chunks)).
Proof.
  intros chunks. assert (Hb : BioObject_new MEM = Val ([] : @BIO api)) by done.
  split; [exact Hb|].
  refine (bio_write_flush ([] : @BIO api) chunks 30 Hb _ _).
  - repeat apply Forall_cons_2; try apply Forall_nil_2; by vm_compute.
  - cbn. lia.
Defined.
End MemBio.
