(* ===== verification/Pimpl.v ===== *)
(** * Objects behind [std::unique_ptr<Impl> _impl]

    The public classes of [asymmetric_crypto_ctx.cpp], [kdf.cpp], [mac.cpp] and
    [padding_mode.cpp] (under [src/src/]) own an implementation object on the heap.
    Their copy members make a new implementation object, their move members hand the
    pointer over and leave a null pointer behind, and every other member is a
    call through the pointer.  Here the heap is modelled, with the
    objects that point into it, and shown to be unobservable: programs that
    construct, copy, move, call and destroy such objects behave as if every object
    were a value of its own.  [Objects] gives the classes. *)

From stdpp Require Import gmap.
From S2P Require Import Prelude.

Section Pimpl.
(** the implementation class; the world outside that its members may change; what
    the members return *)
Context {I W R : Type}.

(** ** The heap *)

(** Addresses are handed out in order; without dangling pointers a program cannot
    tell whether they are used again. *)
Record memory := mkMemory { cells : gmap positive I; next : positive; world : W }.

(** [None] is the null pointer. *)
Abbreviation unique_ptr := (option positive).

(** [std::make_unique<Impl>(i)] *)
Definition make_unique (i : I) : M memory unique_ptr := λ m,
  (Val (Some (next m)), mkMemory (<[next m := i]> (cells m)) (Pos.succ (next m)) (world m)).

(** The cell a pointer points to; through a null or dangling pointer there is none. *)
Definition pointee (p : unique_ptr) (m : memory) : option I :=
  match p with Some l => cells m !! l | None => None end.

(** What happens outside the heap. *)
Definition on_world {A} (m : M W A) : M memory A :=
  zoom world (λ w m, mkMemory (cells m) (next m) w) m.

(** [*p] *)
Definition dereference (p : unique_ptr) : M memory I := λ m,
  match pointee p m with Some i => (Val i, m) | None => (Throw UndefinedBehaviour, m) end.

(** [p->f()]: the member may change the object and the world. *)
Definition through (p : unique_ptr) (f : M (I * W) R) : M memory R := λ m,
  match p, pointee p m with
  | Some l, Some i =>
      let '(o, (i', w)) := f (i, world m) in (o, mkMemory (<[l := i']> (cells m)) (next m) w)
  | _, _ => (Throw UndefinedBehaviour, m)
  end.

(** [delete p]: nothing for a null pointer, undefined for a dangling one. *)
Definition delete_ (p : unique_ptr) : M memory () := λ m,
  match p with
  | None => (Val (), m)
  | Some l =>
      match cells m !! l with
      | Some _ => (Val (), mkMemory (base.delete l (cells m)) (next m) (world m))
      | None => (Throw UndefinedBehaviour, m)
      end
  end.

(** ** Objects *)

(** The objects that are alive, by the names of their variables. *)
Record state := mkState { objects : gmap string unique_ptr; mem : memory }.

Definition on_memory {A} (m : M memory A) : M state A :=
  zoom mem (λ m s, mkState (objects s) m) m.
Definition set_ptr (x : string) (p : unique_ptr) : M state () :=
  modify (λ s, mkState (<[x := p]> (objects s)) (mem s)).

(** A name that is not alive is not a program. *)
Definition get_ptr (x : string) : M state unique_ptr := λ s,
  match objects s !! x with Some p => (Val p, s) | None => (Throw UndefinedBehaviour, s) end.

(** [x._impl.release()], [x._impl.reset(p)]; the old object is deleted last. *)
Definition release (x : string) : M state unique_ptr :=
  let! p := get_ptr x in set_ptr x None ;; ret p.
Definition reset (x : string) (p : unique_ptr) : M state () :=
  let! old := get_ptr x in set_ptr x p ;; on_memory (delete_ old).

(** *** The special member functions *)

Definition is_alive (x : string) (s : state) : bool :=
  match objects s !! x with Some _ => true | None => false end.
(** A declaration needs a new name. *)
Definition new_name (x : string) : M state () :=
  let! s := get in throw_if (is_alive x s) UndefinedBehaviour.

(** [C x{...}], with [_impl(std::make_unique<Impl>(...))]: no object if [Impl]'s
    constructor throws. *)
Definition construct (x : string) (ctor : M W I) : M state () :=
  new_name x ;;
  let! i := on_memory (on_world ctor) in
  let! p := on_memory (make_unique i) in
  set_ptr x p.

(** [C x{y}]: [_impl(std::make_unique<Impl>( *(other._impl)))] *)
Definition copy_construct (x y : string) : M state () :=
  new_name x ;;
  let! other := get_ptr y in
  let! i := on_memory (dereference other) in
  let! p := on_memory (make_unique i) in
  set_ptr x p.

(** [x = y]: [_impl = std::make_unique<Impl>( *(other._impl))] *)
Definition copy_assign (x y : string) : M state () :=
  let! other := get_ptr y in
  let! i := on_memory (dereference other) in
  let! p := on_memory (make_unique i) in
  reset x p.

(** [C x{std::move(y)}], defaulted *)
Definition move_construct (x y : string) : M state () :=
  new_name x ;;
  let! p := release y in
  set_ptr x p.

(** [x = std::move(y)], defaulted or [_impl = std::move(other._impl)] *)
Definition move_assign (x y : string) : M state () :=
  let! p := release y in
  reset x p.

(** [~C() = default] *)
Definition destroy (x : string) : M state () :=
  let! p := get_ptr x in
  modify (λ s, mkState (base.delete x (objects s)) (mem s)) ;;
  on_memory (delete_ p).

(** Every other member: [_impl->f(...)] *)
Definition call (x : string) (f : M (I * W) R) : M state R :=
  let! p := get_ptr x in on_memory (through p f).

(** *** Programs *)

Inductive statement :=
| Construct (x : string) (ctor : M W I)
| CopyConstruct (x y : string)
| CopyAssign (x y : string)
| MoveConstruct (x y : string)
| MoveAssign (x y : string)
| Destroy (x : string)
| Call (x : string) (f : M (I * W) R).

Definition exec (c : statement) : M state (option R) :=
  match c with
  | Construct x ctor => construct x ctor ;; ret None
  | CopyConstruct x y => copy_construct x y ;; ret None
  | CopyAssign x y => copy_assign x y ;; ret None
  | MoveConstruct x y => move_construct x y ;; ret None
  | MoveAssign x y => move_assign x y ;; ret None
  | Destroy x => destroy x ;; ret None
  | Call x f => let! r := call x f in ret (Some r)
  end.

(** ** Values *)

(** What the objects mean: each has a value of its own, or none after it was moved
    from. *)
Record values := mkValues { value_of : gmap string (option I); vworld : W }.

Definition get_value (y : string) : M values I := λ v,
  match value_of v !! y with
  | Some (Some i) => (Val i, v)
  | _ => (Throw UndefinedBehaviour, v)
  end.
Definition set_value (x : string) (i : option I) : M values () :=
  modify (λ v, mkValues (<[x := i]> (value_of v)) (vworld v)).
Definition has_name (b : bool) (x : string) : M values () := λ v,
  throw_if (negb (Bool.eqb b (bool_decide (is_Some (value_of v !! x))))) UndefinedBehaviour v.
Definition take_value (y : string) : M values (option I) := λ v,
  match value_of v !! y with
  | Some i => (Val i, mkValues (<[y := None]> (value_of v)) (vworld v))
  | None => (Throw UndefinedBehaviour, v)
  end.

Definition on_vworld {A} (m : M W A) : M values A :=
  zoom vworld (λ w v, mkValues (value_of v) w) m.

Definition vexec (c : statement) : M values (option R) :=
  match c with
  | Construct x ctor =>
      has_name false x ;; let! i := on_vworld ctor in set_value x (Some i) ;; ret None
  | CopyConstruct x y =>
      has_name false x ;; let! i := get_value y in set_value x (Some i) ;; ret None
  | CopyAssign x y =>
      let! i := get_value y in has_name true x ;; set_value x (Some i) ;; ret None
  | MoveConstruct x y => has_name false x ;; let! i := take_value y in set_value x i ;; ret None
  | MoveAssign x y => let! i := take_value y in has_name true x ;; set_value x i ;; ret None
  | Destroy x =>
      has_name true x ;;
      modify (λ v, mkValues (base.delete x (value_of v)) (vworld v)) ;; ret None
  | Call x f =>
      let! i := get_value x in
      λ v, let '(o, (i', w)) := f (i, vworld v) in
           (obind o (λ r, Val (Some r)), mkValues (<[x := Some i']> (value_of v)) w)
  end.

(** A program goes on after an exception, but not after undefined behaviour. *)
Fixpoint run {S} (step : statement → M S (option R)) (cs : list statement) (s : S) :
    list (outcome (option R)) * S :=
  match cs with
  | [] => ([], s)
  | c :: cs' =>
      match step c s with
      | (Throw UndefinedBehaviour, s') => ([Throw UndefinedBehaviour], s')
      | (o, s') => let '(os, s'') := run step cs' s' in (o :: os, s'')
      end
  end.

(** ** What the heap and the values have to do with each other *)

(** Every object has the value in its cell, every cell is there for one object, and
    the next address is new. *)
Record related (o : gmap string unique_ptr) (c : gmap positive I) (n : positive)
    (v : gmap string (option I)) : Prop := {
  r_value x : v !! x = (λ p, match p with Some l => c !! l | None => None end) <$> o !! x;
  r_alive x l : o !! x = Some (Some l) → is_Some (c !! l);
  r_owner x y l : o !! x = Some (Some l) → o !! y = Some (Some l) → x = y;
  r_owned l : is_Some (c !! l) → ∃ x, o !! x = Some (Some l);
  r_fresh l : is_Some (c !! l) → (l < n)%positive }.

Definition represents (s : state) (v : values) : Prop :=
  world (mem s) = vworld v ∧
  related (objects s) (cells (mem s)) (next (mem s)) (value_of v).

(** What an object's pointer points to. *)
Definition value (s : state) (x : string) : option (option I) :=
  (λ p, pointee p (mem s)) <$> objects s !! x.

(** The variables a statement can change. *)
Definition mentions (z : string) (c : statement) : bool :=
  match c with
  | Construct x _ | Destroy x | Call x _ => bool_decide (z = x)
  | CopyConstruct x _ | CopyAssign x _ => bool_decide (z = x)
  | MoveConstruct x y | MoveAssign x y => bool_decide (z = x) || bool_decide (z = y)
  end.

Definition no_objects (w : W) : state := mkState ∅ (mkMemory ∅ 1 w).
Definition no_values (w : W) : values := mkValues ∅ w.
End Pimpl.

(** *** The relation is kept by the changes the member functions are made of *)
Section Related.
Context {I : Type}.
Implicit Types (o : gmap string (option positive)) (c : gmap positive I).

Lemma related_empty n : related (∅ : gmap string _) (∅ : gmap positive I) n ∅.
Proof. split; intros *; rewrite ?lookup_empty; try done; by intros [? ?]. Qed.

Ltac look := repeat match goal with
  | H : context [<[?i := _]> _ !! ?j] |- _ =>
      destruct (decide (i = j)); [subst; rewrite lookup_insert_eq in H|rewrite lookup_insert_ne in H by done]
  | H : context [base.delete ?i _ !! ?j] |- _ =>
      destruct (decide (i = j)); [subst; rewrite lookup_delete_eq in H|rewrite lookup_delete_ne in H by done]
  end; simplify_eq/=.

Lemma related_create o c n v x i :
  related o c n v → (∀ l, o !! x ≠ Some (Some l)) →
  related (<[x := Some n]> o) (<[n := i]> c) (Pos.succ n) (<[x := Some i]> v).
Proof.
  intros [Hv Ha Ho Hd Hf] Hx.
  assert (Hn : ∀ y l, o !! y = Some (Some l) → l ≠ n).
  { intros y l Hy ->. specialize (Hf n (Ha _ _ Hy)). lia. }
  split.
  - intros y. destruct (decide (x = y)) as [->|Hne].
    + by rewrite !lookup_insert_eq; cbn; rewrite lookup_insert_eq.
    + rewrite !lookup_insert_ne, Hv by done. destruct (o !! y) as [[l|]|] eqn:E; [|done..].
      cbn. rewrite lookup_insert_ne; [done|]. intros <-. by eapply Hn.
  - intros y l Hy. look; [rewrite lookup_insert_eq; eauto|].
    rewrite lookup_insert_ne; [eauto|]. intros <-. by eapply Hn.
  - intros y z l Hy Hz. look; try done; [by edestruct Hn..|eauto].
  - intros l Hl. look; [exists x; by rewrite lookup_insert_eq|].
    destruct (Hd l Hl) as [y Hy]. exists y. rewrite lookup_insert_ne; [done|].
    intros <-. by eapply Hx.
  - intros l Hl. look; [lia|]. specialize (Hf l Hl). lia.
Qed.

Lemma related_drop o c n v x l :
  related o c n v → o !! x = Some (Some l) →
  related (<[x := None]> o) (base.delete l c) n (<[x := None]> v).
Proof.
  intros [Hv Ha Ho Hd Hf] Hx. split.
  - intros y. destruct (decide (x = y)) as [->|Hne].
    + by rewrite !lookup_insert_eq.
    + rewrite !lookup_insert_ne, Hv by done. destruct (o !! y) as [[k|]|] eqn:E; [|done..].
      cbn. rewrite lookup_delete_ne; [done|]. intros <-. by destruct Hne; eapply Ho.
  - intros y k Hy. look. rewrite lookup_delete_ne; [eauto|].
    intros <-. by destruct n0; eapply Ho.
  - intros y z k Hy Hz. look. eauto.
  - intros k Hk. look; [by destruct Hk|]. destruct (Hd k Hk) as [y Hy]. exists y.
    rewrite lookup_insert_ne; [done|]. intros <-. congruence.
  - intros k Hk. look; [by destruct Hk|eauto].
Qed.

Lemma related_forget o c n v x :
  related o c n v → o !! x = Some None → related (base.delete x o) c n (base.delete x v).
Proof.
  intros [Hv Ha Ho Hd Hf] Hx. split; [| | | |done].
  - intros y. destruct (decide (x = y)) as [->|Hne].
    + by rewrite !lookup_delete_eq.
    + by rewrite !lookup_delete_ne, Hv.
  - intros y k Hy. look. eauto.
  - intros y z k Hy Hz. look. eauto.
  - intros k Hk. destruct (Hd k Hk) as [y Hy]. exists y.
    rewrite lookup_delete_ne; [done|]. intros <-. congruence.
Qed.

Lemma related_take o c n v x y p q :
  related o c n v → o !! y = Some p → v !! y = Some q →
  (∀ l, <[y := None]> o !! x ≠ Some (Some l)) →
  related (<[x := p]> (<[y := None]> o)) c n (<[x := q]> (<[y := None]> v)).
Proof.
  intros [Hv Ha Ho Hd Hf] Hp Hq Hx. split; [| | | |done].
  - intros z. pose proof (Hv y) as Hy. rewrite Hp, Hq in Hy. simplify_eq/=.
    destruct (decide (x = z)) as [->|Hxz]; [by rewrite !lookup_insert_eq|].
    rewrite !(lookup_insert_ne _ x z) by done.
    destruct (decide (y = z)) as [->|Hyz]; [by rewrite !lookup_insert_eq|].
    by rewrite !lookup_insert_ne.
  - intros z k Hz. look; eauto.
  - intros z1 z2 k H1 H2. look; first [done|by eapply Ho|match goal with
      | n : _ ≠ _ |- _ => by destruct n; eapply Ho end].
  - intros k Hk. destruct (Hd k Hk) as [z Hz]. destruct (decide (y = z)) as [->|Hyz].
    + exists x. rewrite lookup_insert_eq. congruence.
    + exists z. rewrite !lookup_insert_ne; try done. intros <-.
      apply (Hx k). by rewrite lookup_insert_ne.
Qed.

Lemma related_store o c n v x l i :
  related o c n v → o !! x = Some (Some l) →
  related o (<[l := i]> c) n (<[x := Some i]> v).
Proof.
  intros [Hv Ha Ho Hd Hf] Hx.
  assert (Hi : ∀ k, is_Some (<[l := i]> c !! k) → is_Some (c !! k)).
  { intros k Hk. look; eauto. }
  split.
  - intros y. destruct (decide (x = y)) as [->|Hne].
    + rewrite lookup_insert_eq, Hx. cbn. by rewrite lookup_insert_eq.
    + rewrite lookup_insert_ne, Hv by done. destruct (o !! y) as [[k|]|] eqn:E; [|done..].
      cbn. rewrite lookup_insert_ne; [done|]. intros <-. by destruct Hne; eapply Ho.
  - intros y k Hy. destruct (decide (l = k)) as [->|]; [rewrite lookup_insert_eq; eauto|].
    rewrite lookup_insert_ne by done. eauto.
  - done.
  - intros k Hk. eauto.
  - intros k Hk. eauto.
Qed.

Lemma related_replace o c n v x y l p q :
  y ≠ x → related o c n v → o !! y = Some p → v !! y = Some q → o !! x = Some (Some l) →
  related (<[x := p]> (<[y := None]> o)) (base.delete l c) n (<[x := q]> (<[y := None]> v)).
Proof.
  intros Hne Hr Hp Hq Hx.
  rewrite <- (insert_insert_eq (<[y := None]> o) x _ None),
    <- (insert_insert_eq (<[y := None]> v) x _ None).
  rewrite !(insert_insert_ne _ x y None None) by done.
  apply related_take; [by eapply related_drop|by rewrite lookup_insert_ne..|].
  intros k. rewrite lookup_insert_ne, lookup_insert_eq; done.
Qed.
End Related.

(** ** Programs behave as if objects were values *)
Section Refinement.
Context {I W R : Type}.
Implicit Types (s : @state I W) (v : @values I W).

(** What is known of an object. *)
Inductive object_is s v (x : string) : Prop :=
| IsDead : objects s !! x = None → value_of v !! x = None → object_is s v x
| IsMovedFrom : objects s !! x = Some None → value_of v !! x = Some None → object_is s v x
| IsOwner l i : objects s !! x = Some (Some l) → cells (mem s) !! l = Some i →
    value_of v !! x = Some (Some i) → object_is s v x.

Lemma object_cases s v x : represents s v → object_is s v x.
Proof.
  intros [_ [Hv Ha _ _ _]]. specialize (Hv x). destruct (objects s !! x) as [[l|]|] eqn:E.
  - destruct (Ha _ _ E) as [i Hi]. cbn in Hv. rewrite Hi in Hv. by econstructor.
  - by apply IsMovedFrom.
  - by apply IsDead.
Qed.

(** One statement: the same outcome, and states that still represent each other. *)
Definition simulates (c : statement) s v : Prop :=
  (exec c s).1 = (vexec c v).1 ∧
  ((exec c s).1 ≠ Throw UndefinedBehaviour →
   represents (exec (R := R) c s).2 (vexec (R := R) c v).2).

Ltac steps := unfold simulates, represents; cbn;
  unfold construct, copy_construct, copy_assign, move_construct, move_assign, destroy, call,
    new_name, is_alive, reset, release, has_name, take_value, get_value, set_value, get_ptr, set_ptr, on_memory, on_world, on_vworld,
    zoom, bind, get, modify, lift, dereference, pointee, through, make_unique, delete_, throw_if, throw, ret;
  cbn.
(** Look the objects up. *)
Ltac known := repeat first
  [ match goal with
    | H : objects _ !! _ = _ |- _ => rewrite H
    | H : value_of _ !! _ = _ |- _ => rewrite H
    | H : cells _ !! _ = _ |- _ => rewrite H
    end; cbn ].

Lemma construct_simulates x ctor s v : represents s v → simulates (Construct x ctor) s v.
Proof.
  intros H. destruct (object_cases s v x H); steps; known; try (split; done).
  destruct H as [Hw Hr]. rewrite Hw. destruct (ctor (vworld v)) as [[i|e] w]; cbn;
    (split; [done|]); intros _; (split; [done|]); [|done].
  apply related_create; [done|]. congruence.
Qed.

Lemma copy_construct_simulates x y s v : represents s v → simulates (CopyConstruct x y) s v.
Proof.
  intros H. destruct (object_cases s v x H), (object_cases s v y H); steps; known;
    try (split; done).
  split; [done|]. intros _.
  destruct H as [Hw Hr]. split; [done|]. apply related_create; [done|]. congruence.
Qed.

Lemma copy_assign_simulates x y s v : represents s v → simulates (CopyAssign x y) s v.
Proof.
  intros H. destruct (object_cases s v y H) as [| |k j]; steps; known; try (split; done).
  destruct (object_cases s v x H) as [| |l i]; known; try (split; done).
  - split; [done|]. intros _. destruct H as [Hw Hr]. split; [done|].
    apply related_create; [done|]. congruence.
  - destruct H as [Hw Hr]. assert (Hl : (l < next (mem s))%positive) by (apply (r_fresh _ _ _ _ Hr); eauto).
    rewrite lookup_insert_ne by lia. known. split; [done|]. intros _. split; [done|].
    rewrite delete_insert_ne by lia.
    rewrite <- (insert_insert_eq (objects s) x _ None), <- (insert_insert_eq (value_of v) x _ None).
    apply related_create; [by eapply related_drop|]. intros k'. by rewrite lookup_insert_eq.
Qed.

Lemma move_construct_simulates x y s v : represents s v → simulates (MoveConstruct x y) s v.
Proof.
  intros H. destruct (object_cases s v x H), (object_cases s v y H); steps; known;
    try (split; done); (split; [done|]); intros _; (destruct H as [Hw Hr]; split; [done|]);
    (eapply related_take; [done..|]); intros l'; rewrite lookup_insert_ne; congruence.
Qed.

(** [x] gives up what it has and takes what [y] has. *)
Lemma move_assign_simulates x y s v : represents s v → simulates (MoveAssign x y) s v.
Proof.
  intros H. destruct (decide (y = x)) as [->|Hne].
  { destruct (object_cases s v x H); steps; known; try (split; done);
      rewrite ?lookup_insert_eq; cbn; (split; [done|]); intros _; (destruct H as [Hw Hr]; split; [done|]);
      (eapply related_take; [done..|]); intros l'; by rewrite lookup_insert_eq. }
  destruct (object_cases s v y H); steps; known; try (split; done);
    rewrite !lookup_insert_ne by done; destruct (object_cases s v x H); known; try (split; done);
    (split; [done|]); intros _; (destruct H as [Hw Hr]; split; [done|]).
  all: try (eapply related_take; [done..|]; intros l'; rewrite lookup_insert_ne; congruence).
  all: by apply related_replace.
Qed.

Lemma destroy_simulates x s v : represents s v → simulates (Destroy x) s v.
Proof.
  intros H. destruct (object_cases s v x H); steps; known; try (split; done);
    (split; [done|]); intros _; (destruct H as [Hw Hr]; split; [done|]).
  - by apply related_forget.
  - rewrite <- (delete_insert_eq (objects s) x None), <- (delete_insert_eq (value_of v) x None).
    apply related_forget; [by eapply related_drop|]. by rewrite lookup_insert_eq.
Qed.

Lemma call_simulates x f s v : represents s v → simulates (Call x f) s v.
Proof.
  intros H. destruct (object_cases s v x H) as [| |l i]; steps; known; try (split; done).
  destruct H as [Hw Hr]. rewrite Hw. destruct (f (i, vworld v)) as [[r|e] [i' w]]; cbn;
    (split; [done|]); intros _; (split; [done|]); by eapply related_store.
Qed.

Lemma exec_simulates c s v : represents s v → simulates c s v.
Proof.
  destruct c; [apply construct_simulates|apply copy_construct_simulates|apply copy_assign_simulates
    |apply move_construct_simulates|apply move_assign_simulates|apply destroy_simulates
    |apply call_simulates].
Qed.

Lemma run_simulates cs s v : represents s v →
  (run exec cs s).1 = (run (R := R) vexec cs v).1 ∧
  (Throw UndefinedBehaviour ∉ (run exec cs s).1 →
   represents (run exec cs s).2 (run (R := R) vexec cs v).2).
Proof.
  revert s v. induction cs as [|c cs IH]; [done|]. intros s v H. cbn.
  destruct (exec_simulates c s v H) as [Ho Hr].
  destruct (exec c s) as [o s1], (vexec c v) as [o' v1]. cbn in *. subst o'.
  assert (o = Throw UndefinedBehaviour ∨ o ≠ Throw UndefinedBehaviour) as [->|Hne].
  { destruct o as [|[]]; try (by right); by left. }
  { cbn. split; [done|]. intros []. by constructor. }
  destruct (IH s1 v1 (Hr Hne)) as [Hos Hrs].
  assert (Hgo : ∀ {S} (a : list (outcome (option R)) * S) (b : list (outcome (option R)) * S),
    match o with Throw UndefinedBehaviour => a | _ => b end = b).
  { intros S a b. destruct o as [|[]]; done. }
  rewrite !Hgo. destruct (run exec cs s1) as [os s2], (run vexec cs v1) as [os' v2].
  cbn in *. subst os'. split; [done|]. intros Hub. apply Hrs. intros Hin. apply Hub. by constructor.
Qed.

Lemma value_represented s v x : represents s v → value s x = value_of v !! x.
Proof. intros [_ [Hv _ _ _ _]]. by rewrite Hv. Qed.

Lemma vexec_unmentioned (c : statement (R := R)) z v :
  mentions z c = false → value_of (vexec c v).2 !! z = value_of v !! z.
Proof.
  assert (Hz : ∀ x, bool_decide (z = x) = false → x ≠ z) by (intros x ?%bool_decide_eq_false; congruence).
  destruct c as [x ctor|x y|x y|x y|x y|x|x f]; cbn;
    rewrite ?orb_false_iff; intros Hm; try destruct Hm as [H1%Hz H2%Hz]; try apply Hz in Hm;
    unfold bind, has_name, get_value, take_value, set_value, on_vworld, zoom, modify, throw_if, ret, throw; cbn.
  all: repeat (case_match; cbn in *; simplify_eq/=; try done).
  all: by rewrite ?lookup_insert_ne, ?lookup_delete_ne.
Qed.

Lemma run_unmentioned (cs : list (statement (R := R))) z v :
  forallb (λ c, negb (mentions z c)) cs = true →
  value_of (run vexec cs v).2 !! z = value_of v !! z.
Proof.
  revert v. induction cs as [|c cs IH]; [done|]. intros v. cbn.
  intros [Hc%negb_true_iff Hcs]%andb_true_iff. pose proof (vexec_unmentioned c z v Hc) as Hv.
  destruct (vexec c v) as [o v1]. cbn in Hv. specialize (IH v1 Hcs).
  destruct (run vexec cs v1) as [os v2]. cbn in IH. destruct o as [|[]]; cbn; congruence.
Qed.

Lemma copied x y v :
  (vexec (R := R) (CopyConstruct y x) v).1 = Val None →
  value_of (vexec (R := R) (CopyConstruct y x) v).2 !! y = value_of v !! x.
Proof.
  cbn. unfold bind, has_name, get_value, set_value, modify, throw_if, ret, throw.
  destruct (negb _); [done|]. destruct (value_of v !! x) as [[i|]|] eqn:E; [|done..].
  intros _. cbn. by rewrite lookup_insert_eq.
Qed.

Lemma unowned_empty (c : gmap positive I) : (∀ l, ¬ is_Some (c !! l)) → c = ∅.
Proof.
  intros H. apply map_eq. intros l. rewrite lookup_empty. by apply eq_None_not_Some.
Qed.

Lemma represents_nothing s v :
  represents s v → (∀ x, value_of v !! x = None) → objects s = ∅ ∧ cells (mem s) = ∅.
Proof.
  intros [_ [Hv _ _ Hd _]] Hno.
  assert (He : ∀ x, objects s !! x = None).
  { intros x. specialize (Hv x). rewrite Hno in Hv. by destruct (objects s !! x). }
  split; [by apply map_empty|]. apply unowned_empty. intros l Hl. destruct (Hd l Hl) as [x Hx].
  by rewrite He in Hx.
Qed.

(** A program in two parts. *)
Lemma run_app {S} (step : statement (I := I) (W := W) (R := R) → M S (option R)) cs cs' st :
  Throw UndefinedBehaviour ∉ (run step cs st).1 →
  run step (cs ++ cs') st =
  ((run step cs st).1 ++ (run step cs' (run step cs st).2).1,
   (run step cs' (run step cs st).2).2).
Proof.
  revert st. induction cs as [|c cs IH]; intros st Hub.
  - cbn. by destruct (run step cs' st).
  - cbn in *. destruct (step c st) as [o s1]. specialize (IH s1).
    destruct (run step cs s1) as [os s2]. cbn in *.
    assert (Throw UndefinedBehaviour ∉ os).
    { intros Hin. apply Hub. destruct o as [|[]]; cbn; try (by right). by left. }
    rewrite IH by done. destruct o as [|[]]; try done. destruct Hub. by left.
Qed.

Lemma start_represented (w : W) : represents (no_objects w) (no_values (I := I) w).
Proof. split; [done|]. apply related_empty. Qed.

(** C19. A program over the objects of these classes behaves as if each object were a
    value of its own: every statement returns or throws the same, undefined behaviour
    (an access through a moved-from object, a name that is not alive) happens at the same
    place or not at all, and as long as it does not happen the implementation object an object
    points to is the object's value and the world the members changed is the same.
    In particular no pointer dangles, nothing is deleted twice, and a copy
    shares nothing with its original. *)
Theorem pimpl_refines_values (cs : list (statement (I := I) (W := W) (R := R))) w :
  let '(os, s) := run exec cs (no_objects w) in
  let '(os', v) := run vexec cs (no_values w) in
  os = os' ∧
  (Throw UndefinedBehaviour ∉ os →
   world (mem s) = vworld v ∧
   ∀ x, value_of v !! x = (λ p, pointee p (mem s)) <$> objects s !! x).
Proof.
  destruct (run_simulates cs _ _ (start_represented w)) as [Ho Hr].
  destruct (run exec cs (no_objects w)) as [os s], (run vexec cs (no_values w)) as [os' v].
  split; [done|]. intros Hub. destruct (Hr Hub) as [Hw [Hv _ _ _ _]]. split; [done|].
  intros x. by rewrite Hv.
Qed.

(** C20. Nothing leaks: after any program without undefined behaviour every implementation object
    on the heap belongs to exactly one object that is alive; when all have been
    destroyed the heap is empty. *)
Theorem pimpl_no_leak (cs : list (statement (I := I) (W := W) (R := R))) w os s :
  run exec cs (no_objects w) = (os, s) → Throw UndefinedBehaviour ∉ os →
  (∀ l, is_Some (cells (mem s) !! l) ↔ ∃ x, objects s !! x = Some (Some l)) ∧
  (∀ x y l, objects s !! x = Some (Some l) → objects s !! y = Some (Some l) → x = y) ∧
  (objects s = ∅ → cells (mem s) = ∅).
Proof.
  intros Hrun Hub. destruct (run_simulates cs _ _ (start_represented w)) as [_ Hr].
  rewrite Hrun in Hr. cbn in Hr. destruct (Hr Hub) as [_ [_ Ha Ho Hd _]].
  split; [|split; [done|]].
  - intros l. split; [apply Hd|]. intros [x Hx]. by eapply Ha.
  - intros He. apply unowned_empty. intros l Hl. destruct (Hd l Hl) as [x Hx].
    by rewrite He, lookup_empty in Hx.
Qed.

(** A copy is a value of its own: whatever happens afterwards to the original and to
    the other objects (they may be called, assigned to, moved from or destroyed), the copy keeps the
    value the original had when it was made, until a statement names the copy itself. *)
Theorem pimpl_copy_independent (cs cs' : list (statement (I := I) (W := W) (R := R)))
    w os s x y s1 os' s2 :
  run exec cs (no_objects w) = (os, s) → Throw UndefinedBehaviour ∉ os →
  exec (R := R) (CopyConstruct y x) s = (Val None, s1) →
  run exec cs' s1 = (os', s2) → Throw UndefinedBehaviour ∉ os' →
  forallb (λ c, negb (mentions y c)) cs' = true →
  value s2 y = value s x.
Proof.
  intros Hrun Hub Hcopy Hrun' Hub' Hno.
  destruct (run_simulates cs _ _ (start_represented w)) as [_ Hr].
  rewrite Hrun in Hr. specialize (Hr Hub). cbn in Hr. revert Hr.
  generalize (run vexec cs (no_values (I := I) w)).2 as v. intros v Hr.
  destruct (exec_simulates (CopyConstruct y x) s v Hr) as [Ho Hr1].
  rewrite Hcopy in Ho, Hr1. specialize (Hr1 ltac:(done)).
  destruct (run_simulates cs' s1 _ Hr1) as [_ Hr2]. rewrite Hrun' in Hr2. specialize (Hr2 Hub').
  rewrite (value_represented _ _ _ Hr2), (value_represented _ _ _ Hr), (run_unmentioned _ _ _ Hno).
  by apply copied.
Qed.
End Refinement.
