(* ===== verification/Key.v ===== *)
(** * Asymmetric keys: [src/src/key.cpp] and [src/src/mococrw/key.h]

    Key types and specifications, key generation, PEM, elliptic curve points and
    the derivation of shared secrets ([_EVP_derive_key] of openssl_wrap.cpp). *)

From stdpp Require Import countable.
From S2P Require Import Prelude CheckCall Util SymmetricCrypto XorCipher Bio.

(** ** Identifiers *)

(** OpenSSL's numbers for the key types and curves. *)
Definition EVP_PKEY_RSA : Z := 6.
Definition EVP_PKEY_EC : Z := 408.
Definition EVP_PKEY_ED25519 : Z := 1087.
Definition EVP_PKEY_ED448 : Z := 1088.
Definition OPENSSL_EC_NAMED_CURVE : Z := 1.

(** [static_cast] makes any [int] an [ellipticCurveNid]: the enumeration is the
    integers, with names for some. *)
Definition ellipticCurveNid : Type := Z.
Module Nid.
Definition PRIME_192v1 : ellipticCurveNid := 409.
Definition PRIME_256v1 : ellipticCurveNid := 415.
Definition SECP_224r1 : ellipticCurveNid := 713.
Definition SECP_384r1 : ellipticCurveNid := 715.
Definition SECP_521r1 : ellipticCurveNid := 716.
Definition SECT_283k1 : ellipticCurveNid := 729.
Definition SECT_283r1 : ellipticCurveNid := 730.
Definition SECT_409k1 : ellipticCurveNid := 731.
Definition SECT_409r1 : ellipticCurveNid := 732.
Definition SECT_571k1 : ellipticCurveNid := 733.
Definition SECT_571r1 : ellipticCurveNid := 734.
Definition Ed448 : ellipticCurveNid := EVP_PKEY_ED448.
Definition Ed25519 : ellipticCurveNid := EVP_PKEY_ED25519.
End Nid.

Inductive EllipticCurvePointConversionForm := compressed | uncompressed | hybrid.
Inductive KeyTypes := RSA | ECC | ECC_ED.

#[export] Instance KeyTypes_eq_dec : EqDecision KeyTypes.
Proof. solve_decision. Defined.

(** [AsymmetricKey::Spec] with its two implementations. *)
Inductive Spec :=
| RSASpec (numBits : Z)
| ECCSpec (curveNid : ellipticCurveNid).

Definition RSASpec_defaultSize : Z := 2048.
Definition ECCSpec_defaultCurveNid : ellipticCurveNid := Nid.PRIME_256v1.

(** ** The OpenSSL functions *)

(** A call that changes a context returns the new one; [KEYGEN] is the state of
    the random generator that key generation draws from. *)
Class EvpPkeyAPI {bio : BioAPI} {evp : EvpCipherAPI} := {
  EVP_PKEY : Type;
  EVP_PKEY_CTX : Type;
  EC_KEY : Type;
  EC_GROUP : Type;
  KEYGEN : Type;
  SSL_EVP_PKEY_id : EVP_PKEY → Z;
  SSL_EVP_PKEY_type : Z → Z;
  EVP_PKEY_bits : EVP_PKEY → Z;
  SSL_EVP_PKEY_size : EVP_PKEY → Z;
  SSL_EVP_PKEY_cmp : EVP_PKEY → EVP_PKEY → Z;
  SSL_EVP_PKEY_new : option EVP_PKEY;
  SSL_EVP_PKEY_get0_EC_KEY : EVP_PKEY → option EC_KEY;
  SSL_EVP_PKEY_set1_EC_KEY : EVP_PKEY → EC_KEY → Z * EVP_PKEY;
  SSL_EC_KEY_get0_group : EC_KEY → option EC_GROUP;
  SSL_EC_GROUP_get_degree : EC_GROUP → Z;
  SSL_EC_GROUP_get_curve_name : EC_GROUP → Z;
  SSL_EC_KEY_new_by_curve_name : Z → option EC_KEY;
  SSL_EC_KEY_oct2key : EC_KEY → bytes → Z * EC_KEY;
  SSL_EC_KEY_key2buf : EC_KEY → EllipticCurvePointConversionForm → Z * bytes;
  SSL_EVP_PKEY_CTX_new : EVP_PKEY → option EVP_PKEY_CTX;
  SSL_EVP_PKEY_CTX_new_id : Z → option EVP_PKEY_CTX;
  SSL_EVP_PKEY_keygen_init : EVP_PKEY_CTX → Z * EVP_PKEY_CTX;
  SSL_EVP_PKEY_CTX_set_rsa_keygen_bits : Z → EVP_PKEY_CTX → Z * EVP_PKEY_CTX;
  SSL_EVP_PKEY_keygen : EVP_PKEY_CTX → M KEYGEN (Z * option EVP_PKEY);
  SSL_EVP_PKEY_paramgen_init : EVP_PKEY_CTX → Z * EVP_PKEY_CTX;
  SSL_EVP_PKEY_CTX_set_ec_paramgen_curve_nid : Z → EVP_PKEY_CTX → Z * EVP_PKEY_CTX;
  SSL_EVP_PKEY_CTX_set_ec_param_enc : Z → EVP_PKEY_CTX → Z * EVP_PKEY_CTX;
  SSL_EVP_PKEY_paramgen : EVP_PKEY_CTX → Z * option EVP_PKEY;
  SSL_EVP_PKEY_derive_init : EVP_PKEY_CTX → Z * EVP_PKEY_CTX;
  SSL_EVP_PKEY_derive_set_peer : EVP_PKEY → EVP_PKEY_CTX → Z * EVP_PKEY_CTX;
  (** the length of the secret, and the secret *)
  SSL_EVP_PKEY_derive_length : EVP_PKEY_CTX → Z * Z;
  SSL_EVP_PKEY_derive : Z → EVP_PKEY_CTX → Z * bytes;
  SSL_EVP_aes_256_cbc : option EVP_CIPHER;
  SSL_PEM_write_bio_PUBKEY : EVP_PKEY → M BIO (Z * ());
  SSL_PEM_read_bio_PUBKEY : M BIO (option EVP_PKEY);
  SSL_PEM_write_bio_PKCS8PrivateKey : EVP_PKEY → option EVP_CIPHER → bytes → Z → M BIO (Z * ());
  SSL_PEM_read_bio_PrivateKey : bytes → M BIO (option EVP_PKEY);
}.
Arguments EvpPkeyAPI : clear implicits.

Section Key.
Context {bio : BioAPI} {evp : EvpCipherAPI} {api : EvpPkeyAPI bio evp}.

(** ** The wrappers *)

Definition _EVP_PKEY_type (key : EVP_PKEY) : outcome Z :=
  let rv := SSL_EVP_PKEY_type (SSL_EVP_PKEY_id key) in
  run_pure (OpensslCallIsPositive (ret (rv, rv))).

Definition _EVP_PKEY_size (key : EVP_PKEY) : outcome Z :=
  let rv := SSL_EVP_PKEY_size key in run_pure (OpensslCallIsPositive (ret (rv, rv))).

Definition _EVP_PKEY_cmp (a b : EVP_PKEY) : outcome bool :=
  let result := SSL_EVP_PKEY_cmp a b in
  if result =? 1 then Val true
  else if (result =? 0) || (result =? -1) then Val false
  else Throw (OpenSSLException [ErrorQueue]).

Definition _EVP_PKEY_new : outcome EVP_PKEY := run_pure (OpensslCallPtr (ret SSL_EVP_PKEY_new)).

Definition _EVP_PKEY_get0_EC_KEY (key : EVP_PKEY) : outcome EC_KEY :=
  run_pure (OpensslCallPtr (ret (SSL_EVP_PKEY_get0_EC_KEY key))).

Definition _EVP_PKEY_set1_EC_KEY (pkey : EVP_PKEY) (key : EC_KEY) : outcome EVP_PKEY :=
  run_pure (OpensslCallIsOne (ret (SSL_EVP_PKEY_set1_EC_KEY pkey key))).

Definition _EC_KEY_get0_group (key : EC_KEY) : outcome EC_GROUP :=
  run_pure (OpensslCallPtr (ret (SSL_EC_KEY_get0_group key))).

Definition _EC_GROUP_get_degree (g : EC_GROUP) : outcome Z :=
  let rv := SSL_EC_GROUP_get_degree g in run_pure (OpensslCallIsPositive (ret (rv, rv))).

Definition _EC_GROUP_get_curve_name (g : EC_GROUP) : outcome Z :=
  let rv := SSL_EC_GROUP_get_curve_name g in run_pure (OpensslCallIsPositive (ret (rv, rv))).

Definition _EC_KEY_oct2key (nid : Z) (buf : bytes) : outcome EC_KEY :=
  let? key := run_pure (OpensslCallPtr (ret (SSL_EC_KEY_new_by_curve_name nid))) in
  run_pure (OpensslCallIsOne (ret (SSL_EC_KEY_oct2key key buf))).

(** The buffer is allocated by the call, of the length it returns. *)
Definition _EC_KEY_key2buf (evp : EVP_PKEY) (form : EllipticCurvePointConversionForm) :
    outcome bytes :=
  let? key := run_pure (OpensslCallPtr (ret (SSL_EVP_PKEY_get0_EC_KEY evp))) in
  let '(length, pbuf) := SSL_EC_KEY_key2buf key form in
  let? length := run_pure (OpensslCallIsPositive (ret (length, length))) in
  Val (take (Z.to_nat length) pbuf).

Definition _EVP_PKEY_CTX_new (k : EVP_PKEY) : outcome EVP_PKEY_CTX :=
  run_pure (OpensslCallPtr (ret (SSL_EVP_PKEY_CTX_new k))).

Definition _EVP_PKEY_CTX_new_id (id : Z) : outcome EVP_PKEY_CTX :=
  run_pure (OpensslCallPtr (ret (SSL_EVP_PKEY_CTX_new_id id))).

Definition _EVP_PKEY_keygen_init (ctx : EVP_PKEY_CTX) : outcome EVP_PKEY_CTX :=
  run_pure (OpensslCallIsOne (ret (SSL_EVP_PKEY_keygen_init ctx))).

Definition _EVP_PKEY_CTX_set_rsa_keygen_bits (mbits : Z) (ctx : EVP_PKEY_CTX) :
    outcome EVP_PKEY_CTX :=
  run_pure (OpensslCallIsOne (ret (SSL_EVP_PKEY_CTX_set_rsa_keygen_bits mbits ctx))).

(** The [catch] clause frees the key, if any, and rethrows. *)
Definition _EVP_PKEY_keygen (ctx : EVP_PKEY_CTX) : M KEYGEN EVP_PKEY :=
  let! ptr := try_catch (OpensslCallIsOne (SSL_EVP_PKEY_keygen ctx)) throw in
  match ptr with Some k => ret k | None => throw UndefinedBehaviour end.

Definition _EVP_PKEY_paramgen_init (ctx : EVP_PKEY_CTX) : outcome EVP_PKEY_CTX :=
  run_pure (OpensslCallIsOne (ret (SSL_EVP_PKEY_paramgen_init ctx))).

Definition _EVP_PKEY_CTX_set_ec_paramgen_curve_nid (nid : Z) (ctx : EVP_PKEY_CTX) :
    outcome EVP_PKEY_CTX :=
  run_pure (OpensslCallIsNonNegative (ret (SSL_EVP_PKEY_CTX_set_ec_paramgen_curve_nid nid ctx))).

Definition _EVP_PKEY_CTX_set_ec_param_enc (param_enc : Z) (ctx : EVP_PKEY_CTX) :
    outcome EVP_PKEY_CTX :=
  run_pure (OpensslCallIsNonNegative (ret (SSL_EVP_PKEY_CTX_set_ec_param_enc param_enc ctx))).

Definition _EVP_PKEY_paramgen (ctx : EVP_PKEY_CTX) : outcome EVP_PKEY :=
  let? ptr := run_pure (OpensslCallIsOne (ret (SSL_EVP_PKEY_paramgen ctx))) in
  match ptr with Some k => Val k | None => Throw UndefinedBehaviour end.

Definition _EVP_derive_key (peerkey key : EVP_PKEY) : outcome bytes :=
  let? ctx := run_pure (OpensslCallPtr (ret (SSL_EVP_PKEY_CTX_new key))) in
  let? ctx := run_pure (OpensslCallIsOne (ret (SSL_EVP_PKEY_derive_init ctx))) in
  let? ctx := run_pure (OpensslCallIsOne (ret (SSL_EVP_PKEY_derive_set_peer peerkey ctx))) in
  let? secret_len := run_pure (OpensslCallIsOne (ret (SSL_EVP_PKEY_derive_length ctx))) in
  let result := zeros secret_len in
  let? out := run_pure (OpensslCallIsOne (ret (SSL_EVP_PKEY_derive secret_len ctx))) in
  write_buffer result out.

Definition _EVP_aes_256_cbc : outcome EVP_CIPHER :=
  run_pure (OpensslCallPtr (ret SSL_EVP_aes_256_cbc)).

Definition _PEM_write_bio_PUBKEY (x : EVP_PKEY) : M BIO () :=
  OpensslCallIsOne (SSL_PEM_write_bio_PUBKEY x).
Definition _PEM_read_bio_PUBKEY : M BIO EVP_PKEY := OpensslCallPtr SSL_PEM_read_bio_PUBKEY.

(** The password is passed with its length when it is written, ... *)
Definition _PEM_write_bio_PKCS8PrivateKey (pkey : EVP_PKEY) (cipher : option EVP_CIPHER)
    (pwd : bytes) : M BIO () :=
  OpensslCallIsOne (SSL_PEM_write_bio_PKCS8PrivateKey pkey cipher pwd (to_int (size pwd))).
(** ... and as a C string when it is read. *)
Definition _PEM_read_bio_PrivateKey (pwd : bytes) : M BIO EVP_PKEY :=
  OpensslCallPtr (SSL_PEM_read_bio_PrivateKey (c_str pwd)).

(** ** The classes

    An [AsymmetricKey], [AsymmetricPublicKey] or [AsymmetricKeypair] is a shared
    pointer to an [EVP_PKEY]. *)

Definition ensureEccCurveSupported (nid : ellipticCurveNid) : outcome () :=
  if (nid =? Nid.Ed448) || (nid =? Nid.Ed25519) then
    Throw (MoCOCrWException
      [Str "The given curve is not supported. Ed448 and Ed25519 are not supported"])
  else Val ().

Definition getType (key : EVP_PKEY) : outcome KeyTypes :=
  let? t := _EVP_PKEY_type key in
  if t =? EVP_PKEY_RSA then Val RSA
  else if t =? EVP_PKEY_EC then Val ECC
  else if (t =? EVP_PKEY_ED25519) || (t =? EVP_PKEY_ED448) then Val ECC_ED
  else Throw (MoCOCrWException [Str "Unknown Key Type"]).

Definition getKeySize (key : EVP_PKEY) : Z := EVP_PKEY_bits key.

(** [catch (const OpenSSLException &e) { throw MoCOCrWException(e.what()); }] *)
Definition rewrap (e : exn) : exn :=
  match e with OpenSSLException w => MoCOCrWException w | _ => e end.

Definition getKeySpec (key : EVP_PKEY) : outcome Spec :=
  match
    (let? t := getType key in
     match t with
     | ECC =>
         let? k := _EVP_PKEY_get0_EC_KEY key in
         let? group := _EC_KEY_get0_group k in
         let? nid := _EC_GROUP_get_curve_name group in
         Val (ECCSpec nid)
     | ECC_ED => let? nid := _EVP_PKEY_type key in Val (ECCSpec nid)
     | RSA => Val (RSASpec (to_uint32 (getKeySize key)))
     end)
  with
  | Val s => Val s
  | Throw e => Throw (rewrap e)
  end.

(** [operator==] *)
Definition PublicKey_eq (a b : EVP_PKEY) : outcome bool := _EVP_PKEY_cmp a b.
Definition PublicKey_neq (a b : EVP_PKEY) : outcome bool :=
  let? r := PublicKey_eq a b in Val (negb r).

Definition RSASpec_generate (numBits : Z) : M KEYGEN EVP_PKEY :=
  let! keyCtx := lift (_EVP_PKEY_CTX_new_id EVP_PKEY_RSA) in
  let! keyCtx := lift (_EVP_PKEY_keygen_init keyCtx) in
  let! keyCtx := lift (_EVP_PKEY_CTX_set_rsa_keygen_bits (to_int numBits) keyCtx) in
  _EVP_PKEY_keygen keyCtx.

(** The context for a curve: by its parameters, or by its own key type. *)
Definition ECCSpec_context (curveNid : ellipticCurveNid) : outcome EVP_PKEY_CTX :=
  if negb (curveNid =? Nid.Ed448) && negb (curveNid =? Nid.Ed25519) then
    let? paramCtx := _EVP_PKEY_CTX_new_id EVP_PKEY_EC in
    let? paramCtx := _EVP_PKEY_paramgen_init paramCtx in
    let? paramCtx := _EVP_PKEY_CTX_set_ec_paramgen_curve_nid curveNid paramCtx in
    let? paramCtx := _EVP_PKEY_CTX_set_ec_param_enc OPENSSL_EC_NAMED_CURVE paramCtx in
    let? params := _EVP_PKEY_paramgen paramCtx in
    _EVP_PKEY_CTX_new params
  else _EVP_PKEY_CTX_new_id curveNid.

Definition ECCSpec_generate (curveNid : ellipticCurveNid) : M KEYGEN EVP_PKEY :=
  try_catch
    (let! keyCtx := lift (ECCSpec_context curveNid) in
     let! keyCtx := lift (_EVP_PKEY_keygen_init keyCtx) in
     _EVP_PKEY_keygen keyCtx)
    (λ e, throw (rewrap e)).

(** [AsymmetricKeypair::generate] *)
Definition generate (keySpec : Spec) : M KEYGEN EVP_PKEY :=
  match keySpec with
  | RSASpec numBits => RSASpec_generate numBits
  | ECCSpec nid => ECCSpec_generate nid
  end.

(** The deprecated overload without a specification. *)
Definition generate_default : M KEYGEN EVP_PKEY := generate (RSASpec RSASpec_defaultSize).
Definition generateRSA : M KEYGEN EVP_PKEY := generate (RSASpec RSASpec_defaultSize).
Definition generateECC : M KEYGEN EVP_PKEY := generate (ECCSpec ECCSpec_defaultCurveNid).
Definition generateEd448 : M KEYGEN EVP_PKEY := generate (ECCSpec Nid.Ed448).
Definition generateEd25519 : M KEYGEN EVP_PKEY := generate (ECCSpec Nid.Ed25519).

Definition publicKeyToPem (fuel : nat) (key : EVP_PKEY) : outcome bytes :=
  with_bio (_PEM_write_bio_PUBKEY key ;; flushToString fuel).

Definition readPublicKeyFromPEM (pem : bytes) : outcome EVP_PKEY :=
  with_bio (write_string pem ;; _PEM_read_bio_PUBKEY).

Definition privateKeyToPem (fuel : nat) (key : EVP_PKEY) (pwd : bytes) : outcome bytes :=
  with_bio
    (let! pkey_cipher := (if 0 <? size pwd
                          then let! c := lift _EVP_aes_256_cbc in ret (Some c)
                          else ret None) in
     _PEM_write_bio_PKCS8PrivateKey key pkey_cipher pwd ;;
     flushToString fuel).

(** [password.c_str()] is converted to a string again. *)
Definition readPrivateKeyFromPEM (pem password : bytes) : outcome EVP_PKEY :=
  with_bio (write_string pem ;; _PEM_read_bio_PrivateKey (c_str password)).

Definition fromECPoint (curve : ellipticCurveNid) (point : bytes) : outcome EVP_PKEY :=
  let? _ := ensureEccCurveSupported curve in
  let? ec_key := _EC_KEY_oct2key curve point in
  let? evp_key := _EVP_PKEY_new in
  _EVP_PKEY_set1_EC_KEY evp_key ec_key.

Definition toECPoint (key : EVP_PKEY) (form : EllipticCurvePointConversionForm) :
    outcome bytes :=
  let? t := getType key in
  if negb (bool_decide (t = ECC)) then
    Throw (MoCOCrWException [Str "The function toECPoint can only be invoked for EC keys."])
  else
    let? spec := getKeySpec key in
    match spec with
    | ECCSpec curve =>
        let? _ := ensureEccCurveSupported curve in
        _EC_KEY_key2buf key form
    | RSASpec _ => Throw (MoCOCrWException
        [Str "Failure downcasting from AsymmetricKey::Spec to ECCSpec."])
    end.

(** [unsigned int] arithmetic. *)
Definition getECOctetLength (key : EVP_PKEY) (form : EllipticCurvePointConversionForm) :
    outcome Z :=
  let? t := getType key in
  if negb (bool_decide (t = ECC)) then
    Throw (MoCOCrWException
      [Str "The function getECOctetLength can only be invoked for EC keys."])
  else
    let? k := _EVP_PKEY_get0_EC_KEY key in
    let? group := _EC_KEY_get0_group k in
    let? degree := _EC_GROUP_get_degree group in
    let field_size := to_uint32 degree in
    let field_size_bytes := to_uint32 (field_size + 7) / 8 in
    Val (match form with
         | compressed => to_uint32 (1 + field_size_bytes)
         | _ => to_uint32 (1 + 2 * field_size_bytes)
         end).
End Key.

(** ** The documented behaviour of the OpenSSL functions *)

(** What a context has been told: the operation it was initialised for, its key
    type, size and curve. *)
Inductive ctx_init := ForParamgen | ForKeygen.
Record ctx_view := mkView { v_init : option ctx_init; v_id : Z; v_bits : Z; v_nid : Z }.
Definition for_init (i : ctx_init) (v : ctx_view) : ctx_view :=
  {| v_init := Some i; v_id := v_id v; v_bits := v_bits v; v_nid := v_nid v |}.

(** The curves of the enumeration that have parameters, all built into OpenSSL. *)
Definition named_curves : list ellipticCurveNid :=
  [Nid.PRIME_192v1; Nid.PRIME_256v1; Nid.SECP_224r1; Nid.SECP_384r1; Nid.SECP_521r1;
   Nid.SECT_283k1; Nid.SECT_283r1; Nid.SECT_409k1; Nid.SECT_409r1; Nid.SECT_571k1;
   Nid.SECT_571r1].
Definition key_types : list Z := [EVP_PKEY_RSA; EVP_PKEY_EC; EVP_PKEY_ED25519; EVP_PKEY_ED448].
Ltac listed := unfold key_types; repeat constructor.

Class EvpPkeySpec {bio : BioAPI} {evp : EvpCipherAPI} {bio_spec : BioSpec bio}
    (api : EvpPkeyAPI bio evp) := {
  view : EVP_PKEY_CTX → ctx_view;
  (** the curve of an EC key or of parameters; what a key is about *)
  curve_of : EVP_PKEY → Z;
  has_private : EVP_PKEY → Prop;
  CTX_new_id_spec id ctx :
    SSL_EVP_PKEY_CTX_new_id id = Some ctx → v_id (view ctx) = id ∧ v_nid (view ctx) = 0;
  CTX_new_spec params ctx :
    SSL_EVP_PKEY_CTX_new params = Some ctx →
    SSL_EVP_PKEY_type (SSL_EVP_PKEY_id params) = EVP_PKEY_EC →
    v_id (view ctx) = EVP_PKEY_EC ∧ v_nid (view ctx) = curve_of params;
  keygen_init_spec ctx ctx' :
    SSL_EVP_PKEY_keygen_init ctx = (1, ctx') → view ctx' = for_init ForKeygen (view ctx);
  paramgen_init_spec ctx ctx' :
    SSL_EVP_PKEY_paramgen_init ctx = (1, ctx') → view ctx' = for_init ForParamgen (view ctx);
  set_bits_spec n ctx ctx' :
    SSL_EVP_PKEY_CTX_set_rsa_keygen_bits n ctx = (1, ctx') →
    view ctx' = {| v_init := v_init (view ctx); v_id := v_id (view ctx); v_bits := n;
                   v_nid := v_nid (view ctx) |};
  (** "a positive value for success and 0 or a negative value for failure": a
      failure changes nothing *)
  set_curve_spec nid ctx rv ctx' :
    SSL_EVP_PKEY_CTX_set_ec_paramgen_curve_nid nid ctx = (rv, ctx') →
    view ctx' = if 0 <? rv
                then {| v_init := v_init (view ctx); v_id := v_id (view ctx);
                        v_bits := v_bits (view ctx); v_nid := nid |}
                else view ctx;
  set_param_enc_spec e ctx rv ctx' :
    SSL_EVP_PKEY_CTX_set_ec_param_enc e ctx = (rv, ctx') → view ctx' = view ctx;
  (** without a curve there are no parameters to generate *)
  paramgen_spec ctx p :
    SSL_EVP_PKEY_paramgen ctx = (1, p) → ∃ k, p = Some k ∧
    v_nid (view ctx) ≠ 0 ∧ SSL_EVP_PKEY_type (SSL_EVP_PKEY_id k) = EVP_PKEY_EC ∧
    curve_of k = v_nid (view ctx);
  keygen_spec ctx g :
    wp_total (SSL_EVP_PKEY_keygen ctx) g (λ '(rv, k) _, rv = 1 → ∃ key, k = Some key ∧ has_private key ∧
      SSL_EVP_PKEY_type (SSL_EVP_PKEY_id key) = v_id (view ctx) ∧
      (v_id (view ctx) = EVP_PKEY_RSA → EVP_PKEY_bits key = v_bits (view ctx)) ∧
      (v_id (view ctx) = EVP_PKEY_EC → curve_of key = v_nid (view ctx)));
  (** the secret that the holder of a key computes with a peer's; an EC key and the
      public key it belongs to agree with any third key *)
  shared_secret : EVP_PKEY → EVP_PKEY → bytes;
  derive_spec peer key ctx ctx1 ctx2 len out :
    SSL_EVP_PKEY_CTX_new key = Some ctx → SSL_EVP_PKEY_derive_init ctx = (1, ctx1) →
    SSL_EVP_PKEY_derive_set_peer peer ctx1 = (1, ctx2) →
    SSL_EVP_PKEY_type (SSL_EVP_PKEY_id key) = EVP_PKEY_EC →
    SSL_EVP_PKEY_derive_length ctx2 = (1, len) → SSL_EVP_PKEY_derive len ctx2 = (1, out) →
    out = shared_secret peer key ∧ 0 ≤ len ∧ size out = len;
  agreement pub priv eph :
    SSL_EVP_PKEY_cmp pub priv = 1 → has_private priv → has_private eph →
    SSL_EVP_PKEY_type (SSL_EVP_PKEY_id eph) = EVP_PKEY_EC → curve_of eph = curve_of pub →
    shared_secret eph priv = shared_secret pub eph;
  (** public keys compare equal only if type and parameters do *)
  cmp_same a b :
    SSL_EVP_PKEY_cmp a b = 1 →
    SSL_EVP_PKEY_type (SSL_EVP_PKEY_id a) = SSL_EVP_PKEY_type (SSL_EVP_PKEY_id b) ∧
    (SSL_EVP_PKEY_type (SSL_EVP_PKEY_id a) = EVP_PKEY_EC → curve_of a = curve_of b);
  (** a secret is a field element *)
  shared_secret_size peer key : size (shared_secret peer key) ≤ 8192;
  (** every EC key has a group with a named curve *)
  ec_key_spec key :
    SSL_EVP_PKEY_type (SSL_EVP_PKEY_id key) = EVP_PKEY_EC →
    ∃ k g, SSL_EVP_PKEY_get0_EC_KEY key = Some k ∧ SSL_EC_KEY_get0_group k = Some g ∧
           SSL_EC_GROUP_get_curve_name g = curve_of key;
  (** SEC 1, 2.3.3: the length of the octet string of a point *)
  key2buf_spec key k g form len buf :
    SSL_EVP_PKEY_get0_EC_KEY key = Some k → SSL_EC_KEY_get0_group k = Some g →
    SSL_EC_KEY_key2buf k form = (len, buf) → 0 < len →
    0 < SSL_EC_GROUP_get_degree g ≤ 65536 ∧ size buf = len ∧
    len = match form with
          | compressed => 1 + (SSL_EC_GROUP_get_degree g + 7) / 8
          | _ => 1 + 2 * ((SSL_EC_GROUP_get_degree g + 7) / 8)
          end;
  (** the PEM text of a private key, under a password if there is one: it is
      text, and reading it with that password gives an equal key *)
  private_pem : EVP_PKEY → option bytes → bytes;
  private_pem_text key pwd : c_str (private_pem key pwd) = private_pem key pwd;
  PEM_write_private_spec b d key cipher pwd len :
    mem_bio b d → 0 ≤ len ≤ size pwd →
    wp_total (SSL_PEM_write_bio_PKCS8PrivateKey key cipher pwd len) b
      (λ '(rv, _) b', rv = 1 → mem_bio b' (d ++ private_pem key
         (match cipher with Some _ => Some (take (Z.to_nat len) pwd) | None => None end)));
  PEM_read_private_spec b key o pwd :
    mem_bio b (private_pem key o) → (∀ p, o = Some p → p = pwd) →
    wp_total (SSL_PEM_read_bio_PrivateKey pwd) b
      (λ k _, ∀ key', k = Some key' → SSL_EVP_PKEY_cmp key' key = 1);
  PEM_read_empty b pwd :
    mem_bio b [] → wp_total (SSL_PEM_read_bio_PrivateKey pwd) b (λ k _, k = None);
}.

Definition key_type {bio : BioAPI} {evp : EvpCipherAPI} {api : EvpPkeyAPI bio evp}
    (key : EVP_PKEY) : Z := SSL_EVP_PKEY_type (SSL_EVP_PKEY_id key).

(** [key] can be used with the public key [peer]. *)
Definition can_agree `{spec : EvpPkeySpec} (peer key : EVP_PKEY) : Prop :=
  key_type key = EVP_PKEY_EC ∧ has_private key ∧ key_type peer = EVP_PKEY_EC ∧
  curve_of peer = curve_of key.

(** OpenSSL carries the calls out. *)
Record EvpPkeyWorks `{spec : EvpPkeySpec} : Prop := {
  CTX_new_id_works id : id ∈ key_types → SSL_EVP_PKEY_CTX_new_id id ≠ None;
  PKEY_CTX_new_works key : key_type key ∈ key_types → SSL_EVP_PKEY_CTX_new key ≠ None;
  keygen_init_works ctx : v_id (view ctx) ∈ key_types → (SSL_EVP_PKEY_keygen_init ctx).1 = 1;
  set_bits_works n ctx :
    v_init (view ctx) = Some ForKeygen → v_id (view ctx) = EVP_PKEY_RSA → 512 ≤ n ≤ 16384 →
    (SSL_EVP_PKEY_CTX_set_rsa_keygen_bits n ctx).1 = 1;
  keygen_works ctx g :
    v_init (view ctx) = Some ForKeygen → v_id (view ctx) ∈ key_types →
    (v_id (view ctx) = EVP_PKEY_RSA → 512 ≤ v_bits (view ctx) ≤ 16384) →
    (v_id (view ctx) = EVP_PKEY_EC → v_nid (view ctx) ∈ named_curves) →
    succeeds (SSL_EVP_PKEY_keygen ctx) g;
  paramgen_init_works ctx :
    v_id (view ctx) = EVP_PKEY_EC → (SSL_EVP_PKEY_paramgen_init ctx).1 = 1;
  set_curve_works nid ctx :
    v_init (view ctx) = Some ForParamgen → v_id (view ctx) = EVP_PKEY_EC →
    nid ∈ named_curves → 0 < (SSL_EVP_PKEY_CTX_set_ec_paramgen_curve_nid nid ctx).1;
  set_param_enc_works ctx :
    v_init (view ctx) = Some ForParamgen → v_id (view ctx) = EVP_PKEY_EC →
    v_nid (view ctx) ∈ named_curves →
    0 < (SSL_EVP_PKEY_CTX_set_ec_param_enc OPENSSL_EC_NAMED_CURVE ctx).1;
  paramgen_works ctx :
    v_init (view ctx) = Some ForParamgen → v_id (view ctx) = EVP_PKEY_EC →
    v_nid (view ctx) ∈ named_curves → (SSL_EVP_PKEY_paramgen ctx).1 = 1;
  derive_works peer key ctx :
    can_agree peer key → SSL_EVP_PKEY_CTX_new key = Some ctx →
    ∃ ctx1 ctx2, SSL_EVP_PKEY_derive_init ctx = (1, ctx1) ∧
      SSL_EVP_PKEY_derive_set_peer peer ctx1 = (1, ctx2) ∧
      (SSL_EVP_PKEY_derive_length ctx2).1 = 1 ∧
      (SSL_EVP_PKEY_derive (SSL_EVP_PKEY_derive_length ctx2).2 ctx2).1 = 1;
}.
Arguments EvpPkeyWorks {bio evp bio_spec api} spec.

(** OpenSSL writes and reads private keys. *)
Record PrivatePemWorks `{spec : EvpPkeySpec} : Prop := {
  pem_bio_works : BioWorks bio_spec;
  aes_256_cbc_works : SSL_EVP_aes_256_cbc ≠ None;
  PEM_write_private_works b d key cipher pwd len :
    mem_bio b d → has_private key → 0 ≤ len ≤ size pwd → (cipher ≠ None → 0 < len) →
    succeeds (SSL_PEM_write_bio_PKCS8PrivateKey key cipher pwd len) b;
  PEM_read_private_works b key o pwd :
    mem_bio b (private_pem key o) → (∀ p, o = Some p → p = pwd) → has_private key →
    gives_object (SSL_PEM_read_bio_PrivateKey pwd) b;
}.
Arguments PrivatePemWorks {bio evp bio_spec api} spec.

(** ** Facts *)

Section Facts.
Context {bio : BioAPI} {evp : EvpCipherAPI} {bio_spec : BioSpec bio}.
Context {api : EvpPkeyAPI bio evp} {spec : EvpPkeySpec api}.
Implicit Types (key : EVP_PKEY).

Lemma PKEY_type_eq key t : key_type key = t → 0 < t → _EVP_PKEY_type key = Val t.
Proof.
  intros <- Ht. unfold _EVP_PKEY_type. rewrite run_pure_IsPositive.
  cbn. unfold key_type in *. by destruct (Z.ltb_spec 0 (SSL_EVP_PKEY_type (SSL_EVP_PKEY_id key))); [|lia].
Qed.

Lemma getKeySpec_RSA key :
  key_type key = EVP_PKEY_RSA → getKeySpec key = Val (RSASpec (to_uint32 (getKeySize key))).
Proof. intros Ht. unfold getKeySpec, getType. by rewrite (PKEY_type_eq key EVP_PKEY_RSA). Qed.

Lemma getKeySpec_EC key :
  key_type key = EVP_PKEY_EC → 0 < curve_of key → getKeySpec key = Val (ECCSpec (curve_of key)).
Proof.
  intros Ht Hc. unfold getKeySpec, getType. rewrite (PKEY_type_eq key EVP_PKEY_EC) by done.
  destruct (ec_key_spec key Ht) as (k & g & Hk & Hg & Hn). cbn.
  unfold _EVP_PKEY_get0_EC_KEY, _EC_KEY_get0_group, _EC_GROUP_get_curve_name.
  rewrite run_pure_Ptr, Hk. cbn. rewrite run_pure_Ptr, Hg. cbn.
  rewrite run_pure_IsPositive, Hn. cbn. by destruct (Z.ltb_spec 0 (curve_of key)); [|lia].
Qed.

Lemma getKeySpec_ED key nid :
  nid = Nid.Ed448 ∨ nid = Nid.Ed25519 → key_type key = nid → getKeySpec key = Val (ECCSpec nid).
Proof.
  intros Hn Ht. unfold getKeySpec, getType.
  rewrite (PKEY_type_eq key nid) by (done || destruct Hn; subst nid; done).
  by destruct Hn as [-> | ->].
Qed.

(** The failure of a call that OpenSSL would have carried out under [P]. *)
Definition fails (P : Prop) (e : exn) : Prop :=
  e = OpenSSLException [ErrorQueue] ∧ ¬ (EvpPkeyWorks spec ∧ P).

(** A checked key generation. *)
Lemma keygen_ok ctx g :
  wp (_EVP_PKEY_keygen ctx) g (λ key _,
      has_private key ∧ key_type key = v_id (view ctx) ∧
      (v_id (view ctx) = EVP_PKEY_RSA → EVP_PKEY_bits key = v_bits (view ctx)) ∧
      (v_id (view ctx) = EVP_PKEY_EC → curve_of key = v_nid (view ctx)))
    (λ e _, fails (v_init (view ctx) = Some ForKeygen ∧ v_id (view ctx) ∈ key_types ∧
      (v_id (view ctx) = EVP_PKEY_RSA → 512 ≤ v_bits (view ctx) ≤ 16384) ∧
      (v_id (view ctx) = EVP_PKEY_EC → v_nid (view ctx) ∈ named_curves)) e).
Proof.
  unfold _EVP_PKEY_keygen. wp_simpl.
  call_one keygen_spec.
  - destruct Hok as (key & -> & Hk). by wp_simpl.
  - intros s' Hf. split; [done|]. intros (HW & ? & ? & ? & ?). apply Hf. by apply keygen_works.
Qed.

Lemma keygen_init_ok ctx :
  owp (_EVP_PKEY_keygen_init ctx) (λ ctx', view ctx' = for_init ForKeygen (view ctx))
    (fails (v_id (view ctx) ∈ key_types)).
Proof.
  apply owp_IsOne; [apply keygen_init_spec|].
  intros Hf. split; [done|]. intros [HW ?]. by apply Hf, keygen_init_works.
Qed.

Lemma CTX_new_id_ok id :
  owp (_EVP_PKEY_CTX_new_id id) (λ ctx, v_id (view ctx) = id ∧ v_nid (view ctx) = 0)
    (fails (id ∈ key_types)).
Proof.
  apply owp_Ptr; [apply CTX_new_id_spec|].
  intros Hf. split; [done|]. intros [HW ?]. by eapply CTX_new_id_works.
Qed.

(** The context of [RSASpec::generate]. *)
Definition rsa_context (numBits : Z) : outcome EVP_PKEY_CTX :=
  let? c := _EVP_PKEY_CTX_new_id EVP_PKEY_RSA in
  let? c := _EVP_PKEY_keygen_init c in
  _EVP_PKEY_CTX_set_rsa_keygen_bits (to_int numBits) c.

Lemma RSASpec_generate_eq numBits :
  RSASpec_generate numBits =
  (let! ctx := lift (rsa_context numBits) in _EVP_PKEY_keygen ctx).
Proof.
  unfold RSASpec_generate, rsa_context, bind, lift.
  by destruct (_EVP_PKEY_CTX_new_id _) as [c|]; cbn; [destruct (_EVP_PKEY_keygen_init c); cbn|].
Qed.

Lemma rsa_context_ok numBits :
  owp (rsa_context numBits) (λ ctx, v_init (view ctx) = Some ForKeygen ∧
      v_id (view ctx) = EVP_PKEY_RSA ∧ v_bits (view ctx) = to_int numBits)
    (fails (512 ≤ to_int numBits ≤ 16384)).
Proof.
  unfold rsa_context. apply owp_obind.
  eapply owp_mono; [apply CTX_new_id_ok| |].
  2: { intros e [-> Hn]. split; [done|]. intros [HW _]. apply Hn. split; [done|]. listed. }
  intros c [Hid _]. apply owp_obind. eapply owp_mono; [apply keygen_init_ok| |].
  2: { intros e [-> Hn]. split; [done|]. intros [HW _]. apply Hn. rewrite Hid. split; [done|]. listed. }
  intros c1 Hc1. apply owp_IsOne.
  - intros c2 ->%set_bits_spec. by rewrite Hc1.
  - intros Hf. split; [done|]. intros [HW Hb]. by apply Hf, set_bits_works; rewrite ?Hc1.
Qed.

Lemma ecc_context_ok nid :
  nid ≠ Nid.Ed448 → nid ≠ Nid.Ed25519 →
  owp (ECCSpec_context nid) (λ ctx, v_id (view ctx) = EVP_PKEY_EC ∧ v_nid (view ctx) = nid)
    (fails (nid ∈ named_curves)).
Proof.
  intros H1 H2. unfold ECCSpec_context.
  rewrite (proj2 (Z.eqb_neq _ _) H1), (proj2 (Z.eqb_neq _ _) H2). cbn [negb andb].
  apply owp_obind. eapply owp_mono; [apply CTX_new_id_ok| |].
  2: { intros e [-> Hn]. split; [done|]. intros [HW _]. apply Hn. split; [done|]. listed. }
  intros c [Hid Hnid]. apply owp_obind, owp_IsOne.
  2: { intros Hf. split; [done|]. intros [HW _]. by apply Hf, paramgen_init_works. }
  intros c1 Hv1%paramgen_init_spec. apply owp_obind, owp_IsNonNegative.
  2: { intros Hf. split; [done|]. intros [HW ?]. apply Z.lt_le_incl in Hf as Hf'.
       pose proof (set_curve_works HW nid c1) as Hs. rewrite Hv1 in Hs. cbn in Hs.
       specialize (Hs eq_refl Hid). lia || (specialize (Hs ltac:(done)); lia). }
  intros rv c2 Hr2 Hs2. pose proof (set_curve_spec _ _ _ _ Hs2) as Hv2.
  assert (Hset : nid ∈ named_curves → EvpPkeyWorks spec → 0 < rv).
  { intros Hn HW. pose proof (set_curve_works HW nid c1) as Hs. rewrite Hv1, Hs2 in Hs.
    by apply Hs. }
  apply owp_obind, owp_IsNonNegative.
  2: { intros Hf. split; [done|]. intros [HW Hn]. specialize (Hset Hn HW).
       rewrite (proj2 (Z.ltb_lt _ _) Hset), Hv1 in Hv2.
       pose proof (set_param_enc_works HW c2) as Hs. rewrite Hv2 in Hs. cbn in Hs.
       specialize (Hs eq_refl Hid Hn). lia. }
  intros rv' c3 _ Hv3%set_param_enc_spec. apply owp_obind.
  unfold _EVP_PKEY_paramgen. apply owp_obind, owp_IsOne.
  2: { intros Hf. split; [done|]. intros [HW Hn]. specialize (Hset Hn HW).
       rewrite (proj2 (Z.ltb_lt _ _) Hset), Hv1 in Hv2.
       apply Hf, paramgen_works; rewrite ?Hv3, ?Hv2; done. }
  intros p (k & -> & Hne & Hty & Hcurve)%paramgen_spec. cbn [owp]. apply owp_Ptr.
  2: { intros Hf. split; [done|]. intros [HW Hn].
       apply (PKEY_CTX_new_works HW k); [unfold key_type; rewrite Hty; listed|done]. }
  intros c4 [Hid' Hcv]%CTX_new_spec; [|done]. split; [done|].
  rewrite Hcv, Hcurve, Hv3, Hv2 in *. destruct (0 <? rv); [done|]. by rewrite Hv1 in Hne.
Qed.

Lemma ed_context_ok nid :
  nid = Nid.Ed448 ∨ nid = Nid.Ed25519 →
  owp (ECCSpec_context nid) (λ ctx, v_id (view ctx) = nid) (fails True).
Proof.
  intros Hn. unfold ECCSpec_context.
  replace (negb (nid =? Nid.Ed448) && negb (nid =? Nid.Ed25519)) with false
    by (by destruct Hn as [-> | ->]).
  eapply owp_mono; [apply CTX_new_id_ok|by intros ctx [? _]|].
  intros e [-> Hf]. split; [done|]. intros [HW _]. apply Hf. split; [done|].
  destruct Hn as [-> | ->]; listed.
Qed.

(** Both ways to make a context for a curve. *)
Lemma ECC_context_ok nid :
  owp (ECCSpec_context nid)
    (λ ctx, (nid = Nid.Ed448 ∨ nid = Nid.Ed25519) ∧ v_id (view ctx) = nid ∨
            nid ≠ Nid.Ed448 ∧ nid ≠ Nid.Ed25519 ∧
            v_id (view ctx) = EVP_PKEY_EC ∧ v_nid (view ctx) = nid)
    (fails (nid ∈ Nid.Ed448 :: Nid.Ed25519 :: named_curves)).
Proof.
  destruct (decide (nid = Nid.Ed448 ∨ nid = Nid.Ed25519)) as [Hed|[H1 H2]%Decidable.not_or].
  - eapply owp_mono; [by apply ed_context_ok|by left|].
    intros e [-> Hn]. split; [done|]. intros [HW _]. by apply Hn.
  - eapply owp_mono; [by apply ecc_context_ok|by right|].
    intros e [-> Hn]. split; [done|]. intros [HW Hin]. apply Hn. split; [done|].
    by rewrite !elem_of_cons in Hin; destruct Hin as [?|[?|?]].
Qed.

(** The key specifications a caller can write down. *)
Definition spec_ok (s : Spec) : Prop :=
  match s with RSASpec n => 0 < n ≤ INT_MAX | ECCSpec nid => 0 < nid end.

(** The specifications that OpenSSL supports. *)
Definition supported (s : Spec) : Prop :=
  match s with
  | RSASpec n => 512 ≤ n ≤ 16384
  | ECCSpec nid => nid ∈ Nid.Ed448 :: Nid.Ed25519 :: named_curves
  end.

(** A key that was generated for a specification. *)
Definition key_for (s : Spec) key : Prop :=
  has_private key ∧
  match s with
  | RSASpec n => key_type key = EVP_PKEY_RSA ∧ EVP_PKEY_bits key = n
  | ECCSpec nid =>
      (nid = Nid.Ed448 ∨ nid = Nid.Ed25519) ∧ key_type key = nid ∨
      key_type key = EVP_PKEY_EC ∧ curve_of key = nid
  end.

Lemma key_for_spec s key : spec_ok s → key_for s key → getKeySpec key = Val s.
Proof.
  destruct s as [n|nid]; cbn.
  - intros Hn (_ & Ht & Hb). rewrite getKeySpec_RSA by done. unfold getKeySize. rewrite Hb.
    do 2 f_equal. unfold to_uint32. apply Z.mod_small. unfold INT_MAX in *. lia.
  - intros Hn (_ & [[Hed Ht]|[Ht <-]]); [by apply getKeySpec_ED|by apply getKeySpec_EC].
Qed.

Lemma generate_ok s g :
  spec_ok s →
  wp (generate s) g (λ key _, key_for s key)
    (λ e _, e = (match s with
                 | RSASpec _ => OpenSSLException [ErrorQueue]
                 | ECCSpec _ => MoCOCrWException [ErrorQueue]
                 end) ∧ ¬ (EvpPkeyWorks spec ∧ supported s)).
Proof.
  intros Hs. destruct s as [n|nid]; cbn [generate spec_ok supported] in *.
  - rewrite RSASpec_generate_eq. apply wp_lift_bind.
    assert (Hint : to_int n = n) by (apply to_int_id; unfold INT_MIN; lia).
    eapply owp_mono; [apply rsa_context_ok|rewrite Hint|rewrite Hint; auto].
    intros ctx (Hi & Hid & Hb). eapply wp_mono; [apply keygen_ok| |]; rewrite Hid, Hb.
    + intros key _ (Hp & Ht & Hbits & _). split; [done|]. split; [done|]. by apply Hbits.
    + intros e _ [-> Hn]. split; [done|]. intros [HW Hs']. apply Hn. split_and!; [done..|listed|done|done].
  - unfold ECCSpec_generate. apply wp_try_catch, wp_lift_bind.
    eapply owp_mono; [by apply ECC_context_ok| |].
    2: { intros e [-> Hn]. by split. }
    intros ctx Hctx. apply wp_lift_bind. eapply owp_mono; [apply keygen_init_ok| |].
    2: { intros e [-> Hn]. split; [done|]. intros [HW Hsup]. apply Hn. split; [done|].
         destruct Hctx as [[[-> | ->] ->]|(_ & _ & -> & _)]; listed. }
    intros ctx' Hv. eapply wp_mono; [apply keygen_ok| |]; rewrite Hv; cbn.
    + intros key _ (Hp & Ht & _ & Hc). split; [done|].
      destruct Hctx as [[Hed Hid]|(_ & _ & Hid & Hnid)]; rewrite Hid, ?Hnid in *;
        [by left|by right; auto].
    + intros e _ [-> Hn]. split; [done|]. intros [HW Hsup]. apply Hn.
      destruct Hctx as [[[-> | ->] Hid]|(H1 & H2 & Hid & Hnid)]; rewrite Hid, ?Hnid;
        split_and!; try done; try by listed.
      intros _. rewrite !elem_of_cons in Hsup. by destruct Hsup as [?|[?|?]].
Qed.

(** The secret that is derived. *)
Lemma derive_key_ok peer key :
  key_type key = EVP_PKEY_EC →
  owp (_EVP_derive_key peer key) (λ s, s = shared_secret peer key)
    (λ _, ¬ (EvpPkeyWorks spec ∧ can_agree peer key)).
Proof.
  intros Hty. unfold _EVP_derive_key. apply owp_obind, owp_Ptr.
  2: { intros Hf [HW _]. apply (PKEY_CTX_new_works HW key); [rewrite Hty; listed|done]. }
  intros c Hc.
  assert (Hw : EvpPkeyWorks spec ∧ can_agree peer key → ∃ c1 c2,
    SSL_EVP_PKEY_derive_init c = (1, c1) ∧ SSL_EVP_PKEY_derive_set_peer peer c1 = (1, c2) ∧
    (SSL_EVP_PKEY_derive_length c2).1 = 1 ∧
    (SSL_EVP_PKEY_derive (SSL_EVP_PKEY_derive_length c2).2 c2).1 = 1)
    by (intros [HW Ha]; by apply (derive_works HW peer key)).
  apply owp_obind, owp_IsOne.
  2: { intros Hf (c1 & c2 & H1 & _)%Hw. by rewrite H1 in Hf. }
  intros c1 H1. apply owp_obind, owp_IsOne.
  2: { intros Hf (c1' & c2 & H1' & H2 & _)%Hw. rewrite H1 in H1'. injection H1' as ->.
       by rewrite H2 in Hf. }
  intros c2 H2.
  assert (Hw2 : EvpPkeyWorks spec ∧ can_agree peer key →
    (SSL_EVP_PKEY_derive_length c2).1 = 1 ∧
    (SSL_EVP_PKEY_derive (SSL_EVP_PKEY_derive_length c2).2 c2).1 = 1).
  { intros (c1' & c2' & H1' & H2' & H)%Hw. rewrite H1 in H1'. injection H1' as ->.
    rewrite H2 in H2'. by injection H2' as ->. }
  apply owp_obind, owp_IsOne; [|by intros Hf [? _]%Hw2].
  intros len Hlen. rewrite Hlen in Hw2. apply owp_obind, owp_IsOne; [|by intros Hf [_ ?]%Hw2].
  intros out Hout. destruct (derive_spec _ _ _ _ _ _ _ Hc H1 H2 Hty Hlen Hout) as (-> & Hl & Hs).
  destruct (write_buffer _ _) as [b|e] eqn:Hb.
  - by apply write_buffer_full in Hb; [|rewrite size_zeros].
  - apply write_buffer_fits in Hb; [done|]. rewrite size_zeros; lia.
Qed.

(** A key is encrypted when the password is not empty. *)
Definition pem_password (pwd : bytes) : option bytes :=
  if 0 <? size pwd then Some pwd else None.

Lemma privateKeyToPem_ok fuel key pwd :
  size pwd ≤ INT_MAX → (S (length (private_pem key (pem_password pwd))) < fuel)%nat →
  prepares (PrivatePemWorks spec ∧ has_private key) (privateKeyToPem fuel key pwd)
    (λ pem, pem = private_pem key (pem_password pwd)).
Proof.
  intros Hp Hf. unfold privateKeyToPem. apply with_bio_prepares; [by intros [? _]; apply pem_bio_works|].
  intros b Hb. pose proof (size_nonneg pwd).
  assert (Hwrite : ∀ cipher, pem_password pwd = (match cipher with Some _ => Some pwd | None => None end) →
    wp (_PEM_write_bio_PKCS8PrivateKey key cipher pwd ;; flushToString fuel) b
      (λ s _, s = private_pem key (pem_password pwd))
      (λ e _, e = OpenSSLException [ErrorQueue] ∧ ¬ (PrivatePemWorks spec ∧ has_private key))).
  { intros cipher Hc. unfold _PEM_write_bio_PKCS8PrivateKey. rewrite to_int_id by (unfold INT_MIN; lia).
    apply (writes_ok _ (λ s, s = private_pem key (pem_password pwd))); [|done|].
    - apply writes_text.
      + intros b' d Hb'. eapply wp_mono;
          [exact (PEM_write_private_spec b' d key cipher pwd _ Hb' (conj H (Z.le_refl _)))| |done].
        intros [rv []] b''. rewrite take_ge by (unfold size; lia). by rewrite Hc.
      + intros [HW Hk] b' d Hb'. apply (PEM_write_private_works HW b' d); [done|done|lia|].
        unfold pem_password in Hc. by destruct cipher, (Z.ltb_spec 0 (size pwd)).
    - intros b' t -> Hb'. by apply flushToString_spec. }
  unfold pem_password in *. rewrite wp_bind. destruct (0 <? size pwd).
  - unfold _EVP_aes_256_cbc. rewrite run_pure_Ptr.
    destruct SSL_EVP_aes_256_cbc as [c|] eqn:Hc; [exact (Hwrite (Some c) eq_refl)|].
    split; [done|]. intros [HW _]. by apply (aes_256_cbc_works HW).
  - exact (Hwrite None eq_refl).
Qed.
End Facts.

(** ** Properties *)

Section Properties.
Context {bio : BioAPI} {evp : EvpCipherAPI} {bio_spec : BioSpec bio}.
Context {api : EvpPkeyAPI bio evp} {spec : EvpPkeySpec api}.



(** A password is read up to its first NUL, although it is written whole. *)
Lemma password_cut (pem pwd : bytes) :
  readPrivateKeyFromPEM pem pwd = readPrivateKeyFromPEM pem (c_str pwd).
Proof.
  assert (Hc : c_str (c_str pwd) = c_str pwd).
  { induction pwd as [|b pwd IH]; [done|]. cbn. destruct (byte_val b =? 0) eqn:Hb; [done|].
    cbn. by rewrite Hb, IH. }
  unfold readPrivateKeyFromPEM. by rewrite Hc.
Qed.

(** Octet lengths: when the point of an EC key is written in a form,
    [getECOctetLength] tells the number of bytes of that form; for keys of any
    other type both refuse with a MoCOCrWException. *)
Theorem ec_octet_length (key : EVP_PKEY) (form : EllipticCurvePointConversionForm) (buf : bytes)
    (t : KeyTypes) (Ht : getType key = Val t) :
  (t = ECC → toECPoint key form = Val buf → getECOctetLength key form = Val (size buf)) ∧
  (t ≠ ECC → (∃ w, toECPoint key form = Throw (MoCOCrWException w)) ∧
             (∃ w, getECOctetLength key form = Throw (MoCOCrWException w))).
Proof.
  unfold toECPoint, getECOctetLength. rewrite Ht. cbn [obind]. split.
  - intros ->. rewrite bool_decide_eq_true_2 by done. cbn [negb]. intros H.
    apply obind_Val in H as ([|curve] & _ & H); [done|].
    apply obind_Val in H as (_ & _ & H).
    unfold _EC_KEY_key2buf, _EVP_PKEY_get0_EC_KEY, _EC_KEY_get0_group, _EC_GROUP_get_degree in *.
    assert (Hty : key_type key = EVP_PKEY_EC).
    { unfold getType in Ht. apply obind_Val in Ht as (t & Hp & Ht).
      unfold _EVP_PKEY_type in Hp. rewrite run_pure_IsPositive in Hp. cbn in Hp.
      destruct (0 <? _); [|done]. injection Hp as Hp. unfold key_type. rewrite Hp.
      destruct (t =? EVP_PKEY_RSA); [done|].
      destruct (Z.eqb_spec t EVP_PKEY_EC); [done|]. by destruct (_ || _). }
    destruct (ec_key_spec key Hty) as (k & g & Hk & Hg & _).
    rewrite run_pure_Ptr, Hk in H |- *. cbn [obind] in H |- *.
    rewrite run_pure_Ptr, Hg. cbn [obind]. rewrite run_pure_IsPositive. cbn.
    destruct (SSL_EC_KEY_key2buf k form) as [len pbuf] eqn:Hbuf.
    rewrite run_pure_IsPositive in H. cbn in H.
    destruct (Z.ltb_spec 0 len); [|done]. cbn in H. injection H as <-.
    destruct (key2buf_spec key k g form len pbuf Hk Hg Hbuf) as (Hdeg & Hsz & Hlen); [done|].
    destruct (Z.ltb_spec 0 (SSL_EC_GROUP_get_degree g)); [|lia]. cbn [obind].
    rewrite take_ge, Hsz by (unfold size in *; lia).
    assert (0 ≤ (SSL_EC_GROUP_get_degree g + 7) / 8 ≤ 8192).
    { split; [apply Z.div_pos; lia|]. apply Z.lt_succ_r, Z.div_lt_upper_bound; lia. }
    unfold to_uint32. rewrite (Z.mod_small (SSL_EC_GROUP_get_degree g)) by lia.
    rewrite (Z.mod_small (SSL_EC_GROUP_get_degree g + 7)) by lia.
    f_equal. subst len. destruct form; rewrite Z.mod_small; lia.
  - intros Hne. rewrite bool_decide_eq_false_2 by done. cbn [negb]. by eauto.
Qed.
End Properties.

(** ** Concrete keys

    A key is a number; two keys share the product of theirs.  Its PEM text is the
    key in two letters, followed by the password in hexadecimal. *)
Module NumberKeys.
#[local] Existing Instance MemBio.spec.

Record key := mkKey { k_id : Z; k_bits : Z; k_curve : Z; k_secret : nat }.
#[export] Instance key_eq_dec : EqDecision key.
Proof. solve_decision. Defined.

Record ctx := mkCtx { c_view : ctx_view; c_key : option key; c_peer : option key }.

Definition set_view (f : ctx_view → ctx_view) (c : ctx) : ctx :=
  mkCtx (f (c_view c)) (c_key c) (c_peer c).

Definition shared (a b : key) : bytes :=
  replicate 32 (to_uint8 (Z.of_nat (k_secret a * k_secret b))).

#[export] Instance key_countable : Countable key.
Proof.
  apply (inj_countable' (λ k, (k_id k, k_bits k, k_curve k, k_secret k))
           (λ '(i, b, c, n), mkKey i b c n)). by intros [].
Defined.

Fixpoint letters (p : positive) : bytes :=
  match p with
  | xO p => Byte.x61 :: letters p
  | xI p => Byte.x64 :: letters p
  | xH => []
  end.

Definition pem (k : key) (pwd : option bytes) : bytes :=
  letters (encode k) ++
  match pwd with Some p => Byte.x62 :: toHex p | None => [Byte.x63] end.

(** The number at the start of a text, and the rest. *)
Fixpoint number (s : bytes) : positive * bytes :=
  match s with
  | Byte.x61 :: s' => let '(p, r) := number s' in (xO p, r)
  | Byte.x64 :: s' => let '(p, r) := number s' in (xI p, r)
  | _ => (xH, s)
  end.

Definition parse (pwd s : bytes) : option key :=
  let '(p, r) := number s in
  match r with
  | [Byte.x63] => decode p
  | Byte.x62 :: h => if bool_decide (h = toHex pwd) then decode p else None
  | _ => None
  end.

Definition point (k : key) (form : EllipticCurvePointConversionForm) : bytes :=
  Byte.x02 :: replicate (match form with compressed => 32 | _ => 64 end)
    (to_uint8 (Z.of_nat (k_secret k))).

#[export] Instance api : EvpPkeyAPI MemBio.api XorCipher.api := {
  EVP_PKEY := key; EVP_PKEY_CTX := ctx; EC_KEY := key; EC_GROUP := key; KEYGEN := nat;
  SSL_EVP_PKEY_id := k_id; SSL_EVP_PKEY_type := λ id, id; EVP_PKEY_bits := k_bits;
  SSL_EVP_PKEY_size := k_bits;
  SSL_EVP_PKEY_cmp := λ a b, if bool_decide (a = b) then 1 else 0;
  SSL_EVP_PKEY_new := Some (mkKey 0 0 0 0);
  SSL_EVP_PKEY_get0_EC_KEY := λ k, if k_id k =? EVP_PKEY_EC then Some k else None;
  SSL_EVP_PKEY_set1_EC_KEY := λ _ k, (1, k);
  SSL_EC_KEY_get0_group := Some; SSL_EC_GROUP_get_degree := λ _, 256;
  SSL_EC_GROUP_get_curve_name := k_curve;
  SSL_EC_KEY_new_by_curve_name := λ nid, Some (mkKey EVP_PKEY_EC 256 nid 0);
  SSL_EC_KEY_oct2key := λ k b,
    (1, mkKey EVP_PKEY_EC 256 (k_curve k) (Z.to_nat (byte_val (nth 1 b Byte.x00))));
  SSL_EC_KEY_key2buf := λ k form, (size (point k form), point k form);
  SSL_EVP_PKEY_CTX_new := λ k, Some (mkCtx (mkView None (k_id k) 0 (k_curve k)) (Some k) None);
  SSL_EVP_PKEY_CTX_new_id := λ id, Some (mkCtx (mkView None id 0 0) None None);
  SSL_EVP_PKEY_keygen_init := λ c, (1, set_view (for_init ForKeygen) c);
  SSL_EVP_PKEY_CTX_set_rsa_keygen_bits := λ n c,
    (1, set_view (λ v, mkView (v_init v) (v_id v) n (v_nid v)) c);
  SSL_EVP_PKEY_keygen := λ c g,
    let v := c_view c in (Val (1, Some (mkKey (v_id v) (v_bits v) (v_nid v) g)), S g);
  SSL_EVP_PKEY_paramgen_init := λ c, (1, set_view (for_init ForParamgen) c);
  SSL_EVP_PKEY_CTX_set_ec_paramgen_curve_nid := λ nid c,
    (1, set_view (λ v, mkView (v_init v) (v_id v) (v_bits v) nid) c);
  SSL_EVP_PKEY_CTX_set_ec_param_enc := λ _ c, (1, c);
  SSL_EVP_PKEY_paramgen := λ c,
    let v := c_view c in
    if v_nid v =? 0 then (0, None) else (1, Some (mkKey EVP_PKEY_EC 0 (v_nid v) 0));
  SSL_EVP_PKEY_derive_init := λ c, (1, c);
  SSL_EVP_PKEY_derive_set_peer := λ p c, (1, mkCtx (c_view c) (c_key c) (Some p));
  SSL_EVP_PKEY_derive_length := λ _, (1, 32);
  SSL_EVP_PKEY_derive := λ _ c,
    match c_key c, c_peer c with
    | Some k, Some p => (1, shared k p)
    | _, _ => (0, [])
    end;
  SSL_EVP_aes_256_cbc := Some (CBC, S_256);
  SSL_PEM_write_bio_PUBKEY := λ k b, (Val (1, ()), b ++ pem k None);
  SSL_PEM_read_bio_PUBKEY := λ b,
    (Val (parse [] b), []);
  SSL_PEM_write_bio_PKCS8PrivateKey := λ k c p len b,
    (Val (1, ()), b ++ pem k
       (match c with Some _ => Some (take (Z.to_nat len) p) | None => None end));
  SSL_PEM_read_bio_PrivateKey := λ p b,
    (Val (parse p b), []);
}.

Lemma number_letters p o :
  let r := match o with Some w => Byte.x62 :: toHex w | None => [Byte.x63] end in
  number (letters p ++ r) = (p, r).
Proof. induction p as [p IH|p IH|]; cbn in *; [by rewrite IH..|by destruct o]. Qed.

Lemma parse_pem k o pwd : (∀ p, o = Some p → p = pwd) → parse pwd (pem k o) = Some k.
Proof.
  intros Ho. unfold parse, pem. rewrite number_letters. destruct o as [p|]; [|apply decode_encode].
  rewrite (Ho p eq_refl), bool_decide_eq_true_2 by done. apply decode_encode.
Qed.

Lemma c_str_hex d : c_str (toHex d) = toHex d.
Proof.
  induction d as [|b d IH]; [done|].
  change (toHex (b :: d)) with (hex_of_byte b ++ toHex d).
  destruct b; cbn; by rewrite IH.
Qed.

Lemma c_str_pem k o : c_str (pem k o) = pem k o.
Proof.
  unfold pem. induction (encode k) as [p IH|p IH|]; cbn in *; [by rewrite IH..|].
  destruct o as [w|]; [|done]. cbn. by rewrite c_str_hex.
Qed.

#[export] Instance spec : EvpPkeySpec api.
Proof.
  refine {| view := c_view : @EVP_PKEY_CTX _ _ api → _;
            curve_of := k_curve : @EVP_PKEY _ _ api → _;
            has_private := λ _, True;
            shared_secret := (λ p k, shared k p) : @EVP_PKEY _ _ api → _;
            private_pem := pem : @EVP_PKEY _ _ api → _ |}.
  - by intros id c [= <-].
  - by intros k c [= <-] Ht.
  - by intros c c' [= <-].
  - by intros c c' [= <-].
  - by intros n c c' [= <-].
  - by intros nid c rv c' [= <- <-].
  - by intros e c rv c' [= <- <-].
  - intros c p. cbn. destruct (Z.eqb_spec (v_nid (c_view c)) 0); [done|]. intros [= <-].
    by eexists.
  - intros c g. unfold wp. cbn. intros _. by eexists.
  - intros p k c c1 c2 len out [= <-] [= <-] [= <-] _ [= <-] [= <-].
    unfold shared. by rewrite size_replicate.
  - cbn. intros a b e. case_bool_decide; [|done]. subst b. intros _ _ _ _ _. unfold shared.
    by rewrite Nat.mul_comm.
  - cbn. intros a b. case_bool_decide; [|done]. by subst b.
  - intros p k. unfold shared. rewrite size_replicate. lia.
  - intros k Hk. cbn in *. rewrite Hk. by eexists _, _.
  - intros k k' g form len buf _ _ [= <- <-] _. split; [done|]. split; [done|].
    unfold point. rewrite size_cons, size_replicate. by destruct form.
  - intros k o. apply c_str_pem.
  - by intros b d k c p len -> Hl.
  - intros b k o p -> Ho. unfold wp. cbn. intros k'. rewrite parse_pem by done.
    intros [= <-]. by rewrite bool_decide_eq_true_2.
  - by intros b p ->.
Defined.

Lemma pkey_works : EvpPkeyWorks spec.
Proof.
  constructor; try done.
  - intros ctx _ _ Hn. cbn in *. destruct (Z.eqb_spec (v_nid (c_view ctx)) 0) as [H0|]; [|done].
    rewrite H0 in Hn. by apply list_elem_of_In in Hn; cbn in Hn; intuition.
  - intros p k c _ [= <-]. by eexists _, _.
Qed.

Definition key5 : @EVP_PKEY _ _ api := mkKey EVP_PKEY_EC 256 Nid.PRIME_256v1 5.


Definition pwd : bytes := str "secret".
Definition text : bytes := pem key5 (Some pwd).

Lemma pem_works : PrivatePemWorks spec.
Proof.
  split; [apply MemBio.mem_bio_works|done|done|]. intros b k o p -> Ho _. unfold gives_object, wp. cbn.
  by rewrite parse_pem.
Qed.


Lemma ec_octet_length_witness :
  getType key5 = Val ECC ∧ toECPoint key5 uncompressed = Val (point key5 uncompressed) ∧
  getECOctetLength key5 uncompressed = Val (size (point key5 uncompressed)).
Proof.
  assert (Ht : getType key5 = Val ECC) by by vm_compute.
  assert (Hp : toECPoint key5 uncompressed = Val (point key5 uncompressed)) by by vm_compute.
  split; [exact Ht|split; [exact Hp|]].
  exact (proj1 (ec_octet_length key5 uncompressed (point key5 uncompressed) ECC Ht)
           eq_refl Hp).
Defined.
End NumberKeys.
