(* ===== verification/Hsm.v ===== *)
(** * Hardware security modules: [src/src/hsm.cpp] and [src/src/mococrw/hsm.h]

    [HsmEngine] owns a structural reference to an OpenSSL engine (its [unique_ptr])
    and, once constructed, a functional one ([ENGINE_init]).  The section [Program] puts
    any number of such objects into a program that constructs them, loads keys
    and destroys them, as a step relation. *)

From S2P Require Import Prelude CheckCall Util SymmetricCrypto Bio Key.

(** ** The OpenSSL functions *)

(** [ENGINES] is all that calls of an engine can change: OpenSSL's table of engines,
    the modules that are loaded and the tokens behind them.  Engines are pointers. *)
Class EngineAPI {bio : BioAPI} {evp : EvpCipherAPI} {pkey : EvpPkeyAPI bio evp} := {
  ENGINE : Type;
  ENGINE_eq_dec :: EqDecision ENGINE;
  ENGINES : Type;
  SSL_ENGINE_by_id : bytes → M ENGINES (option ENGINE);
  SSL_ENGINE_ctrl_cmd_string : ENGINE → bytes → bytes → Z → M ENGINES (Z * ());
  SSL_ENGINE_init : ENGINE → M ENGINES (Z * ());
  SSL_ENGINE_load_private_key : ENGINE → bytes → M ENGINES (option EVP_PKEY);
  SSL_ENGINE_load_public_key : ENGINE → bytes → M ENGINES (option EVP_PKEY);
  SSL_ENGINE_finish : ENGINE → M ENGINES (Z * ());
  SSL_ENGINE_free : ENGINE → M ENGINES (Z * ());
}.
Arguments EngineAPI {bio evp} pkey.

(** ** The interface

    [HSM] is the abstract class: what the factories of [key.cpp] use.  [W] is what the
    calls can change. *)
Class HSM (W Key H : Type) := {
  loadPublicKey : H → bytes → M W Key;
  loadPrivateKey : H → bytes → M W Key;
}.

(** A key object is a shared pointer to what the module returned. *)
Definition readPublicKeyFromHSM {W Key H} `{HSM W Key H} (hsm : H) (keyID : bytes) : M W Key :=
  let! key := loadPublicKey hsm keyID in ret key.
Definition readPrivateKeyFromHSM {W Key H} `{HSM W Key H} (hsm : H) (keyID : bytes) : M W Key :=
  let! key := loadPrivateKey hsm keyID in ret key.

Section Hsm.
Context {bio : BioAPI} {evp : EvpCipherAPI} {pkey : EvpPkeyAPI bio evp} {api : EngineAPI pkey}.

(** ** The wrappers *)

Definition _ENGINE_by_id (engineId : bytes) : M ENGINES ENGINE :=
  OpensslCallPtr (SSL_ENGINE_by_id (c_str engineId)).

Definition _ENGINE_init (e : ENGINE) : M ENGINES () := OpensslCallIsOne (SSL_ENGINE_init e).

Definition _ENGINE_ctrl_cmd_string (e : ENGINE) (cmdName cmdArg : bytes) : M ENGINES () :=
  OpensslCallIsOne (SSL_ENGINE_ctrl_cmd_string e (c_str cmdName) (c_str cmdArg) 0).

Definition _ENGINE_load_private_key (e : ENGINE) (keyId : bytes) : M ENGINES EVP_PKEY :=
  OpensslCallPtr (SSL_ENGINE_load_private_key e (c_str keyId)).

Definition _ENGINE_load_public_key (e : ENGINE) (keyId : bytes) : M ENGINES EVP_PKEY :=
  OpensslCallPtr (SSL_ENGINE_load_public_key e (c_str keyId)).

Definition _ENGINE_finish (e : ENGINE) : M ENGINES () := OpensslCallIsOne (SSL_ENGINE_finish e).

(** The deleter of [SSL_ENGINE_Ptr]: the return value is ignored. *)
Definition SSL_ENGINE_Ptr_delete (e : ENGINE) : M ENGINES () :=
  let! _ := SSL_ENGINE_free e in ret ().

(** ** The class *)

Record HsmEngine := mkHsmEngine {
  _engine : ENGINE;
  _id : bytes;
  _modulePath : bytes;
  _pin : bytes;
}.

(** An exception in the constructor's body destroys the members, [_engine] among
    them, but does not run the destructor's body. *)
Definition HsmEngine_new (id modulePath pin : bytes) : M ENGINES HsmEngine :=
  let! _engine := _ENGINE_by_id id in
  try_catch
    (_ENGINE_ctrl_cmd_string _engine (str "MODULE_PATH") modulePath ;;
     _ENGINE_ctrl_cmd_string _engine (str "PIN") pin ;;
     _ENGINE_init _engine ;;
     ret (mkHsmEngine _engine id modulePath pin))
    (λ e, SSL_ENGINE_Ptr_delete _engine ;; throw e).

(** The destructor: its body, then the member [_engine].  It is [noexcept], so an
    exception of the body ends the program ([step_terminate] below). *)
Definition HsmEngine_destroy (h : HsmEngine) : M ENGINES () :=
  _ENGINE_finish (_engine h) ;; SSL_ENGINE_Ptr_delete (_engine h).

#[export] Instance HsmEngine_HSM : HSM ENGINES EVP_PKEY HsmEngine := {
  loadPublicKey h keyID := _ENGINE_load_public_key (_engine h) keyID;
  loadPrivateKey h keyID := _ENGINE_load_private_key (_engine h) keyID;
}.

(** ** Programs that use HSM objects *)

Record world := mkWorld { engines : ENGINES; live : list HsmEngine }.
Inductive program := Running (w : world) | Terminated.

(** One operation on one object.  The objects are neither copied nor moved. *)
Inductive step : world → program → Prop :=
| step_construct id modulePath pin s s' l h :
    HsmEngine_new id modulePath pin s = (Val h, s') →
    step (mkWorld s l) (Running (mkWorld s' (h :: l)))
| step_construct_throws id modulePath pin s s' l e :
    HsmEngine_new id modulePath pin s = (Throw e, s') →
    step (mkWorld s l) (Running (mkWorld s' l))
| step_public h keyID s s' l o :
    h ∈ l → readPublicKeyFromHSM h keyID s = (o, s') →
    step (mkWorld s l) (Running (mkWorld s' l))
| step_private h keyID s s' l o :
    h ∈ l → readPrivateKeyFromHSM h keyID s = (o, s') →
    step (mkWorld s l) (Running (mkWorld s' l))
| step_destroy h s s' l1 l2 :
    HsmEngine_destroy h s = (Val (), s') →
    step (mkWorld s (l1 ++ h :: l2)) (Running (mkWorld s' (l1 ++ l2)))
| step_terminate h s s' l e :
    h ∈ l → HsmEngine_destroy h s = (Throw e, s') →
    step (mkWorld s l) Terminated.

(** Runs from a state without objects. *)
Inductive reachable (s0 : ENGINES) : program → Prop :=
| reachable_start : reachable s0 (Running (mkWorld s0 []))
| reachable_step w p : reachable s0 (Running w) → step w p → reachable s0 p.

Inductive steps : world → program → Prop :=
| steps_refl w : steps w (Running w)
| steps_step w w' p : step w (Running w') → steps w' p → steps w p.
End Hsm.

(** ** The documented behaviour of the OpenSSL functions

    [ENGINE_by_id] and [ENGINE_init] hand out references (a structural and a
    functional one), [ENGINE_free] and [ENGINE_finish] take them back; commands need
    a structural reference, keys a functional one.  Nothing is said of a failed
    [ENGINE_finish], nor of calls without the reference they need. *)

(** [d1] structural and [d2] functional references to [e] more than before. *)
Definition gives `{EngineAPI} (structural functional : ENGINES → ENGINE → Z)
    (e : ENGINE) (d1 d2 : Z) (s s' : ENGINES) : Prop :=
  ∀ e', let own d := if decide (e' = e) then d else 0 in
        structural s' e' = structural s e' + own d1 ∧
        functional s' e' = functional s e' + own d2.

Class EngineSpec {bio evp} {pkey : EvpPkeyAPI bio evp} (api : EngineAPI pkey) := {
  structural : ENGINES → ENGINE → Z;
  functional : ENGINES → ENGINE → Z;
  references_nonneg s e : 0 ≤ structural s e ∧ 0 ≤ functional s e;
  by_id_spec id s :
    wp_total (SSL_ENGINE_by_id id) s (λ p s',
      match p with
      | Some e => gives structural functional e 1 0 s s'
      | None => ∀ e, gives structural functional e 0 0 s s'
      end);
  ctrl_spec e cmd arg optional s :
    1 ≤ structural s e →
    wp_total (SSL_ENGINE_ctrl_cmd_string e cmd arg optional) s
      (λ _ s', gives structural functional e 0 0 s s');
  init_spec e s :
    1 ≤ structural s e →
    wp_total (SSL_ENGINE_init e) s
      (λ r s', gives structural functional e 0 (if r.1 =? 1 then 1 else 0) s s');
  load_public_spec e k s :
    1 ≤ functional s e →
    wp_total (SSL_ENGINE_load_public_key e k) s
      (λ _ s', gives structural functional e 0 0 s s');
  load_private_spec e k s :
    1 ≤ functional s e →
    wp_total (SSL_ENGINE_load_private_key e k) s
      (λ _ s', gives structural functional e 0 0 s s');
  finish_spec e s :
    1 ≤ functional s e →
    wp_total (SSL_ENGINE_finish e) s
      (λ r s', r.1 = 1 → gives structural functional e 0 (-1) s s');
  free_spec e s :
    1 ≤ structural s e →
    wp_total (SSL_ENGINE_free e) s (λ _ s', gives structural functional e (-1) 0 s s');
}.

Section Facts.
Context {bio : BioAPI} {evp : EvpCipherAPI} {pkey : EvpPkeyAPI bio evp}.
Context {api : EngineAPI pkey} {spec : EngineSpec api}.
Implicit Types (e : ENGINE) (s : ENGINES) (h : HsmEngine) (l : list HsmEngine).

Local Abbreviation given := (gives structural functional).

Lemma gives_trans e d1 d2 d1' d2' s s' s'' :
  given e d1 d2 s s' → given e d1' d2' s' s'' → given e (d1 + d1') (d2 + d2') s s''.
Proof.
  intros H H' e'. specialize (H e'). specialize (H' e'). cbn in *.
  destruct (decide (e' = e)); lia.
Qed.

Lemma gives_zero e e' s s' : given e 0 0 s s' → given e' 0 0 s s'.
Proof. intros H e''. specialize (H e''). cbn in *. repeat destruct decide; lia. Qed.

Lemma gives_at e d1 d2 s s' :
  given e d1 d2 s s' →
  structural s' e = structural s e + d1 ∧ functional s' e = functional s e + d2.
Proof. intros H. specialize (H e). cbn in H. destruct (decide (e = e)); [lia|done]. Qed.

Lemma given_structural e d2 s s' : given e 1 d2 s s' → 1 ≤ structural s' e.
Proof. intros H%gives_at. pose proof (references_nonneg s e). lia. Qed.

(** The deleter of the smart pointer gives the structural reference back. *)
Lemma delete_spec e s :
  1 ≤ structural s e → wp_total (SSL_ENGINE_Ptr_delete e) s (λ _ s', given e (-1) 0 s s').
Proof.
  intros He. unfold SSL_ENGINE_Ptr_delete. wp_simpl.
  eapply wp_mono; [by apply free_spec| |done]. intros r s' H. by wp_simpl.
Qed.

Lemma unwind_spec {A} e ex s0 s (Φ : A → ENGINES → Prop) :
  given e 1 0 s0 s →
  wp (SSL_ENGINE_Ptr_delete e ;; throw ex) s Φ
    (λ ex' s', ex' = ex ∧ ∀ e', given e' 0 0 s0 s').
Proof.
  intros H0. wp_simpl. eapply wp_mono; [apply delete_spec| |done].
  - by eapply given_structural.
  - intros r s' H1. wp_simpl. split; [done|]. intros e'.
    apply (gives_zero e). exact (gives_trans _ _ _ _ _ _ _ _ H0 H1).
Qed.

(** A command while the constructor holds its structural reference. *)
Lemma command_spec e cmd arg s0 s (Φ : () → ENGINES → Prop) (Ψ : exn → ENGINES → Prop) :
  given e 1 0 s0 s →
  (∀ s', given e 1 0 s0 s' → Φ () s') →
  (∀ s', given e 1 0 s0 s' → Ψ (OpenSSLException [ErrorQueue]) s') →
  wp (_ENGINE_ctrl_cmd_string e cmd arg) s Φ Ψ.
Proof.
  intros H0 HΦ HΨ. unfold _ENGINE_ctrl_cmd_string. apply wp_OpensslCallIsOne.
  eapply wp_mono; [apply ctrl_spec; by eapply given_structural| |done].
  intros [rv []] s' H1. pose proof (gives_trans _ _ _ _ _ _ _ _ H0 H1) as H.
  destruct (rv =? 1); auto.
Qed.

(** A successful construction owns one reference of each kind, a failed one none. *)
Lemma HsmEngine_new_spec id modulePath pin s :
  wp (HsmEngine_new id modulePath pin) s
    (λ h s', h = mkHsmEngine (_engine h) id modulePath pin ∧ given (_engine h) 1 1 s s')
    (λ ex s', ex = OpenSSLException [ErrorQueue] ∧ ∀ e, given e 0 0 s s').
Proof.
  unfold HsmEngine_new, _ENGINE_by_id. wp_simpl.
  apply wp_OpensslCallPtr. eapply wp_mono; [apply by_id_spec| |done].
  intros [e|] s1 H1; [|done]. wp_simpl.
  eapply command_spec; [exact H1| |intros; by apply unwind_spec]. intros s2 H2. wp_simpl.
  eapply command_spec; [exact H2| |intros; by apply unwind_spec]. intros s3 H3. wp_simpl.
  apply wp_OpensslCallIsOne.
  eapply wp_mono; [apply init_spec; by eapply given_structural| |done].
  intros [rv []] s4 H4. cbn in H4. pose proof (gives_trans _ _ _ _ _ _ _ _ H3 H4) as H.
  destruct (rv =? 1); [by wp_simpl|by apply unwind_spec].
Qed.

(** A destruction that returns gives both references back. *)
Lemma HsmEngine_destroy_spec h s :
  1 ≤ structural s (_engine h) → 1 ≤ functional s (_engine h) →
  wp (HsmEngine_destroy h) s (λ _ s', given (_engine h) (-1) (-1) s s')
    (λ ex _, ex = OpenSSLException [ErrorQueue]).
Proof.
  intros Hs Hf. unfold HsmEngine_destroy, _ENGINE_finish. wp_simpl.
  call_one finish_spec. { done. }
  eapply wp_mono; [apply delete_spec; apply gives_at in Hok; lia| |done].
  intros r s'' H. exact (gives_trans _ _ _ _ _ _ _ _ Hok H).
Qed.

(** Loading a key: the key of the module, or an OpenSSLException. *)
Lemma load_spec (call : bytes → M ENGINES (option EVP_PKEY)) e k s :
  wp_total (call k) s (λ _ s', given e 0 0 s s') →
  wp (let! key := OpensslCallPtr (call k) in ret key) s
    (λ key s', call k s = (Val (Some key), s') ∧ given e 0 0 s s')
    (λ ex s', ex = OpenSSLException [ErrorQueue] ∧ given e 0 0 s s').
Proof.
  intros H. wp_simpl. apply wp_OpensslCallPtr. unfold wp in *.
  by destruct (call k s) as [[[key|]|ex] s'].
Qed.
End Facts.

(** ** Every run accounts for the references *)

Section Program.
Context {bio : BioAPI} {evp : EvpCipherAPI} {pkey : EvpPkeyAPI bio evp}.
Context {api : EngineAPI pkey} {spec : EngineSpec api}.
Implicit Types (e : ENGINE) (s : ENGINES) (h : HsmEngine) (l : list HsmEngine) (w : world).

(** The number of objects whose engine is [e]. *)
Definition holders e l : Z := size (filter (λ h, _engine h = e) l).

(** OpenSSL's references are those of the start and one of each kind per object. *)
Definition accounted (s0 s : ENGINES) (l : list HsmEngine) : Prop :=
  ∀ e, structural s e = structural s0 e + holders e l ∧
       functional s e = functional s0 e + holders e l.

Lemma holders_cons e h l : holders e (h :: l) = (if decide (e = _engine h) then 1 else 0) + holders e l.
Proof.
  unfold holders. rewrite filter_cons. repeat destruct decide; sizes; congruence || lia.
Qed.

Lemma holders_app e l1 l2 : holders e (l1 ++ l2) = holders e l1 + holders e l2.
Proof. unfold holders. rewrite filter_app. by sizes. Qed.

Lemma holders_middle e l1 h l2 : holders e (l1 ++ h :: l2) = holders e (h :: l1 ++ l2).
Proof. rewrite !holders_app, !holders_cons, holders_app. lia. Qed.

Lemma accounted_held s0 s l h :
  accounted s0 s l → h ∈ l → 1 ≤ structural s (_engine h) ∧ 1 ≤ functional s (_engine h).
Proof.
  intros Hacc (l1 & l2 & ->)%list_elem_of_split. destruct (Hacc (_engine h)) as [-> ->].
  rewrite holders_middle, holders_cons. destruct decide; [|done].
  pose proof (references_nonneg s0 (_engine h)). pose proof (size_nonneg
    (filter (λ h', _engine h' = _engine h) (l1 ++ l2))) as Hl. unfold holders. lia.
Qed.

Lemma accounted_same s0 s s' l :
  accounted s0 s l → (∀ e, gives structural functional e 0 0 s s') → accounted s0 s' l.
Proof.
  intros Hacc H e. specialize (Hacc e). pose proof (gives_at _ _ _ _ _ (H e)). lia.
Qed.

Lemma accounted_acquire s0 s s' l h :
  accounted s0 s l → gives structural functional (_engine h) 1 1 s s' → accounted s0 s' (h :: l).
Proof.
  intros Hacc H e. specialize (Hacc e). specialize (H e). cbn in H. rewrite holders_cons.
  destruct decide; lia.
Qed.

Lemma accounted_release s0 s s' l1 l2 h :
  accounted s0 s (l1 ++ h :: l2) → gives structural functional (_engine h) (-1) (-1) s s' →
  accounted s0 s' (l1 ++ l2).
Proof.
  intros Hacc H e. specialize (Hacc e). specialize (H e). cbn in H.
  rewrite holders_middle, holders_cons in Hacc. destruct decide; lia.
Qed.

(** Loading a key from an object of the program. *)
Lemma read_accounted s0 s s' l h (keyID : bytes) o :
  accounted s0 s l → h ∈ l →
  readPublicKeyFromHSM h keyID s = (o, s') ∨ readPrivateKeyFromHSM h keyID s = (o, s') →
  accounted s0 s' l.
Proof.
  intros Hacc Hh Hr. pose proof (accounted_held _ _ _ _ Hacc Hh) as [_ Hf].
  assert (gives structural functional (_engine h) 0 0 s s') as H.
  { destruct Hr as [Hr|Hr]; (eapply wp_run in Hr;
      [|apply load_spec; (apply load_public_spec || apply load_private_spec); done]);
      destruct o; by destruct Hr. }
  eapply accounted_same; [done|]. intros e. by eapply gives_zero.
Qed.

Lemma step_accounted s0 w w' :
  step w (Running w') → accounted s0 (engines w) (live w) → accounted s0 (engines w') (live w').
Proof.
  intros Hs Hacc. inversion Hs as [id mp pin s s' l h Hn|id mp pin s s' l ex Hn
    |h k s s' l o Hh Hr|h k s s' l o Hh Hr|h s s' l1 l2 Hd|]; subst; cbn in *.
  - pose proof (wp_run _ _ _ _ _ _ Hn (HsmEngine_new_spec _ _ _ _)) as [_ H].
    by eapply accounted_acquire.
  - pose proof (wp_run _ _ _ _ _ _ Hn (HsmEngine_new_spec _ _ _ _)) as [_ H].
    by eapply accounted_same.
  - eapply read_accounted; eauto.
  - eapply read_accounted; eauto.
  - assert (h ∈ l1 ++ h :: l2) as Hh by (apply elem_of_app; right; left).
    pose proof (accounted_held _ _ _ _ Hacc Hh) as [H1 H2].
    pose proof (wp_run _ _ _ _ _ _ Hd (HsmEngine_destroy_spec _ _ H1 H2)) as H.
    by eapply accounted_release.
Qed.

(** Rule induction over the runs that have not ended. *)
Lemma reachable_running (P : world → Prop) s0 w :
  P (mkWorld s0 []) → (∀ w' w'', P w' → step w' (Running w'') → P w'') →
  reachable s0 (Running w) → P w.
Proof.
  intros Hstart Hstep Hr. remember (Running w) as p eqn:Hp. revert w Hp.
  induction Hr as [|w' p Hr IH Hs]; intros w Hp; [by injection Hp as <-|subst]. eauto.
Qed.

Lemma reachable_accounted s0 w :
  reachable s0 (Running w) → accounted s0 (engines w) (live w).
Proof.
  apply (reachable_running (λ w, accounted s0 (engines w) (live w)));
    [|eauto using step_accounted].
  intros e. cbn. unfold holders. cbn. sizes. lia.
Qed.

(** The program ends in a destructor only if [ENGINE_finish] does not return 1. *)
Lemma destroy_throws h s ex s' :
  1 ≤ structural s (_engine h) → 1 ≤ functional s (_engine h) →
  HsmEngine_destroy h s = (Throw ex, s') → (SSL_ENGINE_finish (_engine h) s).1 ≠ Val (1, ()).
Proof.
  intros H1 H2 Hd Hf. pose proof (finish_spec (_engine h) s H2) as Hs. unfold wp in Hs.
  destruct (SSL_ENGINE_finish (_engine h) s) as [o s1] eqn:Hc. cbn in Hf. subst o.
  specialize (Hs eq_refl). apply gives_at in Hs as [Hs _].
  assert (1 ≤ structural s1 (_engine h)) as Hdel%delete_spec by lia. unfold wp in Hdel.
  unfold HsmEngine_destroy, _ENGINE_finish, OpensslCallIsOne, callChecked, bind in Hd.
  cbn in Hd. rewrite Hc in Hd. cbn in Hd. by rewrite Hd in Hdel.
Qed.

Lemma destroy_fails h s :
  1 ≤ functional s (_engine h) → (SSL_ENGINE_finish (_engine h) s).1 ≠ Val (1, ()) →
  ∃ ex s', HsmEngine_destroy h s = (Throw ex, s').
Proof.
  intros H2 Hne. pose proof (finish_spec (_engine h) s H2) as Hs. unfold wp in Hs.
  unfold HsmEngine_destroy, _ENGINE_finish, OpensslCallIsOne, callChecked, bind. cbn.
  destruct (SSL_ENGINE_finish (_engine h) s) as [[[rv []]|ex] s1]; [|done].
  cbn in *. destruct (Z.eqb_spec rv 1) as [->|]; [done|]. by do 2 eexists.
Qed.

(** C24. The engine references of a program that uses HSM objects: in every reachable
    state OpenSSL's structural and functional references to each engine are those of
    the start plus one for each live object of that engine, failed constructions
    and failed key loads included, so that every object loads its keys from an
    initialised engine and nothing is leaked when no object is left; and a
    destructor ends the program exactly when [ENGINE_finish] reports an error. *)
Theorem hsm_references (s0 : ENGINES) (w : world) (Hr : reachable s0 (Running w)) :
  accounted s0 (engines w) (live w) ∧
  (∀ h, h ∈ live w → 1 ≤ structural (engines w) (_engine h) ∧
                     1 ≤ functional (engines w) (_engine h)) ∧
  (live w = [] → ∀ e, structural (engines w) e = structural s0 e ∧
                      functional (engines w) e = functional s0 e) ∧
  (step w Terminated ↔ ∃ h, h ∈ live w ∧
     (SSL_ENGINE_finish (_engine h) (engines w)).1 ≠ Val (1, ())).
Proof.
  apply reachable_accounted in Hr as Hacc. split_and!; [done| | |].
  - intros h. by eapply accounted_held.
  - intros Hl e. specialize (Hacc e). rewrite Hl in Hacc. unfold holders in Hacc. cbn in Hacc.
    autorewrite with sizes in Hacc. lia.
  - split.
    + intros Ht. inversion Ht as [| | | | |h s s' l ex Hh Hd]; subst. exists h. split; [done|].
      pose proof (accounted_held _ _ _ _ Hacc Hh) as [H1 H2]. by eapply destroy_throws.
    + intros (h & Hh & Hf). pose proof (accounted_held _ _ _ _ Hacc Hh) as [_ H2].
      destruct (destroy_fails _ _ H2 Hf) as (ex & s' & Hd). destruct w as [s l].
      by eapply step_terminate.
Qed.

Lemma finish_one e s :
  wp_total (SSL_ENGINE_finish e) s (λ r _, r.1 = 1) → (SSL_ENGINE_finish e s).1 = Val (1, ()).
Proof.
  unfold wp. destruct (SSL_ENGINE_finish e s) as [[[rv []]|ex] s']; cbn; [by intros ->|done].
Qed.

(** Destroying the objects one after the other. *)
Lemma destroy_all s0 (l : list HsmEngine) :
  (∀ e s, 1 ≤ functional s e → wp_total (SSL_ENGINE_finish e) s (λ r _, r.1 = 1)) →
  ∀ s, accounted s0 s l →
  ∃ s', steps (mkWorld s l) (Running (mkWorld s' [])) ∧ accounted s0 s' [].
Proof.
  intros Hfinish. induction l as [|h l IH]; intros s Hacc.
  { exists s. split; [constructor|done]. }
  assert (1 ≤ structural s (_engine h) ∧ 1 ≤ functional s (_engine h)) as [H1 H2]
    by (eapply accounted_held; [done|left]).
  destruct (HsmEngine_destroy h s) as [[[]|ex] s1] eqn:Hd.
  - pose proof (wp_run _ _ _ _ _ _ Hd (HsmEngine_destroy_spec _ _ H1 H2)) as H.
    destruct (IH s1) as (s' & Hs & Ha); [by eapply (accounted_release s0 s s1 [] l h)|].
    exists s'. split; [|done]. econstructor; [by apply (step_destroy h s s1 [] l)|done].
  - apply destroy_throws in Hd; [|done..]. by apply Hfinish, finish_one in H2.
Qed.

(** C25. Where [ENGINE_finish] succeeds on initialised engines, no run ends in a destructor, and
    from every reachable state the objects can be destroyed one after the other,
    until OpenSSL holds exactly the references it held at the start. *)
Theorem hsm_release (s0 : ENGINES) (w : world)
    (Hfinish : ∀ e s, 1 ≤ functional s e → wp_total (SSL_ENGINE_finish e) s (λ r _, r.1 = 1))
    (Hr : reachable s0 (Running w)) :
  ¬ reachable s0 Terminated ∧
  ∃ s', steps w (Running (mkWorld s' [])) ∧
        ∀ e, structural s' e = structural s0 e ∧ functional s' e = functional s0 e.
Proof.
  split.
  - intros Ht. inversion Ht as [|w' p Hr' Hs Hp]; subst.
    inversion Hs as [| | | | |h s s' l ex Hh Hd]; subst.
    apply reachable_accounted in Hr'. pose proof (accounted_held _ _ _ _ Hr' Hh) as [H1 H2].
    apply destroy_throws in Hd; [|done..]. by apply Hfinish, finish_one in H2.
  - apply reachable_accounted in Hr. destruct w as [s l].
    destruct (destroy_all s0 l Hfinish s Hr) as (s' & Hs & Ha). exists s'. split; [done|].
    intros e. specialize (Ha e). unfold holders in Ha. cbn in Ha.
    autorewrite with sizes in Ha. lia.
Qed.
End Program.

(** ** A concrete engine

    One engine, [pkcs11], whose token has the PIN [1234] and holds the keys named by
    single letters; the state counts its references. *)
Module OneEngine.
#[local] Existing Instance MemBio.spec.

Record state := mkState { n_structural : nat; n_functional : nat; has_pin : bool }.

Definition result (b : bool) : Z * () := (if b then 1 else 0, ()).

Definition token_key (k : bytes) : option NumberKeys.key :=
  match k with
  | [b] => Some (NumberKeys.mkKey EVP_PKEY_RSA 2048 0 (Z.to_nat (byte_val b)))
  | _ => None
  end.

Definition ctrl (cmd arg : bytes) (s : state) : outcome (Z * ()) * state :=
  if bool_decide (cmd = str "PIN") then
    (Val (1, ()), mkState (n_structural s) (n_functional s) (bool_decide (arg = str "1234")))
  else (Val (result (bool_decide (cmd = str "MODULE_PATH"))), s).

Definition load (k : bytes) (s : state) : outcome (option NumberKeys.key) * state :=
  (Val (if has_pin s then token_key k else None), s).

#[export] Instance api : EngineAPI NumberKeys.api := {
  ENGINE := ();
  ENGINES := state;
  SSL_ENGINE_by_id id s :=
    if bool_decide (id = str "pkcs11")
    then (Val (Some ()), mkState (S (n_structural s)) (n_functional s) (has_pin s))
    else (Val None, s);
  SSL_ENGINE_ctrl_cmd_string _ cmd arg _ s := ctrl cmd arg s;
  SSL_ENGINE_init _ s :=
    if has_pin s
    then (Val (1, ()), mkState (n_structural s) (S (n_functional s)) true)
    else (Val (0, ()), s);
  SSL_ENGINE_load_private_key _ k s := load k s;
  SSL_ENGINE_load_public_key _ k s := load k s;
  SSL_ENGINE_finish _ s :=
    (Val (1, ()), mkState (n_structural s) (pred (n_functional s)) (has_pin s));
  SSL_ENGINE_free _ s :=
    (Val (1, ()), mkState (pred (n_structural s)) (n_functional s) (has_pin s));
}.

Lemma unit_eq (a b : ()) : a = b.
Proof. by destruct a, b. Qed.

#[export] Instance spec : EngineSpec api.
Proof.
  refine (Build_EngineSpec _ _ _ api (λ (s : state) _, Z.of_nat (n_structural s))
    (λ (s : state) _, Z.of_nat (n_functional s)) _ _ _ _ _ _ _ _);
    intros; unfold wp, gives; cbn; unfold ctrl;
    repeat (case_match; simplify_eq/=); try done; intros; repeat destruct decide;
    match goal with
    | n : _ ≠ _ |- _ => destruct (n (unit_eq _ _))
    | _ => first [done|lia]
    end.
Defined.

Definition start : state := mkState 0 0 false.
Definition pin : bytes := str "1234".
Definition object : HsmEngine (api := api) :=
  mkHsmEngine (api := api) () (str "pkcs11") (str "p11.so") pin.

(** Construct an object, fail to construct another one, load a key. *)
Lemma example_run :
  reachable (api := api) start (Running (mkWorld (api := api) (mkState 1 1 false) [object])).
Proof.
  eapply reachable_step; [eapply reachable_step|].
  - apply reachable_start.
  - by apply (step_construct (api := api) (str "pkcs11") (str "p11.so") pin start
      (mkState 1 1 true) [] object).
  - by apply (step_construct_throws (api := api) (str "pkcs11") (str "p11.so") (str "0000")
      (mkState 1 1 true) (mkState 1 1 false) [object] (OpenSSLException [ErrorQueue])).
Qed.

Lemma hsm_references_witness :
  accounted (api := api) start (mkState 1 1 false) [object].
Proof. exact (proj1 (hsm_references (api := api) start _ example_run)). Defined.

Lemma hsm_release_witness :
  ∃ s' : state,
    steps (mkWorld (api := api) (mkState 1 1 false) [object])
      (Running (mkWorld (api := api) s' [])) ∧
    Z.of_nat (n_structural s') = 0 ∧ Z.of_nat (n_functional s') = 0.
Proof.
  destruct (hsm_release (api := api) start (mkWorld (api := api) (mkState 1 1 false) [object])) as (_ & s' & Hs & Hr).
  - intros e s _. done.
  - exact example_run.
  - exists s'. exact (conj Hs (Hr ())).
Defined.
End OneEngine.
