(* ===== verification/Ecies.v ===== *)
(** * ECIES: [src/src/ecies.cpp] and [src/src/mococrw/ecies.h]

    A shared secret of an ephemeral and a static key is expanded into a cipher
    key and a MAC key; the ciphertext is authenticated together with a salt.
    KDF, MAC and cipher are used through their interfaces only, behind pointers:
    [AnyKdf], [AnyMac] and [AnyCipher] are objects of any type that implements
    the interface. *)

From S2P Require Import Prelude.
From S2P Require Import CheckCall.
From S2P Require Import Util.
From S2P Require Import SymmetricMemory.
From S2P Require Import SymmetricCrypto.
From S2P Require Import AESFacts.
From S2P Require Import OpenSSLWrap.
From S2P Require Import Hash.
From S2P Require Import Mac.
From S2P Require Import Kdf.
From S2P Require Import Bio.
From S2P Require Import Key.

(** ** Pointers to interfaces *)

Record AnyKdf := mkKdf {
  kdf_type : Type;
  kdf_impl : KeyDerivationFunction kdf_type;
  kdf_obj : kdf_type;
}.
Definition any_deriveKey (k : AnyKdf) : bytes → Z → bytes → outcome bytes :=
  @deriveKey (kdf_type k) (kdf_impl k) (kdf_obj k).

Record AnyMac := mkAnyMac {
  mac_type : Type;
  mac_impl : MessageAuthenticationCode mac_type;
  mac_obj : mac_type;
}.
Definition on_mac {A} (f : ∀ T, MessageAuthenticationCode T → M T A) : M AnyMac A := λ m,
  let '(o, x) := f (mac_type m) (mac_impl m) (mac_obj m) in
  (o, {| mac_type := mac_type m; mac_impl := mac_impl m; mac_obj := x |}).
#[export] Instance AnyMac_interface : MessageAuthenticationCode AnyMac := {
  mac_update x := on_mac (λ T I, @mac_update T I x);
  mac_finish := on_mac (λ T I, @mac_finish T I);
  mac_verify v := on_mac (λ T I, @mac_verify T I v);
}.

Record AnyCipher := mkAnyCipher {
  cipher_type : Type;
  cipher_impl : SymmetricCipherI cipher_type;
  cipher_obj : cipher_type;
}.
Definition on_cipher {A} (f : ∀ T, SymmetricCipherI T → M T A) : M AnyCipher A := λ c,
  let '(o, x) := f (cipher_type c) (cipher_impl c) (cipher_obj c) in
  (o, {| cipher_type := cipher_type c; cipher_impl := cipher_impl c; cipher_obj := x |}).
#[export] Instance AnyCipher_interface : SymmetricCipherI AnyCipher := {
  cipher_update x := on_cipher (λ T I, @cipher_update T I x);
  cipher_read n := on_cipher (λ T I, @cipher_read T I n);
  cipher_readAll := on_cipher (λ T I, @cipher_readAll T I);
  cipher_finish := on_cipher (λ T I, @cipher_finish T I);
  cipher_getIV := on_cipher (λ T I, @cipher_getIV T I);
}.

Inductive Mode := EncryptionMode | DecryptionMode.

Section Ecies.
Context {bio : BioAPI} {evp : EvpCipherAPI} {rand : RandAPI} {pkey : EvpPkeyAPI bio evp}.
Context {md : EvpMdAPI} {hmac_api : HmacAPI md} {kdf_api : KdfAPI md}.

(** The random state: of the byte generator and of key generation. *)
Definition World : Type := RAND_STATE * KEYGEN.
Definition with_rand {A} (m : M RAND_STATE A) : M World A :=
  zoom fst (λ r w, (r, w.2)) m.
Definition with_keygen {A} (m : M KEYGEN A) : M World A :=
  zoom snd (λ g w, (w.1, g)) m.

Abbreviation MacFactory := (bytes → M World AnyMac).
Abbreviation CipherFactory := (bytes → M World AnyCipher).

(** ** [ECIESCtxBuilder::Impl] *)

Record ECIESCtxBuilder := mkEciesBuilder {
  e_kdf : option AnyKdf;
  e_macKeySize : Z;
  e_macFactoryFunction : option MacFactory;
  e_symmetricKeySize : Z;
  e_symmetricCipherFactoryFunction : option CipherFactory;
  e_kdfSalt : bytes;
  e_macSalt : bytes;
  e_pubKey : option EVP_PKEY;
  e_ephemeralKey : option EVP_PKEY;
  e_privKey : option EVP_PKEY;
}.

Definition ECIESCtxBuilder_new : ECIESCtxBuilder :=
  mkEciesBuilder None 0 None 0 None [] [] None None None.

Definition setKDF (k : AnyKdf) (b : ECIESCtxBuilder) : ECIESCtxBuilder :=
  mkEciesBuilder (Some k) (e_macKeySize b) (e_macFactoryFunction b) (e_symmetricKeySize b)
    (e_symmetricCipherFactoryFunction b) (e_kdfSalt b) (e_macSalt b)
    (e_pubKey b) (e_ephemeralKey b) (e_privKey b).
Definition setMacKeySize (n : Z) (b : ECIESCtxBuilder) : ECIESCtxBuilder :=
  mkEciesBuilder (e_kdf b) n (e_macFactoryFunction b) (e_symmetricKeySize b)
    (e_symmetricCipherFactoryFunction b) (e_kdfSalt b) (e_macSalt b)
    (e_pubKey b) (e_ephemeralKey b) (e_privKey b).
Definition setMacFactoryFunction (f : MacFactory) (b : ECIESCtxBuilder) : ECIESCtxBuilder :=
  mkEciesBuilder (e_kdf b) (e_macKeySize b) (Some f) (e_symmetricKeySize b)
    (e_symmetricCipherFactoryFunction b) (e_kdfSalt b) (e_macSalt b)
    (e_pubKey b) (e_ephemeralKey b) (e_privKey b).
Definition setSymmetricCipherKeySize (n : Z) (b : ECIESCtxBuilder) : ECIESCtxBuilder :=
  mkEciesBuilder (e_kdf b) (e_macKeySize b) (e_macFactoryFunction b) n
    (e_symmetricCipherFactoryFunction b) (e_kdfSalt b) (e_macSalt b)
    (e_pubKey b) (e_ephemeralKey b) (e_privKey b).
Definition setSymmetricCipherFactoryFunction (f : CipherFactory) (b : ECIESCtxBuilder) :
    ECIESCtxBuilder :=
  mkEciesBuilder (e_kdf b) (e_macKeySize b) (e_macFactoryFunction b) (e_symmetricKeySize b)
    (Some f) (e_kdfSalt b) (e_macSalt b) (e_pubKey b) (e_ephemeralKey b) (e_privKey b).
Definition setKDFSalt (s : bytes) (b : ECIESCtxBuilder) : ECIESCtxBuilder :=
  mkEciesBuilder (e_kdf b) (e_macKeySize b) (e_macFactoryFunction b) (e_symmetricKeySize b)
    (e_symmetricCipherFactoryFunction b) s (e_macSalt b)
    (e_pubKey b) (e_ephemeralKey b) (e_privKey b).
Definition setMACSalt (s : bytes) (b : ECIESCtxBuilder) : ECIESCtxBuilder :=
  mkEciesBuilder (e_kdf b) (e_macKeySize b) (e_macFactoryFunction b) (e_symmetricKeySize b)
    (e_symmetricCipherFactoryFunction b) (e_kdfSalt b) s
    (e_pubKey b) (e_ephemeralKey b) (e_privKey b).
Definition setPublicKey (k : EVP_PKEY) (b : ECIESCtxBuilder) : ECIESCtxBuilder :=
  mkEciesBuilder (e_kdf b) (e_macKeySize b) (e_macFactoryFunction b) (e_symmetricKeySize b)
    (e_symmetricCipherFactoryFunction b) (e_kdfSalt b) (e_macSalt b)
    (Some k) (e_ephemeralKey b) (e_privKey b).
Definition setEphemeralKey (k : EVP_PKEY) (b : ECIESCtxBuilder) : ECIESCtxBuilder :=
  mkEciesBuilder (e_kdf b) (e_macKeySize b) (e_macFactoryFunction b) (e_symmetricKeySize b)
    (e_symmetricCipherFactoryFunction b) (e_kdfSalt b) (e_macSalt b)
    (e_pubKey b) (Some k) (e_privKey b).
Definition setPrivateKey (k : EVP_PKEY) (b : ECIESCtxBuilder) : ECIESCtxBuilder :=
  mkEciesBuilder (e_kdf b) (e_macKeySize b) (e_macFactoryFunction b) (e_symmetricKeySize b)
    (e_symmetricCipherFactoryFunction b) (e_kdfSalt b) (e_macSalt b)
    (e_pubKey b) (e_ephemeralKey b) (Some k).

(** *** Defaults *)

Definition setDefaultKdf (b : ECIESCtxBuilder) : ECIESCtxBuilder :=
  setKDF {| kdf_type := X963KDF; kdf_impl := X963KDF_interface;
            kdf_obj := {| x_hashFunction := SHA512 |} |} b.

Definition default_mac : MacFactory := λ key,
  let! m := lift (HMAC.new SHA512 key) in
  ret {| mac_type := MacImpl HMAC_CTX; mac_impl := HMAC_interface; mac_obj := m |}.

Definition setDefaultMac (b : ECIESCtxBuilder) : outcome ECIESCtxBuilder :=
  let b := setMacFactoryFunction default_mac b in
  let? n := getDigestSize SHA512 in
  Val (setMacKeySize n b).

Definition default_builder (key : bytes) : AESCipherBuilder :=
  Builder.setPadding PKCS
    (Builder.setIV (zeros (getDefaultIVLength CBC)) (Builder.new CBC S_256 key)).

Definition any_aes (c : AESCipher) : AnyCipher :=
  {| cipher_type := AESCipher; cipher_impl := AESCipher_cipher; cipher_obj := c |}.

Definition default_encryptor : CipherFactory := λ key,
  let! c := with_rand (Builder.buildEncryptor (default_builder key)) in ret (any_aes c).
Definition default_decryptor : CipherFactory := λ key,
  let! c := lift (Builder.buildDecryptor (default_builder key)) in ret (any_aes c).

Definition setDefaultSymmetricCipherFactoryFunction (mode : Mode) (b : ECIESCtxBuilder) :
    ECIESCtxBuilder :=
  setSymmetricCipherKeySize (getSymmetricCipherKeySize S_256)
    (setSymmetricCipherFactoryFunction
       (match mode with
        | EncryptionMode => default_encryptor
        | DecryptionMode => default_decryptor
        end) b).

(** [!f], [!n] in the conditions of the code. *)
Definition unset {A} (f : option A) : bool := match f with Some _ => false | None => true end.

Definition incomplete (what : string) : exn :=
  MoCOCrWException [Str what; Str " parameters are incomplete. Either the factory function or the key size is set, but not both!"].

(** The members that were set before a [throw] stay set. *)
Definition checkForRequiredParameters (mode : Mode) : M ECIESCtxBuilder () :=
  let! b := get in
  (if unset (e_kdf b) then modify setDefaultKdf else ret ()) ;;
  let! b := get in
  throw_if ((negb (unset (e_macFactoryFunction b)) && (e_macKeySize b =? 0)) ||
            (unset (e_macFactoryFunction b) && negb (e_macKeySize b =? 0)))
           (incomplete "MAC") ;;
  (if unset (e_macFactoryFunction b) || (e_macKeySize b =? 0) then
     let! b' := lift (setDefaultMac b) in put b'
   else ret ()) ;;
  let! b := get in
  throw_if ((negb (unset (e_symmetricCipherFactoryFunction b)) && (e_symmetricKeySize b =? 0)) ||
            (unset (e_symmetricCipherFactoryFunction b) && negb (e_symmetricKeySize b =? 0)))
           (incomplete "Symmetric cipher") ;;
  (if unset (e_symmetricCipherFactoryFunction b) || (e_symmetricKeySize b =? 0) then
     modify (setDefaultSymmetricCipherFactoryFunction mode)
   else ret ()).

(** ** [ECIESImpl] *)

(** A member read through a pointer. *)
Definition deref {S A} (p : option A) : M S A :=
  match p with Some a => ret a | None => throw UndefinedBehaviour end.

(** The derived bytes are split: the cipher key first, then the MAC key.  Copying
    more than there is, or more than fits, is undefined. *)
Definition splitKeys (result : bytes) (symmetricKeySize macKeySize : Z) :
    outcome (bytes * bytes) :=
  if size result <? symmetricKeySize then Throw UndefinedBehaviour
  else
    let key_encrypt := take (Z.to_nat symmetricKeySize) result in
    let? key_mac := write_buffer (zeros macKeySize) (drop (Z.to_nat symmetricKeySize) result) in
    Val (key_encrypt, key_mac).

(** The keys are local vectors, cleansed when the scope is left. *)
Definition createKeysAndInstantiateMacAndSymCipher (b : ECIESCtxBuilder) (sharedSecret : bytes) :
    M World (AnyMac * AnyCipher) :=
  let! kdf := deref (e_kdf b) in
  let! result := lift (any_deriveKey kdf sharedSecret
                         (to_size_t (e_macKeySize b + e_symmetricKeySize b)) (e_kdfSalt b)) in
  let! (key_encrypt, key_mac) :=
    lift (splitKeys result (e_symmetricKeySize b) (e_macKeySize b)) in
  let! macFactoryFunc := deref (e_macFactoryFunction b) in
  let! mac := macFactoryFunc key_mac in
  let! symCipherFactoryFunc := deref (e_symmetricCipherFactoryFunction b) in
  let! cipher := symCipherFactoryFunc key_encrypt in
  ret (mac, cipher).

(** ** [ECIESEncryptionCtx::Impl] *)

Record ECIESEncryptionCtx := mkEnc {
  n_mac : AnyMac;
  n_symmetricCipher : option AnyCipher;
  n_macSalt : bytes;
  n_macValue : bytes;
  n_isFinished : bool;
  n_ephemeralKey : EVP_PKEY;
}.

(** The pair of the ephemeral key and the secret it shares with [pubKey]. *)
Definition createEphemeralKeyAndSharedSecret (pubKey : EVP_PKEY) :
    M World (EVP_PKEY * bytes) :=
  let! spec := lift (getKeySpec pubKey) in
  let! key := with_keygen (generate spec) in
  let! secret := lift (_EVP_derive_key pubKey key) in
  ret (key, secret).

Definition Encryption_new (b : ECIESCtxBuilder) : M World ECIESEncryptionCtx :=
  let! pubKey := deref (e_pubKey b) in
  let! (ephemeralKey, shared_secret) := createEphemeralKeyAndSharedSecret pubKey in
  let! (mac, cipher) := createKeysAndInstantiateMacAndSymCipher b shared_secret in
  ret {| n_mac := mac; n_symmetricCipher := Some cipher; n_macSalt := e_macSalt b;
         n_macValue := []; n_isFinished := false; n_ephemeralKey := ephemeralKey |}.

End Ecies.

Module Enc.
Section Enc.
Context {bio : BioAPI} {evp : EvpCipherAPI} {pkey : EvpPkeyAPI bio evp}.

Definition set_mac (m : AnyMac) (c : ECIESEncryptionCtx) : ECIESEncryptionCtx :=
  mkEnc m (n_symmetricCipher c) (n_macSalt c) (n_macValue c) (n_isFinished c)
    (n_ephemeralKey c).
Definition set_symmetricCipher (x : option AnyCipher) (c : ECIESEncryptionCtx) :
    ECIESEncryptionCtx :=
  mkEnc (n_mac c) x (n_macSalt c) (n_macValue c) (n_isFinished c) (n_ephemeralKey c).
Definition set_macValue (v : bytes) (c : ECIESEncryptionCtx) : ECIESEncryptionCtx :=
  mkEnc (n_mac c) (n_symmetricCipher c) (n_macSalt c) v (n_isFinished c) (n_ephemeralKey c).
Definition set_isFinished (f : bool) (c : ECIESEncryptionCtx) : ECIESEncryptionCtx :=
  mkEnc (n_mac c) (n_symmetricCipher c) (n_macSalt c) (n_macValue c) f (n_ephemeralKey c).

Definition on_mac_ {A} (m : M AnyMac A) : M ECIESEncryptionCtx A := zoom n_mac set_mac m.
Definition on_cipher_ {A} (m : M AnyCipher A) : M ECIESEncryptionCtx A := λ c,
  match n_symmetricCipher c with
  | Some x => let '(o, x') := m x in (o, set_symmetricCipher (Some x') c)
  | None => (Throw UndefinedBehaviour, c)
  end.

Definition update (message : bytes) : M ECIESEncryptionCtx () :=
  let! c := get in
  throw_if (unset (n_symmetricCipher c))
    (MoCOCrWException [Str "Encryption context is not initialized."]) ;;
  throw_if (n_isFinished c)
    (MoCOCrWException [Str "update() is invoked after finish is called."]) ;;
  on_cipher_ (cipher_update message).

Definition finish : M ECIESEncryptionCtx bytes :=
  let! c := get in
  throw_if (n_isFinished c) (MoCOCrWException [Str "finish() is invoked twice."]) ;;
  let! result := on_cipher_ cipher_finish in
  on_mac_ (mac_update result) ;;
  on_mac_ (mac_update (n_macSalt c)) ;;
  let! v := on_mac_ mac_finish in
  modify (set_macValue v) ;;
  modify (set_isFinished true) ;;
  ret result.

Definition getEphemeralKey : M ECIESEncryptionCtx EVP_PKEY := gets n_ephemeralKey.

Definition getMAC : M ECIESEncryptionCtx bytes :=
  let! c := get in
  throw_if (negb (n_isFinished c))
    (MoCOCrWException [Str "getMAC() is invoked before finish is called."]) ;;
  ret (n_macValue c).
End Enc.
End Enc.

(** ** [ECIESDecryptionCtx::Impl] *)

Record ECIESDecryptionCtx := mkDec {
  d_mac : AnyMac;
  d_symmetricCipher : AnyCipher;
  d_macSalt : bytes;
  d_isFinished : bool;
  d_tag : bytes;
  d_macIsSet : bool;
}.

Section Decryption.
Context {bio : BioAPI} {evp : EvpCipherAPI} {rand : RandAPI} {pkey : EvpPkeyAPI bio evp}.
Context {md : EvpMdAPI} {hmac_api : HmacAPI md} {kdf_api : KdfAPI md}.

(** The constructor calls [setEphemeralKey]. *)
Definition Decryption_new (b : ECIESCtxBuilder) : M World ECIESDecryptionCtx :=
  let! ephKey := deref (e_ephemeralKey b) in
  let! privKey := deref (e_privKey b) in
  let! sharedSecret := lift (_EVP_derive_key ephKey privKey) in
  let! (mac, cipher) := createKeysAndInstantiateMacAndSymCipher b sharedSecret in
  ret {| d_mac := mac; d_symmetricCipher := cipher; d_macSalt := e_macSalt b;
         d_isFinished := false; d_tag := []; d_macIsSet := false |}.

End Decryption.

Module Dec.
Definition set_mac (m : AnyMac) (c : ECIESDecryptionCtx) : ECIESDecryptionCtx :=
  mkDec m (d_symmetricCipher c) (d_macSalt c) (d_isFinished c) (d_tag c) (d_macIsSet c).
Definition set_symmetricCipher (x : AnyCipher) (c : ECIESDecryptionCtx) : ECIESDecryptionCtx :=
  mkDec (d_mac c) x (d_macSalt c) (d_isFinished c) (d_tag c) (d_macIsSet c).
Definition set_isFinished (f : bool) (c : ECIESDecryptionCtx) : ECIESDecryptionCtx :=
  mkDec (d_mac c) (d_symmetricCipher c) (d_macSalt c) f (d_tag c) (d_macIsSet c).

Definition on_mac_ {A} (m : M AnyMac A) : M ECIESDecryptionCtx A := zoom d_mac set_mac m.
Definition on_cipher_ {A} (m : M AnyCipher A) : M ECIESDecryptionCtx A :=
  zoom d_symmetricCipher set_symmetricCipher m.

Definition update (message : bytes) : M ECIESDecryptionCtx () :=
  let! c := get in
  throw_if (d_isFinished c)
    (MoCOCrWException [Str "update() is invoked after finish was invoked."]) ;;
  on_cipher_ (cipher_update message) ;;
  on_mac_ (mac_update message).

Definition setMAC (tag : bytes) : M ECIESDecryptionCtx () :=
  modify (λ c, mkDec (d_mac c) (d_symmetricCipher c) (d_macSalt c) (d_isFinished c) tag true).

Definition finish : M ECIESDecryptionCtx bytes :=
  let! c := get in
  throw_if (d_isFinished c) (MoCOCrWException [Str "finish() is invoked twice."]) ;;
  throw_if (negb (d_macIsSet c))
    (MoCOCrWException [Str "Set the MAC before invoking finish."]) ;;
  on_mac_ (mac_update (d_macSalt c)) ;;
  on_mac_ mac_finish ;;
  on_mac_ (mac_verify (d_tag c)) ;;
  let! result := on_cipher_ cipher_finish in
  modify (set_isFinished true) ;;
  ret result.
End Dec.

(** ** The builder's public operations *)

Section Build.
Context {bio : BioAPI} {evp : EvpCipherAPI} {rand : RandAPI} {pkey : EvpPkeyAPI bio evp}.
Context {md : EvpMdAPI} {hmac_api : HmacAPI md} {kdf_api : KdfAPI md}.

Abbreviation Build := (M (ECIESCtxBuilder * World)).
Definition on_builder {A} (m : M ECIESCtxBuilder A) : Build A := zoom fst (λ b s, (b, s.2)) m.
Definition on_world {A} (m : M World A) : Build A := zoom snd (λ w s, (s.1, w)) m.

Definition buildEncryptionCtx (bobsKey : EVP_PKEY) : Build ECIESEncryptionCtx :=
  on_builder (modify (setPublicKey bobsKey)) ;;
  on_builder (checkForRequiredParameters EncryptionMode) ;;
  let! s := get in on_world (Encryption_new s.1).

Definition buildDecryptionCtx (bobsKey ephKey : EVP_PKEY) : Build ECIESDecryptionCtx :=
  on_builder (modify (setPrivateKey bobsKey)) ;;
  on_builder (checkForRequiredParameters DecryptionMode) ;;
  on_builder (modify (setEphemeralKey ephKey)) ;;
  let! s := get in on_world (Decryption_new s.1).
End Build.
