(* ===== verification/EciesFacts.v ===== *)
(** * Correctness of ECIES

    The contexts are proved against the interfaces of MAC, cipher and KDF; the
    default parameters of the builder are shown to implement them. *)

From S2P Require Import Prelude.
From S2P Require Import CheckCall.
From S2P Require Import Util.
From S2P Require Import SymmetricMemory.
From S2P Require Import SymmetricCrypto.
From S2P Require Import XorCipher.
From S2P Require Import AESFacts.
From S2P Require Import AESProgress.
From S2P Require Import OpenSSLWrap.
From S2P Require Import Hash.
From S2P Require Import Mac.
From S2P Require Import Kdf.
From S2P Require Import Bio.
From S2P Require Import Key.
From S2P Require Import Ecies.

(** ** Pointers keep the promises of what they point to *)

Lemma wp_on_mac {A} (f : ∀ T, MessageAuthenticationCode T → M T A) m Φ Ψ :
  wp (on_mac f) m Φ Ψ ↔
  wp (f (mac_type m) (mac_impl m)) (mac_obj m)
    (λ a x, Φ a (mkAnyMac (mac_type m) (mac_impl m) x))
    (λ e x, Ψ e (mkAnyMac (mac_type m) (mac_impl m) x)).
Proof. unfold wp, on_mac. by destruct (f _ _ _) as [[a|e] x]. Qed.

Lemma wp_on_cipher {A} (f : ∀ T, SymmetricCipherI T → M T A) c Φ Ψ :
  wp (on_cipher f) c Φ Ψ ↔
  wp (f (cipher_type c) (cipher_impl c)) (cipher_obj c)
    (λ a x, Φ a (mkAnyCipher (cipher_type c) (cipher_impl c) x))
    (λ e x, Ψ e (mkAnyCipher (cipher_type c) (cipher_impl c) x)).
Proof. unfold wp, on_cipher. by destruct (f _ _ _) as [[a|e] x]. Qed.

Definition any_mac_open (m : AnyMac) (f : bytes → bytes) (d : bytes) (W : Prop) : Prop :=
  ∃ s : @MessageAuthenticationCodeSpec (mac_type m) (mac_impl m),
    @mac_open _ _ s (mac_obj m) f d W.
Definition any_mac_done (m : AnyMac) (v : bytes) : Prop :=
  ∃ s : @MessageAuthenticationCodeSpec (mac_type m) (mac_impl m), @mac_done _ _ s (mac_obj m) v.

#[export] Instance AnyMac_spec : MessageAuthenticationCodeSpec AnyMac.
Proof.
  refine {| mac_open := any_mac_open; mac_done := any_mac_done |}.
  - intros m f d W x [s Ho] Hx. apply wp_on_mac.
    eapply wp_mono; [by eapply (@mac_update_spec _ _ s)| |done]. intros [] y Hy. by exists s.
  - intros m f d W [s Ho]. apply wp_on_mac.
    eapply wp_mono; [by eapply (@mac_finish_spec _ _ s)| |done].
    intros r y [-> Hy]. split; [done|]. by exists s.
  - intros m f d W v [s Ho]. apply wp_on_mac.
    eapply wp_mono; [by eapply (@mac_verify_open_spec _ _ s)| |done].
    intros [] y [-> Hy]. split; [done|]. by exists s.
  - intros m v x [s Hd]. apply wp_on_mac.
    eapply wp_mono; [by eapply (@mac_verify_done_spec _ _ s)| |].
    + intros [] y [-> ->]. by destruct m.
    + intros e y (? & -> & ?). by destruct m.
  - intros m v x [s Hd]. destruct (@mac_done_update_spec _ _ s (mac_obj m) v x Hd) as [w Hw].
    exists w. cbn. unfold on_mac. rewrite Hw. by destruct m.
  - intros m v [s Hd]. destruct (@mac_done_finish_spec _ _ s (mac_obj m) v Hd) as [w Hw].
    exists w. cbn. unfold on_mac. rewrite Hw. by destruct m.
Defined.

#[export] Instance AnyCipher_spec : SymmetricCipherSpec AnyCipher.
Proof.
  refine {| cipher_open c f d V :=
    ∃ s : @SymmetricCipherSpec (cipher_type c) (cipher_impl c),
      @cipher_open _ _ s (cipher_obj c) f d V |}.
  - intros c f d V x [s Ho]. apply wp_on_cipher.
    eapply wp_mono; [by eapply (@cipher_update_spec _ _ s)| |done]. intros [] y Hy. by exists s.
  - intros c f d V [s Ho]. apply wp_on_cipher.
    eapply wp_mono; [by eapply (@cipher_finish_spec _ _ s)| |done]. by intros r y ->.
Defined.

(** ** Keys *)

(** A KDF behind the pointer that keeps the promise of its interface. *)
Definition any_kdf_ok (k : AnyKdf) : Prop :=
  @KeyDerivationFunctionSpec (kdf_type k) (kdf_impl k).

Lemma splitKeys_exact r n m :
  0 ≤ n → 0 ≤ m → size r = m + n →
  splitKeys r n m = Val (take (Z.to_nat n) r, drop (Z.to_nat n) r).
Proof.
  intros Hn Hm Hr. unfold splitKeys. destruct (Z.ltb_spec (size r) n); [lia|].
  rewrite write_buffer_zeros by (rewrite size_drop; lia). cbn [obind].
  rewrite size_drop by lia. replace (m - (size r - n)) with 0 by lia.
  change (zeros 0) with (@nil Byte.byte). by rewrite app_nil_r.
Qed.

(** The longest secret of a key agreement. *)
Definition short (secret : bytes) : Prop := size secret ≤ 8192.

Section Facts.
Context {bio : BioAPI} {evp : EvpCipherAPI} {rand : RandAPI} {pkey : EvpPkeyAPI bio evp}.
Context {md : EvpMdAPI} {hmac_api : HmacAPI md} {kdf_api : KdfAPI md}.

(** A builder whose parameters are complete, with factories whose products
    compute, under a key, the functions [F] (MAC) and [G] (cipher).  Under [W] nothing
    fails, as long as the cipher is given an input in [V]. *)
Record complete (b : ECIESCtxBuilder) (k : AnyKdf) (n m : Z) (ks ms : bytes)
    (F G : bytes → bytes → bytes) (W : Prop) (V : bytes → bytes → Prop) : Prop := {
  c_kdf : e_kdf b = Some k;
  c_kdf_ok : any_kdf_ok k;
  c_kdf_works secret : W → short secret → is_val (any_deriveKey k secret (m + n) ks) = true;
  c_cipher_size : e_symmetricKeySize b = n;
  c_mac_size : e_macKeySize b = m;
  c_sizes : 0 ≤ n ∧ 0 ≤ m ∧ m + n ≤ SIZE_MAX;
  c_kdf_salt : e_kdfSalt b = ks;
  c_mac_salt : e_macSalt b = ms;
  c_mac : ∃ fm, e_macFactoryFunction b = Some fm ∧ ∀ key w, size key = m →
    wp (fm key) w (λ x _, mac_open x (F key) [] W) (λ _ _, ¬ W);
  c_cipher : ∃ fc, e_symmetricCipherFactoryFunction b = Some fc ∧ ∀ key w, size key = n →
    wp (fc key) w (λ x _, cipher_open x (G key) [] (λ d, W ∧ V key d)) (λ _ _, ¬ W);
}.

(** The key material of a secret. *)
Definition key_material (k : AnyKdf) (secret : bytes) (n m : Z) (ks r : bytes) : Prop :=
  any_deriveKey k secret (m + n) ks = Val r.

Context {F G : bytes → bytes → bytes} {W : Prop} {V : bytes → bytes → Prop}.

Lemma create_spec b k n m ks ms secret w :
  complete b k n m ks ms F G W V →
  wp (createKeysAndInstantiateMacAndSymCipher b secret) w
    (λ p _, ∃ r, key_material k secret n m ks r ∧
       size (take (Z.to_nat n) r) = n ∧ mac_open p.1 (F (drop (Z.to_nat n) r)) [] W ∧
       cipher_open p.2 (G (take (Z.to_nat n) r)) [] (λ d, W ∧ V (take (Z.to_nat n) r) d))
    (λ _ _, ¬ (W ∧ short secret)).
Proof.
  intros [Hk Hok Hkw Hn Hm Hs Hks Hms (fm & Hfm & Hmac) (fc & Hfc & Hcipher)].
  unfold createKeysAndInstantiateMacAndSymCipher. rewrite Hk, Hn, Hm, Hks, Hfm, Hfc.
  cbn [deref]. wp_simpl. rewrite to_size_t_id by lia. specialize (Hkw secret).
  destruct (any_deriveKey k secret (m + n) ks) as [r|] eqn:Hr;
    [|by intros [HW Hsec]; specialize (Hkw HW Hsec)].
  assert (Hsz : size r = m + n) by (eapply (@deriveKey_size _ _ Hok); [|exact Hr]; lia).
  assert (Htake : size (take (Z.to_nat n) r) = n) by (apply size_take; lia).
  wp_simpl. rewrite splitKeys_exact by lia. wp_simpl.
  eapply wp_mono; [apply Hmac; rewrite size_drop; lia| |by intros e ? H [? _]].
  intros x w' Hx. wp_simpl.
  eapply wp_mono; [by apply Hcipher| |by intros e ? H [? _]]. intros c w'' Hc. wp_simpl.
  by exists r.
Qed.
End Facts.

(** ** The contexts *)

Section Contexts.
Context {f g : bytes → bytes} {W : Prop} {V : bytes → Prop}.

(** A piece of input that a cipher takes at once. *)
Definition piece (x : bytes) : Prop := size x ≤ INT_MAX - EVP_MAX_BLOCK_LENGTH.

Lemma piece_int x : piece x → size x ≤ INT_MAX.
Proof. unfold piece, INT_MAX, EVP_MAX_BLOCK_LENGTH. lia. Qed.

(** An update fails only if a call does, the piece is too big or nothing completes the
    input. *)
Lemma cipher_update_ok `{SymmetricCipherSpec C} (c : C) d x :
  cipher_open c g d V →
  wp (cipher_update x) c (λ _ c', cipher_open c' g (d ++ x) V)
    (λ _ _, ¬ (piece x ∧ ∃ y, V (d ++ x ++ y))).
Proof.
  intros Hc. eapply wp_mono; [by apply cipher_update_spec|done|].
  unfold piece. intros e c' [Hs|Hn] [Hp [y Hy]]; [lia|by eapply Hn].
Qed.

(** [c] has been fed [d] and computes the MAC [f] and the cipher [g]. *)
Definition decrypting (c : ECIESDecryptionCtx) (d : bytes) : Prop :=
  d_isFinished c = false ∧ mac_open (d_mac c) f d W ∧ cipher_open (d_symmetricCipher c) g d V.

Lemma dec_update_spec c d x :
  decrypting c d → size x ≤ INT_MAX →
  wp (Dec.update x) c
    (λ _ c', decrypting c' (d ++ x) ∧ d_macSalt c' = d_macSalt c)
    (λ _ _, ¬ (W ∧ piece x ∧ ∃ y, V (d ++ x ++ y))).
Proof.
  intros (Hf & Hm & Hc) Hx. unfold Dec.update, Dec.on_cipher_, Dec.on_mac_. wp_simpl.
  rewrite Hf. wp_simpl.
  eapply wp_mono; [by apply cipher_update_ok| |by intros e s Hn [_ HW]; apply Hn].
  intros [] c' Hc'. wp_simpl.
  eapply wp_mono; [by apply mac_update_spec|by intros [] m' Hm'|by intros e s Hn [HW _]; apply Hn].
Qed.

Lemma dec_updates_spec xs c d :
  decrypting c d → Forall (λ x, size x ≤ INT_MAX) xs →
  wp (mapM_ Dec.update xs) c
    (λ _ c', decrypting c' (d ++ concat xs) ∧ d_macSalt c' = d_macSalt c)
    (λ _ _, ¬ (W ∧ Forall piece xs ∧ ∃ y, V (d ++ concat xs ++ y))).
Proof.
  intros Hd Hxs. revert c d Hd. induction Hxs as [|x xs Hx Hxs IH]; intros c d Hd; cbn.
  - wp_simpl. by rewrite app_nil_r.
  - wp_simpl. eapply wp_mono; [by apply dec_update_spec| |].
    + intros [] c' (Hd' & Hs). eapply wp_mono; [by apply IH| |].
      * intros [] c'' [Hd'' Hs']. rewrite app_assoc. by rewrite Hs', Hs.
      * intros e s Hn (HW & [_ Hp]%Forall_cons & y & Hy). apply Hn. split_and!; [done..|].
        exists y. by rewrite <- !app_assoc in *.
    + intros e s Hn (HW & [Hp _]%Forall_cons & y & Hy). apply Hn. split_and!; [done..|].
      exists (concat xs ++ y). by rewrite <- !app_assoc in Hy.
Qed.

Lemma dec_finish_spec c d :
  decrypting c d → size (d_macSalt c) ≤ INT_MAX →
  wp Dec.finish c
    (λ r c', r = g d ∧ d_tag c = f (d ++ d_macSalt c) ∧ d_isFinished c' = true)
    (λ _ _, ¬ (W ∧ V d ∧ d_macIsSet c = true ∧ d_tag c = f (d ++ d_macSalt c))).
Proof.
  intros (Hf & Hm & Hc) Hs. unfold Dec.finish, Dec.on_mac_, Dec.on_cipher_. wp_simpl.
  rewrite Hf. wp_simpl. destruct (d_macIsSet c); cbn [negb]; [|by intros (_ & _ & ? & _)]. wp_simpl.
  eapply wp_mono; [by apply mac_update_spec| |by intros e s Hn [HW _]; apply Hn].
  intros [] m1 Hm1. wp_simpl.
  eapply wp_mono; [by apply mac_finish_spec| |by intros e s Hn [HW _]; apply Hn].
  intros v m2 [-> Hm2]. wp_simpl.
  eapply wp_mono; [by apply mac_verify_done_spec| |by intros e s (Hn & _) (_ & _ & _ & ?); apply Hn].
  intros [] m3 [Ht ->]. wp_simpl.
  eapply wp_mono; [by apply cipher_finish_spec| |by intros e s Hn (_ & HV & _); apply Hn].
  intros r c' ->. by wp_simpl.
Qed.

(** The whole of a decryption. *)
Lemma dec_all_spec c chunks tag :
  decrypting c [] → Forall (λ x, size x ≤ INT_MAX) chunks → size (d_macSalt c) ≤ INT_MAX →
  wp (mapM_ Dec.update chunks ;; Dec.setMAC tag ;; Dec.finish) c
    (λ pt c', tag = f (concat chunks ++ d_macSalt c) ∧ pt = g (concat chunks) ∧
              d_isFinished c' = true)
    (λ _ _, ¬ (W ∧ Forall piece chunks ∧ V (concat chunks) ∧
               tag = f (concat chunks ++ d_macSalt c))).
Proof.
  intros Hc Hchunks Hsalt. wp_simpl. eapply wp_mono; [by apply dec_updates_spec| |].
  2: { intros e s Hn (HW & Hp & HV & _). apply Hn. split_and!; [done..|]. exists [].
       by rewrite app_nil_r. }
  cbn [app]. intros [] c1 [Hd Hs]. unfold Dec.setMAC. wp_simpl.
  eapply wp_mono; [apply dec_finish_spec; [exact Hd|cbn; by rewrite Hs]| |].
  - intros pt c2 (-> & Ht & Hf). cbn in Ht. by rewrite Hs in Ht.
  - intros e s Hn (HW & Hp & HV & Ht). apply Hn. cbn. by rewrite Hs.
Qed.
End Contexts.
Arguments decrypting : clear implicits.

Section EncContext.
Context {bio : BioAPI} {evp : EvpCipherAPI} {pkey : EvpPkeyAPI bio evp}.
Context {f g : bytes → bytes} {W : Prop} {V : bytes → Prop}.

Definition encrypting (c : ECIESEncryptionCtx) (d : bytes) : Prop :=
  n_isFinished c = false ∧ mac_open (n_mac c) f [] W ∧
  ∃ x, n_symmetricCipher c = Some x ∧ cipher_open x g d V.

Lemma wp_enc_cipher {A} (m : M AnyCipher A) c x Φ Ψ :
  n_symmetricCipher c = Some x →
  wp (Enc.on_cipher_ m) c Φ Ψ ↔
  wp m x (λ a x', Φ a (Enc.set_symmetricCipher (Some x') c))
         (λ e x', Ψ e (Enc.set_symmetricCipher (Some x') c)).
Proof. intros Hx. unfold wp, Enc.on_cipher_. rewrite Hx. by destruct (m x) as [[a|e] x']. Qed.

(** What an encryption context keeps while it is fed. *)
Definition same_salt_and_key (c c' : ECIESEncryptionCtx) : Prop :=
  n_macSalt c' = n_macSalt c ∧ n_ephemeralKey c' = n_ephemeralKey c.

Lemma enc_update_spec c d x :
  encrypting c d →
  wp (Enc.update x) c (λ _ c', encrypting c' (d ++ x) ∧ same_salt_and_key c c')
    (λ _ _, ¬ (piece x ∧ ∃ y, V (d ++ x ++ y))).
Proof.
  intros (Hf & Hm & y & Hy & Hc). unfold Enc.update. wp_simpl. rewrite Hy, Hf. cbn [unset].
  wp_simpl. rewrite (wp_enc_cipher _ _ y) by done.
  eapply wp_mono; [by eapply cipher_update_ok| |done]. intros [] y' Hy'.
  split; [|done]. split; [done|]. split; [done|]. by exists y'.
Qed.

Lemma enc_updates_spec xs c d :
  encrypting c d →
  wp (mapM_ Enc.update xs) c
    (λ _ c', encrypting c' (d ++ concat xs) ∧ same_salt_and_key c c')
    (λ _ _, ¬ (Forall piece xs ∧ ∃ y, V (d ++ concat xs ++ y))).
Proof.
  revert c d. induction xs as [|x xs IH]; intros c d Hd; cbn.
  - wp_simpl. by rewrite app_nil_r.
  - wp_simpl. eapply wp_mono; [by apply enc_update_spec| |].
    + intros [] c' (Hd' & Hs & He). eapply wp_mono; [by apply IH| |].
      * intros [] c'' (Hd'' & Hs' & He'). rewrite app_assoc. unfold same_salt_and_key.
        by rewrite Hs', Hs, He', He.
      * intros e s Hn ([_ Hp]%Forall_cons & y & Hy). apply Hn. split; [done|].
        exists y. by rewrite <- !app_assoc in *.
    + intros e s Hn ([Hp _]%Forall_cons & y & Hy). apply Hn. split; [done|].
      exists (concat xs ++ y). by rewrite <- !app_assoc in Hy.
Qed.

(** What [finish] returns is what the MAC covers, followed by the salt. *)
Lemma enc_finish_spec c d :
  encrypting c d → size (g d) ≤ INT_MAX → size (n_macSalt c) ≤ INT_MAX →
  wp (let! ct := Enc.finish in let! tag := Enc.getMAC in
      let! eph := Enc.getEphemeralKey in ret (eph, ct, tag)) c
    (λ r _, r = (n_ephemeralKey c, g d, f (g d ++ n_macSalt c))) (λ _ _, ¬ (W ∧ V d)).
Proof.
  intros (Hf & Hm & y & Hy & Hc) Hg Hs.
  unfold Enc.finish, Enc.on_mac_, Enc.getMAC, Enc.getEphemeralKey. wp_simpl.
  rewrite Hf. wp_simpl. rewrite (wp_enc_cipher _ _ y) by done.
  eapply wp_mono; [by apply cipher_finish_spec| |by intros e s Hn [_ HV]; apply Hn].
  intros r y' ->. wp_simpl.
  eapply wp_mono; [by apply mac_update_spec| |by intros e s Hn [HW _]; apply Hn].
  intros [] m1 Hm1. wp_simpl.
  eapply wp_mono; [by apply mac_update_spec| |by intros e s Hn [HW _]; apply Hn].
  intros [] m2 Hm2. wp_simpl.
  eapply wp_mono; [by apply mac_finish_spec| |by intros e s Hn [HW _]; apply Hn].
  intros v m3 [-> Hm3]. by wp_simpl.
Qed.
End EncContext.
Arguments encrypting {bio evp pkey} f g W V c d.

(** ** Construction *)

Section Construction.
Context {bio : BioAPI} {evp : EvpCipherAPI} {rand : RandAPI} {pkey : EvpPkeyAPI bio evp}.
Context {bio_spec : BioSpec bio} {pkey_spec : EvpPkeySpec pkey}.
Context {md : EvpMdAPI} {hmac_api : HmacAPI md} {kdf_api : KdfAPI md}.
Context {F G : bytes → bytes → bytes} {W : Prop} {V : bytes → bytes → Prop}.

(** The MAC and the cipher of a context, under the keys derived from the secret. *)
Definition mac_under (r : bytes) (n : Z) : bytes → bytes := F (drop (Z.to_nat n) r).
Definition cipher_under (r : bytes) (n : Z) : bytes → bytes := G (take (Z.to_nat n) r).
Definition input_under (r : bytes) (n : Z) : bytes → Prop :=
  λ d, W ∧ V (take (Z.to_nat n) r) d.

Lemma Decryption_new_spec b k n m ks ms w eph priv :
  complete b k n m ks ms F G W V →
  e_ephemeralKey b = Some eph → e_privKey b = Some priv → key_type priv = EVP_PKEY_EC →
  wp (Decryption_new b) w
    (λ c _, ∃ r, key_material k (shared_secret eph priv) n m ks r ∧ d_macSalt c = ms ∧
       decrypting (mac_under r n) (cipher_under r n) W (input_under r n) c [])
    (λ _ _, ¬ (W ∧ EvpPkeyWorks pkey_spec ∧ can_agree eph priv)).
Proof.
  intros Hc He Hp Ht. unfold Decryption_new. rewrite He, Hp. cbn [deref]. rewrite !wp_bind, wp_ret.
  rewrite wp_bind, wp_ret.
  apply wp_lift_bind. eapply owp_mono; [by apply derive_key_ok| |].
  2: { intros e Hn (_ & HW & Ha). by apply Hn. }
  intros secret ->. rewrite wp_bind. eapply wp_mono; [by eapply create_spec| |].
  2: { intros e s Hn (HW & _). apply Hn. split; [done|]. apply shared_secret_size. }
  intros [mac c] w' (r & Hr & _ & Hm & Hci). wp_simpl. exists r. split; [done|].
  by rewrite (c_mac_salt _ _ _ _ _ _ _ _ _ _ Hc).
Qed.

Lemma Encryption_new_spec b k n m ks ms w pub :
  complete b k n m ks ms F G W V →
  e_pubKey b = Some pub → key_type pub = EVP_PKEY_EC → curve_of pub ∈ named_curves →
  wp (Encryption_new b) w
    (λ c _, ∃ r, key_material k (shared_secret pub (n_ephemeralKey c)) n m ks r ∧
       n_macSalt c = ms ∧ can_agree pub (n_ephemeralKey c) ∧ size (take (Z.to_nat n) r) = n ∧
       encrypting (mac_under r n) (cipher_under r n) W (input_under r n) c [])
    (λ _ _, ¬ (W ∧ EvpPkeyWorks pkey_spec)).
Proof.
  intros Hc Hp Ht Hcurve. unfold Encryption_new, createEphemeralKeyAndSharedSecret.
  assert (Hnid : 0 < curve_of pub ∧ curve_of pub ≠ Nid.Ed448 ∧ curve_of pub ≠ Nid.Ed25519).
  { revert Hcurve. generalize (curve_of pub). unfold named_curves. intros z Hz.
    rewrite !elem_of_cons, elem_of_nil in Hz.
    repeat (destruct Hz as [->|Hz]; [done|]). done. }
  destruct Hnid as (Hpos & Hn1 & Hn2).
  rewrite Hp. cbn [deref]. wp_simpl.
  rewrite getKeySpec_EC by done. unfold with_keygen. wp_simpl.
  eapply wp_mono; [apply (generate_ok (ECCSpec (curve_of pub))); exact Hpos| |].
  2: { intros e g [_ Hn] [HW HP]. apply Hn. split; [done|]. cbn. by do 2 right. }
  intros key g (Hpriv & [[[]]|[Hty Hcv]]); [done..|]. wp_simpl.
  assert (Hag : can_agree pub key) by done.
  assert (Hd := derive_key_ok pub key Hty). unfold owp in Hd.
  destruct (_EVP_derive_key pub key) as [secret|e]; [subst secret|]; wp_simpl;
    [|by intros [HW HP]; apply Hd].
  eapply wp_mono; [by eapply create_spec| |].
  2: { intros e s Hn [HW _]. apply Hn. split; [done|]. apply shared_secret_size. }
  intros [mac c] w' (r & Hr & Hsz & Hm & Hci). wp_simpl. exists r.
  rewrite (c_mac_salt _ _ _ _ _ _ _ _ _ _ Hc). split_and!; try done.
  split; [done|]. split; [done|]. by exists c.
Qed.
End Construction.

(** ** The default parameters *)

Section Defaults.
Context {bio : BioAPI} {evp : EvpCipherAPI} {rand : RandAPI} {pkey : EvpPkeyAPI bio evp}.
Context {md : EvpMdAPI} {hmac_api : HmacAPI md} {kdf_api : KdfAPI md}.
Context {evp_spec : EvpCipherSpec evp} {hmac_spec : HmacSpec hmac_api}.
Context {kdf_spec : KdfSpec kdf_api}.

Definition default_kdf : AnyKdf :=
  {| kdf_type := X963KDF; kdf_impl := X963KDF_interface;
     kdf_obj := {| x_hashFunction := SHA512 |} |}.

Definition default_F (key : bytes) : bytes → bytes := hmac SSL_EVP_sha512 key.

Definition default_session (mode : Mode) (key : bytes) : session :=
  session_of CBC S_256 PKCS key (zeros 16)
    (match mode with EncryptionMode => Encryption | DecryptionMode => Decryption end).
Definition default_G (mode : Mode) (key : bytes) : bytes → bytes :=
  evp_crypt (default_session mode key) [].

(** What the default cipher can be given: a decryptor, what the encryptor gives. *)
Definition default_V (mode : Mode) (key x : bytes) : Prop :=
  mode = DecryptionMode → ∃ y, x = default_G EncryptionMode key y.

(** OpenSSL carries out the calls of the default parameters. *)
Definition default_works (ks : bytes) : Prop :=
  EvpCipherWorks evp_spec ∧ HmacWorks hmac_spec ∧ KdfWorks kdf_api ∧ size ks ≤ ECDH_KDF_MAX.

Lemma default_G_inverse key x :
  default_G DecryptionMode key (default_G EncryptionMode key x) = x.
Proof. apply evp_crypt_inverse. by left. Qed.

Lemma default_kdf_works ks secret :
  default_works ks → short secret → is_val (any_deriveKey default_kdf secret 96 ks) = true.
Proof.
  intros (_ & _ & HW & Hks) Hs.
  pose proof (x963_derives SHA512 secret ks 96 ltac:(done)) as Hd.
  unfold any_deriveKey, derives in *. cbn [_getMDPtrFromDigestType] in Hd.
  destruct Hd as [Hd|[_ Hn]].
  - cbn in *. by rewrite Hd.
  - destruct Hn. unfold ECDH_KDF_MAX, short in *. split_and!; [done|lia..].
Qed.

Lemma default_mac_spec ks key w :
  size key = 64 →
  wp (default_mac key) w (λ m _, mac_open m (default_F key) [] (default_works ks))
    (λ _ _, ¬ default_works ks).
Proof.
  intros Hk. unfold default_mac. wp_simpl.
  pose proof (hmac_new_open SHA512 key ltac:(by rewrite Hk)) as Hn.
  destruct (HMAC.new SHA512 key) as [m|]; wp_simpl.
  - destruct Hn as (_ & d & [= <-] & Ho). exists hmac_interface_spec.
    destruct Ho as (Hf & HR & _). split; [done|]. split; [done|]. by intros (_ & HW & _).
  - intros (_ & HW & _). destruct Hn as [?|[->|?]]; done.
Qed.

Lemma default_cipher_spec mode key ks :
  size key = 32 →
  match AESCipher_new CBC S_256 PKCS key (zeros 16)
          (match mode with EncryptionMode => Encryption | DecryptionMode => Decryption end) with
  | Val c => cipher_open (any_aes c) (default_G mode key) []
               (λ d, default_works ks ∧ default_V mode key d)
  | Throw _ => ¬ default_works ks
  end.
Proof.
  intros Hk. unfold AESCipher_new.
  pose proof (new_spec (St := QueueOfVectorsMemoryStrategy) CBC S_256 PKCS key (zeros 16)
    (match mode with EncryptionMode => Encryption | DecryptionMode => Decryption end)) as Hn.
  destruct (Impl.new _ _ _ _ _ _) as [c|e] eqn:Hc.
  - destruct Hn as (_ & Hm & _ & _ & _ & Ht).
    apply new_fields in Hc as (_ & _ & _ & _ & Hf & _).
    exists AESCipher_spec. exists (default_session mode key). split; [done|]. split; [done|].
    intros x [(HW & _) HV]. cbn [cipher_obj any_aes].
    split_and!; try done; [by rewrite Hm|]. split; [by left|].
    intros He. destruct HV as [y ->]; [by destruct mode|]. exists y. split; [by left|].
    by destruct mode.
  - intros (HW & _). destruct Hn as [(_ & _ & ? & _)|[_ Hn]]; [done|by apply Hn].
Qed.

Lemma default_encryptor_spec ks key w :
  size key = 32 →
  wp (default_encryptor key) w
    (λ c _, cipher_open c (default_G EncryptionMode key) []
              (λ d, default_works ks ∧ default_V EncryptionMode key d))
    (λ _ _, ¬ default_works ks).
Proof.
  intros Hk. unfold default_encryptor, with_rand, Builder.buildEncryptor, Builder.chooseIV.
  wp_simpl. cbn -[AESCipher_new]. change (size (zeros 16) =? 0) with false. wp_simpl.
  pose proof (default_cipher_spec EncryptionMode key ks Hk) as Hc.
  by destruct (AESCipher_new _ _ _ _ _ _).
Qed.

Lemma default_decryptor_spec ks key w :
  size key = 32 →
  wp (default_decryptor key) w
    (λ c _, cipher_open c (default_G DecryptionMode key) []
              (λ d, default_works ks ∧ default_V DecryptionMode key d))
    (λ _ _, ¬ default_works ks).
Proof.
  intros Hk. unfold default_decryptor, Builder.buildDecryptor. wp_simpl. cbn -[AESCipher_new].
  pose proof (default_cipher_spec DecryptionMode key ks Hk) as Hc.
  by destruct (AESCipher_new _ _ _ _ _ _).
Qed.

(** A builder that was given nothing but keys and salts ends up complete. *)
Lemma default_complete mode b :
  e_kdf b = Some default_kdf →
  e_macFactoryFunction b = Some default_mac → e_macKeySize b = 64 →
  e_symmetricCipherFactoryFunction b =
    Some (match mode with EncryptionMode => default_encryptor
                        | DecryptionMode => default_decryptor end) →
  e_symmetricKeySize b = 32 →
  complete b default_kdf 32 64 (e_kdfSalt b) (e_macSalt b) default_F (default_G mode)
    (default_works (e_kdfSalt b)) (default_V mode).
Proof.
  intros Hk Hm Hms Hc Hcs. constructor; try done.
  - apply X963KDF_spec_interface.
  - apply default_kdf_works.
  - eexists. split; [exact Hm|]. intros key w Hsz. by apply default_mac_spec.
  - eexists. split; [exact Hc|]. intros key w Hsz.
    destruct mode; [by apply default_encryptor_spec|by apply default_decryptor_spec].
Qed.
End Defaults.

(** ** Whole transfers *)

Section Transfer.
Context {bio : BioAPI} {evp : EvpCipherAPI} {rand : RandAPI} {pkey : EvpPkeyAPI bio evp}.
Context {bio_spec : BioSpec bio} {pkey_spec : EvpPkeySpec pkey}.
Context {md : EvpMdAPI} {hmac_api : HmacAPI md} {kdf_api : KdfAPI md}.

(** A sender: the ephemeral key, the ciphertext and the MAC of a message in pieces;
    and a receiver. *)
Definition ecies_encrypt (pub : EVP_PKEY) (msgs : list bytes) :
    M (ECIESCtxBuilder * World) (EVP_PKEY * bytes * bytes) :=
  let! c := buildEncryptionCtx pub in
  lift ((mapM_ Enc.update msgs ;;
         let! ct := Enc.finish in let! tag := Enc.getMAC in
         let! eph := Enc.getEphemeralKey in ret (eph, ct, tag)) c).1.

Definition ecies_decrypt (priv eph : EVP_PKEY) (chunks : list bytes) (tag : bytes) :
    M (ECIESCtxBuilder * World) bytes :=
  let! c := buildDecryptionCtx priv eph in
  lift ((mapM_ Dec.update chunks ;; Dec.setMAC tag ;; Dec.finish) c).1.

(** The parameters are complete once they are checked. *)
Definition parameters (mode : Mode) (b : ECIESCtxBuilder) k n m ks ms F G W V : Prop :=
  wp_total (checkForRequiredParameters mode) b (λ _ b', complete b' k n m ks ms F G W V).

Lemma complete_keys b k n m ks ms F G W V pub eph priv :
  complete b k n m ks ms F G W V →
  complete (mkEciesBuilder (e_kdf b) (e_macKeySize b) (e_macFactoryFunction b)
    (e_symmetricKeySize b) (e_symmetricCipherFactoryFunction b) (e_kdfSalt b) (e_macSalt b)
    pub eph priv) k n m ks ms F G W V.
Proof. by intros []. Qed.

Lemma check_keys mode b k n m ks ms F G W V pub eph priv :
  parameters mode b k n m ks ms F G W V →
  wp_total (checkForRequiredParameters mode)
    (mkEciesBuilder (e_kdf b) (e_macKeySize b) (e_macFactoryFunction b)
      (e_symmetricKeySize b) (e_symmetricCipherFactoryFunction b) (e_kdfSalt b) (e_macSalt b)
      pub eph priv)
    (λ _ b', complete b' k n m ks ms F G W V ∧
             e_pubKey b' = pub ∧ e_ephemeralKey b' = eph ∧ e_privKey b' = priv).
Proof.
  destruct b as [kdf mn fm n' fc ks' ms' pub' eph' priv']. unfold parameters.
  unfold wp, checkForRequiredParameters, setDefaultMac, bind, get, modify, throw_if, ret, put, lift.
  change (getDigestSize SHA512) with (@Val Z 64).
  cbn -[Z.eqb default_mac default_encryptor default_decryptor].
  destruct kdf, fm; cbn -[Z.eqb default_mac default_encryptor default_decryptor];
    destruct (mn =? 0); cbn -[Z.eqb default_mac default_encryptor default_decryptor]; try done;
    destruct fc; cbn -[Z.eqb default_mac default_encryptor default_decryptor];
    destruct (n' =? 0); cbn -[default_mac default_encryptor default_decryptor]; try done;
    (intros Hc; split; [|done]; by eapply complete_keys in Hc).
Qed.

Lemma wp_on_builder {A} (m : M ECIESCtxBuilder A) (b : ECIESCtxBuilder) (w : World) Φ Ψ :
  wp m b (λ a b', Φ a (b', w)) (λ e b', Ψ e (b', w)) → wp (on_builder m) (b, w) Φ Ψ.
Proof. unfold on_builder. by rewrite wp_zoom. Qed.

(** The result of running a client in a new context. *)
Lemma wp_owp_fst {T A} (m : M T A) (t : T) (P : A → Prop) (Q : exn → Prop) :
  wp m t (λ a _, P a) (λ e _, Q e) → owp (m t).1 P Q.
Proof. unfold wp. by destruct (m t) as [[] ?]. Qed.

Context {k : AnyKdf} {n m : Z} {ks ms : bytes} {F E D : bytes → bytes → bytes} {W : Prop}
        {VE VD : bytes → bytes → Prop}.

Lemma ecies_encrypt_spec be pub msgs w :
  parameters EncryptionMode be k n m ks ms F E W VE →
  key_type pub = EVP_PKEY_EC → curve_of pub ∈ named_curves → size ms ≤ INT_MAX →
  (∀ key, size key = n → size (E key (concat msgs)) ≤ INT_MAX) →
  wp (ecies_encrypt pub msgs) (be, w)
    (λ r _, ∃ eph km, key_material k (shared_secret pub eph) n m ks km ∧ can_agree pub eph ∧
       let ct := E (take (Z.to_nat n) km) (concat msgs) in
       r = (eph, ct, F (drop (Z.to_nat n) km) (ct ++ ms)))
    (λ _ _, ¬ (W ∧ EvpPkeyWorks pkey_spec ∧ Forall piece msgs ∧ ∀ key, VE key (concat msgs))).
Proof.
  intros Hp Hty Hcv Hms Hsz. unfold ecies_encrypt, buildEncryptionCtx.
  rewrite !wp_bind. apply wp_on_builder. wp_simpl. apply wp_on_builder.
  eapply wp_mono; [by eapply (check_keys EncryptionMode be)| |done].
  intros [] b (Hb & Hpub & _ & _). cbn in Hpub. wp_simpl. unfold on_world. wp_simpl. cbn [fst snd].
  eapply wp_mono; [by eapply Encryption_new_spec| |].
  2: { intros e s Hn (HW & HP & _). by apply Hn. }
  intros c w' (km & Hkm & Hsalt & Hag & Hlen & Hc). apply wp_owp_fst. rewrite wp_bind.
  eapply wp_mono; [by eapply enc_updates_spec| |].
  2: { intros e s Hn (HW & _ & Hps & HV). apply Hn. split; [done|]. exists [].
       by rewrite app_nil_r. }
  intros [] c1 [Hc1 [Hs1 Hk1]]. cbn [app] in Hc1. rewrite <- Hs1 in Hsalt.
  eapply wp_mono; [eapply (enc_finish_spec c1); [exact Hc1| |by rewrite Hsalt]| |].
  - by apply Hsz.
  - intros r c2 ->. exists (n_ephemeralKey c), km. by rewrite Hsalt, Hk1.
  - intros e s Hn (HW & _ & _ & HV). by apply Hn.
Qed.

Lemma ecies_decrypt_spec bd priv eph chunks tag w :
  parameters DecryptionMode bd k n m ks ms F D W VD →
  key_type priv = EVP_PKEY_EC → size ms ≤ INT_MAX → Forall (λ x, size x ≤ INT_MAX) chunks →
  wp (ecies_decrypt priv eph chunks tag) (bd, w)
    (λ pt _, ∃ km, key_material k (shared_secret eph priv) n m ks km ∧
       tag = F (drop (Z.to_nat n) km) (concat chunks ++ ms) ∧
       pt = D (take (Z.to_nat n) km) (concat chunks))
    (λ _ _, ¬ (W ∧ EvpPkeyWorks pkey_spec ∧ can_agree eph priv ∧ Forall piece chunks ∧
      ∃ km, key_material k (shared_secret eph priv) n m ks km ∧
        VD (take (Z.to_nat n) km) (concat chunks) ∧
        tag = F (drop (Z.to_nat n) km) (concat chunks ++ ms))).
Proof.
  intros Hp Hty Hms Hch. unfold ecies_decrypt, buildDecryptionCtx.
  rewrite !wp_bind. apply wp_on_builder. wp_simpl. apply wp_on_builder.
  eapply wp_mono; [by eapply (check_keys DecryptionMode bd)| |done].
  intros [] b (Hb & _ & _ & Hpriv). cbn in Hpriv. wp_simpl. apply wp_on_builder. wp_simpl.
  unfold on_world. wp_simpl. cbn [fst snd].
  eapply wp_mono; [eapply Decryption_new_spec; [by eapply complete_keys in Hb|done..]| |].
  2: { intros e s Hn (HW & HP & Ha & _). by apply Hn. }
  intros c w' (km & Hkm & Hsalt & Hc). apply wp_owp_fst.
  eapply wp_mono; [eapply dec_all_spec; [exact Hc|done|by rewrite Hsalt]| |]; rewrite Hsalt.
  - intros pt c' (Ht & -> & _). by exists km.
  - intros e s Hn (HW & _ & _ & Hps & km' & Hkm' & HV & Ht). unfold key_material in *.
    assert (km' = km) as -> by congruence. by apply Hn.
Qed.
End Transfer.

(** ** Properties *)

Section Properties.
Context {bio : BioAPI} {evp : EvpCipherAPI} {rand : RandAPI} {pkey : EvpPkeyAPI bio evp}.
Context {bio_spec : BioSpec bio} {pkey_spec : EvpPkeySpec pkey}.
Context {md : EvpMdAPI} {hmac_api : HmacAPI md} {kdf_api : KdfAPI md}.

(** C8. ECIES delivers: a message encrypted to a public EC key on a named curve, in any
    pieces of at most INT_MAX - 32 bytes, is returned to the holder of the private key,
    who decrypts the ciphertext under the same parameters, in any pieces of at most
    INT_MAX - 32 bytes, with the ephemeral key and the MAC the sender handed out; with
    any other MAC nothing is returned.  Ciphertext and MAC salt have at most INT_MAX
    bytes each: the MAC takes their lengths as int.  Nothing else fails as long as OpenSSL
    and the parameters' KDF, MAC and cipher carry out their calls, and the sender's
    and the receiver's cipher are inverse to each other. *)
Theorem ecies_delivers (be bd : ECIESCtxBuilder) k n m ks ms F E D W VE VD
    (pub priv : EVP_PKEY) (msgs : list bytes) (we : World)
    (Hbe : parameters EncryptionMode be k n m ks ms F E W VE)
    (Hbd : parameters DecryptionMode bd k n m ks ms F D W VD)
    (Hinv : ∀ key x, D key (E key x) = x ∧ VD key (E key x))
    (HVE : ∀ key, VE key (concat msgs))
    (Hpub : key_type pub = EVP_PKEY_EC) (Hcurve : curve_of pub ∈ named_curves)
    (Hpair : PublicKey_eq pub priv = Val true) (Hpriv : has_private priv)
    (Hsalt : size ms ≤ INT_MAX) (Hmsgs : Forall piece msgs)
    (Hsize : ∀ key, size key = n → size (E key (concat msgs)) ≤ INT_MAX) :
  match (ecies_encrypt pub msgs (be, we)).1 with
  | Val (eph, ct, tag) => ∀ chunks tag' wd, concat chunks = ct → Forall piece chunks →
      match (ecies_decrypt priv eph chunks tag' (bd, wd)).1 with
      | Val pt => tag' = tag ∧ pt = concat msgs
      | Throw _ => tag' = tag → ¬ (W ∧ EvpPkeyWorks pkey_spec)
      end
  | Throw _ => ¬ (W ∧ EvpPkeyWorks pkey_spec)
  end.
Proof.
  assert (Hcmp : SSL_EVP_PKEY_cmp pub priv = 1).
  { revert Hpair. unfold PublicKey_eq, _EVP_PKEY_cmp.
    destruct (Z.eqb_spec (SSL_EVP_PKEY_cmp pub priv) 1); [done|]. by destruct (_ || _). }
  destruct (cmp_same pub priv Hcmp) as [Hty Hcv].
  pose proof (ecies_encrypt_spec be pub msgs we Hbe Hpub Hcurve Hsalt Hsize) as He.
  unfold wp in He. destruct (ecies_encrypt pub msgs (be, we)) as [[[[eph ct] tag]|e] s]; cbn [fst].
  2: { intros [HW HP]. by apply He. }
  destruct He as (eph' & km & Hkm & (Het & Hep & _ & Hec) & [= -> Hct Htag]).
  intros chunks tag' wd Hchunks Hps.
  assert (Hag : shared_secret eph' priv = shared_secret pub eph') by (by apply agreement).
  assert (Hsm : Forall (λ x : bytes, size x ≤ INT_MAX) chunks)
    by (eapply Forall_impl; [exact Hps|exact piece_int]).
  pose proof (ecies_decrypt_spec bd priv eph' chunks tag' wd Hbd (eq_trans (eq_sym Hty) Hpub)
    Hsalt Hsm) as Hd.
  unfold wp in Hd. rewrite Hag, Hchunks in Hd.
  destruct (ecies_decrypt priv eph' chunks tag' (bd, wd)) as [[pt|e] s']; cbn [fst].
  - destruct Hd as (km' & Hkm' & -> & ->). unfold key_material in *.
    assert (km' = km) as -> by congruence. subst ct tag. split; [done|]. apply Hinv.
  - intros -> [HW HP]. apply Hd.
    split; [exact HW|split; [exact HP|split; [|split; [exact Hps|]]]].
    + unfold can_agree. rewrite <- Hcv by done. by unfold key_type in *; rewrite <- Hty.
    + exists km. subst ct tag. split; [exact Hkm|split; [apply Hinv|reflexivity]].
Qed.


(** A failed verification is final: the MAC object is finished but the context
    is not, so after a wrong tag every later [finish] fails with a
    MoCOCrWException, even when the right tag is set; the cipher is never
    finished. *)
Theorem ecies_verify_failure_final (c : ECIESDecryptionCtx) f g W V d m1 v m2
    (Hc : decrypting f g W V c d) (Hset : d_macIsSet c = true)
    (Hup : mac_update (d_macSalt c) (d_mac c) = (Val (), m1))
    (Hfin : mac_finish m1 = (Val v, m2)) (Hsalt : size (d_macSalt c) ≤ INT_MAX)
    (Htag : d_tag c ≠ v) :
  let '(r, c') := Dec.finish c in
  (∃ w, r = Throw (MoCOCrWException w)) ∧ d_symmetricCipher c' = d_symmetricCipher c ∧
  ∀ tag, ∃ w c'', (Dec.setMAC tag ;; Dec.finish) c' = (Throw (MoCOCrWException w), c'').
Proof.
  destruct Hc as (Hf & Hm & Hci).
  pose proof (wp_run _ _ _ _ _ _ Hup (mac_update_spec _ _ _ _ _ Hm Hsalt)) as Hm1.
  pose proof (wp_run _ _ _ _ _ _ Hfin (mac_finish_spec _ _ _ _ Hm1)) as [-> Hm2].
  pose proof (mac_verify_done_spec m2 (d_tag c) _ Hm2) as Hv. unfold wp in Hv.
  assert (Hd : ∃ w, Dec.finish c = (Throw (MoCOCrWException w), Dec.set_mac m2 c)).
  { unfold Dec.finish, bind, get, throw_if, ret, Dec.on_mac_, zoom.
    rewrite Hf, Hset. cbn [negb]. rewrite Hup. cbn -[mac_finish mac_verify].
    rewrite Hfin. cbn -[mac_verify].
    destruct (mac_verify (d_tag c) m2) as [[[]|e] m3]; [by destruct Hv|].
    destruct Hv as (_ & -> & w & ->). by exists w. }
  destruct Hd as [w ->]. split; [by exists w|]. split; [done|]. intros tag.
  destruct (mac_done_update_spec m2 _ (d_macSalt c) Hm2) as [w' Hw'].
  unfold Dec.finish, Dec.setMAC, bind, get, modify, throw_if, ret, Dec.on_mac_, zoom.
  cbn -[mac_update]. rewrite Hf. cbn -[mac_update]. rewrite Hw'. by eexists _, _.
Qed.

(** Parameter checks of the builder: a MAC or cipher factory without its key
    size, or a key size without the factory, is refused; what was set is kept and
    what was not is filled with the defaults, so that afterwards all is set. *)
Theorem ecies_parameters (mode : Mode) (b : ECIESCtxBuilder) :
  let mac_bad := negb (Bool.eqb (unset (e_macFactoryFunction b)) (e_macKeySize b =? 0)) in
  let cipher_bad :=
    negb (Bool.eqb (unset (e_symmetricCipherFactoryFunction b)) (e_symmetricKeySize b =? 0)) in
  let '(r, b') := checkForRequiredParameters mode b in
  (r = if mac_bad then Throw (incomplete "MAC")
       else if cipher_bad then Throw (incomplete "Symmetric cipher") else Val ()) ∧
  e_kdf b' = (if unset (e_kdf b) then e_kdf (setDefaultKdf b) else e_kdf b) ∧
  (r = Val () →
   (if unset (e_macFactoryFunction b)
    then e_macFactoryFunction b' = Some default_mac ∧ e_macKeySize b' = 64
    else e_macFactoryFunction b' = e_macFactoryFunction b ∧ e_macKeySize b' = e_macKeySize b) ∧
   (if unset (e_symmetricCipherFactoryFunction b)
    then e_symmetricCipherFactoryFunction b' =
           Some (match mode with EncryptionMode => default_encryptor
                               | DecryptionMode => default_decryptor end) ∧
         e_symmetricKeySize b' = 32
    else e_symmetricCipherFactoryFunction b' = e_symmetricCipherFactoryFunction b ∧
         e_symmetricKeySize b' = e_symmetricKeySize b) ∧
   e_kdfSalt b' = e_kdfSalt b ∧ e_macSalt b' = e_macSalt b).
Proof.
  destruct b as [kdf mn fm n fc ks ms pub eph priv].
  unfold checkForRequiredParameters, setDefaultMac, bind, get, modify, throw_if, ret, put, lift.
  change (getDigestSize SHA512) with (@Val Z 64).
  cbn -[Z.eqb default_mac default_encryptor default_decryptor].
  destruct kdf; cbn -[Z.eqb default_mac default_encryptor default_decryptor];
    destruct fm; cbn -[Z.eqb default_mac default_encryptor default_decryptor];
    destruct (mn =? 0); cbn -[Z.eqb default_mac default_encryptor default_decryptor];
    try (split_and!; done);
    destruct fc; cbn -[Z.eqb default_mac default_encryptor default_decryptor];
    destruct (n =? 0); cbn -[default_mac default_encryptor default_decryptor];
    split_and!; try done; intros _; split_and!; by destruct mode.
Qed.

(** A builder that relied on the default cipher for an encryption context keeps
    the encrypting factory: a decryption context built with it afterwards runs
    the ciphertext through an encryptor. *)
Theorem ecies_builder_reuse (b : ECIESCtxBuilder)
    (Hmac : unset (e_macFactoryFunction b) = (e_macKeySize b =? 0))
    (Hunset : e_symmetricCipherFactoryFunction b = None) (Hsize : e_symmetricKeySize b = 0) :
  let '(r, b') :=
    (checkForRequiredParameters EncryptionMode ;; checkForRequiredParameters DecryptionMode) b in
  r = Val () ∧ e_symmetricCipherFactoryFunction b' = Some default_encryptor.
Proof.
  destruct b as [kdf mn fm n fc ks ms pub eph priv]. cbn in Hmac, Hunset, Hsize. subst fc n.
  unfold checkForRequiredParameters, setDefaultMac, bind, get, modify, throw_if, ret, put, lift.
  change (getDigestSize SHA512) with (@Val Z 64).
  cbn -[Z.eqb default_mac default_encryptor default_decryptor].
  destruct kdf; cbn -[Z.eqb default_mac default_encryptor default_decryptor];
    destruct fm; cbn -[Z.eqb default_mac default_encryptor default_decryptor];
    cbn in Hmac; rewrite <- Hmac; cbn -[default_mac default_encryptor default_decryptor];
    rewrite <- ?Hmac; done.
Qed.
End Properties.

(** ** Witnesses *)

Module Witnesses.
(** The default parameters over the concrete primitives. *)
#[local] Existing Instance MemBio.api.
#[local] Existing Instance XorCipher.api.
#[local] Existing Instance XorCipher.spec.
#[local] Existing Instance CounterRand.api.
#[local] Existing Instance NumberKeys.api.
#[local] Existing Instance NamedDigests.api.
#[local] Existing Instance ChecksumMac.api.
#[local] Existing Instance ChecksumMac.spec.
#[local] Existing Instance RepeatKdf.api.
#[local] Existing Instance RepeatKdf.spec.
#[local] Existing Instance MemBio.spec.
#[local] Existing Instance NumberKeys.spec.

Definition world : World := ((7 : @RAND_STATE CounterRand.api), (3%nat : @KEYGEN _ _ NumberKeys.api)).
Definition bob : @EVP_PKEY _ _ NumberKeys.api := NumberKeys.key5.

Definition salted : ECIESCtxBuilder :=
  setMACSalt (str "mac salt") (setKDFSalt (str "kdf salt") ECIESCtxBuilder_new).
Definition be : ECIESCtxBuilder :=
  (checkForRequiredParameters EncryptionMode (setPublicKey bob salted)).2.

Definition dummy_cipher : AnyCipher := any_aes (mkImpl XorCipher.api QueueOfVectorsMemoryStrategy
  CBC [] [] None Encryption XorCipher.empty QueueOfVectors.init false false).
Definition dummy_mac : AnyMac :=
  mkAnyMac _ HMAC_interface (mkMac ((SHA512, [], []) : @HMAC_CTX _ ChecksumMac.api) false []).
Definition dummy_enc : ECIESEncryptionCtx := mkEnc dummy_mac None [] [] false bob.
Definition dummy_dec : ECIESDecryptionCtx := mkDec dummy_mac dummy_cipher [] false [] false.

Definition msgs : list bytes := [str "attack"; str " at "; str "dawn"].
Definition ec : ECIESEncryptionCtx := force dummy_enc (Encryption_new be world).1.
Definition ec1 : ECIESEncryptionCtx := (mapM_ Enc.update msgs ec).2.
Definition ct : bytes := force [] (Enc.finish ec1).1.
Definition ec2 : ECIESEncryptionCtx := (Enc.finish ec1).2.
Definition tag : bytes := force [] (Enc.getMAC ec2).1.

Definition bd : ECIESCtxBuilder :=
  setEphemeralKey (n_ephemeralKey ec)
    (checkForRequiredParameters DecryptionMode (setPrivateKey bob salted)).2.
Definition chunks : list bytes := [take 5 ct; drop 5 ct].
Definition dc : ECIESDecryptionCtx := force dummy_dec (Decryption_new bd world).1.
Definition dc1 : ECIESDecryptionCtx := (mapM_ Dec.update chunks dc).2.
Definition pt : bytes := force [] ((Dec.setMAC tag ;; Dec.finish) dc1).1.

Lemma default_parameters mode :
  parameters mode salted default_kdf 32 64 (str "kdf salt") (str "mac salt") default_F
    (default_G mode) (default_works (str "kdf salt")) (default_V mode).
Proof.
  set (b := (checkForRequiredParameters mode salted).2).
  assert (Hc : checkForRequiredParameters mode salted = (Val (), b)) by by destruct mode.
  unfold parameters, wp. rewrite Hc.
  destruct mode.
  - exact (default_complete EncryptionMode b eq_refl eq_refl eq_refl eq_refl eq_refl).
  - exact (default_complete DecryptionMode b eq_refl eq_refl eq_refl eq_refl eq_refl).
Qed.

Lemma all_work : default_works (str "kdf salt") ∧ EvpPkeyWorks NumberKeys.spec.
Proof.
  split; [|exact NumberKeys.pkey_works]. split; [exact XorCipher.cipher_works|].
  split; [exact ChecksumMac.hmac_works|]. split; [exact RepeatKdf.kdf_works|]. by vm_compute.
Qed.

Lemma bd_complete :
  complete bd default_kdf 32 64 (str "kdf salt") (str "mac salt") default_F
    (default_G DecryptionMode) (default_works (str "kdf salt")) (default_V DecryptionMode).
Proof. exact (default_complete DecryptionMode bd eq_refl eq_refl eq_refl eq_refl eq_refl). Qed.

(** With working primitives the transfer takes place. *)
Lemma ecies_delivers_witness :
  is_val (ecies_encrypt bob msgs (salted, world)).1 = true ∧
  match (ecies_encrypt bob msgs (salted, world)).1 with
  | Val (eph, ct, tag) => ∀ chunks tag' wd, concat chunks = ct → Forall piece chunks →
      match (ecies_decrypt bob eph chunks tag' (salted, wd)).1 with
      | Val pt => tag' = tag ∧ pt = concat msgs
      | Throw _ => tag' = tag → ¬ (default_works (str "kdf salt") ∧ EvpPkeyWorks NumberKeys.spec)
      end
  | Throw _ => ¬ (default_works (str "kdf salt") ∧ EvpPkeyWorks NumberKeys.spec)
  end.
Proof.
  split; [by vm_compute|].
  apply (ecies_delivers salted salted default_kdf 32 64 (str "kdf salt") (str "mac salt") default_F
    (default_G EncryptionMode) (default_G DecryptionMode) _ (default_V EncryptionMode)
    (default_V DecryptionMode) bob bob msgs world (default_parameters _) (default_parameters _)).
  - intros key x. split; [apply default_G_inverse|]. intros _. by eexists.
  - done.
  - done.
  - by do 2 constructor.
  - by vm_compute.
  - done.
  - by vm_compute.
  - repeat apply Forall_cons_2; try apply Forall_nil_2; by vm_compute.
  - intros key _. change (size (XorCipher.crypt key (concat msgs)) ≤ INT_MAX).
    unfold XorCipher.crypt, size. rewrite length_fmap. by vm_compute.
Defined.

Lemma decryption_new : Decryption_new bd world = (Val dc, (Decryption_new bd world).2).
Proof. returns dummy_dec (Decryption_new bd) world. Qed.

Lemma dc_updated : mapM_ Dec.update chunks dc = (Val (), dc1).
Proof. returns tt (mapM_ Dec.update chunks) dc. Qed.

Lemma chunks_small : Forall (λ x, size x ≤ INT_MAX) chunks.
Proof. repeat apply Forall_cons_2; try apply Forall_nil_2; by vm_compute. Qed.

Lemma dc_decrypting : ∃ f g W V, decrypting f g W V dc [] ∧ d_macSalt dc = str "mac salt".
Proof.
  pose proof (wp_run _ _ _ _ _ _ decryption_new
    (Decryption_new_spec bd default_kdf 32 64 (str "kdf salt") (str "mac salt")
       world (n_ephemeralKey ec) bob bd_complete eq_refl eq_refl eq_refl))
    as (r & _ & Hs & Hd). by eexists _, _, _, _.
Qed.


Definition forged : ECIESDecryptionCtx := (Dec.setMAC (str "forged") dc1).2.
Definition m1 : AnyMac := (mac_update (d_macSalt forged) (d_mac forged)).2.
Definition v : bytes := force [] (mac_finish m1).1.

Lemma ecies_verify_failure_final_witness :
  is_val (Dec.finish forged).1 = false ∧
  let '(r, c') := Dec.finish forged in
  (∃ w, r = Throw (MoCOCrWException w)) ∧ d_symmetricCipher c' = d_symmetricCipher forged ∧
  ∀ tag, ∃ w c'', (Dec.setMAC tag ;; Dec.finish) c' = (Throw (MoCOCrWException w), c'').
Proof.
  split; [by vm_compute|].
  destruct dc_decrypting as (f & g & W & V & Hd & Hs).
  pose proof (wp_run _ _ _ _ _ _ dc_updated
    (dec_updates_spec chunks dc [] Hd chunks_small)) as [Hd1 Hs1]. rewrite Hs in Hs1.
  assert (H1 : mac_update (d_macSalt forged) (d_mac forged) = (Val (), m1))
    by returns tt (mac_update (d_macSalt forged)) (d_mac forged).
  assert (H2 : mac_finish m1 = (Val v, (mac_finish m1).2))
    by returns ([] : bytes) (mac_finish (Mac := AnyMac)) m1.
  refine (ecies_verify_failure_final forged f g W V ([] ++ concat chunks) m1 v _ Hd1 eq_refl
            H1 H2 _ _).
  - change (d_macSalt forged) with (d_macSalt dc1). rewrite Hs1. by vm_compute.
  - apply (bool_decide_unpack (d_tag forged ≠ v)). by vm_compute.
Defined.

(** Encrypting and decrypting with one builder. *)
Lemma ecies_builder_reuse_witness :
  let '(r, b') :=
    (checkForRequiredParameters EncryptionMode ;; checkForRequiredParameters DecryptionMode)
      ECIESCtxBuilder_new in
  r = Val () ∧ e_symmetricCipherFactoryFunction b' = Some default_encryptor.
Proof. exact (ecies_builder_reuse ECIESCtxBuilder_new eq_refl eq_refl eq_refl). Defined.
End Witnesses.
