(* ===== verification/Pem.v ===== *)
(** * PEM texts: [src/src/format_utils.h] and the anonymous namespace of
      [src/src/x509.cpp]

    Splitting a chain of PEM elements and breaking the base64 part of a
    certificate into lines, over the search functions of [std::string]. *)

From S2P Require Import Prelude CheckCall Util.

(** ** [std::string] *)

Definition npos : Z := SIZE_MAX.

(** The position of the first occurrence of [needle]. *)
Fixpoint find_first (needle s : bytes) : option nat :=
  if is_prefix needle s then Some 0%nat
  else match s with [] => None | _ :: s' => S <$> find_first needle s' end.

(** [s.find(needle, pos)] *)
Definition find (needle s : bytes) (pos : Z) : Z :=
  if size s <? pos then npos
  else match find_first needle (drop (Z.to_nat pos) s) with
       | Some p => pos + Z.of_nat p
       | None => npos
       end.

(** The characters of [" \r\n\t"]. *)
Definition blank (b : Byte.byte) : bool :=
  match b with Byte.x20 | Byte.x0d | Byte.x0a | Byte.x09 => true | _ => false end.

(** [std::isspace] in the "C" locale. *)
Definition isspace (b : Byte.byte) : bool :=
  match b with Byte.x0b | Byte.x0c => true | _ => blank b end.

Fixpoint first_not_blank (s : bytes) : option nat :=
  match s with
  | [] => None
  | b :: s' => if blank b then S <$> first_not_blank s' else Some 0%nat
  end.

(** [s.find_first_not_of(" \r\n\t", pos)] and [s.find_last_not_of(" \r\n\t")] *)
Definition find_first_not_of (s : bytes) (pos : Z) : Z :=
  if size s <? pos then npos
  else match first_not_blank (drop (Z.to_nat pos) s) with
       | Some p => pos + Z.of_nat p
       | None => npos
       end.
Definition find_last_not_of (s : bytes) : Z :=
  match first_not_blank (reverse s) with
  | Some p => size s - 1 - Z.of_nat p
  | None => npos
  end.

(** [s.substr(pos, count)] *)
Definition substr (s : bytes) (pos count : Z) : outcome bytes :=
  if size s <? pos then Throw (OutOfRange [Str "basic_string::substr"])
  else Val (take (Z.to_nat (Z.min count (size s - pos))) (drop (Z.to_nat pos) s)).

(** [boost::format("%1%\n%2%\n%3%")] *)
Definition newline : bytes := [Byte.x0a].
Definition three_lines (a b c : bytes) : bytes := a ++ newline ++ b ++ newline ++ c.

(** ** [splitPEMChain] *)

Definition chain_error (msg : message) : exn := MoCOCrWException msg.

(** An iteration from the begin marker on. *)
Definition splitPEMChain_element (pemChain beginMarker endMarker : bytes)
    (nextBeginPos index : Z) (pemList : list bytes) :
    outcome (Z * Z * list bytes + list bytes) :=
  let encodedPemBeginPos :=
    find_first_not_of pemChain (to_size_t (nextBeginPos + size beginMarker)) in
  let nextEndPos := find endMarker pemChain encodedPemBeginPos in
  if nextEndPos =? npos then
    Throw (chain_error [Str "PEM chain invalid. Element "; Num index; Str " has no end marker"])
  else
    let? encodedPem := substr pemChain encodedPemBeginPos
                         (to_size_t (nextEndPos - encodedPemBeginPos)) in
    let lastNonWhitespace := find_last_not_of encodedPem in
    if lastNonWhitespace =? npos then
      Throw (chain_error [Str "PEM chain invalid. Element "; Num index;
                          Str " appears to be empty"])
    else
      let encodedPem := take (Z.to_nat (lastNonWhitespace + 1)) encodedPem in
      let certificatePem := three_lines beginMarker encodedPem endMarker in
      Val (inl (to_size_t (nextEndPos + size endMarker), to_size_t (index + 1),
                pemList ++ [certificatePem])).

(** One iteration on the position, the index and the list of PEMs. *)
Definition splitPEMChain_body (pemChain beginMarker endMarker : bytes)
    (st : Z * Z * list bytes) : outcome (Z * Z * list bytes + list bytes) :=
  let '(pos, index, pemList) := st in
  if pos <? size pemChain then
    let nextBeginPos := find beginMarker pemChain pos in
    if nextBeginPos =? npos then
      let? tail := substr pemChain pos npos in
      if negb (find_first_not_of tail 0 =? npos) then
        Throw (chain_error [Str "PEM Chain invalid. Invalid characters at end of chain"])
      else Val (inr pemList)
    else
      let? between := substr pemChain pos (nextBeginPos - pos) in
      if negb (nextBeginPos =? pos) && negb (find_first_not_of between 0 =? npos) then
        Throw (chain_error [Str "PEM Chain invalid. Invalid characters before element "; Num index])
      else
        splitPEMChain_element pemChain beginMarker endMarker nextBeginPos index pemList
  else Val (inr pemList).

Definition splitPEMChain (fuel : nat) (pemChain beginMarker endMarker : bytes) :
    outcome (list bytes) :=
  oiter fuel (splitPEMChain_body pemChain beginMarker endMarker) (0, 0, []).

(** ** [reformatPEMCertificate] *)

Definition findStartOfNextMarker (pem marker : bytes) (start : Z) : Z := find marker pem start.
Definition findEndOfNextMarker (pem marker : bytes) (start : Z) : Z :=
  to_size_t (findStartOfNextMarker pem marker start + size marker).

Definition BEGIN_CERTIFICATE : bytes := str "-----BEGIN CERTIFICATE-----".
Definition END_CERTIFICATE : bytes := str "-----END CERTIFICATE-----".

(** The loop that inserts a newline after each 64 characters, on what is left of
    [base64] and on [splittedBase64]. *)
Definition break_body (st : bytes * bytes) : outcome (bytes * bytes + bytes) :=
  let '(rest, splitted) := st in
  if 64 <? size rest then Val (inl (drop 64 rest, (splitted ++ take 64 rest) ++ newline))
  else Val (inr (splitted ++ rest)).

Definition reformatPEMCertificate (fuel : nat) (pem : bytes) : outcome bytes :=
  let endBeginMarker := findEndOfNextMarker pem BEGIN_CERTIFICATE 0 in
  if endBeginMarker =? npos then Val pem
  else
    let startEndMarker := findStartOfNextMarker pem END_CERTIFICATE endBeginMarker in
    if startEndMarker =? npos then Val pem
    else
      let? prevBase64 := substr pem 0 endBeginMarker in
      let? postBase64 := substr pem startEndMarker npos in
      let? base64 := substr pem endBeginMarker
                       (to_size_t (startEndMarker - endBeginMarker - 1)) in
      let base64 := filter (λ b, isspace b = false) base64 in
      let? splittedBase64 := oiter fuel break_body (base64, []) in
      Val (three_lines prevBase64 splittedBase64 postBase64).

(** ** What the search functions find *)

Lemma is_prefix_spec n s : is_prefix n s = true ↔ n `prefix_of` s.
Proof.
  revert s. induction n as [|b n IH]; intros s.
  - split; [intros _; apply prefix_nil|done].
  - destruct s as [|c s]; cbn.
    + split; [done|]. intros [k Hk]. done.
    + rewrite andb_true_iff, bool_decide_eq_true, IH. split.
      * intros [-> ?]. by apply prefix_cons.
      * intros [k [= -> ->]]. split; [done|]. by exists k.
Qed.

Lemma is_prefix_app n r : is_prefix n (n ++ r) = true.
Proof. apply is_prefix_spec. by exists r. Qed.

Lemma find_first_Some n s p :
  find_first n s = Some p → ∃ a r, s = a ++ n ++ r ∧ length a = p.
Proof.
  revert p. induction s as [|b s IH]; intros p; cbn -[is_prefix].
  - destruct (is_prefix n []) eqn:Hp; [|done]. intros [= <-].
    apply is_prefix_spec in Hp as [r Hr]. by exists [], r.
  - destruct (is_prefix n (b :: s)) eqn:Hp.
    + intros [= <-]. apply is_prefix_spec in Hp as [r Hr]. by exists [], r.
    + intros (q & Hq & ->)%fmap_Some. apply (IH q) in Hq as (a & r & -> & <-).
      by exists (b :: a), r.
Qed.

(** A needle is found at once behind text without its first character. *)
Lemma find_first_behind c n a r :
  c ∉ a → find_first (c :: n) (a ++ (c :: n) ++ r) = Some (length a).
Proof.
  induction a as [|b a IH]; intros Ha.
  - cbn [app]. unfold find_first. change (c :: n ++ r) with ((c :: n) ++ r).
    by rewrite is_prefix_app.
  - apply not_elem_of_cons in Ha as [Hb Ha]. cbn [app]. cbn -[is_prefix].
    replace (is_prefix (c :: n) (b :: a ++ c :: n ++ r)) with false.
    + cbn [app] in IH. by rewrite IH.
    + cbn. by rewrite bool_decide_eq_false_2.
Qed.

Lemma find_first_absent c n a : c ∉ a → find_first (c :: n) a = None.
Proof.
  induction a as [|b a IH]; [done|]. intros [Hb Ha]%not_elem_of_cons. cbn -[is_prefix].
  rewrite IH by done. cbn. by rewrite bool_decide_eq_false_2.
Qed.

(** Positions behind a known prefix of the string. *)
Lemma drop_size (a s : bytes) : drop (Z.to_nat (size a)) (a ++ s) = s.
Proof. unfold size. by rewrite Nat2Z.id, drop_app_length. Qed.

Lemma find_behind n a s :
  find n (a ++ s) (size a) =
    match find_first n s with Some p => size a + Z.of_nat p | None => npos end.
Proof.
  unfold find. rewrite drop_size, size_app. pose proof (size_nonneg s).
  by destruct (Z.ltb_spec (size a + size s) (size a)); [lia|].
Qed.

Lemma find_first_not_of_behind a s :
  find_first_not_of (a ++ s) (size a) =
    match first_not_blank s with Some p => size a + Z.of_nat p | None => npos end.
Proof.
  unfold find_first_not_of. rewrite drop_size, size_app. pose proof (size_nonneg s).
  by destruct (Z.ltb_spec (size a + size s) (size a)); [lia|].
Qed.

Lemma substr_behind a s n :
  substr (a ++ s) (size a) n = Val (take (Z.to_nat (Z.min n (size s))) s).
Proof.
  unfold substr. rewrite drop_size, size_app. pose proof (size_nonneg s).
  destruct (Z.ltb_spec (size a + size s) (size a)); [lia|].
  by rewrite Z.add_simpl_l.
Qed.

Lemma take_size (a s : bytes) : take (Z.to_nat (size a)) (a ++ s) = a.
Proof. unfold size. by rewrite Nat2Z.id, take_app_length. Qed.

Abbreviation blanks s := (Forall (λ b, blank b = true) s).

Lemma first_not_blank_None s : first_not_blank s = None ↔ blanks s.
Proof.
  induction s as [|b s IH]; cbn; [done|]. rewrite Forall_cons, <- IH.
  destruct (blank b); [|by split; [|intros []]].
  destruct (first_not_blank s); split; try done; by intros [].
Qed.

Lemma first_not_blank_Some s p :
  first_not_blank s = Some p →
  ∃ w b r, s = w ++ b :: r ∧ blanks w ∧ blank b = false ∧ length w = p.
Proof.
  revert p. induction s as [|b s IH]; intros p; [done|]. cbn.
  destruct (blank b) eqn:Hb.
  - intros (q & Hq & ->)%fmap_Some. apply (IH q) in Hq as (w & c & r & -> & Hw & Hc & <-).
    exists (b :: w), c, r. split_and!; try done. by constructor.
  - intros [= <-]. exists [], b, s. by split_and!.
Qed.

Lemma first_not_blank_behind w b r :
  blanks w → blank b = false → first_not_blank (w ++ b :: r) = Some (length w).
Proof.
  intros Hw Hb. induction Hw as [|c w Hc Hw IH]; cbn; [by rewrite Hb|]. by rewrite Hc, IH.
Qed.

Lemma blank_head_notin c w : blank c = false → blanks w → c ∉ w.
Proof.
  intros Hc Hw Hin. rewrite Forall_forall in Hw. specialize (Hw _ Hin). congruence.
Qed.

(** [find_last_not_of] cuts the trailing blanks. *)
Lemma find_last_not_of_behind a b w :
  blank b = false → blanks w →
  find_last_not_of (a ++ b :: w) = size a.
Proof.
  intros Hb Hw. unfold find_last_not_of. rewrite reverse_app, reverse_cons, <- app_assoc. cbn [app].
  rewrite first_not_blank_behind; [|by apply Forall_reverse|done].
  rewrite length_reverse, size_app, size_cons. unfold size. lia.
Qed.

Lemma find_last_not_of_cases s :
  (find_last_not_of s = npos ∧ blanks s) ∨
  (∃ a b w, s = a ++ b :: w ∧ blank b = false ∧ blanks w ∧ find_last_not_of s = size a).
Proof.
  destruct (first_not_blank (reverse s)) as [p|] eqn:Hp.
  - right. pose proof Hp as Hf. apply first_not_blank_Some in Hp as (w & b & r & Hr & Hw & Hb & Hl).
    assert (Hs : s = reverse r ++ b :: reverse w).
    { apply (f_equal reverse) in Hr. rewrite reverse_involutive in Hr. rewrite Hr.
      by rewrite reverse_app, reverse_cons, <- app_assoc. }
    exists (reverse r), b, (reverse w). split_and!; [done|done|by apply Forall_reverse|].
    rewrite Hs. apply find_last_not_of_behind; [done|by apply Forall_reverse].
  - left. split.
    + unfold find_last_not_of. by rewrite Hp.
    + apply first_not_blank_None, Forall_reverse in Hp. by rewrite reverse_involutive in Hp.
Qed.

(** ** One iteration of [splitPEMChain] *)

Section Split.
Context (B E : bytes).

Abbreviation after pre w lead body trail := (pre ++ w ++ B ++ lead ++ body ++ trail ++ E).

(** What an iteration that starts in front of [rest] can do. *)
Inductive step_result (pre rest : bytes) (index : Z) (l : list bytes) :
    outcome (Z * Z * list bytes + list bytes) → Prop :=
| step_end : blanks rest → step_result pre rest index l (Val (inr l))
| step_throw msg : step_result pre rest index l (Throw (MoCOCrWException msg))
| step_element w lead body trail rest' :
    rest = w ++ B ++ lead ++ body ++ trail ++ E ++ rest' →
    blanks w → blanks lead → blanks trail → body ≠ [] →
    step_result pre rest index l
      (Val (inl (size (after pre w lead body trail), to_size_t (index + 1),
                 l ++ [three_lines B body E]))).

Lemma find_first_not_of_0 s :
  find_first_not_of s 0 =
    match first_not_blank s with Some p => Z.of_nat p | None => npos end.
Proof. exact (find_first_not_of_behind [] s). Qed.

Lemma first_not_blank_lt s p : first_not_blank s = Some p → Z.of_nat p < size s.
Proof.
  intros (w & b & r & -> & _ & _ & <-)%first_not_blank_Some.
  rewrite size_app, size_cons. pose proof (size_nonneg r). unfold size. lia.
Qed.

(** The check of what should be white space. *)
Lemma blank_check s : size s < npos →
  negb (find_first_not_of s 0 =? npos) = false ↔ blanks s.
Proof.
  intros Hs. rewrite find_first_not_of_0, <- first_not_blank_None, negb_false_iff, Z.eqb_eq.
  destruct (first_not_blank s) as [p|] eqn:Hp; [|done].
  apply first_not_blank_lt in Hp. split; [lia|done].
Qed.

Lemma substr_npos pre rest : size (pre ++ rest) < npos →
  substr (pre ++ rest) (size pre) npos = Val rest.
Proof.
  intros Hs. rewrite substr_behind. f_equal. apply take_ge.
  rewrite size_app in Hs. pose proof (size_nonneg pre). unfold size in *. lia.
Qed.

Lemma find_npos n s : size s < npos → find n s npos = npos.
Proof. intros Hs. unfold find. by destruct (Z.ltb_spec (size s) npos); [|lia]. Qed.

(** The searches from a position [pos] that has [a] in front of it and [s] behind. *)
Lemma find_at n chain a s pos : chain = a ++ s → pos = size a →
  find n chain pos =
    match find_first n s with Some p => pos + Z.of_nat p | None => npos end.
Proof. intros -> ->. apply find_behind. Qed.

Lemma find_first_not_of_at chain a s pos : chain = a ++ s → pos = size a →
  find_first_not_of chain pos =
    match first_not_blank s with Some p => pos + Z.of_nat p | None => npos end.
Proof. intros -> ->. apply find_first_not_of_behind. Qed.

Lemma substr_at chain a x s pos n : chain = a ++ x ++ s → pos = size a → n = size x →
  substr chain pos n = Val x.
Proof.
  intros -> -> ->. rewrite substr_behind, size_app, Z.min_l by
    (pose proof (size_nonneg s); lia). by rewrite take_size.
Qed.

(** The position and the text that follow the begin marker and its blanks, up to
    the end marker. *)
Lemma split_element_at chain p lead x rest pos index l :
  chain = p ++ B ++ lead ++ x ++ E ++ rest → size chain < npos → pos = size p →
  first_not_blank (lead ++ x ++ E ++ rest) = Some (length lead) →
  find_first E (x ++ E ++ rest) = Some (length x) →
  splitPEMChain_element chain B E pos index l =
    if find_last_not_of x =? npos then
      Throw (chain_error [Str "PEM chain invalid. Element "; Num index; Str " appears to be empty"])
    else Val (inl (size (p ++ B ++ lead ++ x ++ E), to_size_t (index + 1),
              l ++ [three_lines B (take (Z.to_nat (find_last_not_of x + 1)) x) E])).
Proof.
  intros Hc Hs -> Hbegin Hend. unfold splitPEMChain_element.
  pose proof Hs as Hs'. rewrite Hc, !size_app in Hs'.
  pose proof (size_nonneg p). pose proof (size_nonneg B). pose proof (size_nonneg lead).
  pose proof (size_nonneg x). pose proof (size_nonneg E). pose proof (size_nonneg rest).
  unfold npos, SIZE_MAX in *. rewrite (to_size_t_id (size p + size B)) by (unfold SIZE_MAX; lia).
  erewrite find_first_not_of_at; [|rewrite Hc; apply app_assoc|by rewrite size_app].
  rewrite Hbegin. change (Z.of_nat (length lead)) with (size lead).
  erewrite (find_at E chain (p ++ B ++ lead));
    [|by rewrite Hc, <- !app_assoc|by rewrite !size_app, Z.add_assoc].
  rewrite Hend. change (Z.of_nat (length x)) with (size x).
  destruct (Z.eqb_spec (size p + size B + size lead + size x) 18446744073709551615); [lia|].
  rewrite to_size_t_id by (unfold SIZE_MAX; lia).
  erewrite (substr_at chain (p ++ B ++ lead) x);
    [|by rewrite Hc, <- !app_assoc|by rewrite !size_app, Z.add_assoc|lia].
  cbn [obind]. case_match; [done|]. rewrite to_size_t_id by (unfold SIZE_MAX; lia).
  by rewrite !size_app, !Z.add_assoc.
Qed.

Lemma take_last (a w : bytes) b :
  take (Z.to_nat (size a + 1)) (a ++ b :: w) = a ++ [b].
Proof.
  replace (Z.to_nat (size a + 1)) with (length (a ++ [b]))
    by (rewrite length_app; unfold size; cbn; lia).
  change (a ++ b :: w) with (a ++ [b] ++ w). rewrite app_assoc. apply take_app_length.
Qed.

(** The search for the end marker starts at the first character that is not blank. *)
Lemma split_element_no_end chain p lead c r pos index l :
  chain = p ++ B ++ lead ++ c :: r → size chain < npos → pos = size p →
  blanks lead → blank c = false → find_first E (c :: r) = None →
  splitPEMChain_element chain B E pos index l =
    Throw (chain_error [Str "PEM chain invalid. Element "; Num index;
                        Str " has no end marker"]).
Proof.
  intros Hc Hs -> Hl Hbc He. unfold splitPEMChain_element.
  rewrite to_size_t_id by (rewrite Hc in Hs; rewrite !size_app in Hs; unfold npos, SIZE_MAX in *;
    pose proof (size_nonneg lead); pose proof (size_nonneg (c :: r)); pose proof (size_nonneg p);
    pose proof (size_nonneg B); lia).
  erewrite find_first_not_of_at; [|rewrite Hc; apply app_assoc|by rewrite size_app].
  rewrite first_not_blank_behind by done. change (Z.of_nat (length lead)) with (size lead).
  erewrite (find_at E chain (p ++ B ++ lead));
    [|by rewrite Hc, <- !app_assoc|by rewrite !size_app, Z.add_assoc].
  by rewrite He, Z.eqb_refl.
Qed.

Lemma split_element_cases chain p r pos index l pre w :
  chain = p ++ B ++ r → size chain < npos → pos = size p → p = pre ++ w → blanks w →
  step_result pre (w ++ B ++ r) index l (splitPEMChain_element chain B E pos index l).
Proof.
  intros Hc Hs Hpos Hp Hw.
  destruct (first_not_blank r) as [k|] eqn:Hk.
  - pose proof Hk as Hf. apply first_not_blank_Some in Hk as (lead & c & r2 & -> & Hl & Hbc & <-).
    destruct (find_first E (c :: r2)) as [j|] eqn:Hj.
    + pose proof Hj as He. apply find_first_Some in Hj as (x & rest & Hr2 & <-).
      rewrite Hr2 in Hc, Hf, He. rewrite Hr2. rewrite (split_element_at chain p lead x rest); [|done..].
      destruct (find_last_not_of_cases x) as [[-> _]|(a & b & t & -> & Hb & Ht & ->)];
        [rewrite Z.eqb_refl; constructor|].
      assert (size a < npos).
      { rewrite Hc, !size_app in Hs. pose proof (size_nonneg p). pose proof (size_nonneg B).
        pose proof (size_nonneg lead). pose proof (size_nonneg (b :: t)).
        pose proof (size_nonneg (E ++ rest)). rewrite size_app in *. lia. }
      destruct (Z.eqb_spec (size a) npos); [lia|]. rewrite take_last.
      replace (p ++ B ++ lead ++ (a ++ b :: t) ++ E) with (after pre w lead (a ++ [b]) t)
        by (rewrite Hp, <- !app_assoc; done).
      apply (step_element _ _ _ _ w lead (a ++ [b]) t rest); try done.
      * by rewrite <- !app_assoc.
      * by destruct a.
    + rewrite (split_element_no_end chain p lead c r2); [constructor|done..].
  - unfold splitPEMChain_element.
    rewrite to_size_t_id by (rewrite Hc in Hs; rewrite !size_app in Hs; unfold npos, SIZE_MAX in *;
      pose proof (size_nonneg r); pose proof (size_nonneg p); pose proof (size_nonneg B); lia).
    erewrite find_first_not_of_at; [|rewrite Hc; apply app_assoc|by rewrite size_app, Hpos].
    rewrite Hk, find_npos, Z.eqb_refl by done. constructor.
Qed.

(** An iteration with a begin marker ahead, and the last one. *)
Lemma split_body_begin pre w r index l :
  size (pre ++ w ++ B ++ r) < npos → w ++ B ++ r ≠ [] →
  find_first B (w ++ B ++ r) = Some (length w) →
  splitPEMChain_body (pre ++ w ++ B ++ r) B E (size pre, index, l) =
    if bool_decide (blanks w)
    then splitPEMChain_element (pre ++ w ++ B ++ r) B E (size pre + size w) index l
    else Throw (chain_error [Str "PEM Chain invalid. Invalid characters before element ";
                             Num index]).
Proof.
  intros Hs Hne Hf. unfold splitPEMChain_body. pose proof Hs as Hsz.
  rewrite size_app in Hsz |- *. pose proof (size_nonneg pre).
  assert (0 < size (w ++ B ++ r)).
  { destruct (w ++ B ++ r) as [|c x]; [done|]. rewrite size_cons. pose proof (size_nonneg x). lia. }
  destruct (Z.ltb_spec (size pre) (size pre + size (w ++ B ++ r))); [|lia].
  rewrite find_behind, Hf. change (Z.of_nat (length w)) with (size w).
  rewrite size_app in Hsz. pose proof (size_nonneg w). pose proof (size_nonneg (B ++ r)).
  destruct (Z.eqb_spec (size pre + size w) npos); [lia|].
  rewrite (substr_at _ pre w (B ++ r)) by (done || lia). cbn [obind].
  case_bool_decide as Hw.
  - by rewrite (proj2 (blank_check w ltac:(lia)) Hw), andb_false_r.
  - destruct (negb (find_first_not_of w 0 =? npos)) eqn:Hc.
    + destruct (Z.eqb_spec (size pre + size w) (size pre)); [|done].
      destruct Hw. by rewrite (size_0 w) by lia.
    + destruct Hw. apply blank_check in Hc; [done|lia].
Qed.

Lemma split_body_end pre rest index l :
  size (pre ++ rest) < npos → find_first B rest = None →
  splitPEMChain_body (pre ++ rest) B E (size pre, index, l) =
    if bool_decide (blanks rest) then Val (inr l)
    else Throw (chain_error [Str "PEM Chain invalid. Invalid characters at end of chain"]).
Proof.
  intros Hs Hf. unfold splitPEMChain_body. pose proof Hs as Hsz. rewrite size_app in Hsz.
  rewrite find_behind, Hf, Z.eqb_refl, substr_npos by done. cbn [obind].
  pose proof (size_nonneg pre). rewrite size_app.
  case_bool_decide as Hw.
  - rewrite (proj2 (blank_check rest ltac:(lia)) Hw). by case_match.
  - destruct (negb (find_first_not_of rest 0 =? npos)) eqn:Hc.
    + destruct (Z.ltb_spec (size pre) (size pre + size rest)); [done|].
      destruct Hw. by rewrite (size_0 rest) by (pose proof (size_nonneg rest); lia).
    + destruct Hw. apply blank_check in Hc; [done|lia].
Qed.

Lemma split_body_cases pre rest index l :
  size (pre ++ rest) < npos →
  step_result pre rest index l
    (splitPEMChain_body (pre ++ rest) B E (size pre, index, l)).
Proof.
  intros Hs. destruct (find_first B rest) as [k|] eqn:Hk.
  - pose proof Hk as Hf. apply find_first_Some in Hk as (w & r & -> & <-).
    destruct (decide (w ++ B ++ r = [])) as [Hn|Hn].
    + rewrite Hn, app_nil_r in *. unfold splitPEMChain_body. rewrite Z.ltb_irrefl. by constructor.
    + rewrite split_body_begin by done. case_bool_decide; [|constructor].
      eapply (split_element_cases _ (pre ++ w)); [by rewrite <- app_assoc|done|
        by rewrite size_app|done|done].
  - rewrite split_body_end by done. case_bool_decide; by constructor.
Qed.

(** ** Elements *)

(** An element of a chain: blanks in front of it, the text between the markers and
    the blanks around it. *)
Record element := mkElement {
  e_before : bytes;
  e_lead : bytes;
  e_body : bytes;
  e_trail : bytes;
}.

Definition element_text (el : element) : bytes :=
  e_before el ++ B ++ e_lead el ++ e_body el ++ e_trail el ++ E.

(** The PEM that the chain is expected to give for it. *)
Definition element_pem (el : element) : bytes := three_lines B (e_body el) E.

Definition unblank (s : bytes) : Prop :=
  ∃ c x y d, blank c = false ∧ blank d = false ∧ s = c :: x ∧ s = y ++ [d].

Record readable (el : element) : Prop := {
  r_before : blanks (e_before el);
  r_lead : blanks (e_lead el);
  r_trail : blanks (e_trail el);
  r_body : unblank (e_body el);
  r_end : ∀ c E', E = c :: E' → c ∉ e_body el;
}.

(** The markers start with a character that is not blank. *)
Definition marker (m : bytes) : Prop := ∃ c m', m = c :: m' ∧ blank c = false.

Section Elements.
Context (HB : marker B) (HE : marker E).

Lemma find_marker m w r : marker m → blanks w → find_first m (w ++ m ++ r) = Some (length w).
Proof.
  intros (c & m' & -> & Hc) Hw. apply find_first_behind. by apply blank_head_notin.
Qed.

Lemma split_body_element pre el rest index l :
  size (pre ++ element_text el ++ rest) < npos → readable el →
  splitPEMChain_body (pre ++ element_text el ++ rest) B E (size pre, index, l) =
    Val (inl (size (pre ++ element_text el), to_size_t (index + 1), l ++ [element_pem el])).
Proof.
  intros Hs Hr. destruct el as [w lead body trail].
  unfold element_text, element_pem in *. cbn [e_before e_lead e_body e_trail] in *.
  destruct Hr as [Hw Hl Ht (c & x & y & d & Hc & Hd & Hcx & Hyd) He].
  cbn [e_before e_lead e_body e_trail] in *.
  rewrite <- !app_assoc in *. rewrite split_body_begin, bool_decide_eq_true_2 by
    (done || by apply find_marker || (destruct HB as (? & ? & -> & _); by destruct w)).
  assert (Hyn : size y < npos).
  { rewrite Hyd in Hs. rewrite !size_app in Hs. pose proof (size_nonneg pre).
    pose proof (size_nonneg w). pose proof (size_nonneg B). pose proof (size_nonneg lead).
    pose proof (size_nonneg [d]). pose proof (size_nonneg trail). pose proof (size_nonneg E).
    pose proof (size_nonneg rest). lia. }
  assert (Hlast : find_last_not_of (body ++ trail) = size y).
  { rewrite Hyd, <- app_assoc. by apply find_last_not_of_behind. }
  rewrite (split_element_at _ (pre ++ w) lead (body ++ trail) rest).
  - rewrite Hlast. destruct (Z.eqb_spec (size y) npos); [lia|].
    replace (take (Z.to_nat (size y + 1)) (body ++ trail)) with body.
    + by rewrite <- !app_assoc, !size_app.
    + rewrite Hyd, <- app_assoc. cbn [app]. by rewrite take_last.
  - by rewrite <- !app_assoc.
  - done.
  - by rewrite size_app.
  - rewrite Hcx, <- app_assoc. cbn [app]. by apply first_not_blank_behind.
  - destruct HE as (e & E' & HeE & Hbe). rewrite HeE. rewrite find_first_behind; [done|].
    apply not_elem_of_app. split; [by apply (He e E')|by apply blank_head_notin].
Qed.

Abbreviation texts els := (concat (element_text <$> els)).

Lemma size_element_text el : readable el → 1 ≤ size (element_text el).
Proof.
  intros Hr. destruct (r_body _ Hr) as (c & x & _ & _ & _ & _ & Hb & _).
  unfold element_text. rewrite !size_app, Hb, size_cons.
  pose proof (size_nonneg (e_before el)). pose proof (size_nonneg B).
  pose proof (size_nonneg (e_lead el)). pose proof (size_nonneg (e_trail el)).
  pose proof (size_nonneg E). pose proof (size_nonneg x). lia.
Qed.

(** The loop reads the elements in front of [rest] one by one. *)
Lemma split_loop_elements els pre rest index l n :
  size (pre ++ texts els ++ rest) < npos → Forall readable els →
  0 ≤ index ≤ size pre →
  oiter (length els + n) (splitPEMChain_body (pre ++ texts els ++ rest) B E)
    (size pre, index, l) =
  oiter n (splitPEMChain_body (pre ++ texts els ++ rest) B E)
    (size (pre ++ texts els), index + size els, l ++ (element_pem <$> els)).
Proof.
  intros Hs Hr. revert pre index l Hs. induction Hr as [|el els Hel Hr IH]; intros pre index l Hs Hi.
  - cbn. by rewrite !app_nil_r, Z.add_0_r.
  - cbn [length Nat.add oiter]. rewrite fmap_cons in *. cbn [concat] in *.
    rewrite <- !(app_assoc (element_text el)) in *. rewrite split_body_element by done.
    cbn [obind]. pose proof (size_element_text el Hel).
    rewrite (app_assoc pre) in *.
    assert (Hle : size (pre ++ element_text el) < npos).
    { rewrite size_app in Hs. pose proof (size_nonneg (texts els ++ rest)). lia. }
    rewrite size_app in Hle. pose proof (size_nonneg pre).
    rewrite to_size_t_id by (unfold npos in Hle; lia).
    rewrite IH by (done || rewrite ?size_app; lia).
    rewrite fmap_cons, <- (app_assoc l), size_cons. cbn [app].
    by rewrite <- (app_assoc pre _ (texts els)), (Z.add_assoc index).
Qed.

Lemma split_elements_then els rest fuel :
  size (texts els ++ rest) < npos → Forall readable els → (length els < fuel)%nat →
  ∃ n, splitPEMChain fuel (texts els ++ rest) B E =
    oiter (S n) (splitPEMChain_body (texts els ++ rest) B E)
      (size (texts els), size els, element_pem <$> els).
Proof.
  intros Hs Hr Hf. exists (pred (fuel - length els)). unfold splitPEMChain.
  replace fuel with (length els + S (pred (fuel - length els)))%nat at 1 by lia.
  exact (split_loop_elements els [] rest 0 [] _ Hs Hr (conj (Z.le_refl 0) (Z.le_refl 0))).
Qed.
End Elements.
End Split.

(** ** Properties of [splitPEMChain] *)

(** What is left of a text without its blanks. *)
Definition strip (s : bytes) : bytes := filter (λ b, blank b = false) s.

Lemma strip_app a b : strip (a ++ b) = strip a ++ strip b.
Proof. apply filter_app. Qed.

Lemma strip_blanks w : blanks w → strip w = [].
Proof.
  induction 1 as [|b w Hb Hw IH]; [done|]. unfold strip in *.
  rewrite filter_cons_False by (rewrite Hb; done). done.
Qed.

Lemma strip_element B E w lead body trail :
  blanks w → blanks lead → blanks trail →
  strip (w ++ B ++ lead ++ body ++ trail ++ E) = strip (three_lines B body E).
Proof.
  intros Hw Hl Ht. unfold three_lines. rewrite !strip_app.
  by rewrite (strip_blanks w), (strip_blanks lead), (strip_blanks trail).
Qed.

Lemma split_loop_total B E fuel pre rest index l :
  size (pre ++ rest) < npos → (length rest < fuel)%nat →
  strip (concat l) = strip pre →
  Forall (λ pem, ∃ body, body ≠ [] ∧ pem = three_lines B body E) l →
  match oiter fuel (splitPEMChain_body (pre ++ rest) B E) (size pre, index, l) with
  | Val l' => strip (concat l') = strip (pre ++ rest) ∧
              Forall (λ pem, ∃ body, body ≠ [] ∧ pem = three_lines B body E) l'
  | Throw (MoCOCrWException _) => True
  | Throw _ => False
  end.
Proof.
  revert pre rest index l. induction fuel as [|fuel IH]; intros pre rest index l Hs Hf Hl Hform;
    [lia|].
  cbn [oiter]. destruct (split_body_cases B E pre rest index l Hs)
    as [Hb|msg|w lead body trail rest' -> Hw Hle Ht Hne]; cbn [obind].
  - split; [|done]. by rewrite strip_app, (strip_blanks rest), app_nil_r.
  - done.
  - set (x := w ++ B ++ lead ++ body ++ trail ++ E).
    assert (Hx : w ++ B ++ lead ++ body ++ trail ++ E ++ rest' = x ++ rest')
      by (unfold x; by rewrite <- !app_assoc).
    rewrite Hx, app_assoc in Hs |- *. fold x. apply IH.
    + done.
    + rewrite Hx, length_app in Hf. assert (length x ≠ 0%nat); [|lia].
      unfold x. rewrite !length_app. destruct body; [done|cbn; lia].
    + rewrite concat_app. cbn [concat]. rewrite app_nil_r, !strip_app, Hl.
      unfold x. by rewrite <- (strip_element B E w lead body trail).
    + apply Forall_app. split; [done|]. apply Forall_singleton. by exists body.
Qed.

(** C37. Whatever the chain and the markers are, [splitPEMChain] ends: it returns
    or throws a MoCOCrWException, no other exception.  What it returns is the
    chain up to blanks, cut into elements of the form begin marker, newline, a
    body that is not empty, newline, end marker. *)
Theorem split_total (fuel : nat) (pemChain B E : bytes)
    (Hsize : size pemChain < npos) (Hfuel : (length pemChain < fuel)%nat) :
  match splitPEMChain fuel pemChain B E with
  | Val l => strip (concat l) = strip pemChain ∧
             Forall (λ pem, ∃ body, body ≠ [] ∧ pem = three_lines B body E) l
  | Throw (MoCOCrWException _) => True
  | Throw _ => False
  end.
Proof. apply (split_loop_total B E fuel [] pemChain 0 []); done. Qed.

(** A chain of readable elements. *)
Lemma split_readable (fuel : nat) (B E : bytes) (els : list element) (w : bytes)
    (HB : marker B) (HE : marker E) (Hels : Forall (readable E) els) (Hw : blanks w)
    (Hsize : size (concat (element_text B E <$> els) ++ w) < npos)
    (Hfuel : (length els < fuel)%nat) :
  splitPEMChain fuel (concat (element_text B E <$> els) ++ w) B E =
    Val (element_pem B E <$> els).
Proof.
  destruct (split_elements_then B E HB HE els w fuel Hsize Hels Hfuel) as [n ->]. cbn [oiter].
  destruct HB as (c & B' & -> & Hc).
  rewrite split_body_end, bool_decide_eq_true_2; [done..|].
  apply find_first_absent. by apply blank_head_notin.
Qed.

(** C11. Splitting a chain of readable elements, with any blanks between and around
    them, gives the elements in order, each with one newline behind the begin
    marker and one in front of the end marker. *)
Theorem split_elements (fuel : nat) (B E : bytes) (els : list element) (w : bytes)
    (HB : marker B) (HE : marker E) (Hels : Forall (readable E) els) (Hw : blanks w)
    (Hsize : size (concat (element_text B E <$> els) ++ w) < npos)
    (Hfuel : (length els < fuel)%nat) :
  splitPEMChain fuel (concat (element_text B E <$> els) ++ w) B E =
    Val (element_pem B E <$> els).
Proof. by apply split_readable. Qed.

(** The errors of [splitPEMChain] name the element they were found at: text in
    front of a begin marker, text behind the last element, an element without
    an end marker. *)
Theorem split_errors (fuel : nat) (B E : bytes) (els : list element) (junk : bytes)
    (HB : marker B) (HE : marker E) (Hels : Forall (readable E) els)
    (Hjunk : ¬ blanks junk) (HjunkB : ∀ c B', B = c :: B' → c ∉ junk)
    (HjunkE : ∀ c E', E = c :: E' → c ∉ junk) (Hfuel : (length els < fuel)%nat) :
  let texts := concat (element_text B E <$> els) in
  (∀ rest, size (texts ++ junk ++ B ++ rest) < npos →
    splitPEMChain fuel (texts ++ junk ++ B ++ rest) B E =
      Throw (MoCOCrWException [Str "PEM Chain invalid. Invalid characters before element ";
                               Num (size els)])) ∧
  (size (texts ++ junk) < npos →
    splitPEMChain fuel (texts ++ junk) B E =
      Throw (MoCOCrWException [Str "PEM Chain invalid. Invalid characters at end of chain"])) ∧
  (size (texts ++ B ++ junk) < npos →
    splitPEMChain fuel (texts ++ B ++ junk) B E =
      Throw (MoCOCrWException [Str "PEM chain invalid. Element "; Num (size els);
                               Str " has no end marker"])).
Proof.
  intros texts. pose proof HB as HB'. destruct HB as (b & B' & HeqB & Hbb).
  pose proof HE as (e & E' & HeqE & Hbe). pose proof (size_nonneg texts).
  specialize (HjunkB _ _ HeqB). specialize (HjunkE _ _ HeqE).
  assert (Hj : 0 < size junk).
  { destruct junk; [by destruct Hjunk|]. rewrite size_cons. pose proof (size_nonneg junk). lia. }
  split_and!; intros *; intros Hs;
    destruct (split_elements_then B E HB' HE els _ fuel Hs Hels Hfuel) as [n Hn];
    fold texts in Hn; rewrite Hn; cbn [oiter].
  - rewrite split_body_begin, bool_decide_eq_false_2; try done.
    + by rewrite HeqB; destruct junk.
    + rewrite HeqB. by apply find_first_behind.
  - rewrite split_body_end, bool_decide_eq_false_2; try done.
    rewrite HeqB. by apply find_first_absent.
  - rewrite (split_body_begin B E texts [] junk), bool_decide_eq_true_2; try done.
    + destruct (first_not_blank junk) as [k|] eqn:Hk; [|by apply first_not_blank_None in Hk].
      apply first_not_blank_Some in Hk as (lead & c & r & Hjk & Hl & Hc & _).
      rewrite (split_element_no_end B E _ texts lead c r); try done.
      * cbn. by rewrite Hjk.
      * by rewrite Z.add_0_r.
      * rewrite HeqE. apply find_first_absent. rewrite Hjk in HjunkE.
        by apply not_elem_of_app in HjunkE as [_ ?].
    + by rewrite HeqB.
    + by apply find_marker.
Qed.

(** ** [reformatPEMCertificate] *)

(** [broken s t]: [t] is [s] cut into lines of 64 characters; only the last line
    may be shorter. *)
Inductive broken : bytes → bytes → Prop :=
| broken_last x : size x ≤ 64 → broken x x
| broken_line x y t : size x = 64 → y ≠ [] → broken y t → broken (x ++ y) (x ++ newline ++ t).

Lemma break_spec fuel s acc :
  (length s < fuel)%nat →
  ∃ t, oiter fuel break_body (s, acc) = Val (acc ++ t) ∧ broken s t.
Proof.
  revert s acc. induction fuel as [|fuel IH]; intros s acc Hf; [lia|]. cbn [oiter break_body].
  destruct (Z.ltb_spec 64 (size s)); cbn [obind].
  - unfold size in *. destruct (IH (drop 64 s) ((acc ++ take 64 s) ++ newline)) as (t & -> & Ht).
    { rewrite length_drop. lia. }
    exists (take 64 s ++ newline ++ t). rewrite <- !app_assoc. split; [done|].
    rewrite <- (take_drop 64 s) at 1. constructor; [|intros Hn|done].
    + unfold size. rewrite length_take. lia.
    + apply (f_equal length) in Hn. rewrite length_drop in Hn. cbn in Hn. lia.
  - exists s. split; [done|]. by constructor.
Qed.

Lemma find_0 n s :
  find n s 0 = match find_first n s with Some p => Z.of_nat p | None => npos end.
Proof. exact (find_behind n [] s). Qed.

(** The lines determine the text and the text the lines, up to white space. *)
Lemma broken_content s t : broken s t → strip t = strip s.
Proof.
  induction 1 as [|x y t Hx Hy Hb IH]; [done|].
  by rewrite !strip_app, IH.
Qed.

Definition despace (s : bytes) : bytes := filter (λ b, isspace b = false) s.

(** The markers are found at [p] and, behind [content] and one more character,
    at [E]. *)
Lemma reformat_at fuel pem p content c post :
  pem = p ++ content ++ [c] ++ END_CERTIFICATE ++ post → size pem < npos →
  (length pem < fuel)%nat →
  findEndOfNextMarker pem BEGIN_CERTIFICATE 0 = size p →
  find_first END_CERTIFICATE (content ++ [c] ++ END_CERTIFICATE ++ post) =
    Some (length (content ++ [c])) →
  ∃ t, reformatPEMCertificate fuel pem = Val (three_lines p t (END_CERTIFICATE ++ post)) ∧
       broken (despace content) t.
Proof.
  intros Hpem Hs Hf Hb He. pose proof Hs as Hsz. rewrite Hpem, !size_app in Hsz.
  pose proof (size_nonneg p). pose proof (size_nonneg content).
  assert (Hc : size [c] = 1) by done.
  pose proof (size_nonneg END_CERTIFICATE). pose proof (size_nonneg post).
  unfold reformatPEMCertificate. rewrite Hb. destruct (Z.eqb_spec (size p) npos); [lia|].
  unfold findStartOfNextMarker. rewrite (find_at _ _ p _ _ Hpem) by done. rewrite He.
  change (Z.of_nat (length (content ++ [c]))) with (size (content ++ [c])). rewrite size_app.
  destruct (Z.eqb_spec (size p + (size content + size [c])) npos); [lia|].
  assert (Hp : size p = 0 + size p) by lia.
  rewrite (substr_at pem [] p (content ++ [c] ++ END_CERTIFICATE ++ post)) by done. cbn [obind].
  assert (Hpost : substr pem (size p + (size content + size [c])) npos =
                  Val (END_CERTIFICATE ++ post)).
  { rewrite <- !size_app. replace pem with ((p ++ content ++ [c]) ++ END_CERTIFICATE ++ post)
      by (rewrite Hpem; by rewrite <- !app_assoc).
    apply substr_npos. rewrite <- !app_assoc. by rewrite <- Hpem. }
  rewrite Hpost. cbn [obind].
  rewrite (substr_at pem p content ([c] ++ END_CERTIFICATE ++ post)); [|done|done|].
  2:{ rewrite to_size_t_id; unfold npos in *; lia. }
  cbn [obind]. destruct (break_spec fuel (despace content) []) as (t & Ht & Hbr).
  { unfold despace. pose proof (length_filter (λ b, isspace b = false) content) as Hl.
    rewrite Hpem, !length_app in Hf. lia. }
  exists t. split; [|done]. unfold despace in Ht. by rewrite Ht.
Qed.

(** Text between the markers. *)
Lemma reformat_between (fuel : nat) (before content post : bytes) (c : Byte.byte)
    (Hbefore : Byte.x2d ∉ before) (Hcontent : Byte.x2d ∉ content ++ [c])
    (Hsize : size (before ++ BEGIN_CERTIFICATE ++ content ++ [c] ++ END_CERTIFICATE ++ post) < npos)
    (Hfuel : (length (before ++ BEGIN_CERTIFICATE ++ content ++ [c] ++ END_CERTIFICATE ++ post)
              < fuel)%nat) :
  ∃ t, reformatPEMCertificate fuel
         (before ++ BEGIN_CERTIFICATE ++ content ++ [c] ++ END_CERTIFICATE ++ post) =
       Val (three_lines (before ++ BEGIN_CERTIFICATE) t (END_CERTIFICATE ++ post)) ∧
       broken (despace content) t.
Proof.
  apply (reformat_at fuel _ (before ++ BEGIN_CERTIFICATE) content c post); try done.
  - by rewrite <- app_assoc.
  - unfold findEndOfNextMarker, findStartOfNextMarker. rewrite find_0.
    change BEGIN_CERTIFICATE with (Byte.x2d :: tail BEGIN_CERTIFICATE) at 1.
    rewrite find_first_behind by done. rewrite !size_app in *.
    change (Z.of_nat (length before)) with (size before). pose proof (size_nonneg before).
    pose proof (size_nonneg content). pose proof (size_nonneg [c]).
    pose proof (size_nonneg END_CERTIFICATE). pose proof (size_nonneg post).
    pose proof (size_nonneg BEGIN_CERTIFICATE).
    rewrite to_size_t_id by (unfold npos in *; lia). done.
  - change END_CERTIFICATE with (Byte.x2d :: tail END_CERTIFICATE) at 1.
    rewrite app_assoc. by apply find_first_behind.
Qed.

(** A certificate between its markers: what is in front of the begin marker
    and behind the end marker is kept, the base64 text loses its white space and
    is cut into lines of 64 characters.  The character in front of the end marker,
    which the code takes for a newline, is dropped whatever it is. *)
Theorem reformat_certificate (fuel : nat) (before content post : bytes) (c : Byte.byte)
    (Hbefore : Byte.x2d ∉ before) (Hcontent : Byte.x2d ∉ content ++ [c])
    (Hsize : size (before ++ BEGIN_CERTIFICATE ++ content ++ [c] ++ END_CERTIFICATE ++ post) < npos)
    (Hfuel : (length (before ++ BEGIN_CERTIFICATE ++ content ++ [c] ++ END_CERTIFICATE ++ post)
              < fuel)%nat) :
  ∃ t, reformatPEMCertificate fuel
         (before ++ BEGIN_CERTIFICATE ++ content ++ [c] ++ END_CERTIFICATE ++ post) =
       Val (three_lines (before ++ BEGIN_CERTIFICATE) t (END_CERTIFICATE ++ post)) ∧
       broken (despace content) t.
Proof. by apply reformat_between. Qed.

(** Without a begin marker the certificate is not left alone, as the
    comments of the code promise: the position [npos] plus the length of the
    marker wraps around to 26, and what follows the 26th character is taken for
    base64 text. *)
Theorem reformat_without_begin (fuel : nat) (before content post : bytes) (c : Byte.byte)
    (Hbefore : size before = 26)
    (Hbegin : find_first BEGIN_CERTIFICATE (before ++ content ++ [c] ++ END_CERTIFICATE ++ post) = None)
    (Hcontent : Byte.x2d ∉ content ++ [c])
    (Hsize : size (before ++ content ++ [c] ++ END_CERTIFICATE ++ post) < npos)
    (Hfuel : (length (before ++ content ++ [c] ++ END_CERTIFICATE ++ post) < fuel)%nat) :
  ∃ t, reformatPEMCertificate fuel (before ++ content ++ [c] ++ END_CERTIFICATE ++ post) =
       Val (three_lines before t (END_CERTIFICATE ++ post)) ∧ broken (despace content) t.
Proof.
  apply (reformat_at fuel _ before content c post); try done.
  - unfold findEndOfNextMarker, findStartOfNextMarker. by rewrite find_0, Hbegin, Hbefore.
  - change END_CERTIFICATE with (Byte.x2d :: tail END_CERTIFICATE) at 1.
    rewrite app_assoc. by apply find_first_behind.
Qed.

(** ** Witnesses *)

Module Witnesses.
Definition B : bytes := BEGIN_CERTIFICATE.
Definition E : bytes := END_CERTIFICATE.
Definition el (before body : string) : element :=
  mkElement (str before) newline (str body) newline.
Definition els : list element := [el "" "QUJD"; el "  " "REVGRw=="].
Definition chain : bytes := concat (element_text B E <$> els) ++ newline.

Lemma split_total_witness :
  size chain < npos ∧ is_val (splitPEMChain 1000 chain B E) = true ∧
  match splitPEMChain 1000 chain B E with
  | Val l => strip (concat l) = strip chain ∧
             Forall (λ pem, ∃ body, body ≠ [] ∧ pem = three_lines B body E) l
  | Throw (MoCOCrWException _) => True
  | Throw _ => False
  end.
Proof.
  split; [by vm_compute|]. split; [by vm_compute|].
  apply (split_total 1000 chain B E); [by vm_compute|]. apply Nat.ltb_lt. by vm_compute.
Defined.

Lemma marker_B : marker B.
Proof. by eexists _, _. Qed.
Lemma marker_E : marker E.
Proof. by eexists _, _. Qed.

Lemma els_readable : Forall (readable E) els.
Proof.
  repeat (apply Forall_cons; split; [|]); [| |apply Forall_nil_2];
    (split; cbn; [by repeat constructor|by repeat constructor|by repeat constructor| |]).
  - by exists Byte.x51, (str "UJD"), (str "QUJ"), Byte.x44.
  - intros c E' [= <- _]. apply (bool_decide_unpack (Byte.x2d ∉ str "QUJD")). by vm_compute.
  - by exists Byte.x52, (str "EVGRw=="), (str "REVGRw="), Byte.x3d.
  - intros c E' [= <- _]. apply (bool_decide_unpack (Byte.x2d ∉ str "REVGRw==")). by vm_compute.
Qed.

Lemma split_elements_witness :
  splitPEMChain 3 chain B E = Val (element_pem B E <$> els).
Proof.
  refine (split_elements 3 B E els newline marker_B marker_E els_readable _ _ _).
  - by repeat constructor.
  - by vm_compute.
  - cbn. lia.
Defined.

Lemma split_errors_witness :
  let texts := concat (element_text B E <$> els) in
  (∀ rest, size (texts ++ str "junk" ++ B ++ rest) < npos →
    splitPEMChain 3 (texts ++ str "junk" ++ B ++ rest) B E =
      Throw (MoCOCrWException [Str "PEM Chain invalid. Invalid characters before element ";
                               Num (size els)])) ∧
  (size (texts ++ str "junk") < npos →
    splitPEMChain 3 (texts ++ str "junk") B E =
      Throw (MoCOCrWException [Str "PEM Chain invalid. Invalid characters at end of chain"])) ∧
  (size (texts ++ B ++ str "junk") < npos →
    splitPEMChain 3 (texts ++ B ++ str "junk") B E =
      Throw (MoCOCrWException [Str "PEM chain invalid. Element "; Num (size els);
                               Str " has no end marker"])).
Proof.
  refine (split_errors 3 B E els (str "junk") marker_B marker_E els_readable _ _ _ _).
  - intros H. inversion H. done.
  - intros c B' [= <- _]. apply (bool_decide_unpack (Byte.x2d ∉ str "junk")). by vm_compute.
  - intros c B' [= <- _]. apply (bool_decide_unpack (Byte.x2d ∉ str "junk")). by vm_compute.
  - cbn. lia.
Defined.

(** A certificate whose end marker follows the base64 text at once loses a
    character. *)
Lemma reformat_certificate_witness :
  (∃ t, reformatPEMCertificate 100 (str "x" ++ B ++ str "QUJ" ++ str "D" ++ E ++ []) =
         Val (three_lines (str "x" ++ B) t (E ++ [])) ∧ broken (despace (str "QUJ")) t) ∧
  reformatPEMCertificate 100 (str "x" ++ B ++ str "QUJD" ++ E) =
    Val (three_lines (str "x" ++ B) (str "QUJ") E).
Proof.
  split; [|by vm_compute].
  refine (reformat_certificate 100 (str "x") (str "QUJ") [] Byte.x44 _ _ _ _).
  - apply (bool_decide_unpack (Byte.x2d ∉ str "x")). by vm_compute.
  - apply (bool_decide_unpack (Byte.x2d ∉ str "QUJD")). by vm_compute.
  - by vm_compute.
  - apply Nat.ltb_lt. by vm_compute.
Defined.

Lemma reformat_without_begin_witness :
  ∃ t, reformatPEMCertificate 100 (str "-----BEGIN X509 CERT------" ++ str "QUJD" ++ newline ++ E ++ []) =
       Val (three_lines (str "-----BEGIN X509 CERT------") t (E ++ [])) ∧
       broken (despace (str "QUJD")) t.
Proof.
  refine (reformat_without_begin 100 (str "-----BEGIN X509 CERT------") (str "QUJD") [] Byte.x0a
            _ _ _ _ _).
  - by vm_compute.
  - by vm_compute.
  - apply (bool_decide_unpack (Byte.x2d ∉ str "QUJD" ++ newline)). by vm_compute.
  - by vm_compute.
  - apply Nat.ltb_lt. by vm_compute.
Defined.
End Witnesses.
