(* ===== verification/Asn1Time.v ===== *)
(** * Time: [src/src/asn1time.cpp], [src/src/mococrw/asn1time.h] and the time
      functions of [src/src/openssl_wrap.cpp]

    A [time_t] is a 64 bit count of seconds, a [std::chrono::system_clock]
    time_point a 64 bit count of nanoseconds (libstdc++). *)

From S2P Require Import Prelude CheckCall Util Bio.

(** ** The OpenSSL functions *)

(** [diff from to] gives the return code, the days and the seconds. *)
Class Asn1TimeAPI {bio : BioAPI} := {
  ASN1_TIME : Type;
  SSL_ASN1_TIME_new : option ASN1_TIME;
  SSL_ASN1_TIME_set (t : Z) : option ASN1_TIME;
  SSL_ASN1_TIME_adj (t days seconds : Z) : option ASN1_TIME;
  SSL_ASN1_TIME_set_string (s : ASN1_TIME) (text : bytes) : Z * ASN1_TIME;
  SSL_ASN1_TIME_diff (from to : ASN1_TIME) : Z * (Z * Z);
  SSL_ASN1_STRING_dup (t : ASN1_TIME) : option ASN1_TIME;
  SSL_ASN1_STRING_print_ex (t : ASN1_TIME) : M BIO Z;
}.
Arguments Asn1TimeAPI bio : clear implicits.

(** ** Signed arithmetic: an overflow is undefined *)

Definition int_ (z : Z) : outcome Z :=
  if (INT_MIN <=? z) && (z <=? INT_MAX) then Val z else Throw UndefinedBehaviour.
Definition int64_ (z : Z) : outcome Z :=
  if (LONG_MIN <=? z) && (z <=? LONG_MAX) then Val z else Throw UndefinedBehaviour.

Lemma int_ok z : INT_MIN ≤ z ≤ INT_MAX → int_ z = Val z.
Proof.
  intros. unfold int_. destruct (Z.leb_spec INT_MIN z); [|lia].
  by destruct (Z.leb_spec z INT_MAX); [|lia].
Qed.
Lemma int64_ok z : LONG_MIN ≤ z ≤ LONG_MAX → int64_ z = Val z.
Proof.
  intros. unfold int64_. destruct (Z.leb_spec LONG_MIN z); [|lia].
  by destruct (Z.leb_spec z LONG_MAX); [|lia].
Qed.

(** ** The wrappers *)

Section Wrappers.
Context {bio : BioAPI} {api : Asn1TimeAPI bio}.

Definition _ASN1_TIME_diff (from to : ASN1_TIME) : outcome (Z * Z) :=
  let? (pday, psec) := run_pure (OpensslCallIsOne (ret (SSL_ASN1_TIME_diff from to))) in
  if ((pday <? 0) && (0 <? psec)) || ((0 <? pday) && (psec <? 0)) then
    Throw (OpenSSLException [Str "OpenSSL violates API convention"])
  else Val (pday, psec).

Definition _ASN1_TIME_from_time_t (t : Z) : outcome ASN1_TIME :=
  run_pure (OpensslCallPtr (ret (SSL_ASN1_TIME_set t))).

Definition _ASN1_TIME_new : outcome ASN1_TIME :=
  run_pure (OpensslCallPtr (ret SSL_ASN1_TIME_new)).

Definition _ASN1_TIME_copy (t : ASN1_TIME) : outcome ASN1_TIME :=
  match SSL_ASN1_STRING_dup t with
  | None => Throw (OpenSSLException [ErrorQueue])
  | Some s => Val s
  end.

Definition _ASN1_TIME_set_string (s : ASN1_TIME) (text : bytes) : outcome ASN1_TIME :=
  run_pure (OpensslCallIsPositive (ret (SSL_ASN1_TIME_set_string s text))).

Definition _ASN1_TIME_adj (t days seconds : Z) : outcome ASN1_TIME :=
  run_pure (OpensslCallPtr (ret (SSL_ASN1_TIME_adj t days seconds))).

Definition _ASN1_STRING_print_ex (t : ASN1_TIME) : M BIO () :=
  OpensslCallIsNonNegative (let! rv := SSL_ASN1_STRING_print_ex t in ret (rv, ())).

(** ** Comparison and conversion *)

Definition secondsDiffToEpoch (time : ASN1_TIME) : outcome Z :=
  let? epoch := _ASN1_TIME_from_time_t 0 in
  let? (days, seconds) := _ASN1_TIME_diff epoch time in
  int64_ (24 * 60 * 60 * days + seconds).

Inductive ComparisonResult := Lesser | Greater | Equal.

#[export] Instance ComparisonResult_eq_dec : EqDecision ComparisonResult.
Proof. solve_decision. Defined.

Definition minAsn1TimeAsTimeT : Z := -62167219200.
Definition maxAsn1TimeAsTimeT : Z := 253402300799.

Definition compare (asn1Time : ASN1_TIME) (timeT : Z) : outcome ComparisonResult :=
  if maxAsn1TimeAsTimeT <? timeT then Val Lesser
  else if timeT <? minAsn1TimeAsTimeT then Val Greater
  else
    let? timeTAsAsn1 := _ASN1_TIME_from_time_t timeT in
    let? (days, seconds) := _ASN1_TIME_diff asn1Time timeTAsAsn1 in
    if (days <? 0) || (seconds <? 0) then Val Greater
    else if (0 <? days) || (0 <? seconds) then Val Lesser
    else Val Equal.

Definition checkAsn1TimeFitsIntoLimits (time : ASN1_TIME) (minValue maxValue : Z) :
    outcome () :=
  let? lo := compare time minValue in
  if bool_decide (lo = Lesser) then
    Throw (OpenSSLException [Str "ASN1_TIME is too small for new range"])
  else
    let? hi := compare time maxValue in
    if bool_decide (hi = Greater) then
      Throw (OpenSSLException [Str "ASN1_TIME is too big for new range"])
    else Val ().

(** [system_clock::from_time_t] and [to_time_t], which truncates. *)
Definition from_time_t (t : Z) : outcome Z := int64_ (1000000000 * t).
Definition to_time_t (tp : Z) : Z := Z.quot tp 1000000000.

Definition _asn1TimeToTimePoint (time : ASN1_TIME) : outcome Z :=
  let? epoch := from_time_t 0 in
  let? _ := checkAsn1TimeFitsIntoLimits time (to_time_t LONG_MIN) (to_time_t LONG_MAX) in
  let? seconds := secondsDiffToEpoch time in
  let? d := int64_ (1000000000 * seconds) in
  int64_ (epoch + d).

Definition _asn1TimeToTimeT (time : ASN1_TIME) : outcome Z :=
  let? _ := checkAsn1TimeFitsIntoLimits time LONG_MIN LONG_MAX in
  secondsDiffToEpoch time.
End Wrappers.

(** ** Class [Asn1Time] *)

Module Asn1Time.
Section Asn1Time.
Context {bio : BioAPI} {api : Asn1TimeAPI bio}.

(** The constructor that copies an ASN1_TIME. *)
Definition copy (t : ASN1_TIME) : outcome ASN1_TIME := _ASN1_TIME_copy t.

Definition fromString (asn1TimeStr : bytes) : outcome ASN1_TIME :=
  let? asn1Time := _ASN1_TIME_new in
  _ASN1_TIME_set_string asn1Time (c_str asn1TimeStr).

Definition fromTimePoint (tp : Z) : outcome ASN1_TIME := _ASN1_TIME_from_time_t (to_time_t tp).
Definition fromTimeT (tt : Z) : outcome ASN1_TIME := _ASN1_TIME_from_time_t tt.

(** [clock] is what [std::chrono::system_clock::now] reads. *)
Definition now (clock : Z) : outcome ASN1_TIME := fromTimePoint clock.
Definition min : outcome ASN1_TIME := fromString (str "00000101000000Z").
Definition max : outcome ASN1_TIME := fromString (str "99991231235959Z").

Definition toTimePoint (t : ASN1_TIME) : outcome Z := _asn1TimeToTimePoint t.
Definition toTimeT (t : ASN1_TIME) : outcome Z := _asn1TimeToTimeT t.

Definition toString (fuel : nat) (t : ASN1_TIME) : outcome bytes :=
  with_bio (_ASN1_STRING_print_ex t ;; flushToString fuel).

(** [t + d]; the durations are seconds, [Chronodays] counts days in an [int]. *)
Definition plus (t : ASN1_TIME) (d : Z) : outcome ASN1_TIME :=
  let epoch := 0 in
  let? asn1Epoch := fromTimeT epoch in
  let? (days, seconds) := _ASN1_TIME_diff asn1Epoch t in
  if (INT_MAX * 86400 <? d) || (d <? INT_MIN * 86400) then
    Throw (MoCOCrWException [Str "Duration is too large for Asn1Time differences"])
  else
    let durationDays := to_int (Z.quot d 86400) in
    let? durationSeconds := int64_ (d - 86400 * durationDays) in
    let? seconds := int_ (seconds + to_int durationSeconds) in
    if ((0 <? days) && (INT_MAX - days <? durationDays)) ||
       ((days <? 0) && (durationDays <? INT_MIN - days)) then
      Throw (MoCOCrWException [Str "Duration would overflow Asn1Time"])
    else
      let? days := int_ (days + durationDays) in
      match _ASN1_TIME_adj epoch days seconds with
      | Throw (OpenSSLException w) =>
          Throw (MoCOCrWException (Str "Addition leaves Asn1Time range: " :: w))
      | o => o
      end.

(** [t - d] *)
Definition minus (t : ASN1_TIME) (d : Z) : outcome ASN1_TIME :=
  let? d' := int64_ (-1 * d) in plus t d'.

(** [t - other]: [24 * days] is computed as an [int]. *)
Definition diff (t other : ASN1_TIME) : outcome Z :=
  let? (days, seconds) := _ASN1_TIME_diff other t in
  let? hours := int_ (24 * days) in
  int64_ (3600 * hours + seconds).

Definition eq (t rhs : ASN1_TIME) : outcome bool := let? d := diff t rhs in Val (d =? 0).
Definition neq (t rhs : ASN1_TIME) : outcome bool := let? b := eq t rhs in Val (negb b).
Definition lt (t rhs : ASN1_TIME) : outcome bool := let? d := diff t rhs in Val (d <? 0).
Definition le (t rhs : ASN1_TIME) : outcome bool := let? d := diff t rhs in Val (d <=? 0).
Definition gt (t rhs : ASN1_TIME) : outcome bool := let? b := le t rhs in Val (negb b).
Definition ge (t rhs : ASN1_TIME) : outcome bool := let? b := lt t rhs in Val (negb b).
End Asn1Time.
End Asn1Time.

(** ** What OpenSSL promises

    A set ASN1_TIME is a number of seconds from the years 0 to 9999.  The
    difference of two is given in days and seconds that are truncated towards
    zero.  Setting fails outside the range.  Adjusting has a range of its own: it computes
    the date by the Gregorian calendar and refuses years before 1900 and after 9999, as
    [asn1time.h] says of the operators that use it.  (That either fails when memory is
    exhausted is left out.) *)
Definition year1900AsTimeT : Z := -2208988800.
Definition adjustable (s : Z) : Prop := year1900AsTimeT ≤ s ≤ maxAsn1TimeAsTimeT.

Class Asn1TimeSpec {bio : BioAPI} (api : Asn1TimeAPI bio) := {
  (** the time is set, and stands for that many seconds since 1970 *)
  stands_for : ASN1_TIME → Z → Prop;
  stands_for_range t s : stands_for t s → minAsn1TimeAsTimeT ≤ s ≤ maxAsn1TimeAsTimeT;
  time_set_spec z :
    match SSL_ASN1_TIME_set z with
    | Some t => stands_for t z
    | None => ¬ minAsn1TimeAsTimeT ≤ z ≤ maxAsn1TimeAsTimeT
    end;
  (** from the epoch, where the code starts *)
  time_adj_spec days seconds :
    match SSL_ASN1_TIME_adj 0 days seconds with
    | Some t => stands_for t (86400 * days + seconds) ∧ adjustable (86400 * days + seconds)
    | None => ¬ adjustable (86400 * days + seconds)
    end;
  time_diff_spec a b x y :
    stands_for a x → stands_for b y →
    SSL_ASN1_TIME_diff a b = (1, (Z.quot (y - x) 86400, Z.rem (y - x) 86400));
}.

Section Facts.
Context {bio : BioAPI} {api : Asn1TimeAPI bio} {spec : Asn1TimeSpec api}.

(** Days and seconds have the sign of the difference. *)
Lemma quot_rem_signs n :
  (0 ≤ n → 0 ≤ Z.quot n 86400 ∧ 0 ≤ Z.rem n 86400) ∧
  (n ≤ 0 → Z.quot n 86400 ≤ 0 ∧ Z.rem n 86400 ≤ 0) ∧
  -86400 < Z.rem n 86400 < 86400 ∧ n = 86400 * Z.quot n 86400 + Z.rem n 86400.
Proof.
  pose proof (Z.quot_rem n 86400 ltac:(lia)).
  pose proof (Z.rem_bound_abs n 86400 ltac:(lia)). split; [|split; [|lia]].
  - intros. pose proof (Z.rem_bound_pos n 86400). pose proof (Z.quot_pos n 86400). lia.
  - intros. pose proof (Z.rem_bound_pos (-n) 86400). pose proof (Z.quot_pos (-n) 86400).
    rewrite Z.quot_opp_l, Z.rem_opp_l in * by lia. lia.
Qed.

Lemma diff_ok a b x y : stands_for a x → stands_for b y →
  _ASN1_TIME_diff a b = Val (Z.quot (y - x) 86400, Z.rem (y - x) 86400).
Proof.
  intros Ha Hb. unfold _ASN1_TIME_diff. rewrite run_pure_IsOne, (time_diff_spec a b x y) by done.
  cbn -[Z.quot Z.rem]. destruct (quot_rem_signs (y - x)) as (Hp & Hn & _ & _).
  destruct (Z.ltb_spec (Z.quot (y - x) 86400) 0), (Z.ltb_spec 0 (Z.rem (y - x) 86400)),
    (Z.ltb_spec 0 (Z.quot (y - x) 86400)), (Z.ltb_spec (Z.rem (y - x) 86400) 0); try done;
    destruct (Z.le_ge_cases 0 (y - x)); lia.
Qed.

Lemma from_time_t_ok z : minAsn1TimeAsTimeT ≤ z ≤ maxAsn1TimeAsTimeT →
  ∃ t, _ASN1_TIME_from_time_t z = Val t ∧ stands_for t z.
Proof.
  intros Hz. unfold _ASN1_TIME_from_time_t. rewrite run_pure_Ptr.
  pose proof (time_set_spec z) as Hs. destruct (SSL_ASN1_TIME_set z) as [t|]; [|done]. by exists t.
Qed.

Lemma from_time_t_inv z t : _ASN1_TIME_from_time_t z = Val t → stands_for t z.
Proof.
  unfold _ASN1_TIME_from_time_t. rewrite run_pure_Ptr. pose proof (time_set_spec z) as Hs.
  destruct (SSL_ASN1_TIME_set z); [|done]. by intros [= <-].
Qed.

(** The difference of two times fits: at most 3652424 days. *)
Lemma quot_range n : -315569519999 ≤ n ≤ 315569519999 →
  -3652424 ≤ Z.quot n 86400 ≤ 3652424.
Proof. destruct (quot_rem_signs n) as (Hp & Hn & Hr & He). intros. lia. Qed.

Lemma stands_for_diff a b x y : stands_for a x → stands_for b y →
  -315569519999 ≤ y - x ≤ 315569519999.
Proof.
  intros Ha%stands_for_range Hb%stands_for_range.
  unfold minAsn1TimeAsTimeT, maxAsn1TimeAsTimeT in *. lia.
Qed.

Lemma secondsDiffToEpoch_ok t x : stands_for t x → secondsDiffToEpoch t = Val x.
Proof.
  intros Ht. unfold secondsDiffToEpoch.
  destruct (from_time_t_ok 0) as (e & -> & He);
    [unfold minAsn1TimeAsTimeT, maxAsn1TimeAsTimeT; lia|].
  cbn [obind]. rewrite (diff_ok e t 0 x) by done. cbn [obind].
  destruct (quot_rem_signs (x - 0)) as (_ & _ & _ & Hx).
  replace (24 * 60 * 60 * Z.quot (x - 0) 86400 + Z.rem (x - 0) 86400) with x by lia.
  apply int64_ok. apply stands_for_range in Ht.
  unfold minAsn1TimeAsTimeT, maxAsn1TimeAsTimeT, LONG_MIN, LONG_MAX in *. lia.
Qed.

Lemma compare_ok t x z : stands_for t x →
  compare t z = Val (if x <? z then Lesser else if z <? x then Greater else Equal).
Proof.
  intros Ht. pose proof (stands_for_range _ _ Ht) as Hr. unfold compare.
  unfold minAsn1TimeAsTimeT, maxAsn1TimeAsTimeT in *.
  destruct (Z.ltb_spec 253402300799 z).
  { by destruct (Z.ltb_spec x z); [|lia]. }
  destruct (Z.ltb_spec z (-62167219200)).
  { destruct (Z.ltb_spec x z); [lia|]. by destruct (Z.ltb_spec z x); [|lia]. }
  destruct (from_time_t_ok z) as (e & -> & He);
    [unfold minAsn1TimeAsTimeT, maxAsn1TimeAsTimeT; lia|].
  cbn [obind]. rewrite (diff_ok t e x z) by done. cbn [obind].
  destruct (quot_rem_signs (z - x)) as (Hp & Hn & Hb & Heq).
  destruct (Z.ltb_spec (Z.quot (z - x) 86400) 0), (Z.ltb_spec (Z.rem (z - x) 86400) 0),
    (Z.ltb_spec 0 (Z.quot (z - x) 86400)), (Z.ltb_spec 0 (Z.rem (z - x) 86400));
    cbn [orb]; destruct (Z.ltb_spec x z), (Z.ltb_spec z x); try done; lia.
Qed.

Lemma limits_ok t x lo hi : stands_for t x →
  checkAsn1TimeFitsIntoLimits t lo hi =
    if x <? lo then Throw (OpenSSLException [Str "ASN1_TIME is too small for new range"])
    else if hi <? x then Throw (OpenSSLException [Str "ASN1_TIME is too big for new range"])
    else Val ().
Proof.
  intros Ht. unfold checkAsn1TimeFitsIntoLimits. rewrite !(compare_ok t x) by done. cbn [obind].
  destruct (Z.ltb_spec x lo), (Z.ltb_spec lo x), (Z.ltb_spec x hi), (Z.ltb_spec hi x);
    try done; lia.
Qed.
End Facts.

(** ** Properties *)

Section Properties.
Context {bio : BioAPI} {api : Asn1TimeAPI bio} {spec : Asn1TimeSpec api}.

Lemma toTimeT_ok t x : stands_for t x → Asn1Time.toTimeT t = Val x.
Proof.
  intros Ht. unfold Asn1Time.toTimeT, _asn1TimeToTimeT.
  rewrite (limits_ok t x), (secondsDiffToEpoch_ok t x) by done.
  apply stands_for_range in Ht.
  unfold minAsn1TimeAsTimeT, maxAsn1TimeAsTimeT, LONG_MIN, LONG_MAX in *.
  destruct (Z.ltb_spec x (-9223372036854775808)); [lia|].
  by destruct (Z.ltb_spec 9223372036854775807 x); [lia|].
Qed.

Lemma difference_ok t1 t2 x1 x2 : stands_for t1 x1 → stands_for t2 x2 →
  Asn1Time.diff t1 t2 = Val (x1 - x2).
Proof.
  intros H1 H2. unfold Asn1Time.diff. rewrite (diff_ok t2 t1 x2 x1) by done. cbn [obind].
  pose proof (stands_for_diff t2 t1 x2 x1 H2 H1) as Hb.
  pose proof (quot_range _ Hb). destruct (quot_rem_signs (x1 - x2)) as (_ & _ & _ & He).
  rewrite int_ok by (unfold INT_MIN, INT_MAX; lia). cbn [obind].
  rewrite int64_ok by (unfold LONG_MIN, LONG_MAX; lia). f_equal. lia.
Qed.

Lemma time_compare_spec t1 t2 x1 x2 : stands_for t1 x1 → stands_for t2 x2 →
  Asn1Time.lt t1 t2 = Val (x1 <? x2) ∧ Asn1Time.gt t1 t2 = Val (x2 <? x1).
Proof.
  intros H1 H2. unfold Asn1Time.gt, Asn1Time.lt, Asn1Time.le.
  rewrite (difference_ok t1 t2 x1 x2) by done. cbn [obind]. split; f_equal.
  - destruct (Z.ltb_spec (x1 - x2) 0), (Z.ltb_spec x1 x2); lia.
  - destruct (Z.leb_spec (x1 - x2) 0), (Z.ltb_spec x2 x1); cbn; lia.
Qed.

(** Outside what an [int] of days can hold no time is left. *)
Lemma plus_spec (t : ASN1_TIME) (x d : Z) :
  stands_for t x →
  match Asn1Time.plus t d with
  | Val t' => stands_for t' (x + d) ∧ adjustable (x + d)
  | Throw (MoCOCrWException _) => ¬ adjustable (x + d)
  | Throw _ => False
  end.
Proof.
  intros Ht. unfold Asn1Time.plus, Asn1Time.fromTimeT.
  destruct (from_time_t_ok 0) as (e & -> & He);
    [unfold minAsn1TimeAsTimeT, maxAsn1TimeAsTimeT; lia|].
  cbn [obind]. rewrite (diff_ok e t 0 x), Z.sub_0_r by done. cbn [obind].
  pose proof (stands_for_range _ _ Ht) as Hx.
  destruct (quot_rem_signs x) as (Hxp & Hxn & Hxr & Hxe).
  destruct (quot_rem_signs d) as (Hdp & Hdn & Hdr & Hde).
  set (xd := Z.quot x 86400) in *. set (xs := Z.rem x 86400) in *.
  set (dd := Z.quot d 86400) in *. set (ds := Z.rem d 86400) in *.
  unfold adjustable, year1900AsTimeT, minAsn1TimeAsTimeT, maxAsn1TimeAsTimeT, INT_MAX, INT_MIN in *.
  destruct (Z.ltb_spec (2147483647 * 86400) d); [cbn; lia|].
  destruct (Z.ltb_spec d (-2147483648 * 86400)); [cbn; lia|]. cbn [orb].
  rewrite (to_int_id dd) by (unfold INT_MAX, INT_MIN; lia).
  replace (d - 86400 * dd) with ds by lia.
  rewrite int64_ok by (unfold LONG_MAX, LONG_MIN; lia). cbn [obind].
  rewrite (to_int_id ds) by (unfold INT_MAX, INT_MIN; lia).
  rewrite int_ok by (unfold INT_MAX, INT_MIN; lia). cbn [obind].
  destruct (Z.ltb_spec 0 xd), (Z.ltb_spec (2147483647 - xd) dd), (Z.ltb_spec xd 0),
    (Z.ltb_spec dd (-2147483648 - xd)); cbn [andb orb]; try lia;
  (rewrite int_ok by (unfold INT_MAX, INT_MIN; lia); cbn [obind];
   unfold _ASN1_TIME_adj; rewrite run_pure_Ptr;
   pose proof (time_adj_spec (xd + dd) (xs + ds)) as Hadj;
   replace (86400 * (xd + dd) + (xs + ds)) with (x + d) in Hadj by lia;
   by destruct SSL_ASN1_TIME_adj).
Qed.

(** C38. Adding a duration: the sum, or a MoCOCrWException exactly when the sum leaves
    the years 1900 to 9999, as documented, whatever year of 0 to 9999 the time is from; no
    [int] overflows on the way, whatever the duration.  Exhausted memory is left out. *)
Theorem asn1_plus (t : ASN1_TIME) (x d : Z) (Ht : stands_for t x)
    (Hd : LONG_MIN ≤ d ≤ LONG_MAX) :
  match Asn1Time.plus t d with
  | Val t' => stands_for t' (x + d) ∧ adjustable (x + d)
  | Throw (MoCOCrWException _) => ¬ adjustable (x + d)
  | Throw _ => False
  end.
Proof. by apply plus_spec. Qed.

(** Subtracting a duration: as adding its opposite, except that the smallest
    duration has none, and negating it is undefined. *)
Theorem asn1_minus (t : ASN1_TIME) (x d : Z) (Ht : stands_for t x)
    (Hd : LONG_MIN ≤ d ≤ LONG_MAX) :
  match Asn1Time.minus t d with
  | Val t' => stands_for t' (x - d) ∧ adjustable (x - d)
  | Throw (MoCOCrWException _) => ¬ adjustable (x - d)
  | Throw e => e = UndefinedBehaviour ∧ d = LONG_MIN
  end.
Proof.
  unfold Asn1Time.minus. destruct (decide (d = LONG_MIN)) as [->|Hne]; [done|].
  rewrite int64_ok by (unfold LONG_MIN, LONG_MAX in *; lia). cbn [obind].
  pose proof (plus_spec t x (-1 * d) Ht) as Hp.
  replace (x + -1 * d) with (x - d) in Hp by lia.
  destruct (Asn1Time.plus t (-1 * d)) as [t'|[]]; done.
Qed.

(** The difference of two times is what has to be added to the second to get
    the first - which works from 1900 on; no duration leads to an earlier time - and the
    comparison operators compare the points in time. *)
Theorem asn1_difference (t1 t2 : ASN1_TIME) (x1 x2 : Z)
    (H1 : stands_for t1 x1) (H2 : stands_for t2 x2) :
  Asn1Time.diff t1 t2 = Val (x1 - x2) ∧
  (adjustable x1 → ∃ t, Asn1Time.plus t2 (x1 - x2) = Val t ∧ stands_for t x1) ∧
  (¬ adjustable x1 → is_val (Asn1Time.plus t2 (x1 - x2)) = false) ∧
  Asn1Time.eq t1 t2 = Val (x1 =? x2) ∧ Asn1Time.neq t1 t2 = Val (negb (x1 =? x2)) ∧
  Asn1Time.lt t1 t2 = Val (x1 <? x2) ∧ Asn1Time.le t1 t2 = Val (x1 <=? x2) ∧
  Asn1Time.gt t1 t2 = Val (x2 <? x1) ∧ Asn1Time.ge t1 t2 = Val (x2 <=? x1).
Proof.
  pose proof (difference_ok t1 t2 x1 x2 H1 H2) as Hdiff.
  pose proof (plus_spec t2 x2 (x1 - x2) H2) as Hp. rewrite Zplus_minus in Hp.
  split; [done|]. split.
  { intros Hx. destruct (Asn1Time.plus t2 (x1 - x2)) as [t|[]]; try done.
    destruct Hp as [Hp _]. by exists t. }
  split.
  { intros Hx. by destruct (Asn1Time.plus t2 (x1 - x2)) as [t|e]; [destruct Hp|]. }
  unfold Asn1Time.neq, Asn1Time.gt, Asn1Time.ge, Asn1Time.eq, Asn1Time.lt, Asn1Time.le.
  rewrite Hdiff. cbn [obind].
  split_and!; f_equal;
    destruct (Z.eqb_spec (x1 - x2) 0), (Z.eqb_spec x1 x2), (Z.ltb_spec (x1 - x2) 0),
      (Z.ltb_spec x1 x2), (Z.ltb_spec x2 x1), (Z.leb_spec (x1 - x2) 0), (Z.leb_spec x1 x2),
      (Z.leb_spec x2 x1); first [done | exfalso; lia].
Qed.

(** Conversions: every time fits into a [time_t]; a time_point holds the times
    up to 2^63 nanoseconds from 1970, for the others the conversion throws an
    OpenSSLException; the multiplication with the nanoseconds does not overflow. *)
Theorem asn1_conversions (t : ASN1_TIME) (x : Z) (Ht : stands_for t x) :
  Asn1Time.toTimeT t = Val x ∧
  (∃ t', Asn1Time.fromTimeT x = Val t' ∧ stands_for t' x) ∧
  match Asn1Time.toTimePoint t with
  | Val tp => tp = 1000000000 * x ∧
              ∃ t', Asn1Time.fromTimePoint tp = Val t' ∧ stands_for t' x
  | Throw (OpenSSLException _) => ¬ -9223372036 ≤ x ≤ 9223372036
  | Throw _ => False
  end.
Proof.
  pose proof (stands_for_range _ _ Ht) as Hr.
  split; [by apply toTimeT_ok|split; [by apply from_time_t_ok|]].
  - unfold Asn1Time.toTimePoint, _asn1TimeToTimePoint.
    rewrite (limits_ok t x), (secondsDiffToEpoch_ok t x) by done. change (from_time_t 0) with (@Val Z 0). cbn [obind].
    change (to_time_t LONG_MIN) with (-9223372036). change (to_time_t LONG_MAX) with 9223372036.
    destruct (Z.ltb_spec x (-9223372036)); [cbn; lia|].
    destruct (Z.ltb_spec 9223372036 x); [cbn; lia|]. cbn [obind].
    rewrite int64_ok by (unfold LONG_MIN, LONG_MAX; lia). cbn [obind].
    rewrite int64_ok by (unfold LONG_MIN, LONG_MAX; lia). split; [lia|].
    unfold Asn1Time.fromTimePoint, to_time_t. rewrite Z.add_0_l, Z.mul_comm, Z.quot_mul by lia.
    by apply from_time_t_ok.
Qed.
End Properties.

(** ** Times as numbers *)

Module NumberTime.
Definition in_range (z : Z) : bool :=
  (minAsn1TimeAsTimeT <=? z) && (z <=? maxAsn1TimeAsTimeT).
Definition number (z : Z) : option (option Z) := if in_range z then Some (Some z) else None.

#[export] Instance api : Asn1TimeAPI MemBio.api := {
  ASN1_TIME := option Z;
  SSL_ASN1_TIME_new := Some None;
  SSL_ASN1_TIME_set z := number z;
  SSL_ASN1_TIME_adj z days seconds :=
    let s := z + 86400 * days + seconds in
    if year1900AsTimeT <=? s then number s else None;
  SSL_ASN1_TIME_set_string s text :=
    if bool_decide (text = str "00000101000000Z") then (1, Some minAsn1TimeAsTimeT)
    else if bool_decide (text = str "99991231235959Z") then (1, Some maxAsn1TimeAsTimeT)
    else (0, s);
  SSL_ASN1_TIME_diff a b :=
    match a, b with
    | Some x, Some y => (1, (Z.quot (y - x) 86400, Z.rem (y - x) 86400))
    | _, _ => (0, (0, 0))
    end;
  SSL_ASN1_STRING_dup t := Some t;
  SSL_ASN1_STRING_print_ex t := ret 0;
}.

Lemma in_range_spec z :
  if in_range z then minAsn1TimeAsTimeT ≤ z ≤ maxAsn1TimeAsTimeT
  else ¬ minAsn1TimeAsTimeT ≤ z ≤ maxAsn1TimeAsTimeT.
Proof.
  unfold in_range. destruct (Z.leb_spec minAsn1TimeAsTimeT z), (Z.leb_spec z maxAsn1TimeAsTimeT);
    cbn; lia.
Qed.

#[export] Instance spec : Asn1TimeSpec api.
Proof.
  refine {| stands_for (t : @ASN1_TIME _ api) s := t = Some s ∧ in_range s = true |}.
  - intros t s [_ Hs]. pose proof (in_range_spec s). by rewrite Hs in *.
  - intros z. cbn. unfold number. pose proof (in_range_spec z). by destruct (in_range z) eqn:Hz.
  - intros d s. cbn. rewrite Z.add_0_l. unfold number, adjustable.
    pose proof (in_range_spec (86400 * d + s)).
    assert (minAsn1TimeAsTimeT < year1900AsTimeT) by done.
    destruct (Z.leb_spec year1900AsTimeT (86400 * d + s)); [|lia].
    destruct (in_range (86400 * d + s)) eqn:Hz; [|lia]. by split; [|lia].
  - by intros a b x y [-> _] [-> _].
Defined.

(** 2000-01-01 and the last second of 9999. *)
Definition y2k : @ASN1_TIME _ api := Some 946684800.
Definition last : @ASN1_TIME _ api := Some maxAsn1TimeAsTimeT.

Lemma y2k_ok : stands_for y2k 946684800.
Proof. done. Qed.
Lemma last_ok : stands_for last maxAsn1TimeAsTimeT.
Proof. done. Qed.

Lemma asn1_plus_witness :
  match Asn1Time.plus last 1 with
  | Val t' => stands_for t' (maxAsn1TimeAsTimeT + 1) ∧ adjustable (maxAsn1TimeAsTimeT + 1)
  | Throw (MoCOCrWException _) => ¬ adjustable (maxAsn1TimeAsTimeT + 1)
  | Throw _ => False
  end ∧ is_val (Asn1Time.plus last 1) = false ∧
  is_val (Asn1Time.plus y2k (year1900AsTimeT - 946684800)) = true ∧
  is_val (Asn1Time.plus y2k (year1900AsTimeT - 946684801)) = false.
Proof.
  split; [|split_and!; by vm_compute].
  exact (asn1_plus last maxAsn1TimeAsTimeT 1 last_ok
           ltac:(unfold LONG_MIN, LONG_MAX; lia)).
Defined.

Lemma asn1_minus_witness :
  match Asn1Time.minus y2k LONG_MIN with
  | Val t' => stands_for t' (946684800 - LONG_MIN) ∧ adjustable (946684800 - LONG_MIN)
  | Throw (MoCOCrWException _) => ¬ adjustable (946684800 - LONG_MIN)
  | Throw e => e = UndefinedBehaviour ∧ LONG_MIN = LONG_MIN
  end ∧ Asn1Time.minus y2k LONG_MIN = Throw UndefinedBehaviour.
Proof.
  split; [|by vm_compute].
  exact (asn1_minus y2k 946684800 LONG_MIN y2k_ok ltac:(unfold LONG_MIN, LONG_MAX; lia)).
Defined.

Lemma asn1_difference_witness :
  Asn1Time.lt y2k last = Val true ∧
  Asn1Time.diff last y2k = Val (maxAsn1TimeAsTimeT - 946684800).
Proof.
  split; [by vm_compute|].
  exact (proj1 (asn1_difference last y2k maxAsn1TimeAsTimeT 946684800 last_ok y2k_ok)).
Defined.

Lemma asn1_conversions_witness :
  Asn1Time.toTimeT last = Val maxAsn1TimeAsTimeT ∧
  is_val (Asn1Time.toTimePoint last) = false ∧ is_val (Asn1Time.toTimePoint y2k) = true.
Proof.
  split; [|split; by vm_compute].
  exact (proj1 (asn1_conversions last maxAsn1TimeAsTimeT last_ok)).
Defined.
End NumberTime.
