(* ===== verification/DistinguishedName.v ===== *)
(** * Distinguished names: [src/src/distinguished_name.cpp] and
      [src/src/mococrw/distinguished_name.h]

    A name is a list of attributes; it is written to and read from OpenSSL's
    X509_NAME.  Pointers to an X509_NAME are the objects they point to, so the
    checks for a nullptr have no counterpart. *)

From S2P Require Import Prelude CheckCall Util Bio.

Inductive ASN1_NID :=
| CommonName | CountryName | LocalityName | StateOrProvinceName | OrganizationalUnitName
| OrganizationName | Pkcs9EmailAddress | SerialNumber | GivenName | UserId | Title.
Inductive ASN1_Name_Entry_Type := UTF8String | ASCIIString.

#[export] Instance ASN1_NID_eq_dec : EqDecision ASN1_NID.
Proof. solve_decision. Defined.

(** ** The OpenSSL functions *)

(** [SSL_ASN1_STRING_print_ex] is the printing function on the data of an entry. *)
Class X509NameAPI {bio : BioAPI} := {
  X509_NAME : Type;
  X509_NAME_ENTRY : Type;
  ASN1_STRING : Type;
  SSL_X509_NAME_new : option X509_NAME;
  SSL_X509_NAME_add_entry_by_NID (name : X509_NAME) (nid : ASN1_NID)
    (type : ASN1_Name_Entry_Type) (data : bytes) (len loc set : Z) : Z * X509_NAME;
  SSL_X509_NAME_get_index_by_NID (name : X509_NAME) (nid : ASN1_NID) (lastpos : Z) : Z;
  SSL_X509_NAME_get_entry (name : X509_NAME) (loc : Z) : option X509_NAME_ENTRY;
  SSL_X509_NAME_ENTRY_get_data (entry : X509_NAME_ENTRY) : option ASN1_STRING;
  SSL_ASN1_STRING_print_data (s : ASN1_STRING) : M BIO Z;
}.
Arguments X509NameAPI bio : clear implicits.

Section Wrappers.
Context {bio : BioAPI} {api : X509NameAPI bio}.

Definition _X509_NAME_new : outcome X509_NAME :=
  run_pure (OpensslCallPtr (ret SSL_X509_NAME_new)).

(** The entry is appended ([loc] = -1) as a new RDN ([set] = 0). *)
Definition _X509_NAME_add_entry_by_NID (nid : ASN1_NID) (type : ASN1_Name_Entry_Type)
    (data : bytes) : M X509_NAME () :=
  OpensslCallIsOne (λ name,
    let '(rv, name') :=
      SSL_X509_NAME_add_entry_by_NID name nid type data (to_int (size data)) (-1) 0 in
    (Val (rv, ()), name')).

(** The loop on [rv] and [result]. *)
Definition get_index_body (name : X509_NAME) (nid : ASN1_NID) (st : Z * list Z) :
    outcome (Z * list Z + list Z) :=
  let '(rv, result) := st in
  if negb (rv =? -1) then
    Val (inl (SSL_X509_NAME_get_index_by_NID name nid rv, result ++ [rv]))
  else Val (inr result).

Definition _X509_NAME_get_index_by_NID (fuel : nat) (name : X509_NAME) (nid : ASN1_NID) :
    outcome (list Z) :=
  oiter fuel (get_index_body name nid) (SSL_X509_NAME_get_index_by_NID name nid (-1), []).

Definition _X509_NAME_get_entry (name : X509_NAME) (loc : Z) : outcome X509_NAME_ENTRY :=
  run_pure (OpensslCallPtr (ret (SSL_X509_NAME_get_entry name loc))).

Definition _X509_NAME_ENTRY_get_data (fuel : nat) (entry : X509_NAME_ENTRY) : outcome bytes :=
  let? data := run_pure (OpensslCallPtr (ret (SSL_X509_NAME_ENTRY_get_data entry))) in
  with_bio (OpensslCallIsNonNegative
              (let! rv := SSL_ASN1_STRING_print_data data in ret (rv, ())) ;;
            flushToString fuel).
End Wrappers.

(** ** Class [DistinguishedName] *)

Record Attribute := mkAttribute { a_id : ASN1_NID; a_name : bytes }.

#[export] Instance Attribute_eq_dec : EqDecision Attribute.
Proof. solve_decision. Defined.

Record DistinguishedName := mkDN {
  _attributes : list Attribute;
  _customAttributeOrderFlag : bool;
}.

Module DN.
(** The last attribute with the given id. *)
Definition _getAttributeByNID (dn : DistinguishedName) (id : ASN1_NID) : option Attribute :=
  snd <$> list_find (λ a, a_id a = id) (reverse (_attributes dn)).

Definition _getAttributeByNIDAsString (dn : DistinguishedName) (id : ASN1_NID) : bytes :=
  match _getAttributeByNID dn id with Some a => a_name a | None => [] end.

Definition commonName dn := _getAttributeByNIDAsString dn CommonName.
Definition countryName dn := _getAttributeByNIDAsString dn CountryName.
Definition localityName dn := _getAttributeByNIDAsString dn LocalityName.
Definition stateOrProvinceName dn := _getAttributeByNIDAsString dn StateOrProvinceName.
Definition organizationalUnitName dn := _getAttributeByNIDAsString dn OrganizationalUnitName.
Definition organizationName dn := _getAttributeByNIDAsString dn OrganizationName.
Definition pkcs9EmailAddress dn := _getAttributeByNIDAsString dn Pkcs9EmailAddress.
Definition serialNumber dn := _getAttributeByNIDAsString dn SerialNumber.
Definition givenName dn := _getAttributeByNIDAsString dn GivenName.
Definition userId dn := _getAttributeByNIDAsString dn UserId.
Definition title dn := _getAttributeByNIDAsString dn Title.

Definition _createTuple (dn : DistinguishedName) : list bytes :=
  [commonName dn; countryName dn; localityName dn; stateOrProvinceName dn;
   organizationalUnitName dn; organizationName dn; pkcs9EmailAddress dn; serialNumber dn;
   userId dn; givenName dn; title dn].

(** [operator==] and [operator!=] *)
Definition eq (dn other : DistinguishedName) : bool :=
  if _customAttributeOrderFlag dn && _customAttributeOrderFlag other then
    bool_decide (_attributes dn = _attributes other)
  else bool_decide (_createTuple dn = _createTuple other).
Definition neq (dn other : DistinguishedName) : bool := negb (eq dn other).

Section X509.
Context {bio : BioAPI} {api : X509NameAPI bio}.

Definition _addString (attribute : option Attribute) : M X509_NAME () :=
  match attribute with
  | None => ret ()
  | Some a =>
      match a_name a with
      | [] => ret ()
      | _ => _X509_NAME_add_entry_by_NID (a_id a) ASCIIString (a_name a)
      end
  end.

Definition populateX509Name (dn : DistinguishedName) : M X509_NAME () :=
  if _customAttributeOrderFlag dn then
    mapM_ (λ it, _addString (Some it)) (_attributes dn)
  else
    _addString (_getAttributeByNID dn CommonName) ;;
    _addString (_getAttributeByNID dn CountryName) ;;
    _addString (_getAttributeByNID dn LocalityName) ;;
    _addString (_getAttributeByNID dn StateOrProvinceName) ;;
    _addString (_getAttributeByNID dn OrganizationalUnitName) ;;
    _addString (_getAttributeByNID dn OrganizationName) ;;
    _addString (_getAttributeByNID dn Pkcs9EmailAddress) ;;
    _addString (_getAttributeByNID dn SerialNumber) ;;
    _addString (_getAttributeByNID dn GivenName) ;;
    _addString (_getAttributeByNID dn UserId) ;;
    _addString (_getAttributeByNID dn Title).

(** [indices.at(0)] is in range. *)
Definition _getEntryByNIDAsString (fuel : nat) (x509 : X509_NAME) (nid : ASN1_NID) :
    outcome bytes :=
  let? indices := _X509_NAME_get_index_by_NID fuel x509 nid in
  match indices with
  | [] => Val []
  | i :: _ => let? entry := _X509_NAME_get_entry x509 i in _X509_NAME_ENTRY_get_data fuel entry
  end.
End X509.
End DN.

(** ** Classes [Builder] and [CustomOrderBuilder]

    A builder is the name it builds. *)

Module DNBuilder.
Definition new : DistinguishedName := mkDN [] false.
Definition new_custom : DistinguishedName := mkDN [] true.

Definition emplace_back (id : ASN1_NID) (name : bytes) (dn : DistinguishedName) :
    DistinguishedName :=
  mkDN (_attributes dn ++ [mkAttribute id name]) (_customAttributeOrderFlag dn).

Definition commonName := emplace_back CommonName.
Definition countryName (name : bytes) (dn : DistinguishedName) : outcome DistinguishedName :=
  if 2 <? size name then
    Throw (RuntimeError [Str "The country name must not exceed two characters"])
  else Val (emplace_back CountryName name dn).
Definition localityName := emplace_back LocalityName.
Definition stateOrProvinceName := emplace_back StateOrProvinceName.
Definition organizationalUnitName := emplace_back OrganizationalUnitName.
Definition organizationName := emplace_back OrganizationName.
Definition pkcs9EmailAddress := emplace_back Pkcs9EmailAddress.
Definition serialNumber := emplace_back SerialNumber.
Definition givenName := emplace_back GivenName.
Definition userId := emplace_back UserId.
Definition title := emplace_back Title.
End DNBuilder.

Section FromX509.
Context {bio : BioAPI} {api : X509NameAPI bio}.

Definition fromX509Name (fuel : nat) (x509 : X509_NAME) : outcome DistinguishedName :=
  let entry := DN._getEntryByNIDAsString fuel x509 in
  let builder := DNBuilder.new in
  let? v := entry CommonName in let builder := DNBuilder.commonName v builder in
  let? v := entry CountryName in let? builder := DNBuilder.countryName v builder in
  let? v := entry LocalityName in let builder := DNBuilder.localityName v builder in
  let? v := entry StateOrProvinceName in
  let builder := DNBuilder.stateOrProvinceName v builder in
  let? v := entry OrganizationalUnitName in
  let builder := DNBuilder.organizationalUnitName v builder in
  let? v := entry OrganizationName in let builder := DNBuilder.organizationName v builder in
  let? v := entry Pkcs9EmailAddress in let builder := DNBuilder.pkcs9EmailAddress v builder in
  let? v := entry SerialNumber in let builder := DNBuilder.serialNumber v builder in
  let? v := entry GivenName in let builder := DNBuilder.givenName v builder in
  let? v := entry UserId in let builder := DNBuilder.userId v builder in
  let? v := entry Title in let builder := DNBuilder.title v builder in
  Val builder.
End FromX509.

(** ** What OpenSSL promises

    A name is a list of entries; text of printable ASCII characters is given back
    the way it was added. *)

Definition ascii (b : Byte.byte) : bool := byte_val b <? 128.

Class X509NameSpec {bio : BioAPI} {bio_spec : BioSpec bio} (api : X509NameAPI bio) := {
  x509_name : X509_NAME → list (ASN1_NID * bytes) → Prop;
  entry_is : X509_NAME_ENTRY → bytes → Prop;
  data_is : ASN1_STRING → bytes → Prop;
  (** the sizes and alphabets that X.520 has for the values of an attribute *)
  value_fits : ASN1_NID → bytes → Prop;
  name_new_spec n : SSL_X509_NAME_new = Some n → x509_name n [];
  name_add_spec n l nid v :
    x509_name n l → Forall (λ b, ascii b = true) v →
    (SSL_X509_NAME_add_entry_by_NID n nid ASCIIString v (size v) (-1) 0).1 = 1 →
    x509_name (SSL_X509_NAME_add_entry_by_NID n nid ASCIIString v (size v) (-1) 0).2
      (l ++ [(nid, v)]);
  name_index_spec n l nid last :
    x509_name n l → -1 ≤ last →
    let i := SSL_X509_NAME_get_index_by_NID n nid last in
    (i = -1 ∧ ∀ j : nat, last < Z.of_nat j → fst <$> l !! j ≠ Some nid) ∨
    (last < i < size l ∧ fst <$> l !! Z.to_nat i = Some nid ∧
     ∀ j : nat, last < Z.of_nat j < i → fst <$> l !! j ≠ Some nid);
  name_entry_spec n l i nid v :
    x509_name n l → l !! Z.to_nat i = Some (nid, v) → 0 ≤ i →
    ∃ e, SSL_X509_NAME_get_entry n i = Some e ∧ entry_is e v;
  entry_data_spec e v : entry_is e v →
    ∃ d, SSL_X509_NAME_ENTRY_get_data e = Some d ∧ data_is d v;
  data_print_spec d v b w :
    data_is d v → mem_bio b w →
    wp_total (SSL_ASN1_STRING_print_data d) b (λ rv b', 0 ≤ rv ∧ mem_bio b' (w ++ v));
}.

(** Memory is there, and values that fit are added. *)
Record X509NameWorks {bio : BioAPI} {bio_spec : BioSpec bio} {api : X509NameAPI bio}
    (spec : X509NameSpec api) : Prop := {
  name_bio_works : BioWorks bio_spec;
  name_new_works : SSL_X509_NAME_new ≠ None;
  name_add_works n l nid v :
    x509_name n l → Forall (λ b, ascii b = true) v → value_fits nid v →
    (SSL_X509_NAME_add_entry_by_NID n nid ASCIIString v (size v) (-1) 0).1 = 1;
}.

(** ** Facts *)

(** The names a builder can build. *)
Inductive built : DistinguishedName → Prop :=
| built_new : built DNBuilder.new
| built_custom : built DNBuilder.new_custom
| built_country v dn dn' : built dn → DNBuilder.countryName v dn = Val dn' → built dn'
| built_other id v dn : built dn → id ≠ CountryName → built (DNBuilder.emplace_back id v dn).

(** Their country names have at most two characters. *)
Lemma built_countries dn : built dn →
  Forall (λ a, a_id a = CountryName → size (a_name a) ≤ 2) (_attributes dn).
Proof.
  induction 1 as [| |v dn dn' _ IH Hv|id v dn _ IH Hid]; try by apply Forall_nil_2.
  - unfold DNBuilder.countryName in Hv. destruct (Z.ltb_spec 2 (size v)); [done|].
    injection Hv as <-. apply Forall_app. split; [done|]. by apply Forall_singleton.
  - apply Forall_app. split; [done|]. by apply Forall_singleton.
Qed.

Definition order : list ASN1_NID :=
  [CommonName; CountryName; LocalityName; StateOrProvinceName; OrganizationalUnitName;
   OrganizationName; Pkcs9EmailAddress; SerialNumber; GivenName; UserId; Title].

Lemma in_order nid : nid ∈ order.
Proof. apply (bool_decide_unpack (nid ∈ order)). by destruct nid; vm_compute. Qed.

(** The attributes that are passed to [_addString], and the entries they make. *)
Definition added (dn : DistinguishedName) : list (option Attribute) :=
  if _customAttributeOrderFlag dn then Some <$> _attributes dn
  else DN._getAttributeByNID dn <$> order.

Definition entry_of (o : option Attribute) : option (ASN1_NID * bytes) :=
  match o with
  | Some (mkAttribute id (c :: v)) => Some (id, c :: v)
  | _ => None
  end.

Definition entries (dn : DistinguishedName) : list (ASN1_NID * bytes) :=
  omap entry_of (added dn).

(** The value of the first entry with a nid. *)
Definition first_value (l : list (ASN1_NID * bytes)) (nid : ASN1_NID) : bytes :=
  match list_find (λ e, e.1 = nid) l with Some (_, e) => e.2 | None => [] end.

Lemma first_value_cons id v l nid :
  first_value ((id, v) :: l) nid = if decide (id = nid) then v else first_value l nid.
Proof.
  unfold first_value. cbn. destruct (decide (id = nid)); [done|].
  by destruct (list_find _ l) as [[]|].
Qed.

Lemma first_value_notin l nid : nid ∉ l.*1 → first_value l nid = [].
Proof.
  induction l as [|[id v] l IH]; [done|]. cbn. intros [Hid Hl]%not_elem_of_cons.
  rewrite first_value_cons. destruct (decide (id = nid)); [congruence|]. auto.
Qed.

Lemma getAttribute_Some dn nid a :
  DN._getAttributeByNID dn nid = Some a → a_id a = nid ∧ a ∈ _attributes dn.
Proof.
  unfold DN._getAttributeByNID. intros ([i b] & Hf & ->)%fmap_Some.
  apply list_find_Some in Hf as (Hl & Hb & _). split; [done|].
  apply list_elem_of_lookup_2 in Hl. by rewrite elem_of_reverse in Hl.
Qed.

Lemma getAttribute_None dn nid :
  DN._getAttributeByNID dn nid = None → Forall (λ a, a_id a ≠ nid) (_attributes dn).
Proof.
  unfold DN._getAttributeByNID. intros Hf%fmap_None. apply list_find_None in Hf.
  by apply Forall_reverse in Hf; rewrite reverse_involutive in Hf.
Qed.

Lemma entry_of_name o id v : entry_of o = Some (id, v) →
  ∃ a, o = Some a ∧ a_id a = id ∧ a_name a = v.
Proof. destruct o as [[i [|c x]]|]; [done| |done]. intros [= <- <-]. by eexists. Qed.

(** The entries of the fixed order hold the value of each nid. *)
Lemma first_value_ordered dn l nid :
  NoDup l → nid ∈ l →
  first_value (omap entry_of (DN._getAttributeByNID dn <$> l)) nid =
    DN._getAttributeByNIDAsString dn nid.
Proof.
  induction 1 as [|x l Hx Hl IH]; [by intros ?%elem_of_nil|].
  assert (Hids : ∀ k, k ∈ (omap entry_of (DN._getAttributeByNID dn <$> l)).*1 → k ∈ l).
  { intros k ([k' v] & -> & (o & Ho & He)%list_elem_of_omap)%list_elem_of_fmap.
    apply list_elem_of_fmap in Ho as (y & -> & Hy).
    apply entry_of_name in He as (a & (Ha & _)%getAttribute_Some & <- & _). by rewrite Ha. }
  intros Hin. cbn [fmap list_fmap omap list_omap].
  destruct (DN._getAttributeByNID dn x) as [[id v]|] eqn:Ha; cbn [entry_of].
  - pose proof (getAttribute_Some _ _ _ Ha) as [Hid _]. cbn in Hid. subst id.
    apply elem_of_cons in Hin as [->|Hin].
    + unfold DN._getAttributeByNIDAsString. rewrite Ha. cbn [a_name].
      destruct v as [|c v].
      * apply first_value_notin. by intros ?%Hids.
      * rewrite first_value_cons. by destruct (decide (x = x)).
    + destruct v as [|c v]; [by apply IH|]. rewrite first_value_cons.
      destruct (decide (x = nid)) as [->|]; [done|]. by apply IH.
  - apply elem_of_cons in Hin as [->|Hin]; [|by apply IH].
    unfold DN._getAttributeByNIDAsString. rewrite Ha. apply first_value_notin. by intros ?%Hids.
Qed.

(** In a list without duplicates the last attribute with an id is the first. *)
Lemma first_value_custom l nid :
  NoDup (a_id <$> l) →
  first_value (omap entry_of (Some <$> l)) nid =
    DN._getAttributeByNIDAsString (mkDN l true) nid.
Proof.
  intros Hnd. unfold DN._getAttributeByNIDAsString.
  destruct (DN._getAttributeByNID (mkDN l true) nid) as [a|] eqn:Ha.
  - apply getAttribute_Some in Ha as [<- Hin]. cbn in Hin. revert Hin Hnd.
    induction l as [|b l IH]; [by intros ?%elem_of_nil|].
    intros [->|Hin]%elem_of_cons; cbn [fmap list_fmap omap list_omap];
      intros [Hb Hnd]%NoDup_cons.
    + assert (Hn : a_id b ∉ (omap entry_of (Some <$> l)).*1).
      { intros ([k v] & Hk & (o & Ho & He)%list_elem_of_omap)%list_elem_of_fmap.
        apply list_elem_of_fmap in Ho as (y & -> & Hy).
        apply entry_of_name in He as (a & [= <-] & <- & _). cbn in Hk. destruct Hb. rewrite Hk.
        by apply list_elem_of_fmap_2. }
      destruct b as [id [|c v]]; cbn [entry_of a_id a_name] in *.
      * by apply first_value_notin.
      * rewrite first_value_cons. by destruct (decide (id = id)).
    + assert (a_id b ≠ a_id a).
      { intros Heq. destruct Hb. rewrite Heq. by apply list_elem_of_fmap_2. }
      destruct b as [id [|c v]]; cbn [entry_of a_id] in *; [by apply IH|].
      rewrite first_value_cons. destruct (decide (id = a_id a)); [done|]. by apply IH.
  - apply getAttribute_None in Ha. cbn in Ha. apply first_value_notin.
    intros ([k v] & -> & (o & Ho & He)%list_elem_of_omap)%list_elem_of_fmap.
    apply list_elem_of_fmap in Ho as (y & -> & Hy).
    apply entry_of_name in He as (a & [= <-] & Hid & _). rewrite Forall_forall in Ha.
    by apply (Ha y).
Qed.

(** What is read back for a nid. *)
Lemma first_value_entries dn nid :
  _customAttributeOrderFlag dn = false ∨ NoDup (a_id <$> _attributes dn) →
  first_value (entries dn) nid = DN._getAttributeByNIDAsString dn nid.
Proof.
  unfold entries, added. destruct dn as [l [|]]; cbn [_customAttributeOrderFlag _attributes].
  - intros [?|Hnd]; [done|]. by apply first_value_custom.
  - intros _. apply first_value_ordered; [|apply in_order].
    apply (bool_decide_unpack (NoDup order)). by vm_compute.
Qed.

Section X509Facts.
Context {bio : BioAPI} {bio_spec : BioSpec bio} {api : X509NameAPI bio}.
Context {spec : X509NameSpec api}.

(** Values that OpenSSL keeps as they are. *)
Definition plain (v : bytes) : Prop := Forall (λ b, ascii b = true) v ∧ size v ≤ INT_MAX.
Definition plain_name (dn : DistinguishedName) : Prop :=
  Forall (λ a, plain (a_name a)) (_attributes dn).

(** OpenSSL takes the entries as the values of their attributes. *)
Definition fitting (l : list (ASN1_NID * bytes)) : Prop := Forall (λ e, value_fits e.1 e.2) l.

Lemma addString_spec o n l :
  x509_name n l → (∀ a, o = Some a → plain (a_name a)) →
  wp (DN._addString o) n (λ _ n', x509_name n' (l ++ option_list (entry_of o)))
    (λ e _, e = OpenSSLException [ErrorQueue] ∧
      ¬ (X509NameWorks spec ∧ fitting (option_list (entry_of o)))).
Proof.
  intros Hn Hp. destruct o as [[id [|c v]]|]; cbn; try (by rewrite app_nil_r).
  destruct (Hp _ eq_refl) as [Ha Hs]. cbn [a_name] in *. pose proof (size_nonneg (c :: v)).
  unfold DN._addString, _X509_NAME_add_entry_by_NID. cbn [a_name a_id].
  apply wp_OpensslCallIsOne. unfold wp. rewrite to_int_id by (unfold INT_MIN; lia).
  pose proof (name_add_spec n l id (c :: v) Hn Ha) as Hadd.
  destruct (SSL_X509_NAME_add_entry_by_NID n id ASCIIString (c :: v) (size (c :: v)) (-1) 0)
    as [rv n'] eqn:Hrun. cbn in Hadd. destruct (Z.eqb_spec rv 1) as [|Hrv]; [by apply Hadd|].
  split; [done|]. intros [HW Hfit]. apply (Forall_singleton (λ e, value_fits e.1 e.2)) in Hfit.
  cbn in Hfit.
  pose proof (name_add_works _ HW n l id (c :: v) Hn Ha Hfit) as Hw. by rewrite Hrun in Hw.
Qed.

Lemma addStrings_spec os n l :
  x509_name n l → Forall (λ o, ∀ a, o = Some a → plain (a_name a)) os →
  wp (mapM_ DN._addString os) n (λ _ n', x509_name n' (l ++ omap entry_of os))
    (λ e _, e = OpenSSLException [ErrorQueue] ∧
      ¬ (X509NameWorks spec ∧ fitting (omap entry_of os))).
Proof.
  intros Hn Hp. revert n l Hn. induction Hp as [|o os Ho Hp IH]; intros n l Hn.
  - by cbn; rewrite app_nil_r.
  - assert (Hcons : omap entry_of (o :: os) = option_list (entry_of o) ++ omap entry_of os)
      by (cbn; by destruct (entry_of o)).
    rewrite Hcons. unfold fitting. setoid_rewrite Forall_app.
    cbn [mapM_]. rewrite wp_bind. eapply wp_mono; [by apply addString_spec| |].
    + intros [] n' Hn'. eapply wp_mono; [by apply IH| |].
      * intros [] n'' Hn''. by rewrite app_assoc.
      * intros e n'' [He H]. unfold fitting in H. tauto.
    + intros e n' [He H]. unfold fitting in H. tauto.
Qed.

Lemma populate_mapM dn n :
  DN.populateX509Name dn n = mapM_ DN._addString (added dn) n.
Proof.
  unfold DN.populateX509Name, added. destruct (_customAttributeOrderFlag dn).
  - generalize (_attributes dn) as l. intros l. revert n.
    induction l as [|a l IH]; intros n; [done|]. cbn [mapM_ fmap list_fmap]. unfold bind.
    by destruct (DN._addString (Some a) n) as [[]].
  - cbn [mapM_ fmap list_fmap order]. unfold bind, ret.
    repeat (match goal with |- context [DN._addString ?o ?s] =>
              destruct (DN._addString o s) as [[[]|] ?] end; try done).
Qed.

Lemma populate_spec dn n :
  x509_name n [] → plain_name dn →
  wp (DN.populateX509Name dn) n (λ _ n', x509_name n' (entries dn))
    (λ e _, e = OpenSSLException [ErrorQueue] ∧ ¬ (X509NameWorks spec ∧ fitting (entries dn))).
Proof.
  intros Hn Hp. unfold wp. rewrite populate_mapM.
  apply (addStrings_spec (added dn) n [] Hn). unfold plain_name in Hp.
  rewrite Forall_forall in Hp. apply Forall_forall.
  intros o Ho a ->. apply Hp. unfold added in Ho.
  destruct (_customAttributeOrderFlag dn); apply list_elem_of_fmap in Ho as (x & Hx & Hin).
  - by injection Hx as ->.
  - symmetry in Hx. by apply getAttribute_Some in Hx as [_ ?].
Qed.

(** The loop over the indices ends, and starts with the first one. *)
Lemma get_index_loop n l nid fuel rv result :
  x509_name n l → rv = -1 ∨ 0 ≤ rv < size l → (Z.to_nat (size l - rv) < fuel)%nat →
  ∃ r, oiter fuel (get_index_body n nid) (rv, result) = Val (result ++ r) ∧
       head r = if rv =? -1 then None else Some rv.
Proof.
  intros Hn. revert rv result. induction fuel as [|fuel IH]; intros rv result Hrv Hf; [lia|].
  cbn [oiter get_index_body]. destruct (Z.eqb_spec rv (-1)) as [->|Hne]; cbn [negb obind].
  { exists []. by rewrite app_nil_r. }
  pose proof (size_nonneg l).
  destruct (name_index_spec n l nid rv Hn ltac:(lia)) as [[Hi _]|(Hi & _)].
  - exists [rv]. rewrite Hi. destruct fuel as [|fuel]; [lia|]. by cbn.
  - destruct (IH (SSL_X509_NAME_get_index_by_NID n nid rv) (result ++ [rv])) as (r & -> & _);
      [lia|lia|]. exists (rv :: r). by rewrite <- app_assoc.
Qed.

Lemma get_entry_spec n l nid fuel :
  x509_name n l → (length l + 1 < fuel)%nat →
  Forall (λ e, (S (length e.2) < fuel)%nat) l →
  prepares (BioWorks bio_spec) (DN._getEntryByNIDAsString fuel n nid) (λ v, v = first_value l nid).
Proof.
  intros Hn Hf Hl. unfold DN._getEntryByNIDAsString, _X509_NAME_get_index_by_NID.
  set (i := SSL_X509_NAME_get_index_by_NID n nid (-1)).
  pose proof (name_index_spec n l nid (-1) Hn ltac:(lia)) as Hi. fold i in Hi.
  pose proof (size_nonneg l).
  assert (Hrange : i = -1 ∨ 0 ≤ i < size l) by (destruct Hi as [[-> _]|(? & _)]; lia).
  destruct (get_index_loop n l nid fuel i [] Hn Hrange) as (r & Hr & Hh).
  { unfold size in *. lia. }
  rewrite Hr. cbn [obind app]. destruct Hi as [[Hi Hno]|(Hi & Hat & Hno)].
  - rewrite Hi in Hh. destruct r; [|done]. symmetry. apply first_value_notin.
    intros ([k v] & -> & Hin)%list_elem_of_fmap. apply list_elem_of_lookup_1 in Hin as [j Hj].
    apply (Hno j); [lia|]. by rewrite Hj.
  - destruct (Z.eqb_spec i (-1)); [lia|]. destruct r as [|i' r]; [done|]. injection Hh as ->.
    apply fmap_Some in Hat as ([k v] & Hlk & Hk). cbn in Hk. subst k.
    assert (Hv : first_value l nid = v).
    { unfold first_value. replace (list_find (λ e, e.1 = nid) l) with (Some (Z.to_nat i, (nid, v))); [done|].
      symmetry. apply list_find_Some. split; [done|]. split; [done|].
      intros j [k' v'] Hj Hlt Hk. apply (Hno j); [lia|]. rewrite Hj. by rewrite <- Hk. }
    unfold _X509_NAME_get_entry, _X509_NAME_ENTRY_get_data. rewrite !run_pure_Ptr.
    destruct (name_entry_spec n l i nid v Hn Hlk ltac:(lia)) as (e & -> & He). cbn [obind].
    rewrite run_pure_Ptr. destruct (entry_data_spec e v He) as (d & -> & Hd). cbn [obind].
    apply with_bio_prepares; [done|]. intros b Hb.
    rewrite Hv. rewrite wp_bind. apply wp_OpensslCallIsNonNegative.
    rewrite wp_bind. eapply wp_mono; [by apply (data_print_spec d v b [])| |done].
    intros rv b' [Hrv Hb']. wp_simpl. destruct (Z.leb_spec 0 rv); [|lia].
    eapply wp_mono; [eapply flushToString_spec; [exact Hb'|]| |done].
    * apply list_elem_of_lookup_2 in Hlk. rewrite Forall_forall in Hl. by apply (Hl _ Hlk).
    * by intros s b'' [-> _].
Qed.
End X509Facts.

(** ** Properties *)

Section Properties.
Context {bio : BioAPI} {bio_spec : BioSpec bio} {api : X509NameAPI bio}.
Context {spec : X509NameSpec api}.

(** What is read from a name: the first value of each attribute.  A country name
    of more than two characters is an error. *)
Lemma fromX509Name_spec (n : X509_NAME) (l : list (ASN1_NID * bytes)) (fuel : nat) :
  x509_name n l → (length l + 1 < fuel)%nat → Forall (λ e, (S (length e.2) < fuel)%nat) l →
  match fromX509Name fuel n with
  | Val dn => _customAttributeOrderFlag dn = false ∧ size (first_value l CountryName) ≤ 2 ∧
      ∀ nid, DN._getAttributeByNIDAsString dn nid = first_value l nid
  | Throw e => (e = OpenSSLException [ErrorQueue] ∧ ¬ BioWorks bio_spec) ∨
      (2 < size (first_value l CountryName) ∧ ∃ w, e = RuntimeError w)
  end.
Proof.
  intros Hn Hf Hl. pose proof (λ nid, get_entry_spec n l nid fuel Hn Hf Hl) as Hget.
  unfold fromX509Name, DNBuilder.countryName.
  repeat (match goal with
          | |- context [DN._getEntryByNIDAsString fuel n ?nid] =>
              eapply prepares_bind; [apply (Hget nid)|by left|]; intros ? ->; cbn zeta
          | |- context [2 <? ?x] =>
              destruct (Z.ltb_spec 2 x); cbn [obind]; [right; by eauto|]
          end).
  split; [done|]. split; [done|]. intros nid. by destruct nid.
Qed.

(** Names that are read compare by the values of their attributes. *)
Lemma eq_values (a b : DistinguishedName) : _customAttributeOrderFlag a = false →
  DN.eq a b = true ↔
  ∀ nid, DN._getAttributeByNIDAsString a nid = DN._getAttributeByNIDAsString b nid.
Proof.
  intros Ha. unfold DN.eq. rewrite Ha. cbn [andb]. rewrite bool_decide_eq_true. split.
  - intros Ht nid. unfold DN._createTuple in Ht. by destruct nid; injection Ht.
  - intros Hv. unfold DN._createTuple. repeat (apply (f_equal2 cons); [exact (Hv _)|]). done.
Qed.

(** A name with the entries that a builder's name gives is read as an equal name. *)
Lemma read_back (dn : DistinguishedName) (n' : X509_NAME) (fuel : nat) :
  built dn → _customAttributeOrderFlag dn = false ∨ NoDup (a_id <$> _attributes dn) →
  x509_name n' (entries dn) → (length (entries dn) + 1 < fuel)%nat →
  Forall (λ a, (S (length (a_name a)) < fuel)%nat) (_attributes dn) →
  match fromX509Name fuel n' with
  | Val dn' => (∀ nid, DN._getAttributeByNIDAsString dn' nid =
                       DN._getAttributeByNIDAsString dn nid) ∧ DN.eq dn' dn = true
  | Throw e => e = OpenSSLException [ErrorQueue] ∧ ¬ BioWorks bio_spec
  end.
Proof.
  intros Hbuilt Hdup Hn' Hfuel Hfuel'.
  assert (Hlens : Forall (λ e, (S (length e.2) < fuel)%nat) (entries dn)).
  { apply Forall_forall. intros [id v] (o & Ho & He)%list_elem_of_omap.
    apply entry_of_name in He as (a & -> & _ & <-). cbn. rewrite Forall_forall in Hfuel'.
    apply Hfuel'. unfold added in Ho.
    destruct (_customAttributeOrderFlag dn); apply list_elem_of_fmap in Ho as (x & Hx & Hin).
    - by injection Hx as ->.
    - symmetry in Hx. by apply getAttribute_Some in Hx as [_ ?]. }
  pose proof (fromX509Name_spec n' _ fuel Hn' Hfuel Hlens) as H.
  destruct (fromX509Name fuel n') as [dn'|e].
  - destruct H as (Hflag & _ & Hv).
    assert (Hall : ∀ nid, DN._getAttributeByNIDAsString dn' nid =
                          DN._getAttributeByNIDAsString dn nid).
    { intros nid. by rewrite Hv, first_value_entries. }
    split; [exact Hall|]. by apply eq_values.
  - destruct H as [H|[H _]]; [done|]. exfalso. rewrite first_value_entries in H by done.
    unfold DN._getAttributeByNIDAsString in H.
    destruct (DN._getAttributeByNID dn CountryName) as [a|] eqn:Ha; [|done].
    apply getAttribute_Some in Ha as [Hid Hin]. apply built_countries in Hbuilt.
    rewrite Forall_forall in Hbuilt. specialize (Hbuilt a Hin Hid). lia.
Qed.

(** C39. Round trip of distinguished names: a name that was built by a builder from ASCII
    values of at most INT_MAX bytes, written to a new X509_NAME and read back has the same
    value for each attribute and equals the name, unless it was built with a custom order
    and an attribute occurs twice.  Other bytes are outside the theorem: the values are
    written as MBSTRING_ASC and OpenSSL may store them in another encoding.  Writing fails only for values that X.520 does not
    allow, reading never; either may fail for want of memory. *)
Theorem dn_roundtrip (dn : DistinguishedName) (fuel : nat)
    (Hbuilt : built dn) (Hplain : plain_name dn)
    (Hdup : _customAttributeOrderFlag dn = false ∨ NoDup (a_id <$> _attributes dn))
    (Hfuel : (length (entries dn) + 1 < fuel)%nat)
    (Hfuel' : Forall (λ a, (S (length (a_name a)) < fuel)%nat) (_attributes dn)) :
  match _X509_NAME_new with
  | Val n =>
      wp (DN.populateX509Name dn) n
        (λ _ n', match fromX509Name fuel n' with
                 | Val dn' => (∀ nid, DN._getAttributeByNIDAsString dn' nid =
                                      DN._getAttributeByNIDAsString dn nid) ∧ DN.eq dn' dn = true
                 | Throw _ => ¬ X509NameWorks spec
                 end)
        (λ _ _, ¬ (X509NameWorks spec ∧ fitting (entries dn)))
  | Throw _ => ¬ X509NameWorks spec
  end.
Proof.
  unfold _X509_NAME_new. rewrite run_pure_Ptr. destruct SSL_X509_NAME_new as [n|] eqn:Hnew.
  - eapply wp_mono; [by apply populate_spec, Hplain; apply name_new_spec| |by intros e n' []].
    intros [] n' Hn'. pose proof (read_back dn n' fuel Hbuilt Hdup Hn' Hfuel Hfuel') as H.
    destruct (fromX509Name fuel n'); [done|]. intros HW. apply H. by apply (name_bio_works spec).
  - intros HW. by apply (name_new_works _ HW).
Qed.

(** C40. Equality of distinguished names is reflexive and symmetric, and for names
    without a custom order it compares the value of each attribute.  It is not
    transitive: a name without a custom order equals names whose custom orders
    differ. *)
Theorem dn_equality :
  (∀ a, DN.eq a a = true) ∧ (∀ a b, DN.eq a b = DN.eq b a) ∧
  (∀ a b, _customAttributeOrderFlag a = false →
    DN.eq a b = true ↔
    ∀ nid, DN._getAttributeByNIDAsString a nid = DN._getAttributeByNIDAsString b nid) ∧
  (∃ a b c, built a ∧ built b ∧ built c ∧
    DN.eq a b = true ∧ DN.eq b c = true ∧ DN.eq a c = false).
Proof.
  split; [|split; [|split]].
  - intros a. unfold DN.eq. case_match; by apply bool_decide_eq_true_2.
  - intros a b. unfold DN.eq. rewrite andb_comm. case_match; apply bool_decide_ext; done.
  - intros a b Ha. by apply eq_values.
  - exists (DNBuilder.title [Byte.x31] (DNBuilder.userId [Byte.x32] DNBuilder.new_custom)).
    exists (DNBuilder.title [Byte.x31] (DNBuilder.userId [Byte.x32] DNBuilder.new)).
    exists (DNBuilder.userId [Byte.x32] (DNBuilder.title [Byte.x31] DNBuilder.new_custom)).
    split_and!; try by vm_compute.
    all: repeat (apply built_other; [|done]); constructor.
Qed.
End Properties.

(** ** Names as lists *)

Module ListName.
#[local] Existing Instance MemBio.api.
#[local] Existing Instance MemBio.spec.

Definition next_index (l : list (ASN1_NID * bytes)) (nid : ASN1_NID) (last : Z) : Z :=
  match list_find (λ e, e.1 = nid) (drop (Z.to_nat (last + 1)) l) with
  | Some (i, _) => last + 1 + Z.of_nat i
  | None => -1
  end.

#[export] Instance api : X509NameAPI MemBio.api := {
  X509_NAME := list (ASN1_NID * bytes);
  X509_NAME_ENTRY := bytes;
  ASN1_STRING := bytes;
  SSL_X509_NAME_new := Some [];
  SSL_X509_NAME_add_entry_by_NID n nid _ v _ _ _ := (1, n ++ [(nid, v)]);
  SSL_X509_NAME_get_index_by_NID n nid last := next_index n nid last;
  SSL_X509_NAME_get_entry n loc := snd <$> n !! Z.to_nat loc;
  SSL_X509_NAME_ENTRY_get_data e := Some e;
  SSL_ASN1_STRING_print_data d := λ b : @BIO MemBio.api, (Val (size d), (b ++ d : bytes));
}.

#[export] Instance spec : X509NameSpec api.
Proof.
  refine {| x509_name := (λ n l, n = l) : @X509_NAME _ api → _ → Prop;
            entry_is := (λ e v, e = v) : @X509_NAME_ENTRY _ api → _ → Prop;
            data_is := (λ d v, d = v) : @ASN1_STRING _ api → _ → Prop;
            value_fits := λ _ _, True |}.
  - by intros n [= <-].
  - by intros n l nid v -> _ _.
  - intros n l nid last -> Hlast. cbn. unfold next_index.
    destruct (list_find _ _) as [[i e]|] eqn:Hf.
    + right. apply list_find_Some in Hf as (Hl & He & Hno). rewrite lookup_drop in Hl.
      pose proof (lookup_lt_Some _ _ _ Hl). unfold size. split; [lia|].
      replace (Z.to_nat (last + 1 + Z.of_nat i)) with (Z.to_nat (last + 1) + i)%nat by lia.
      rewrite Hl. split; [by cbn; rewrite He|]. intros j Hj Hk.
      apply fmap_Some in Hk as (e' & Hlk & He').
      apply (Hno (j - Z.to_nat (last + 1))%nat e'); [|lia|done].
      rewrite lookup_drop. by replace (Z.to_nat (last + 1) + (j - Z.to_nat (last + 1)))%nat with j by lia.
    + left. split; [done|]. intros j Hj Hk. apply list_find_None in Hf.
      apply fmap_Some in Hk as (e' & Hlk & He'). rewrite Forall_forall in Hf.
      apply (Hf e'); [|done]. apply (list_elem_of_lookup_2 _ (j - Z.to_nat (last + 1))%nat).
      rewrite lookup_drop. by replace (Z.to_nat (last + 1) + (j - Z.to_nat (last + 1)))%nat with j by lia.
  - intros n l i nid v -> Hl Hi. exists v. cbn. by rewrite Hl.
  - intros e v ->. by exists v.
  - intros d v b w -> ->. unfold wp. cbn. split; [apply size_nonneg|done].
Defined.

Definition name : DistinguishedName :=
  DNBuilder.title (str "Dr")
    (force DNBuilder.new (DNBuilder.countryName (str "DE")
       (DNBuilder.commonName (str "MoCOCrW") DNBuilder.new_custom))).

Lemma name_built : built name.
Proof.
  apply built_other; [|done]. eapply (built_country (str "DE")).
  - by apply (built_other CommonName (str "MoCOCrW") _ built_custom).
  - by vm_compute.
Qed.

Lemma name_plain : plain_name name.
Proof. repeat constructor; by vm_compute. Qed.

Lemma list_name_works : X509NameWorks spec.
Proof. split; [apply MemBio.mem_bio_works|done|done]. Qed.

Definition written : @X509_NAME _ api := (DN.populateX509Name name ([] : @X509_NAME _ api)).2.

Lemma dn_roundtrip_witness :
  DN.populateX509Name name ([] : @X509_NAME _ api) = (Val (), written) ∧
  match fromX509Name 20 written with
  | Val dn' => (∀ nid, DN._getAttributeByNIDAsString dn' nid =
                       DN._getAttributeByNIDAsString name nid) ∧ DN.eq dn' name = true
  | Throw _ => False
  end.
Proof.
  assert (H1 : DN.populateX509Name name ([] : @X509_NAME _ api) = (Val (), written))
    by returns tt (DN.populateX509Name name) ([] : @X509_NAME _ api).
  split; [exact H1|].
  assert (Hdup : _customAttributeOrderFlag name = false ∨ NoDup (a_id <$> _attributes name)).
  { right. apply (bool_decide_unpack (NoDup (a_id <$> _attributes name))). by vm_compute. }
  assert (Hlen : (length (entries name) + 1 < 20)%nat) by (apply Nat.ltb_lt; by vm_compute).
  assert (Hlens : Forall (λ a, (S (length (a_name a)) < 20)%nat) (_attributes name))
    by repeat constructor.
  pose proof (dn_roundtrip name 20 name_built name_plain Hdup Hlen Hlens) as H.
  change (wp (DN.populateX509Name name) ([] : @X509_NAME _ api)
        (λ _ n', match fromX509Name 20 n' with
                 | Val dn' => (∀ nid, DN._getAttributeByNIDAsString dn' nid =
                                      DN._getAttributeByNIDAsString name nid) ∧ DN.eq dn' name = true
                 | Throw _ => ¬ X509NameWorks spec
                 end)
        (λ _ _, ¬ (X509NameWorks spec ∧ fitting (entries name)))) in H.
  apply (wp_run _ _ _ _ _ _ H1) in H. cbn beta iota in H.
  destruct (fromX509Name 20 written); [exact H|]. exact (H list_name_works).
Defined.
End ListName.
