(* ===== verification/Padding.v ===== *)
(** * RSA padding modes: [src/src/padding_mode.cpp], [src/src/mococrw/padding_mode.h]

    A padding mode checks the size of a message against the key and configures the
    EVP_PKEY_CTX that OpenSSL encrypts or signs with. *)

From S2P Require Import Prelude CheckCall Util SymmetricCrypto OpenSSLWrap Hash Bio Key.

Inductive RSAPaddingMode := PAD_NONE | PAD_PKCS1 | PAD_PSS | PAD_OAEP.

(** ** The OpenSSL functions *)

(** [malloc] gives the bytes it allocated. *)
Class RsaCtxAPI {bio : BioAPI} {evp : EvpCipherAPI} {md : EvpMdAPI} {pkey : EvpPkeyAPI bio evp} := {
  SSL_EVP_PKEY_CTX_set_rsa_padding (pad : RSAPaddingMode) (c : EVP_PKEY_CTX) : Z * EVP_PKEY_CTX;
  SSL_EVP_PKEY_CTX_set_signature_md (m : EVP_MD) (c : EVP_PKEY_CTX) : Z * EVP_PKEY_CTX;
  SSL_EVP_PKEY_CTX_set_rsa_pss_saltlen (len : Z) (c : EVP_PKEY_CTX) : Z * EVP_PKEY_CTX;
  SSL_EVP_PKEY_CTX_set_rsa_mgf1_md (m : EVP_MD) (c : EVP_PKEY_CTX) : Z * EVP_PKEY_CTX;
  SSL_EVP_PKEY_CTX_set_rsa_oaep_md (m : EVP_MD) (c : EVP_PKEY_CTX) : Z * EVP_PKEY_CTX;
  SSL_EVP_PKEY_CTX_set_rsa_oaep_label (label : bytes) (len : Z) (c : EVP_PKEY_CTX) :
    Z * EVP_PKEY_CTX;
  SSL_OPENSSL_malloc (num : Z) : option bytes;
}.
Arguments RsaCtxAPI {bio evp} md pkey.

Section Padding.
Context {bio : BioAPI} {evp : EvpCipherAPI} {md : EvpMdAPI} {pkey : EvpPkeyAPI bio evp}.
Context {api : RsaCtxAPI md pkey}.

Definition _EVP_PKEY_CTX_set_rsa_padding (pad : RSAPaddingMode) (ctx : EVP_PKEY_CTX) :=
  run_pure (OpensslCallIsPositive (ret (SSL_EVP_PKEY_CTX_set_rsa_padding pad ctx))).
Definition _EVP_PKEY_CTX_set_signature_md (m : EVP_MD) (ctx : EVP_PKEY_CTX) :=
  run_pure (OpensslCallIsPositive (ret (SSL_EVP_PKEY_CTX_set_signature_md m ctx))).
Definition _EVP_PKEY_CTX_set_rsa_pss_saltlen (len : Z) (ctx : EVP_PKEY_CTX) :=
  run_pure (OpensslCallIsPositive (ret (SSL_EVP_PKEY_CTX_set_rsa_pss_saltlen len ctx))).
Definition _EVP_PKEY_CTX_set_rsa_mgf1_md (m : EVP_MD) (ctx : EVP_PKEY_CTX) :=
  run_pure (OpensslCallIsPositive (ret (SSL_EVP_PKEY_CTX_set_rsa_mgf1_md m ctx))).
Definition _EVP_PKEY_CTX_set_rsa_oaep_md (m : EVP_MD) (ctx : EVP_PKEY_CTX) :=
  run_pure (OpensslCallIsPositive (ret (SSL_EVP_PKEY_CTX_set_rsa_oaep_md m ctx))).
Definition _EVP_PKEY_CTX_set_rsa_oaep_label (label : bytes) (len : Z) (ctx : EVP_PKEY_CTX) :=
  run_pure (OpensslCallIsNonNegative (ret (SSL_EVP_PKEY_CTX_set_rsa_oaep_label label len ctx))).

Definition _OPENSSL_malloc (num : Z) : outcome bytes :=
  run_pure (OpensslCallPtr (ret (SSL_OPENSSL_malloc num))).

(** [catch (const OpenSSLException &e) { throw MoCOCrWException(e.what()); }] *)
Definition as_mococrw {A} (o : outcome A) : outcome A :=
  match o with Throw (OpenSSLException w) => Throw (MoCOCrWException w) | _ => o end.

(** ** The interfaces *)

Class RSAEncryptionPadding (P : Type) := {
  checkMessageSize : P → EVP_PKEY → Z → outcome bool;
  prepareEncryption : P → EVP_PKEY_CTX → outcome EVP_PKEY_CTX;
}.

Class RSASignaturePadding (P : Type) := {
  prepareSignature : P → EVP_PKEY_CTX → DigestTypes → outcome EVP_PKEY_CTX;
}.

Class MaskGenerationFunction (G : Type) := {
  prepareMask : G → EVP_PKEY_CTX → outcome EVP_PKEY_CTX;
}.

(** [std::shared_ptr<MaskGenerationFunction>] *)
Record AnyMgf := mkMgf {
  mgf_type : Type;
  mgf_impl : MaskGenerationFunction mgf_type;
  mgf_obj : mgf_type;
}.
Definition any_prepare (g : AnyMgf) : EVP_PKEY_CTX → outcome EVP_PKEY_CTX :=
  @prepareMask _ (mgf_impl g) (mgf_obj g).

(** [messageSize * 8 <= static_cast<size_t>(remainingSize)] and its condition. *)
Definition fits (remainingSize messageSize : Z) : bool :=
  (0 <? remainingSize) && (to_size_t (messageSize * 8) <=? to_size_t remainingSize).

(** ** [NoPadding] *)

Inductive NoPadding := noPadding.

Definition NoPadding_checkMessageSize (_ : NoPadding) (key : EVP_PKEY) (messageSize : Z) :
    outcome bool :=
  let keySizeInBit := to_size_t (getKeySize key) in
  Val (to_size_t (messageSize * 8) =? keySizeInBit).

Definition NoPadding_prepare (_ : NoPadding) (ctx : EVP_PKEY_CTX) : outcome EVP_PKEY_CTX :=
  _EVP_PKEY_CTX_set_rsa_padding PAD_NONE ctx.

#[export] Instance NoPadding_encryption : RSAEncryptionPadding NoPadding := {
  checkMessageSize := NoPadding_checkMessageSize;
  prepareEncryption := NoPadding_prepare;
}.

(** ** [PKCSPadding] *)

Inductive PKCSPadding := pkcsPadding.
Definition PKCS_MAX_SIZE_OVERHEAD : Z := 11.

Definition PKCSPadding_checkMessageSize (_ : PKCSPadding) (key : EVP_PKEY) (messageSize : Z) :
    outcome bool :=
  let remainingSize := getKeySize key - PKCS_MAX_SIZE_OVERHEAD * 8 in
  Val (fits remainingSize messageSize).

Definition PKCSPadding_prepare (_ : PKCSPadding) (ctx : EVP_PKEY_CTX) : outcome EVP_PKEY_CTX :=
  _EVP_PKEY_CTX_set_rsa_padding PAD_PKCS1 ctx.

Definition PKCSPadding_prepareSignature (_ : PKCSPadding) (ctx : EVP_PKEY_CTX)
    (hashFunction : DigestTypes) : outcome EVP_PKEY_CTX :=
  let? ctx := _EVP_PKEY_CTX_set_rsa_padding PAD_PKCS1 ctx in
  let? m := _getMDPtrFromDigestType hashFunction in
  _EVP_PKEY_CTX_set_signature_md m ctx.

#[export] Instance PKCSPadding_encryption : RSAEncryptionPadding PKCSPadding := {
  checkMessageSize := PKCSPadding_checkMessageSize;
  prepareEncryption := PKCSPadding_prepare;
}.
#[export] Instance PKCSPadding_signature : RSASignaturePadding PKCSPadding := {
  prepareSignature := PKCSPadding_prepareSignature;
}.

(** ** [MGF1] *)

Record MGF1 := mkMGF1 { g_hashFunction : DigestTypes }.

Definition MGF1_prepare (g : MGF1) (ctx : EVP_PKEY_CTX) : outcome EVP_PKEY_CTX :=
  let? m := _getMDPtrFromDigestType (g_hashFunction g) in
  _EVP_PKEY_CTX_set_rsa_mgf1_md m ctx.

#[export] Instance MGF1_mask : MaskGenerationFunction MGF1 := { prepareMask := MGF1_prepare }.

Definition any_mgf1 (hashFunction : DigestTypes) : AnyMgf :=
  mkMgf MGF1 MGF1_mask (mkMGF1 hashFunction).

(** ** [PSSPadding] *)

Record PSSPadding := mkPSS {
  s_maskGenerationFunction : option AnyMgf;
  s_saltLength : option Z;
}.

(** [int saltLength = Hash::getDigestSize(hashFunction)] *)
Definition PSSPadding_prepareSignature (p : PSSPadding) (ctx : EVP_PKEY_CTX)
    (hashFunction : DigestTypes) : outcome EVP_PKEY_CTX :=
  let? ctx := _EVP_PKEY_CTX_set_rsa_padding PAD_PSS ctx in
  let? m := _getMDPtrFromDigestType hashFunction in
  let? ctx := _EVP_PKEY_CTX_set_signature_md m ctx in
  let? saltLength := match s_saltLength p with
                     | Some n => Val n
                     | None => let? n := getDigestSize hashFunction in Val (to_int n)
                     end in
  let? ctx := _EVP_PKEY_CTX_set_rsa_pss_saltlen saltLength ctx in
  match s_maskGenerationFunction p with
  | Some g => any_prepare g ctx
  | None => MGF1_prepare (mkMGF1 hashFunction) ctx
  end.

#[export] Instance PSSPadding_signature : RSASignaturePadding PSSPadding := {
  prepareSignature := PSSPadding_prepareSignature;
}.

(** ** [OAEPPadding] *)

Record OAEPPadding := mkOAEP {
  o_hashFunction : DigestTypes;
  o_label : bytes;
  o_maskGenerationFunction : AnyMgf;
}.

Definition OAEPPadding_new (hashFunction : DigestTypes)
    (maskGenerationFunction : option AnyMgf) (label : bytes) : OAEPPadding :=
  mkOAEP hashFunction label
    (match maskGenerationFunction with Some g => g | None => any_mgf1 hashFunction end).

Definition OAEPPadding_checkMessageSize (p : OAEPPadding) (key : EVP_PKEY) (messageSize : Z) :
    outcome bool :=
  let? m := _getMDPtrFromDigestType (o_hashFunction p) in
  let remainingSize := getKeySize key - (2 * _EVP_MD_size m) * 8 - 2 * 8 in
  Val (fits remainingSize messageSize).

(** The label is copied into memory that the context then owns. *)
Definition OAEPPadding_prepare (p : OAEPPadding) (ctx : EVP_PKEY_CTX) : outcome EVP_PKEY_CTX :=
  as_mococrw
    (let? ctx := _EVP_PKEY_CTX_set_rsa_padding PAD_OAEP ctx in
     let? m := _getMDPtrFromDigestType (o_hashFunction p) in
     let? ctx := _EVP_PKEY_CTX_set_rsa_oaep_md m ctx in
     let? ctx := any_prepare (o_maskGenerationFunction p) ctx in
     match o_label p with
     | [] => Val ctx
     | _ =>
         let? label_copy := _OPENSSL_malloc (to_int (size (o_label p))) in
         let? label_copy := write_buffer label_copy (o_label p) in
         _EVP_PKEY_CTX_set_rsa_oaep_label label_copy (to_int (size (o_label p))) ctx
     end).

#[export] Instance OAEPPadding_encryption : RSAEncryptionPadding OAEPPadding := {
  checkMessageSize := OAEPPadding_checkMessageSize;
  prepareEncryption := OAEPPadding_prepare;
}.
End Padding.
