(* ===== verification/AsymmetricCtx.v ===== *)
(** * Asymmetric contexts: [src/src/asymmetric_crypto_ctx.cpp] and
      [src/src/mococrw/asymmetric_crypto_ctx.h]

    RSA encryption and signatures, ECDSA and EdDSA.  A context is its PIMPL
    object.  [ENTROPY] is the state of OpenSSL's random number generator. *)

From S2P Require Import Prelude CheckCall Util SymmetricCrypto OpenSSLWrap Hash Bio Key Padding.

(** ** The OpenSSL functions

    The functions with an output buffer are called twice: with a null pointer they
    report the length of a buffer that is big enough, with a buffer they write to
    it and report the length of the output. *)

Class AsymmetricAPI {bio : BioAPI} {evp : EvpCipherAPI} {md : EvpMdAPI}
    {dig : EvpDigestAPI md} {pkey : EvpPkeyAPI bio evp} := {
  ENTROPY : Type;
  SSL_EVP_PKEY_sign_init (c : EVP_PKEY_CTX) : Z * EVP_PKEY_CTX;
  SSL_EVP_PKEY_verify_init (c : EVP_PKEY_CTX) : Z * EVP_PKEY_CTX;
  SSL_EVP_PKEY_encrypt_init (c : EVP_PKEY_CTX) : Z * EVP_PKEY_CTX;
  SSL_EVP_PKEY_decrypt_init (c : EVP_PKEY_CTX) : Z * EVP_PKEY_CTX;
  (** context, buffer, [*outlen], input; the new [*outlen] and the bytes written *)
  SSL_EVP_PKEY_sign (c : EVP_PKEY_CTX) (out : option bytes) (outlen : Z) (tbs : bytes) :
    M ENTROPY (Z * (Z * bytes));
  SSL_EVP_PKEY_encrypt (c : EVP_PKEY_CTX) (out : option bytes) (outlen : Z) (input : bytes) :
    M ENTROPY (Z * (Z * bytes));
  SSL_EVP_PKEY_decrypt (c : EVP_PKEY_CTX) (out : option bytes) (outlen : Z) (input : bytes) :
    M ENTROPY (Z * (Z * bytes));
  SSL_EVP_PKEY_verify (c : EVP_PKEY_CTX) (sig tbs : bytes) : Z;
  SSL_EVP_DigestSignInit (m : option EVP_MD) (k : EVP_PKEY) : M EVP_MD_CTX (Z * ());
  SSL_EVP_DigestVerifyInit (m : option EVP_MD) (k : EVP_PKEY) : M EVP_MD_CTX (Z * ());
  SSL_EVP_DigestSign (out : option bytes) (outlen : Z) (tbs : bytes) :
    M EVP_MD_CTX (Z * (Z * bytes));
  SSL_EVP_DigestVerify (sig tbs : bytes) : M EVP_MD_CTX (Z * ());
  (** big numbers and ECDSA signatures *)
  BIGNUM : Type;
  ECDSA_SIG : Type;
  SSL_BN_bin2bn (data : bytes) (len : Z) : option BIGNUM;
  SSL_BN_bn2binpad (n : BIGNUM) (tolen : Z) : Z * bytes;
  SSL_ECDSA_SIG_new : option ECDSA_SIG;
  SSL_ECDSA_SIG_set0 (sig : ECDSA_SIG) (r s : BIGNUM) : Z * ECDSA_SIG;
  SSL_ECDSA_SIG_get0_r (sig : ECDSA_SIG) : option BIGNUM;
  SSL_ECDSA_SIG_get0_s (sig : ECDSA_SIG) : option BIGNUM;
  SSL_i2d_ECDSA_SIG (sig : ECDSA_SIG) : Z * option bytes;
  SSL_d2i_ECDSA_SIG (der : bytes) (len : Z) : option ECDSA_SIG;
}.
Arguments AsymmetricAPI {bio evp md} dig pkey.

(** [catch (const OpenSSLException &e) { throw MoCOCrWException(f(e.what())); }] *)
Definition rethrow {S A} (f : message → message) (m : M S A) : M S A :=
  try_catch m (λ e, match e with
                    | OpenSSLException w => throw (MoCOCrWException (f w))
                    | _ => throw e
                    end).

Definition validation_failed (info : message) : message :=
  Str "Signature validation failed. OpenSSL info: " :: info.

Section Wrappers.
Context {bio : BioAPI} {evp : EvpCipherAPI} {md : EvpMdAPI} {dig : EvpDigestAPI md}.
Context {pkey : EvpPkeyAPI bio evp} {rsa : RsaCtxAPI md pkey} {api : AsymmetricAPI dig pkey}.

Definition _EVP_PKEY_sign_init (ctx : EVP_PKEY_CTX) : outcome EVP_PKEY_CTX :=
  run_pure (OpensslCallIsPositive (ret (SSL_EVP_PKEY_sign_init ctx))).
Definition _EVP_PKEY_verify_init (ctx : EVP_PKEY_CTX) : outcome EVP_PKEY_CTX :=
  run_pure (OpensslCallIsPositive (ret (SSL_EVP_PKEY_verify_init ctx))).
Definition _EVP_PKEY_encrypt_init (ctx : EVP_PKEY_CTX) : outcome EVP_PKEY_CTX :=
  run_pure (OpensslCallIsPositive (ret (SSL_EVP_PKEY_encrypt_init ctx))).
Definition _EVP_PKEY_decrypt_init (ctx : EVP_PKEY_CTX) : outcome EVP_PKEY_CTX :=
  run_pure (OpensslCallIsPositive (ret (SSL_EVP_PKEY_decrypt_init ctx))).

(** What the call wrote is put into the buffer. *)
Definition filled {S} (out : option bytes) (r : Z * bytes) : M S (Z * option bytes) :=
  match out with
  | None => ret (r.1, None)
  | Some buf => let! buf' := lift (write_buffer buf r.2) in ret (r.1, Some buf')
  end.

Definition _EVP_PKEY_sign (ctx : EVP_PKEY_CTX) (tbs : bytes) (sig : option bytes) (siglen : Z) :
    M ENTROPY (Z * option bytes) :=
  let! r := OpensslCallIsPositive (SSL_EVP_PKEY_sign ctx sig siglen tbs) in filled sig r.
Definition _EVP_PKEY_encrypt (ctx : EVP_PKEY_CTX) (input : bytes) (out : option bytes)
    (outlen : Z) : M ENTROPY (Z * option bytes) :=
  let! r := OpensslCallIsPositive (SSL_EVP_PKEY_encrypt ctx out outlen input) in filled out r.
Definition _EVP_PKEY_decrypt (ctx : EVP_PKEY_CTX) (input : bytes) (out : option bytes)
    (outlen : Z) : M ENTROPY (Z * option bytes) :=
  let! r := OpensslCallIsPositive (SSL_EVP_PKEY_decrypt ctx out outlen input) in filled out r.

Definition _EVP_PKEY_verify (ctx : EVP_PKEY_CTX) (sig tbs : bytes) : outcome () :=
  run_pure (OpensslCallIsPositive (ret (SSL_EVP_PKEY_verify ctx sig tbs, ()))).

(** The digest of the EVP_DigestSign functions: none for EdDSA. *)
Definition digest_or_null (type : DigestTypes) : outcome (option EVP_MD) :=
  if bool_decide (type = NONE) then Val None
  else let? m := _getMDPtrFromDigestType type in Val (Some m).

Definition _EVP_DigestSignInit (type : DigestTypes) (k : EVP_PKEY) : M EVP_MD_CTX () :=
  let! m := lift (digest_or_null type) in OpensslCallIsOne (SSL_EVP_DigestSignInit m k).
Definition _EVP_DigestVerifyInit (type : DigestTypes) (k : EVP_PKEY) : M EVP_MD_CTX () :=
  let! m := lift (digest_or_null type) in OpensslCallIsOne (SSL_EVP_DigestVerifyInit m k).
Definition _EVP_DigestSign (message : bytes) (sig : option bytes) (siglen : Z) :
    M EVP_MD_CTX (Z * option bytes) :=
  let! r := OpensslCallIsOne (SSL_EVP_DigestSign sig siglen message) in filled sig r.
Definition _EVP_DigestVerify (sig message : bytes) : M EVP_MD_CTX () :=
  OpensslCallIsOne (SSL_EVP_DigestVerify sig message).

Definition _BN_bin2bn (data : bytes) : outcome BIGNUM :=
  if INT_MAX <? size data then
    Throw (OpenSSLException [Str "INT_MAX is the maximum supported size for BIGNUM"])
  else run_pure (OpensslCallPtr (ret (SSL_BN_bin2bn data (to_int (size data))))).

Definition _BN_bn2binpad (bignum : BIGNUM) (tolen : Z) : outcome bytes :=
  let out := zeros tolen in
  let? data := run_pure (OpensslCallIsPositive (ret (SSL_BN_bn2binpad bignum tolen))) in
  write_buffer out data.

Definition _ECDSA_SIG_new : outcome ECDSA_SIG :=
  run_pure (OpensslCallPtr (ret SSL_ECDSA_SIG_new)).
Definition _ECDSA_SIG_set0 (sig : ECDSA_SIG) (r s : BIGNUM) : outcome ECDSA_SIG :=
  run_pure (OpensslCallIsOne (ret (SSL_ECDSA_SIG_set0 sig r s))).
Definition _ECDSA_SIG_get0_r (sig : ECDSA_SIG) : outcome BIGNUM :=
  run_pure (OpensslCallPtr (ret (SSL_ECDSA_SIG_get0_r sig))).
Definition _ECDSA_SIG_get0_s (sig : ECDSA_SIG) : outcome BIGNUM :=
  run_pure (OpensslCallPtr (ret (SSL_ECDSA_SIG_get0_s sig))).

Definition _i2d_ECDSA_SIG (sig : ECDSA_SIG) : outcome bytes :=
  let '(result, outputBuffer) := SSL_i2d_ECDSA_SIG sig in
  if result <=? 0 then
    Throw (OpenSSLException [Str "ECDSA Signature serialization to DER failed."])
  else
    match outputBuffer with
    | None => Throw (OpenSSLException
                [Str "ECDSA Signature serialization to DER failed: Returned no data"])
    | Some b => Val (take (Z.to_nat result) b)
    end.

Definition _d2i_ECDSA_SIG (signature : bytes) : outcome ECDSA_SIG :=
  run_pure (OpensslCallPtr (ret (SSL_d2i_ECDSA_SIG signature (size signature)))).

(** ** Helpers *)

Definition createHash (hashFunction : DigestTypes) (message : bytes) : outcome bytes :=
  match hashFunction with
  | SHA1 => HashOps.sha1 message
  | SHA256 => HashOps.sha256 message
  | SHA384 => HashOps.sha384 message
  | SHA512 => HashOps.sha512 message
  | SHA3_256 => HashOps.sha3_256 message
  | SHA3_384 => HashOps.sha3_384 message
  | SHA3_512 => HashOps.sha3_512 message
  | NONE => Throw (MoCOCrWException [Str "Unknown Hash Function"])
  end.

(** [std::vector<uint8_t>(p, p + len)] *)
Definition vector_from (p : option bytes) (len : Z) : outcome bytes :=
  match p with
  | Some b => if len <=? size b then Val (take (Z.to_nat len) b) else Throw UndefinedBehaviour
  | None => Throw UndefinedBehaviour
  end.

(** The two calls of encryption, decryption and [signHelper]. *)
Definition two_calls {S} (call : option bytes → Z → M S (Z * option bytes)) : M S bytes :=
  let! (len, _) := call None 0 in
  let! buffer := lift (_OPENSSL_malloc (to_int len)) in
  let! (len, out) := call (Some buffer) len in
  lift (vector_from out len).

Definition signHelper (keyCtx : EVP_PKEY_CTX) (toBeSigned : bytes) : M ENTROPY bytes :=
  two_calls (_EVP_PKEY_sign keyCtx toBeSigned).

(** ** RSA *)

(** A key and a padding; [RSAImpl]'s constructor checks the type of the key. *)
Record RSAImpl (Padding : Type) := mkRSA { r_key : EVP_PKEY; r_padding : Padding }.
Arguments mkRSA {Padding}.
Arguments r_key {Padding}.
Arguments r_padding {Padding}.

Definition RSAImpl_new {P} (key : EVP_PKEY) (padding : P) : outcome (RSAImpl P) :=
  let? t := getType key in
  if bool_decide (t = RSA) then Val (mkRSA key padding)
  else Throw (MoCOCrWException [Str "Expected RSA Key for RSA operation"]).

Definition RSAEncryptionPrivateKeyCtx_decrypt {P} `{!RSAEncryptionPadding P}
    (c : RSAImpl P) (message : bytes) : M ENTROPY bytes :=
  rethrow id
    (let! keyCtx := lift (_EVP_PKEY_CTX_new (r_key c)) in
     let! keyCtx := lift (_EVP_PKEY_decrypt_init keyCtx) in
     let! keyCtx := lift (prepareEncryption (r_padding c) keyCtx) in
     two_calls (_EVP_PKEY_decrypt keyCtx message)).

Definition RSAEncryptionPublicKeyCtx_encrypt {P} `{!RSAEncryptionPadding P}
    (c : RSAImpl P) (message : bytes) : M ENTROPY bytes :=
  rethrow id
    (let! keyCtx := lift (_EVP_PKEY_CTX_new (r_key c)) in
     throw_if (INT_MAX <? size message)
       (MoCOCrWException [Str "Message size exceeds possible key size"]) ;;
     let! ok := lift (checkMessageSize (r_padding c) (r_key c) (size message)) in
     throw_if (negb ok)
       (MoCOCrWException [Str "Message of size "; Num (size message);
          Str " can't be encrypted using the given key and padding"]) ;;
     let! keyCtx := lift (_EVP_PKEY_encrypt_init keyCtx) in
     let! keyCtx := lift (prepareEncryption (r_padding c) keyCtx) in
     two_calls (_EVP_PKEY_encrypt keyCtx message)).

(** [if (messageDigest.size() != Hash::getDigestSize(_hashFunction)) throw] *)
Definition check_digest_size (hashFunction : DigestTypes) (messageDigest : bytes) :
    outcome () :=
  let? expectedDigestSize := getDigestSize hashFunction in
  if size messageDigest =? expectedDigestSize then Val ()
  else Throw (MoCOCrWException [Str "Expected digest of size "; Num expectedDigestSize]).

(** [RSASignatureImpl]: the base class and the hash function. *)
Record RSASignatureImpl (Padding : Type) := mkRSASignature {
  rs_impl : RSAImpl Padding;
  rs_hashFunction : DigestTypes;
}.
Arguments mkRSASignature {Padding}.
Arguments rs_impl {Padding}.
Arguments rs_hashFunction {Padding}.

Definition RSASignatureImpl_new {P} (key : EVP_PKEY) (hashFunction : DigestTypes) (padding : P) :
    outcome (RSASignatureImpl P) :=
  let? c := RSAImpl_new key padding in Val (mkRSASignature c hashFunction).

Definition RSA_signDigest {P} `{!RSASignaturePadding P} (c : RSASignatureImpl P)
    (messageDigest : bytes) : M ENTROPY bytes :=
  lift (check_digest_size (rs_hashFunction c) messageDigest) ;;
  rethrow id
    (let! keyCtx := lift (_EVP_PKEY_CTX_new (r_key (rs_impl c))) in
     let! keyCtx := lift (_EVP_PKEY_sign_init keyCtx) in
     let! keyCtx := lift (prepareSignature (r_padding (rs_impl c)) keyCtx (rs_hashFunction c)) in
     signHelper keyCtx messageDigest).

Definition RSA_signMessage {P} `{!RSASignaturePadding P} (c : RSASignatureImpl P)
    (message : bytes) : M ENTROPY bytes :=
  let! digest := lift (createHash (rs_hashFunction c) message) in RSA_signDigest c digest.

Definition RSA_verifyDigest {P} `{!RSASignaturePadding P} (c : RSASignatureImpl P)
    (signature messageDigest : bytes) : M ENTROPY () :=
  lift (check_digest_size (rs_hashFunction c) messageDigest) ;;
  rethrow validation_failed
    (let! keyCtx := lift (_EVP_PKEY_CTX_new (r_key (rs_impl c))) in
     let! keyCtx := lift (_EVP_PKEY_verify_init keyCtx) in
     let! keyCtx := lift (prepareSignature (r_padding (rs_impl c)) keyCtx (rs_hashFunction c)) in
     lift (_EVP_PKEY_verify keyCtx signature messageDigest)).

Definition RSA_verifyMessage {P} `{!RSASignaturePadding P} (c : RSASignatureImpl P)
    (signature message : bytes) : M ENTROPY () :=
  let! digest := lift (createHash (rs_hashFunction c) message) in
  RSA_verifyDigest c signature digest.

(** ** ECDSA *)

Inductive ECDSASignatureFormat := ASN1_SEQUENCE_OF_INTS | IEEE1363.
(** The enumeration with the typo, and its conversion. *)
Inductive ECSDASignatureFormat := ECSDA_ASN1_SEQUENCE_OF_INTS | ECSDA_IEEE1363.
Definition SDAtoDSASignatureFormat (f : ECSDASignatureFormat) : ECDSASignatureFormat :=
  match f with
  | ECSDA_ASN1_SEQUENCE_OF_INTS => ASN1_SEQUENCE_OF_INTS
  | ECSDA_IEEE1363 => IEEE1363
  end.

Definition _Asn1ECSignatureToIEEE1363EcSignature (signature : bytes) (keySizeBytes : Z) :
    outcome bytes :=
  let? ecdsa := _d2i_ECDSA_SIG signature in
  let? r := _ECDSA_SIG_get0_r ecdsa in
  let? s := _ECDSA_SIG_get0_s ecdsa in
  let? ieee := _BN_bn2binpad r (to_int keySizeBytes) in
  let? s_vec := _BN_bn2binpad s (to_int keySizeBytes) in
  Val (ieee ++ s_vec).

(** The null checks of the code cannot fail: [_BN_bin2bn] throws. *)
Definition _IEEE1363EcSignatureToAsn1ECSignature (signature : bytes) (keySizeBytes : Z) :
    outcome bytes :=
  if negb (size signature =? to_size_t (2 * keySizeBytes)) then
    Throw (MoCOCrWException [Str "Invalid signature size."])
  else
    let? r := _BN_bin2bn (take (Z.to_nat keySizeBytes) signature) in
    let? s := _BN_bin2bn (take (Z.to_nat keySizeBytes) (drop (Z.to_nat keySizeBytes) signature)) in
    let? ecdsa := _ECDSA_SIG_new in
    let? ecdsa := _ECDSA_SIG_set0 ecdsa r s in
    _i2d_ECDSA_SIG ecdsa.

Record ECDSAImpl := mkECDSA {
  c_key : EVP_PKEY;
  c_sigFormat : ECDSASignatureFormat;
  c_hashFunction : DigestTypes;
}.

Definition ECDSAImpl_new (key : EVP_PKEY) (hashFunction : DigestTypes)
    (sigFormat : ECDSASignatureFormat) : outcome ECDSAImpl :=
  let? t := getType key in
  if bool_decide (t = ECC) then Val (mkECDSA key sigFormat hashFunction)
  else Throw (MoCOCrWException [Str "Expected ECC Key for ECC signatures"]).

(** [(_key.getKeySize() + 7) / 8] *)
Definition keySizeBytes (key : EVP_PKEY) : Z := to_size_t (Z.quot (getKeySize key + 7) 8).

Definition ECDSA_signAsn1 (c : ECDSAImpl) (messageDigest : bytes) : M ENTROPY bytes :=
  lift (check_digest_size (c_hashFunction c) messageDigest) ;;
  rethrow id
    (let! keyCtx := lift (_EVP_PKEY_CTX_new (c_key c)) in
     let! keyCtx := lift (_EVP_PKEY_sign_init keyCtx) in
     signHelper keyCtx messageDigest).

Definition ECDSA_signDigest (c : ECDSAImpl) (messageDigest : bytes) : M ENTROPY bytes :=
  let! signature := ECDSA_signAsn1 c messageDigest in
  match c_sigFormat c with
  | ASN1_SEQUENCE_OF_INTS => ret signature
  | IEEE1363 => lift (_Asn1ECSignatureToIEEE1363EcSignature signature (keySizeBytes (c_key c)))
  end.

Definition ECDSA_signMessage (c : ECDSAImpl) (message : bytes) : M ENTROPY bytes :=
  let! digest := lift (createHash (c_hashFunction c) message) in ECDSA_signDigest c digest.

Definition ECDSA_verifyAsn1 (c : ECDSAImpl) (signature messageDigest : bytes) : M ENTROPY () :=
  lift (check_digest_size (c_hashFunction c) messageDigest) ;;
  rethrow validation_failed
    (let! keyCtx := lift (_EVP_PKEY_CTX_new (c_key c)) in
     let! keyCtx := lift (_EVP_PKEY_verify_init keyCtx) in
     lift (_EVP_PKEY_verify keyCtx signature messageDigest)).

Definition ECDSA_verifyDigest (c : ECDSAImpl) (signature messageDigest : bytes) :
    M ENTROPY () :=
  match c_sigFormat c with
  | IEEE1363 =>
      let! asn1Signature :=
        lift (_IEEE1363EcSignatureToAsn1ECSignature signature (keySizeBytes (c_key c))) in
      ECDSA_verifyAsn1 c asn1Signature messageDigest
  | ASN1_SEQUENCE_OF_INTS => ECDSA_verifyAsn1 c signature messageDigest
  end.

Definition ECDSA_verifyMessage (c : ECDSAImpl) (signature message : bytes) : M ENTROPY () :=
  let! digest := lift (createHash (c_hashFunction c) message) in
  ECDSA_verifyDigest c signature digest.

(** ** EdDSA *)

Record EdDSAImpl := mkEdDSA { d_key : EVP_PKEY }.

Definition EdDSAImpl_new (key : EVP_PKEY) : outcome EdDSAImpl :=
  let? t := getType key in
  if bool_decide (t = ECC_ED) then Val (mkEdDSA key)
  else Throw (MoCOCrWException [Str "Expected Ed448 or Ed25519 Key for EdDSA signatures"]).

(** The context is a local variable; the signature keeps the length that the
    first call reported. *)
Definition EdDSA_signMessage (c : EdDSAImpl) (message : bytes) : outcome bytes :=
  as_mococrw
    (let? mctx := _EVP_MD_CTX_create in
     (( _EVP_DigestSignInit NONE (d_key c) ;;
        let! (siglen, _) := _EVP_DigestSign message None 0 in
        let! (_, signature) := _EVP_DigestSign message (Some (zeros siglen)) siglen in
        ret (match signature with Some s => s | None => zeros siglen end)) mctx).1).

Definition EdDSA_verifyMessage (c : EdDSAImpl) (signature message : bytes) : outcome () :=
  match (let? mctx := _EVP_MD_CTX_create in
         ((_EVP_DigestVerifyInit NONE (d_key c) ;;
           _EVP_DigestVerify signature message) mctx).1) with
  | Throw (OpenSSLException w) => Throw (MoCOCrWException (validation_failed w))
  | o => o
  end.
End Wrappers.

Arguments mkRSA {bio evp pkey Padding}.
Arguments r_key {bio evp pkey Padding}.
Arguments r_padding {bio evp pkey Padding}.
Arguments mkRSASignature {bio evp pkey Padding}.
Arguments rs_impl {bio evp pkey Padding}.
Arguments rs_hashFunction {bio evp pkey Padding}.
