(* ===== verification/AsymmetricFacts.v ===== *)
(** * Correctness of the asymmetric contexts *)

From S2P Require Import Prelude CheckCall Util SymmetricCrypto XorCipher OpenSSLWrap Hash Bio.
From S2P Require Import Key Padding AsymmetricCtx.

(** ** Big-endian numbers *)

Fixpoint be_value (b : bytes) : Z :=
  match b with
  | [] => 0
  | x :: b' => byte_val x * 256 ^ size b' + be_value b'
  end.

Fixpoint be_bytes (n : nat) (v : Z) : bytes :=
  match n with
  | O => []
  | S m => to_uint8 (v / 256 ^ Z.of_nat m) :: be_bytes m (v mod 256 ^ Z.of_nat m)
  end.

Lemma length_be_bytes n v : length (be_bytes n v) = n.
Proof. revert v. induction n as [|n IH]; intros v; [done|]. cbn. by rewrite IH. Qed.

Lemma be_value_range b : 0 ≤ be_value b < 256 ^ size b.
Proof.
  induction b as [|x b IH]; [done|]. cbn [be_value]. rewrite size_cons, Z.pow_add_r by
    (pose proof (size_nonneg b); lia).
  pose proof (byte_val_range x). pose proof (Z.pow_pos_nonneg 256 (size b)). nia.
Qed.

Lemma byte_val_to_uint8 v : 0 ≤ v < 256 → byte_val (to_uint8 v) = v.
Proof.
  intros Hv. unfold to_uint8, byte_val. rewrite Z.mod_small by done.
  destruct (Byte.of_N (Z.to_N v)) as [b|] eqn:Hb.
  - apply Byte.to_of_N in Hb. cbn. rewrite Hb. lia.
  - apply Byte.of_N_None_iff in Hb. lia.
Qed.

Lemma be_value_bytes n v : 0 ≤ v < 256 ^ Z.of_nat n → be_value (be_bytes n v) = v.
Proof.
  revert v. induction n as [|n IH]; intros v Hv; [cbn in *; lia|].
  cbn [be_bytes be_value]. unfold size. rewrite length_be_bytes.
  pose proof (Z.pow_pos_nonneg 256 (Z.of_nat n) ltac:(lia) ltac:(lia)) as Hp.
  rewrite Nat2Z.inj_succ, Z.pow_succ_r in Hv by lia.
  rewrite byte_val_to_uint8.
  - rewrite IH by (apply Z.mod_pos_bound; lia).
    pose proof (Z.div_mod v (256 ^ Z.of_nat n)). lia.
  - split; [apply Z.div_pos; lia|]. apply Z.div_lt_upper_bound; lia.
Qed.

Lemma be_bytes_value b : be_bytes (length b) (be_value b) = b.
Proof.
  induction b as [|x b IH]; [done|]. cbn [length be_bytes be_value].
  pose proof (be_value_range b) as Hr. pose proof (byte_val_range x) as Hx. unfold size in *.
  rewrite Z.div_add_l by lia. rewrite (Z.div_small (be_value b)) by lia.
  rewrite Z.add_0_r, to_uint8_byte_val. f_equal.
  rewrite Z.add_comm, Z.mod_add, Z.mod_small by lia. done.
Qed.

Lemma be_bytes_value' b n : length b = n → be_bytes n (be_value b) = b.
Proof. intros <-. apply be_bytes_value. Qed.

(** ** What OpenSSL promises *)

Inductive pkey_op := OpEncrypt | OpDecrypt | OpSign | OpVerify.

Section Config.
Context {md : EvpMdAPI}.

(** What the operation of a context depends on besides the key. *)
Record crypt_config := mkConfig {
  cc_pad : RSAPaddingMode;
  cc_md : option EVP_MD;
  cc_salt : option Z;
  cc_mgf1 : option EVP_MD;
  cc_oaep : option EVP_MD;
  cc_label : bytes;
}.

Definition default_config : crypt_config := mkConfig PAD_PKCS1 None None None None [].
Definition with_pad p c := mkConfig p (cc_md c) (cc_salt c) (cc_mgf1 c) (cc_oaep c) (cc_label c).
Definition with_md m c :=
  mkConfig (cc_pad c) (Some m) (cc_salt c) (cc_mgf1 c) (cc_oaep c) (cc_label c).
Definition with_salt n c :=
  mkConfig (cc_pad c) (cc_md c) (Some n) (cc_mgf1 c) (cc_oaep c) (cc_label c).
Definition with_mgf1 m c :=
  mkConfig (cc_pad c) (cc_md c) (cc_salt c) (Some m) (cc_oaep c) (cc_label c).
Definition with_oaep m c :=
  mkConfig (cc_pad c) (cc_md c) (cc_salt c) (cc_mgf1 c) (Some m) (cc_label c).
Definition with_label l c :=
  mkConfig (cc_pad c) (cc_md c) (cc_salt c) (cc_mgf1 c) (cc_oaep c) l.
End Config.

Record crypt_view {md : EvpMdAPI} (KEY : Type) := mkCrypt {
  cv_key : KEY;
  cv_op : option pkey_op;
  cv_config : crypt_config;
}.
Arguments mkCrypt {md KEY}.
Arguments cv_key {md KEY}.
Arguments cv_op {md KEY}.
Arguments cv_config {md KEY}.

(** The integers of a signature are below this bound. *)
Definition BN_LIMIT : Z := 256 ^ 128.

Class AsymmetricSpec {bio : BioAPI} {evp : EvpCipherAPI} {md : EvpMdAPI}
    {dig : EvpDigestAPI md} {pkey : EvpPkeyAPI bio evp}
    (rsa : RsaCtxAPI md pkey) (api : AsymmetricAPI dig pkey) := {
  crypt : EVP_PKEY_CTX → crypt_view EVP_PKEY;
  crypt_new k c : SSL_EVP_PKEY_CTX_new k = Some c → crypt c = mkCrypt k None default_config;
  (** the init functions choose the operation *)
  sign_init_spec c c' rv : SSL_EVP_PKEY_sign_init c = (rv, c') → 0 < rv →
    crypt c' = mkCrypt (cv_key (crypt c)) (Some OpSign) (cv_config (crypt c));
  verify_init_spec c c' rv : SSL_EVP_PKEY_verify_init c = (rv, c') → 0 < rv →
    crypt c' = mkCrypt (cv_key (crypt c)) (Some OpVerify) (cv_config (crypt c));
  encrypt_init_spec c c' rv : SSL_EVP_PKEY_encrypt_init c = (rv, c') → 0 < rv →
    crypt c' = mkCrypt (cv_key (crypt c)) (Some OpEncrypt) (cv_config (crypt c));
  decrypt_init_spec c c' rv : SSL_EVP_PKEY_decrypt_init c = (rv, c') → 0 < rv →
    crypt c' = mkCrypt (cv_key (crypt c)) (Some OpDecrypt) (cv_config (crypt c));
  set_padding_spec p c c' rv : SSL_EVP_PKEY_CTX_set_rsa_padding p c = (rv, c') → 0 < rv →
    crypt c' = mkCrypt (cv_key (crypt c)) (cv_op (crypt c)) (with_pad p (cv_config (crypt c)));
  set_md_spec m c c' rv : SSL_EVP_PKEY_CTX_set_signature_md m c = (rv, c') → 0 < rv →
    crypt c' = mkCrypt (cv_key (crypt c)) (cv_op (crypt c)) (with_md m (cv_config (crypt c)));
  set_salt_spec n c c' rv : SSL_EVP_PKEY_CTX_set_rsa_pss_saltlen n c = (rv, c') → 0 < rv →
    crypt c' = mkCrypt (cv_key (crypt c)) (cv_op (crypt c)) (with_salt n (cv_config (crypt c)));
  set_mgf1_spec m c c' rv : SSL_EVP_PKEY_CTX_set_rsa_mgf1_md m c = (rv, c') → 0 < rv →
    crypt c' = mkCrypt (cv_key (crypt c)) (cv_op (crypt c)) (with_mgf1 m (cv_config (crypt c)));
  set_oaep_spec m c c' rv : SSL_EVP_PKEY_CTX_set_rsa_oaep_md m c = (rv, c') → 0 < rv →
    crypt c' = mkCrypt (cv_key (crypt c)) (cv_op (crypt c)) (with_oaep m (cv_config (crypt c)));
  set_label_spec l n c c' rv :
    SSL_EVP_PKEY_CTX_set_rsa_oaep_label l n c = (rv, c') → 0 < rv →
    crypt c' = mkCrypt (cv_key (crypt c)) (cv_op (crypt c))
                 (with_label (take (Z.to_nat n) l) (cv_config (crypt c)));
  malloc_spec n b : SSL_OPENSSL_malloc n = Some b → size b = n;
  (** keys that belong together, ciphertexts and signatures *)
  key_pair : EVP_PKEY → EVP_PKEY → Prop;
  key_pair_bits pub priv : key_pair pub priv → EVP_PKEY_bits pub = EVP_PKEY_bits priv;
  key_pair_type pub priv : key_pair pub priv → getType pub = getType priv;
  (** raw RSA takes messages that are numbers below the modulus *)
  modulus : EVP_PKEY → Z;
  encrypts : crypt_config → EVP_PKEY → bytes → bytes → Prop;
  signs : crypt_config → EVP_PKEY → bytes → bytes → Prop;
  valid : crypt_config → EVP_PKEY → bytes → bytes → Prop;
  signs_valid cfg pub priv d s : key_pair pub priv → signs cfg priv d s → valid cfg pub d s;
  (** a length that is big enough, then the output *)
  encrypt_spec c out outlen input e :
    wp_total (SSL_EVP_PKEY_encrypt c out outlen input) e (λ '(rv, (n, data)) _, 0 < rv →
      match out with
      | None => 0 ≤ n ≤ 65536
      | Some buf => outlen = size buf → n = size data ∧ size data ≤ size buf ∧
          (cv_op (crypt c) = Some OpEncrypt →
           encrypts (cv_config (crypt c)) (cv_key (crypt c)) input data)
      end);
  decrypt_spec c out outlen input e :
    wp_total (SSL_EVP_PKEY_decrypt c out outlen input) e (λ '(rv, (n, data)) _, 0 < rv →
      match out with
      | None => 0 ≤ n ≤ 65536
      | Some buf => outlen = size buf → n = size data ∧ size data ≤ size buf ∧
          (cv_op (crypt c) = Some OpDecrypt → ∀ pub m, key_pair pub (cv_key (crypt c)) →
           encrypts (cv_config (crypt c)) pub m input → data = m)
      end);
  sign_spec c out outlen tbs e :
    wp_total (SSL_EVP_PKEY_sign c out outlen tbs) e (λ '(rv, (n, data)) _, 0 < rv →
      match out with
      | None => 0 ≤ n ≤ 65536
      | Some buf => outlen = size buf → n = size data ∧ size data ≤ size buf ∧
          (cv_op (crypt c) = Some OpSign →
           signs (cv_config (crypt c)) (cv_key (crypt c)) tbs data)
      end);
  verify_spec c sig tbs :
    cv_op (crypt c) = Some OpVerify →
    0 < SSL_EVP_PKEY_verify c sig tbs ↔ valid (cv_config (crypt c)) (cv_key (crypt c)) tbs sig;
  (** EdDSA: a context that signs or verifies with a key, without a digest; the
      signatures of a key have one size *)
  ed_ctx : EVP_MD_CTX → pkey_op → EVP_PKEY → Prop;
  ed_size : EVP_PKEY → Z;
  ed_size_nonneg k : 0 ≤ ed_size k;
  ed_signs : EVP_PKEY → bytes → bytes → Prop;
  ed_valid : EVP_PKEY → bytes → bytes → Prop;
  ed_signs_valid pub priv m s : key_pair pub priv → ed_signs priv m s → ed_valid pub m s;
  DigestSignInit_spec k c :
    wp_total (SSL_EVP_DigestSignInit None k) c (λ r c', r.1 = 1 → ed_ctx c' OpSign k);
  DigestVerifyInit_spec k c :
    wp_total (SSL_EVP_DigestVerifyInit None k) c (λ r c', r.1 = 1 → ed_ctx c' OpVerify k);
  DigestSign_spec c k out outlen m :
    ed_ctx c OpSign k →
    wp_total (SSL_EVP_DigestSign out outlen m) c (λ '(rv, (n, data)) c', rv = 1 →
      match out with
      | None => n = ed_size k ∧ ed_ctx c' OpSign k
      | Some buf => outlen = size buf → size data = ed_size k ∧ ed_signs k m data
      end);
  DigestVerify_spec c k sig m :
    ed_ctx c OpVerify k →
    wp_total (SSL_EVP_DigestVerify sig m) c (λ r _, r.1 = 1 ↔ ed_valid k m sig);
  (** big numbers, and the DER form of a pair of them *)
  bn_value : BIGNUM → Z;
  sig_pair : ECDSA_SIG → Z * Z;
  der : Z → Z → bytes;
  bin2bn_spec b : ∃ n, SSL_BN_bin2bn b (size b) = Some n ∧ bn_value n = be_value b;
  bn2binpad_spec n len : 1 ≤ len → 0 ≤ bn_value n < 256 ^ len →
    SSL_BN_bn2binpad n len = (len, be_bytes (Z.to_nat len) (bn_value n));
  sig_new_spec : is_Some SSL_ECDSA_SIG_new;
  sig_set0_spec x r s :
    ∃ x', SSL_ECDSA_SIG_set0 x r s = (1, x') ∧ sig_pair x' = (bn_value r, bn_value s);
  sig_get0_spec x : ∃ r s, SSL_ECDSA_SIG_get0_r x = Some r ∧ SSL_ECDSA_SIG_get0_s x = Some s ∧
    sig_pair x = (bn_value r, bn_value s);
  i2d_spec x : 0 ≤ (sig_pair x).1 < BN_LIMIT → 0 ≤ (sig_pair x).2 < BN_LIMIT →
    SSL_i2d_ECDSA_SIG x = (size (der (sig_pair x).1 (sig_pair x).2),
                           Some (der (sig_pair x).1 (sig_pair x).2));
  d2i_spec r s : 0 ≤ r < BN_LIMIT → 0 ≤ s < BN_LIMIT →
    0 < size (der r s) ∧
    ∃ x, SSL_d2i_ECDSA_SIG (der r s) (size (der r s)) = Some x ∧ sig_pair x = (r, s);
  (** the signature of an EC key is the DER form of two numbers that are below
      the order of its group *)
  ec_signs cfg k d s : signs cfg k d s → getType k = Val ECC →
    0 < EVP_PKEY_bits k ≤ 1000 ∧
    ∃ r t, s = der r t ∧ 0 ≤ r < 256 ^ ((EVP_PKEY_bits k + 7) / 8) ∧
                        0 ≤ t < 256 ^ ((EVP_PKEY_bits k + 7) / 8);
}.

(** ** Facts *)

Section Facts.
Context {bio : BioAPI} {evp : EvpCipherAPI} {md : EvpMdAPI} {dig : EvpDigestAPI md}.
Context {pkey : EvpPkeyAPI bio evp} {rsa : RsaCtxAPI md pkey} {api : AsymmetricAPI dig pkey}.
Context {spec : AsymmetricSpec rsa api}.

(** A step that keeps key and operation and changes the configuration by [g]. *)
Definition configures (f : EVP_PKEY_CTX → outcome EVP_PKEY_CTX)
    (g : crypt_config → crypt_config) : Prop :=
  ∀ c c', f c = Val c' →
    crypt c' = mkCrypt (cv_key (crypt c)) (cv_op (crypt c)) (g (cv_config (crypt c))).

Lemma configures_bind f f' g g' :
  configures f g → configures f' g' → configures (λ c, let? c' := f c in f' c') (λ x, g' (g x)).
Proof.
  intros Hf Hf' c c'' H. outcomes H. apply Hf in Ha. apply Hf' in H. by rewrite H, Ha.
Qed.

Lemma positive_ok {A} (call : Z * A) x :
  run_pure (OpensslCallIsPositive (ret call)) = Val x → ∃ rv, call = (rv, x) ∧ 0 < rv.
Proof.
  rewrite run_pure_IsPositive. destruct call as [rv y]. cbn.
  destruct (Z.ltb_spec 0 rv); [|done]. intros [= <-]. by exists rv.
Qed.

Ltac configured H spec := apply positive_ok in H as (? & H & ?); by apply (spec _ _ _ _ H).

Lemma set_rsa_padding_ok p : configures (_EVP_PKEY_CTX_set_rsa_padding p) (with_pad p).
Proof. intros c c' H. configured H set_padding_spec. Qed.
Lemma set_signature_md_ok m : configures (_EVP_PKEY_CTX_set_signature_md m) (with_md m).
Proof. intros c c' H. configured H set_md_spec. Qed.
Lemma set_pss_saltlen_ok n : configures (_EVP_PKEY_CTX_set_rsa_pss_saltlen n) (with_salt n).
Proof. intros c c' H. configured H set_salt_spec. Qed.
Lemma set_mgf1_md_ok m : configures (_EVP_PKEY_CTX_set_rsa_mgf1_md m) (with_mgf1 m).
Proof. intros c c' H. configured H set_mgf1_spec. Qed.
Lemma set_oaep_md_ok m : configures (_EVP_PKEY_CTX_set_rsa_oaep_md m) (with_oaep m).
Proof. intros c c' H. configured H set_oaep_spec. Qed.

(** The label is set when the call reports no zero, which the code does not check. *)
Lemma set_oaep_label_ok l n :
  (∀ c, (SSL_EVP_PKEY_CTX_set_rsa_oaep_label l n c).1 ≠ 0) →
  configures (_EVP_PKEY_CTX_set_rsa_oaep_label l n) (with_label (take (Z.to_nat n) l)).
Proof.
  intros Hn c c' H. unfold _EVP_PKEY_CTX_set_rsa_oaep_label in H.
  rewrite run_pure_IsNonNegative in H. specialize (Hn c).
  destruct (SSL_EVP_PKEY_CTX_set_rsa_oaep_label l n c) as [rv x] eqn:Hc. cbn in *.
  destruct (Z.leb_spec 0 rv); [|done]. injection H as <-.
  by apply (set_label_spec _ _ _ _ _ Hc); lia.
Qed.

Lemma mgf1_configures h m : _getMDPtrFromDigestType h = Val m →
  configures (MGF1_prepare (mkMGF1 h)) (with_mgf1 m).
Proof.
  intros Hm c c' H. unfold MGF1_prepare in H. cbn [g_hashFunction] in H. rewrite Hm in H.
  by apply set_mgf1_md_ok.
Qed.

(** A context that is prepared for an operation on a key. *)
Definition ready (init f : EVP_PKEY_CTX → outcome EVP_PKEY_CTX) (key : EVP_PKEY) :
    outcome EVP_PKEY_CTX :=
  let? c := _EVP_PKEY_CTX_new key in let? c := init c in f c.

Lemma CTX_new_ok key c : _EVP_PKEY_CTX_new key = Val c → crypt c = mkCrypt key None default_config.
Proof.
  unfold _EVP_PKEY_CTX_new. rewrite run_pure_Ptr. destruct SSL_EVP_PKEY_CTX_new as [x|] eqn:Hc; [|done].
  intros [= <-]. by apply crypt_new.
Qed.

Definition init_for (op : pkey_op) : EVP_PKEY_CTX → outcome EVP_PKEY_CTX :=
  match op with
  | OpSign => _EVP_PKEY_sign_init
  | OpVerify => _EVP_PKEY_verify_init
  | OpEncrypt => _EVP_PKEY_encrypt_init
  | OpDecrypt => _EVP_PKEY_decrypt_init
  end.

Lemma init_ok op c c' : init_for op c = Val c' →
  crypt c' = mkCrypt (cv_key (crypt c)) (Some op) (cv_config (crypt c)).
Proof.
  intros H. destruct op; apply positive_ok in H as (rv & H & Hrv);
    [by apply (encrypt_init_spec _ _ _ H)|by apply (decrypt_init_spec _ _ _ H)|
     by apply (sign_init_spec _ _ _ H)|by apply (verify_init_spec _ _ _ H)].
Qed.

Lemma ready_ok op f g key c : configures f g → ready (init_for op) f key = Val c →
  crypt c = mkCrypt key (Some op) (g default_config).
Proof.
  intros Hf H. unfold ready in H. outcomes H. apply CTX_new_ok in Ha. apply init_ok in Ha0.
  apply Hf in H. by rewrite H, Ha0, Ha.
Qed.

(** *** The two calls *)

(** A call that reports a length without a buffer and otherwise writes [data]. *)
Definition writes {S} (call : option bytes → Z → M S (Z * option bytes)) (P : bytes → Prop) :
    Prop :=
  (∀ s, wp (call None 0) s (λ r _, 0 ≤ r.1 ≤ 65536) (λ e _, e = OpenSSLException [ErrorQueue])) ∧
  (∀ buf s, wp (call (Some buf) (size buf)) s
     (λ r _, ∃ data buf', r = (size data, Some buf') ∧ write_buffer buf data = Val buf' ∧ P data)
     (λ e _, e = OpenSSLException [ErrorQueue])).

Lemma two_calls_spec {S} (call : option bytes → Z → M S (Z * option bytes)) P s :
  writes call P →
  wp (two_calls call) s (λ x _, P x) (λ e _, e = OpenSSLException [ErrorQueue]).
Proof.
  intros [Hnull Hbuf]. unfold two_calls. rewrite wp_bind.
  eapply wp_mono; [by apply Hnull| |done]. intros [n o] s' Hn. cbn [fst] in Hn. wp_simpl.
  rewrite to_int_id by (unfold INT_MIN, INT_MAX; lia).
  unfold _OPENSSL_malloc. rewrite run_pure_Ptr.
  destruct (SSL_OPENSSL_malloc n) as [buf|] eqn:Hm; [|done]. apply malloc_spec in Hm as <-.
  rewrite wp_bind. eapply wp_mono; [by apply Hbuf| |done].
  intros r s'' (data & buf' & -> & Hw & HP). wp_simpl. unfold vector_from.
  pose proof (size_write_buffer _ _ _ Hw) as Hs.
  unfold write_buffer in Hw. destruct (Z.leb_spec (size data) (size buf)); [|done].
  injection Hw as <-. destruct (Z.leb_spec (size data) (size (data ++ drop (length data) buf))); [|lia].
  unfold size at 1. rewrite Nat2Z.id, take_app_length. done.
Qed.

(** What the specifications say of a call is what [writes] asks for. *)
Lemma filled_writes {S} (raw : option bytes → Z → M S (Z * (Z * bytes))) (P : bytes → Prop) :
  (∀ out outlen s, wp_total (raw out outlen) s (λ '(rv, (n, data)) _, 0 < rv →
     match out with
     | None => 0 ≤ n ≤ 65536
     | Some buf => outlen = size buf → n = size data ∧ size data ≤ size buf ∧ P data
     end)) →
  writes (λ out outlen,
    let! r := OpensslCallIsPositive (raw out outlen) in filled out r) P.
Proof.
  intros Hraw. split.
  - intros s. rewrite wp_bind. apply wp_OpensslCallIsPositive.
    eapply wp_mono; [by apply Hraw| |done]. intros [rv [n data]] s' H.
    destruct (Z.ltb_spec 0 rv); [|done]. wp_simpl. by apply H.
  - intros buf s. rewrite wp_bind. apply wp_OpensslCallIsPositive.
    eapply wp_mono; [by apply Hraw| |done]. intros [rv [n data]] s' H.
    destruct (Z.ltb_spec 0 rv); [|done]. cbn in H. destruct (H ltac:(done) eq_refl) as (-> & Hle & HP).
    destruct (write_buffer buf data) as [buf'|] eqn:Hw.
    + unfold filled. cbn [fst snd]. wp_simpl. rewrite Hw. wp_simpl. by eexists _, _.
    + unfold write_buffer in Hw. by destruct (Z.leb_spec (size data) (size buf)); [|lia].
Qed.

Lemma two_calls_filled {S} (raw : option bytes → Z → M S (Z * (Z * bytes))) P s :
  (∀ out outlen s, wp_total (raw out outlen) s (λ '(rv, (n, data)) _, 0 < rv →
     match out with
     | None => 0 ≤ n ≤ 65536
     | Some buf => outlen = size buf → n = size data ∧ size data ≤ size buf ∧ P data
     end)) →
  wp (two_calls (λ out outlen,
       let! r := OpensslCallIsPositive (raw out outlen) in filled out r)) s
    (λ x _, P x) (λ e _, e = OpenSSLException [ErrorQueue]).
Proof. intros H. apply two_calls_spec. by apply filled_writes. Qed.

Lemma wp_rethrow {S A} (f : message → message) (m : M S A) s Φ Ψ :
  wp m s Φ (λ e s', match e with
                    | OpenSSLException w => Ψ (MoCOCrWException (f w)) s'
                    | _ => Ψ e s'
                    end) →
  wp (rethrow f m) s Φ Ψ.
Proof.
  intros H. unfold rethrow. apply wp_try_catch. eapply wp_mono; [exact H|done|].
  intros [] s'; try done.
Qed.

Lemma wp_rethrow_any {S A} (f : message → message) (m : M S A) s Φ :
  wp m s Φ (λ _ _, True) → wp (rethrow f m) s Φ (λ _ _, True).
Proof.
  intros H. apply wp_rethrow. eapply wp_mono; [exact H|done|]. by intros [].
Qed.
End Facts.

(** ** The configurations of the padding modes *)

Section Paddings.
Context {bio : BioAPI} {evp : EvpCipherAPI} {md : EvpMdAPI} {dig : EvpDigestAPI md}.
Context {pkey : EvpPkeyAPI bio evp} {rsa : RsaCtxAPI md pkey} {api : AsymmetricAPI dig pkey}.
Context {spec : AsymmetricSpec rsa api} {md_spec : EvpMdSpec md}.

Definition oaep_config (h : EVP_MD) (mgf : EVP_MD) (label : bytes) (c : crypt_config) :
    crypt_config :=
  let c := with_mgf1 mgf (with_oaep h (with_pad PAD_OAEP c)) in
  match label with [] => c | _ => with_label label c end.

Definition pss_config (h : EVP_MD) (salt : Z) (mgf : EVP_MD) (c : crypt_config) : crypt_config :=
  with_mgf1 mgf (with_salt salt (with_md h (with_pad PAD_PSS c))).

Lemma as_mococrw_Val {A} (o : outcome A) a : as_mococrw o = Val a ↔ o = Val a.
Proof. destruct o as [x|[]]; done. Qed.

Lemma oaep_configures h mgf hm gm label :
  _getMDPtrFromDigestType h = Val hm → _getMDPtrFromDigestType mgf = Val gm →
  size label ≤ INT_MAX →
  (∀ l n c, (SSL_EVP_PKEY_CTX_set_rsa_oaep_label l n c).1 ≠ 0) →
  configures (prepareEncryption (mkOAEP h label (any_mgf1 mgf))) (oaep_config hm gm label).
Proof.
  intros Hh Hg Hs Hl c c' H. unfold prepareEncryption, OAEPPadding_encryption,
    OAEPPadding_prepare in H.
  apply (proj1 (as_mococrw_Val _ _)) in H. cbn [o_hashFunction o_maskGenerationFunction o_label] in H.
  rewrite Hh in H. outcomes H. injection Ha0 as <-.
  apply set_rsa_padding_ok in Ha. apply set_oaep_md_ok in Ha1.
  apply (mgf1_configures _ _ Hg) in Ha2. unfold oaep_config. destruct label as [|b label].
  - injection H as <-. by rewrite Ha2, Ha1, Ha.
  - outcomes H. pose proof (size_nonneg (b :: label)).
    rewrite to_int_id in * by (unfold INT_MIN; lia).
    unfold _OPENSSL_malloc in Ha0. rewrite run_pure_Ptr in Ha0.
    destruct (SSL_OPENSSL_malloc (size (b :: label))) as [buf|] eqn:Hm; [|done].
    injection Ha0 as ->. apply malloc_spec in Hm.
    apply write_buffer_full in Ha3; [|done]. subst.
    apply set_oaep_label_ok in H; [|by intros]. rewrite H, Ha2, Ha1, Ha. cbn.
    rewrite take_ge; [done|]. unfold size. lia.
Qed.

Lemma pss_configures salt mgf h hm gm :
  _getMDPtrFromDigestType h = Val hm → _getMDPtrFromDigestType mgf = Val gm →
  configures (λ c, prepareSignature (mkPSS (Some (any_mgf1 mgf)) (Some salt)) c h)
    (pss_config hm salt gm) ∧
  configures (λ c, prepareSignature (mkPSS None None) c h) (pss_config hm (digest_size h) hm).
Proof.
  intros Hh Hg. split; intros c c' H; unfold prepareSignature, PSSPadding_signature,
    PSSPadding_prepareSignature in H; cbn [s_saltLength s_maskGenerationFunction] in H;
    rewrite Hh in H; outcomes H; injection Ha0 as <-;
    apply set_rsa_padding_ok in Ha; apply set_signature_md_ok in Ha1.
  - injection Ha2 as <-. apply set_pss_saltlen_ok in Ha3.
    change (_getMDPtrFromDigestType mgf = Val a4) in Ha4. rewrite Hg in Ha4.
    injection Ha4 as <-. apply set_mgf1_md_ok in H. by rewrite H, Ha3, Ha1, Ha.
  - assert (Hn : a2 = digest_size h) by (destruct h; vm_compute in Ha2; by simplify_eq).
    subst a2. apply set_pss_saltlen_ok in Ha3. cbn [g_hashFunction] in Ha4. rewrite Hh in Ha4.
    injection Ha4 as <-. apply set_mgf1_md_ok in H. by rewrite H, Ha3, Ha1, Ha.
Qed.

(** The padding modes configure the context as their parameters say: OAEP with
    its digest, the digest of its mask generation function and its label, PSS
    with the signature digest, its salt length and its mask digest; the mask
    digest defaults to the digest itself and the PSS salt to the digest's size. *)
Theorem padding_configurations (h mgf : DigestTypes) (hm gm : EVP_MD) (label : bytes) (salt : Z)
    (Hh : _getMDPtrFromDigestType h = Val hm) (Hg : _getMDPtrFromDigestType mgf = Val gm)
    (Hlabel : size label ≤ INT_MAX)
    (Hreport : ∀ l n c, (SSL_EVP_PKEY_CTX_set_rsa_oaep_label l n c).1 ≠ 0) :
  configures (prepareEncryption noPadding) (with_pad PAD_NONE) ∧
  configures (prepareEncryption pkcsPadding) (with_pad PAD_PKCS1) ∧
  configures (λ c, prepareSignature pkcsPadding c h) (λ x, with_md hm (with_pad PAD_PKCS1 x)) ∧
  configures (prepareEncryption (OAEPPadding_new h None label)) (oaep_config hm hm label) ∧
  configures (prepareEncryption (OAEPPadding_new h (Some (any_mgf1 mgf)) label))
    (oaep_config hm gm label) ∧
  configures (λ c, prepareSignature (mkPSS None None) c h) (pss_config hm (digest_size h) hm) ∧
  configures (λ c, prepareSignature (mkPSS (Some (any_mgf1 mgf)) (Some salt)) c h)
    (pss_config hm salt gm).
Proof.
  destruct (pss_configures salt mgf h hm gm Hh Hg) as [Hpss Hpss'].
  split_and!; try done.
  - apply set_rsa_padding_ok.
  - apply set_rsa_padding_ok.
  - intros c c' H. unfold prepareSignature, PKCSPadding_signature,
      PKCSPadding_prepareSignature in H. rewrite Hh in H. outcomes H. injection Ha0 as <-. apply set_rsa_padding_ok in Ha.
    apply set_signature_md_ok in H. by rewrite H, Ha.
  - by apply oaep_configures.
  - by apply oaep_configures.
Qed.

(** ** Message sizes *)

Lemma fits_spec r n : 0 ≤ n ≤ INT_MAX → r ≤ INT_MAX →
  fits r n = (0 <? r) && (n * 8 <=? r).
Proof.
  intros Hn Hr. unfold fits. destruct (Z.ltb_spec 0 r); [|done]. cbn [andb].
  unfold INT_MAX in *. by rewrite !to_size_t_id by (unfold SIZE_MAX; lia).
Qed.

(** C36. Message sizes: for a key of [k] bytes, raw RSA takes messages of exactly
    [k] bytes, PKCS#1 v1.5 at most [k] - 11, OAEP at most [k] - 2 [hLen] - 2.  A
    message that does not fit is refused with a MoCOCrWException before
    anything is encrypted. *)
Theorem rsa_message_sizes (key : EVP_PKEY) (k n : Z) (h : DigestTypes) (hm : EVP_MD)
    (label : bytes) (mgf : AnyMgf)
    (Hk : EVP_PKEY_bits key = 8 * k) (Hk' : 0 ≤ k ≤ 65536) (Hn : 0 ≤ n ≤ INT_MAX)
    (Hh : _getMDPtrFromDigestType h = Val hm) :
  let hLen := digest_size h in
  checkMessageSize noPadding key n = Val (n =? k) ∧
  checkMessageSize pkcsPadding key n = Val ((11 <? k) && (n <=? k - 11)) ∧
  checkMessageSize (mkOAEP h label mgf) key n =
    Val ((2 * hLen + 2 <? k) && (n <=? k - 2 * hLen - 2)) ∧
  (∀ P (I : RSAEncryptionPadding P) (p : P) (m : bytes) (e : ENTROPY),
     is_val (_EVP_PKEY_CTX_new key) = true → size m ≤ INT_MAX →
     checkMessageSize p key (size m) = Val false →
     ∃ w, RSAEncryptionPublicKeyCtx_encrypt (mkRSA key p) m e = (Throw (MoCOCrWException w), e)).
Proof.
  intros hLen. cbn. unfold NoPadding_checkMessageSize, PKCSPadding_checkMessageSize,
    OAEPPadding_checkMessageSize, getKeySize, _EVP_MD_size. cbn [o_hashFunction].
  rewrite Hh, Hk. cbn [obind]. rewrite (EVP_MD_size_spec h hm Hh).
  assert (HhLen : 0 ≤ hLen ≤ 64) by (unfold hLen; by destruct h).
  fold hLen. unfold INT_MAX in *. split_and!.
  - rewrite !to_size_t_id by (unfold SIZE_MAX; lia).
    destruct (Z.eqb_spec (n * 8) (8 * k)), (Z.eqb_spec n k); done || lia.
  - rewrite fits_spec by (unfold INT_MAX, PKCS_MAX_SIZE_OVERHEAD; lia).
    unfold PKCS_MAX_SIZE_OVERHEAD. f_equal.
    destruct (Z.ltb_spec 0 (8 * k - 11 * 8)), (Z.leb_spec (n * 8) (8 * k - 11 * 8)),
      (Z.ltb_spec 11 k), (Z.leb_spec n (k - 11)); done || lia.
  - rewrite fits_spec by (unfold INT_MAX; lia). f_equal.
    destruct (Z.ltb_spec 0 (8 * k - 2 * hLen * 8 - 2 * 8)),
      (Z.leb_spec (n * 8) (8 * k - 2 * hLen * 8 - 2 * 8)),
      (Z.ltb_spec (2 * hLen + 2) k), (Z.leb_spec n (k - 2 * hLen - 2)); done || lia.
  - intros P I p m e Hc Hm Hcheck. unfold RSAEncryptionPublicKeyCtx_encrypt, rethrow, try_catch.
    cbn [r_key r_padding]. destruct (_EVP_PKEY_CTX_new key) as [c|]; [|done].
    unfold bind, lift, throw_if, ret. destruct (Z.ltb_spec INT_MAX (size m)); [unfold INT_MAX in *; lia|].
    rewrite Hcheck. cbn. by eexists.
Qed.
End Paddings.

(** ** RSA *)

Section Rsa.
Context {bio : BioAPI} {evp : EvpCipherAPI} {md : EvpMdAPI} {dig : EvpDigestAPI md}.
Context {pkey : EvpPkeyAPI bio evp} {rsa : RsaCtxAPI md pkey} {api : AsymmetricAPI dig pkey}.
Context {spec : AsymmetricSpec rsa api}.

Abbreviation anything := (λ _ _, True).

(** What [signHelper] makes in a context that is prepared for signing. *)
Lemma signHelper_spec c cfg key d e :
  crypt c = mkCrypt key (Some OpSign) cfg →
  wp (signHelper c d) e (λ s _, signs cfg key d s) (λ e _, e = OpenSSLException [ErrorQueue]).
Proof.
  intros Hc. unfold signHelper. apply (two_calls_filled (λ o n, SSL_EVP_PKEY_sign c o n d) (λ s, signs cfg key d s)).
  intros out outlen s. eapply wp_mono; [by apply sign_spec| |done].
  rewrite Hc. cbn. intros [rv [n data]] s' H Hrv. specialize (H Hrv).
  destruct out; [|done]. intros Ho. destruct (H Ho) as (? & ? & He). auto.
Qed.

End Rsa.

(** ** ECDSA *)

Section Ecdsa.
Context {bio : BioAPI} {evp : EvpCipherAPI} {md : EvpMdAPI} {dig : EvpDigestAPI md}.
Context {pkey : EvpPkeyAPI bio evp} {rsa : RsaCtxAPI md pkey} {api : AsymmetricAPI dig pkey}.
Context {spec : AsymmetricSpec rsa api}.

Lemma pow_limit n : 1 ≤ n ≤ 128 → 0 < 256 ^ n ≤ BN_LIMIT.
Proof.
  intros Hn. unfold BN_LIMIT. split; [apply Z.pow_pos_nonneg; lia|].
  apply Z.pow_le_mono_r; lia.
Qed.

Lemma bn2binpad_ok b n : 1 ≤ n ≤ 128 → 0 ≤ bn_value b < 256 ^ n →
  _BN_bn2binpad b n = Val (be_bytes (Z.to_nat n) (bn_value b)).
Proof.
  intros Hn Hb. unfold _BN_bn2binpad. rewrite run_pure_IsPositive, bn2binpad_spec by lia.
  cbn [fst snd]. destruct (Z.ltb_spec 0 n); [|lia]. cbn [obind]. unfold write_buffer, size, zeros.
  rewrite length_replicate, length_be_bytes, Z.leb_refl, drop_ge, app_nil_r; [done|].
  by rewrite length_replicate.
Qed.

Lemma bin2bn_ok b : size b ≤ INT_MAX → ∃ n, _BN_bin2bn b = Val n ∧ bn_value n = be_value b.
Proof.
  intros Hb. unfold _BN_bin2bn. destruct (Z.ltb_spec INT_MAX (size b)); [lia|].
  pose proof (size_nonneg b). rewrite to_int_id by (unfold INT_MIN; lia). rewrite run_pure_Ptr.
  destruct (bin2bn_spec b) as (n & -> & Hn). by exists n.
Qed.

Lemma d2i_ok r s : 0 ≤ r < BN_LIMIT → 0 ≤ s < BN_LIMIT →
  ∃ x, _d2i_ECDSA_SIG (der r s) = Val x ∧ sig_pair x = (r, s).
Proof.
  intros Hr Hs. unfold _d2i_ECDSA_SIG. rewrite run_pure_Ptr.
  destruct (d2i_spec r s Hr Hs) as (_ & x & -> & Hx). by exists x.
Qed.

Lemma i2d_ok x r s : 0 ≤ r < BN_LIMIT → 0 ≤ s < BN_LIMIT → sig_pair x = (r, s) →
  _i2d_ECDSA_SIG x = Val (der r s).
Proof.
  intros Hr Hs Hx. unfold _i2d_ECDSA_SIG. rewrite (i2d_spec x) by (by rewrite Hx).
  rewrite Hx. cbn [fst snd]. destruct (d2i_spec r s Hr Hs) as [Hpos _].
  destruct (Z.leb_spec (size (der r s)) 0); [lia|].
  unfold size. by rewrite Nat2Z.id, firstn_all.
Qed.

Lemma asn1_to_ieee r s n : 1 ≤ n ≤ 128 → 0 ≤ r < 256 ^ n → 0 ≤ s < 256 ^ n →
  _Asn1ECSignatureToIEEE1363EcSignature (der r s) n =
    Val (be_bytes (Z.to_nat n) r ++ be_bytes (Z.to_nat n) s).
Proof.
  intros Hn Hr Hs. pose proof (pow_limit n Hn).
  unfold _Asn1ECSignatureToIEEE1363EcSignature, _ECDSA_SIG_get0_r, _ECDSA_SIG_get0_s.
  destruct (d2i_ok r s) as (x & -> & Hx); [lia..|]. cbn [obind]. rewrite !run_pure_Ptr.
  destruct (sig_get0_spec x) as (br & bs & -> & -> & Hb). rewrite Hx in Hb.
  injection Hb as -> ->. cbn [obind].
  rewrite !to_int_id by (unfold INT_MIN, INT_MAX; lia). by rewrite !bn2binpad_ok by lia.
Qed.

Lemma ieee_to_asn1 sig n : 1 ≤ n ≤ 128 → size sig = 2 * n →
  _IEEE1363EcSignatureToAsn1ECSignature sig n =
    Val (der (be_value (take (Z.to_nat n) sig)) (be_value (drop (Z.to_nat n) sig))).
Proof.
  intros Hn Hs. pose proof (pow_limit n Hn).
  assert (Hlr : size (take (Z.to_nat n) sig) = n) by (apply size_take; lia).
  assert (Hls : size (drop (Z.to_nat n) sig) = n) by (rewrite size_drop; lia).
  pose proof (be_value_range (take (Z.to_nat n) sig)) as Hr. rewrite Hlr in Hr.
  pose proof (be_value_range (drop (Z.to_nat n) sig)) as Ht. rewrite Hls in Ht.
  unfold _IEEE1363EcSignatureToAsn1ECSignature.
  rewrite to_size_t_id, Hs, Z.eqb_refl by (unfold SIZE_MAX; lia). cbn [negb].
  rewrite (take_ge (drop _ sig)) by (unfold size in Hls; lia).
  destruct (bin2bn_ok (take (Z.to_nat n) sig)) as (r & -> & Hbr); [unfold INT_MAX; lia|].
  destruct (bin2bn_ok (drop (Z.to_nat n) sig)) as (s & -> & Hbs); [unfold INT_MAX; lia|].
  cbn [obind]. unfold _ECDSA_SIG_new, _ECDSA_SIG_set0. rewrite run_pure_Ptr.
  destruct sig_new_spec as [x ->]. cbn [obind]. rewrite run_pure_IsOne.
  destruct (sig_set0_spec x r s) as (x' & -> & Hx'). cbn [fst snd Z.eqb Pos.eqb obind].
  apply i2d_ok; [lia|lia|]. by rewrite Hx', Hbr, Hbs.
Qed.

(** C35. ECDSA signature formats: with components of [n] bytes, the IEEE 1363 form of
    the DER signature of [r] and [s] is the two big-endian numbers one after the
    other; both conversions are inverse to each other; a signature that is not
    of size 2 [n] is refused with a MoCOCrWException. *)
Theorem ecdsa_formats (n : Z) (Hn : 1 ≤ n ≤ 128) :
  (∀ r s, 0 ≤ r < 256 ^ n → 0 ≤ s < 256 ^ n →
    let ieee := be_bytes (Z.to_nat n) r ++ be_bytes (Z.to_nat n) s in
    _Asn1ECSignatureToIEEE1363EcSignature (der r s) n = Val ieee ∧
    _IEEE1363EcSignatureToAsn1ECSignature ieee n = Val (der r s)) ∧
  (∀ ieee, size ieee = 2 * n → ∃ asn1,
    _IEEE1363EcSignatureToAsn1ECSignature ieee n = Val asn1 ∧
    _Asn1ECSignatureToIEEE1363EcSignature asn1 n = Val ieee) ∧
  (∀ ieee, size ieee ≠ 2 * n →
    _IEEE1363EcSignatureToAsn1ECSignature ieee n =
      Throw (MoCOCrWException [Str "Invalid signature size."])).
Proof.
  split; [|split].
  - intros r s Hr Hs ieee. split; [by apply asn1_to_ieee|]. unfold ieee. rewrite ieee_to_asn1; [|done|].
    + rewrite take_app_length', drop_app_length' by (by rewrite length_be_bytes).
      by rewrite !be_value_bytes by (rewrite Z2Nat.id; lia).
    + rewrite size_app. unfold size. rewrite !length_be_bytes. lia.
  - intros ieee Hs. eexists. split; [by apply ieee_to_asn1|].
    assert (Hlr : size (take (Z.to_nat n) ieee) = n) by (apply size_take; lia).
    assert (Hls : size (drop (Z.to_nat n) ieee) = n) by (rewrite size_drop; lia).
    pose proof (be_value_range (take (Z.to_nat n) ieee)) as Hr. rewrite Hlr in Hr.
    pose proof (be_value_range (drop (Z.to_nat n) ieee)) as Ht. rewrite Hls in Ht.
    rewrite asn1_to_ieee by done. unfold size in *. f_equal.
    rewrite !be_bytes_value' by lia. apply take_drop.
  - intros ieee Hs. unfold _IEEE1363EcSignatureToAsn1ECSignature.
    rewrite to_size_t_id by (unfold SIZE_MAX; lia).
    by destruct (Z.eqb_spec (size ieee) (2 * n)).
Qed.
Lemma keySizeBytes_spec key : 0 < EVP_PKEY_bits key ≤ 1000 →
  keySizeBytes key = (EVP_PKEY_bits key + 7) / 8 ∧ 1 ≤ keySizeBytes key ≤ 128.
Proof.
  intros Hb. unfold keySizeBytes, getKeySize. rewrite Z.quot_div_nonneg by lia.
  assert (1 ≤ (EVP_PKEY_bits key + 7) / 8 ≤ 128) by
    (split; [apply Z.div_le_lower_bound|apply Z.div_le_upper_bound]; lia).
  rewrite to_size_t_id by (unfold SIZE_MAX; lia). done.
Qed.

Lemma val_configures : configures Val id.
Proof. intros c c' [= <-]. by destruct (crypt c). Qed.

(** The signature in the format of the context. *)
Definition in_format (fmt : ECDSASignatureFormat) (n r t : Z) : bytes :=
  match fmt with
  | ASN1_SEQUENCE_OF_INTS => der r t
  | IEEE1363 => be_bytes (Z.to_nat n) r ++ be_bytes (Z.to_nat n) t
  end.

End Ecdsa.

(** ** A concrete instance

    A ciphertext and a signature show the secret number of the key and the padding
    of the context; the DER form of a pair of numbers has 128 bytes for each. *)
Module ToyCrypto.
#[local] Existing Instance NamedDigests.api.
#[local] Existing Instance LengthDigest.api.
#[local] Existing Instance NamedDigests.spec.
#[local] Existing Instance MemBio.api.
#[local] Existing Instance XorCipher.api.

Definition key : Type := NumberKeys.key.
Record ctx := mkCtx { x_ctx : NumberKeys.ctx; x_op : option pkey_op; x_conf : crypt_config }.

(** A call of the underlying instance. *)
Definition on_ctx (f : NumberKeys.ctx → Z * NumberKeys.ctx) (c : ctx) : Z * ctx :=
  let '(rv, c') := f (x_ctx c) in (rv, mkCtx c' (x_op c) (x_conf c)).
Definition fresh (c : NumberKeys.ctx) : ctx := mkCtx c None default_config.

#[export] Instance pkey : EvpPkeyAPI MemBio.api XorCipher.api := {
  EVP_PKEY := key; EVP_PKEY_CTX := ctx; EC_KEY := key; EC_GROUP := key; KEYGEN := nat;
  SSL_EVP_PKEY_id := @SSL_EVP_PKEY_id _ _ NumberKeys.api;
  SSL_EVP_PKEY_type := id; EVP_PKEY_bits := NumberKeys.k_bits;
  SSL_EVP_PKEY_size := NumberKeys.k_bits;
  SSL_EVP_PKEY_cmp := @SSL_EVP_PKEY_cmp _ _ NumberKeys.api;
  SSL_EVP_PKEY_new := @SSL_EVP_PKEY_new _ _ NumberKeys.api;
  SSL_EVP_PKEY_get0_EC_KEY := @SSL_EVP_PKEY_get0_EC_KEY _ _ NumberKeys.api;
  SSL_EVP_PKEY_set1_EC_KEY := @SSL_EVP_PKEY_set1_EC_KEY _ _ NumberKeys.api;
  SSL_EC_KEY_get0_group := @SSL_EC_KEY_get0_group _ _ NumberKeys.api;
  SSL_EC_GROUP_get_degree := @SSL_EC_GROUP_get_degree _ _ NumberKeys.api;
  SSL_EC_GROUP_get_curve_name := @SSL_EC_GROUP_get_curve_name _ _ NumberKeys.api;
  SSL_EC_KEY_new_by_curve_name := @SSL_EC_KEY_new_by_curve_name _ _ NumberKeys.api;
  SSL_EC_KEY_oct2key := @SSL_EC_KEY_oct2key _ _ NumberKeys.api;
  SSL_EC_KEY_key2buf := @SSL_EC_KEY_key2buf _ _ NumberKeys.api;
  SSL_EVP_PKEY_CTX_new := λ k, fresh <$> @SSL_EVP_PKEY_CTX_new _ _ NumberKeys.api k;
  SSL_EVP_PKEY_CTX_new_id := λ i, fresh <$> @SSL_EVP_PKEY_CTX_new_id _ _ NumberKeys.api i;
  SSL_EVP_PKEY_keygen_init := on_ctx (@SSL_EVP_PKEY_keygen_init _ _ NumberKeys.api);
  SSL_EVP_PKEY_CTX_set_rsa_keygen_bits := λ n,
    on_ctx (@SSL_EVP_PKEY_CTX_set_rsa_keygen_bits _ _ NumberKeys.api n);
  SSL_EVP_PKEY_keygen := λ c, @SSL_EVP_PKEY_keygen _ _ NumberKeys.api (x_ctx c);
  SSL_EVP_PKEY_paramgen_init := on_ctx (@SSL_EVP_PKEY_paramgen_init _ _ NumberKeys.api);
  SSL_EVP_PKEY_CTX_set_ec_paramgen_curve_nid := λ n,
    on_ctx (@SSL_EVP_PKEY_CTX_set_ec_paramgen_curve_nid _ _ NumberKeys.api n);
  SSL_EVP_PKEY_CTX_set_ec_param_enc := λ n,
    on_ctx (@SSL_EVP_PKEY_CTX_set_ec_param_enc _ _ NumberKeys.api n);
  SSL_EVP_PKEY_paramgen := λ c, @SSL_EVP_PKEY_paramgen _ _ NumberKeys.api (x_ctx c);
  SSL_EVP_PKEY_derive_init := on_ctx (@SSL_EVP_PKEY_derive_init _ _ NumberKeys.api);
  SSL_EVP_PKEY_derive_set_peer := λ p,
    on_ctx (@SSL_EVP_PKEY_derive_set_peer _ _ NumberKeys.api p);
  SSL_EVP_PKEY_derive_length := λ c, @SSL_EVP_PKEY_derive_length _ _ NumberKeys.api (x_ctx c);
  SSL_EVP_PKEY_derive := λ n c, @SSL_EVP_PKEY_derive _ _ NumberKeys.api n (x_ctx c);
  SSL_EVP_aes_256_cbc := @SSL_EVP_aes_256_cbc _ _ NumberKeys.api;
  SSL_PEM_write_bio_PUBKEY := @SSL_PEM_write_bio_PUBKEY _ _ NumberKeys.api;
  SSL_PEM_read_bio_PUBKEY := @SSL_PEM_read_bio_PUBKEY _ _ NumberKeys.api;
  SSL_PEM_write_bio_PKCS8PrivateKey := @SSL_PEM_write_bio_PKCS8PrivateKey _ _ NumberKeys.api;
  SSL_PEM_read_bio_PrivateKey := @SSL_PEM_read_bio_PrivateKey _ _ NumberKeys.api;
}.

Definition set_conf (f : crypt_config → crypt_config) (c : ctx) : Z * ctx :=
  (1, mkCtx (x_ctx c) (x_op c) (f (x_conf c))).

#[export] Instance rsa : RsaCtxAPI NamedDigests.api pkey := {
  SSL_EVP_PKEY_CTX_set_rsa_padding := λ p, set_conf (with_pad p) : @EVP_PKEY_CTX _ _ pkey → _;
  SSL_EVP_PKEY_CTX_set_signature_md := λ m, set_conf (with_md m);
  SSL_EVP_PKEY_CTX_set_rsa_pss_saltlen := λ n, set_conf (with_salt n);
  SSL_EVP_PKEY_CTX_set_rsa_mgf1_md := λ m, set_conf (with_mgf1 m);
  SSL_EVP_PKEY_CTX_set_rsa_oaep_md := λ m, set_conf (with_oaep m);
  SSL_EVP_PKEY_CTX_set_rsa_oaep_label := λ l n, set_conf (with_label (take (Z.to_nat n) l));
  SSL_OPENSSL_malloc := λ n, if n <? 0 then None else Some (zeros n);
}.

Definition key_of (c : ctx) : key := default (NumberKeys.mkKey 0 0 0 0) (NumberKeys.c_key (x_ctx c)).
Definition init (op : pkey_op) (c : ctx) : Z * ctx := (1, mkCtx (x_ctx c) (Some op) (x_conf c)).

(** The output of a call: it fails when the buffer is too small. *)
Definition output {S} (r : option bytes) (out : option bytes) : M S (Z * (Z * bytes)) :=
  match r, out with
  | Some b, None => ret (if size b <=? 65000 then 1 else 0, (size b + 1, []))
  | Some b, Some buf => ret (if size b <=? size buf then 1 else 0, (size b, b))
  | None, _ => ret (0, (0, []))
  end.

Definition tag (cfg : crypt_config) : Byte.byte :=
  match cc_pad cfg with
  | PAD_NONE => Byte.x00 | PAD_PKCS1 => Byte.x01 | PAD_PSS => Byte.x02 | PAD_OAEP => Byte.x03
  end.
Definition secret (k : key) : Byte.byte := to_uint8 (Z.of_nat (NumberKeys.k_secret k)).

Definition ciphertext (cfg : crypt_config) (k : key) (m : bytes) : bytes :=
  secret k :: tag cfg :: rev m.
Definition plaintext (cfg : crypt_config) (k : key) (ct : bytes) : option bytes :=
  match ct with
  | a :: b :: l => if bool_decide (a = secret k ∧ b = tag cfg) then Some (rev l) else None
  | _ => None
  end.

Definition der (r s : Z) : bytes := be_bytes 128 r ++ be_bytes 128 s.
Definition undo (b : bytes) : option (Z * Z) :=
  if size b =? 256 then Some (be_value (take 128 b), be_value (drop 128 b)) else None.

Definition signature (cfg : crypt_config) (k : key) (d : bytes) : option bytes :=
  if NumberKeys.k_id k =? EVP_PKEY_EC then
    if (0 <? NumberKeys.k_bits k) && (NumberKeys.k_bits k <=? 1000) then
      let p := 256 ^ ((NumberKeys.k_bits k + 7) / 8) in
      Some (der (Z.of_nat (NumberKeys.k_secret k) mod p) (be_value d mod p))
    else None
  else Some (secret k :: tag cfg :: d).

#[export] Instance api : AsymmetricAPI LengthDigest.api pkey := {
  ENTROPY := nat;
  SSL_EVP_PKEY_sign_init := init OpSign : @EVP_PKEY_CTX _ _ pkey → _;
  SSL_EVP_PKEY_verify_init := init OpVerify : @EVP_PKEY_CTX _ _ pkey → _;
  SSL_EVP_PKEY_encrypt_init := init OpEncrypt : @EVP_PKEY_CTX _ _ pkey → _;
  SSL_EVP_PKEY_decrypt_init := init OpDecrypt : @EVP_PKEY_CTX _ _ pkey → _;
  SSL_EVP_PKEY_sign := λ c out _ d, output (signature (x_conf c) (key_of c) d) out;
  SSL_EVP_PKEY_encrypt := λ c out _ m,
    output (if size m <=? 64000 then Some (ciphertext (x_conf c) (key_of c) m) else None) out;
  SSL_EVP_PKEY_decrypt := λ c out _ m, output (plaintext (x_conf c) (key_of c) m) out;
  SSL_EVP_PKEY_verify := λ c sig d,
    if bool_decide (signature (x_conf c) (key_of c) d = Some sig) then 1 else 0;
  SSL_EVP_DigestSignInit := λ _ k _, (Val (1, ()), (NONE, [secret k]));
  SSL_EVP_DigestVerifyInit := λ _ k _, (Val (1, ()), (NONE, [secret k]));
  SSL_EVP_DigestSign := λ out _ m c,
    (Val (match out with
          | None => (1, (64, []))
          | Some buf => (if 64 <=? size buf then 1 else 0, (64, resize 64 (c.2 ++ m)))
          end), c);
  SSL_EVP_DigestVerify := λ sig m c,
    (Val (if bool_decide (sig = resize 64 (c.2 ++ m)) then 1 else 0, ()), c);
  BIGNUM := Z; ECDSA_SIG := Z * Z;
  SSL_BN_bin2bn := λ b n, Some (be_value (take (Z.to_nat n) b));
  SSL_BN_bn2binpad := λ v n, if v <? 256 ^ n then (n, be_bytes (Z.to_nat n) v) else (-1, []);
  SSL_ECDSA_SIG_new := Some (0, 0);
  SSL_ECDSA_SIG_set0 := λ _ r s, (1, (r, s));
  SSL_ECDSA_SIG_get0_r := λ x, Some x.1; SSL_ECDSA_SIG_get0_s := λ x, Some x.2;
  SSL_i2d_ECDSA_SIG := λ x, (256, Some (der x.1 x.2));
  SSL_d2i_ECDSA_SIG := λ b n, undo (take (Z.to_nat n) b);
}.

Lemma output_spec {S} (s : S) r out outlen (P : bytes → Prop) :
  (∀ b, r = Some b → P b) →
  wp_total (output r out) s (λ '(rv, (n, data)) _, 0 < rv →
    match out with
    | None => 0 ≤ n ≤ 65536
    | Some buf => outlen = size buf → n = size data ∧ size data ≤ size buf ∧ P data
    end).
Proof.
  intros HP. unfold wp, output. destruct r as [b|], out as [buf|]; cbn; try lia.
  - destruct (Z.leb_spec (size b) (size buf)); [|lia]. eauto.
  - pose proof (size_nonneg b). destruct (Z.leb_spec (size b) 65000); lia.
Qed.

Lemma length_der r s : size (der r s) = 256.
Proof. unfold der, size. by rewrite length_app, !length_be_bytes. Qed.

Lemma undo_der r s : 0 ≤ r < BN_LIMIT → 0 ≤ s < BN_LIMIT → undo (der r s) = Some (r, s).
Proof.
  intros Hr Hs. unfold undo. rewrite length_der. cbn [Z.eqb Pos.eqb]. unfold der.
  rewrite take_app_length', drop_app_length' by (by rewrite length_be_bytes).
  by rewrite !be_value_bytes.
Qed.

Lemma undo_der_256 r s : 0 ≤ r < BN_LIMIT → 0 ≤ s < BN_LIMIT →
  undo (take (Z.to_nat 256) (der r s)) = Some (r, s).
Proof.
  intros Hr Hs. pose proof (length_der r s) as Hl. unfold size in Hl.
  rewrite firstn_all2 by lia. by apply undo_der.
Qed.

Lemma plaintext_ciphertext cfg k m : plaintext cfg k (ciphertext cfg k m) = Some m.
Proof. cbn. by rewrite bool_decide_eq_true_2, rev_involutive. Qed.

#[export] Instance spec : AsymmetricSpec rsa api.
Proof.
  refine {|
    crypt := (λ c, mkCrypt (key_of c) (x_op c) (x_conf c)) : @EVP_PKEY_CTX _ _ pkey → _;
    key_pair := (eq : @EVP_PKEY _ _ pkey → @EVP_PKEY _ _ pkey → Prop);
    encrypts := (λ cfg k m ct, ct = ciphertext cfg k m ∧ size m ≤ 64000) : _ → @EVP_PKEY _ _ pkey → _;
    signs := (λ cfg k d s, signature cfg k d = Some s) : _ → @EVP_PKEY _ _ pkey → _;
    valid := (λ cfg k d s, signature cfg k d = Some s) : _ → @EVP_PKEY _ _ pkey → _;
    modulus := (λ k, 2 ^ NumberKeys.k_bits k) : @EVP_PKEY _ _ pkey → _;
    ed_ctx := (λ c _ k, c = (NONE, [secret k])) : @EVP_MD_CTX _ LengthDigest.api → _ → @EVP_PKEY _ _ pkey → _;
    ed_size := λ _, 64;
    ed_signs := (λ k m s, s = resize 64 (secret k :: m)) : @EVP_PKEY _ _ pkey → _;
    ed_valid := (λ k m s, s = resize 64 (secret k :: m)) : @EVP_PKEY _ _ pkey → _;
    bn_value := (id : @BIGNUM _ _ _ _ _ api → Z);
    sig_pair := (id : @ECDSA_SIG _ _ _ _ _ api → Z * Z);
    AsymmetricFacts.der := der |}.
  - by intros k c [= <-].
  - by intros c c' rv [= <- <-].
  - by intros c c' rv [= <- <-].
  - by intros c c' rv [= <- <-].
  - by intros c c' rv [= <- <-].
  - by intros p c c' rv [= <- <-].
  - by intros m c c' rv [= <- <-].
  - by intros n c c' rv [= <- <-].
  - by intros m c c' rv [= <- <-].
  - by intros m c c' rv [= <- <-].
  - by intros l n c c' rv [= <- <-].
  - intros n b. cbn. destruct (Z.ltb_spec n 0); [done|]. intros [= <-]. by apply size_zeros.
  - by intros ? ? ->.
  - by intros ? ? ->.
  - by intros cfg ? ? d s -> Hs.
  - intros c out outlen m e. apply output_spec. intros b Hb _.
    destruct (Z.leb_spec (size m) 64000); [|done]. by injection Hb as <-.
  - intros c out outlen ct e. apply output_spec. intros b Hb _ ? m -> [Hct _].
    cbn in Hct, Hb. rewrite Hct, plaintext_ciphertext in Hb. by injection Hb.
  - intros c out outlen d e. apply output_spec. by intros b Hb _.
  - intros c sig d _. cbn. case_bool_decide; split; intros; try done; lia.
  - done.
  - by intros ? ? m s ->.
  - by intros.
  - by intros.
  - intros c k out outlen m ->. unfold wp. cbn [SSL_EVP_DigestSign api fst snd app].
    destruct out as [buf|]; [|done]. intros _ _. by rewrite size_resize.
  - intros c k sig m ->. cbn. by case_bool_decide.
  - intros b. eexists. split; [done|]. cbn. f_equal. apply take_ge. unfold size. lia.
  - intros n len Hl Hv. cbn in *. destruct (Z.ltb_spec n (256 ^ len)); [done|lia].
  - by eexists.
  - intros x r s. by eexists.
  - intros [r s]. by eexists _, _.
  - intros [r s] _ _. cbn [fst snd id]. rewrite length_der. done.
  - intros r s Hr Hs. rewrite length_der. split; [done|]. exists (r, s). split; [|done].
    by apply undo_der_256.
  - intros cfg k d s Hs Hk. cbn in Hs. unfold signature in Hs.
    destruct (Z.eqb_spec (NumberKeys.k_id k) EVP_PKEY_EC) as [He|He].
    + destruct (Z.ltb_spec 0 (NumberKeys.k_bits k)), (Z.leb_spec (NumberKeys.k_bits k) 1000);
        try done. injection Hs as <-. split; [done|]. eexists _, _. split; [done|].
      assert (0 < 256 ^ ((NumberKeys.k_bits k + 7) / 8)).
      { apply Z.pow_pos_nonneg; [lia|]. apply Z.div_pos; lia. }
      split; apply Z.mod_pos_bound; done.
    + exfalso. unfold getType, _EVP_PKEY_type in Hk. rewrite run_pure_IsPositive in Hk. cbn in Hk.
      destruct (0 <? _); [|done]. cbn in Hk. repeat case_match; try done.
      by apply He, Z.eqb_eq.
Defined.

(** *** The theorems at concrete inputs *)

Definition e0 : @ENTROPY _ _ _ _ _ api := 0%nat.
Definition rsa_key : @EVP_PKEY _ _ pkey := NumberKeys.mkKey EVP_PKEY_RSA 2048 0 7.
Definition ec_key : @EVP_PKEY _ _ pkey := NumberKeys.mkKey EVP_PKEY_EC 256 Nid.PRIME_256v1 9.
Definition sha256 : @EVP_MD NamedDigests.api := SHA256.
Definition oaep : OAEPPadding := OAEPPadding_new SHA256 None (str "label").
Definition pss : PSSPadding := mkPSS None None.
Lemma padding_configurations_witness :
  configures (prepareEncryption oaep) (oaep_config sha256 sha256 (str "label")) ∧
  configures (λ c, prepareSignature pss c SHA256) (pss_config sha256 32 sha256).
Proof.
  assert (Hl : size (str "label") ≤ INT_MAX) by done.
  assert (Hr : ∀ l n (c : @EVP_PKEY_CTX _ _ pkey),
    (SSL_EVP_PKEY_CTX_set_rsa_oaep_label l n c).1 ≠ 0) by done.
  destruct (padding_configurations SHA256 SHA1 sha256 (SHA1 : @EVP_MD NamedDigests.api)
    (str "label") 20 eq_refl eq_refl Hl Hr) as (_ & _ & _ & Ho & _ & Hp & _).
  split; [exact Ho|exact Hp].
Defined.

Lemma rsa_message_sizes_witness :
  checkMessageSize oaep rsa_key 190 = Val true ∧ checkMessageSize noPadding rsa_key 190 = Val false.
Proof.
  destruct (rsa_message_sizes rsa_key 256 190 SHA256 sha256 (str "label") (any_mgf1 SHA256)
    eq_refl ltac:(lia) ltac:(unfold INT_MAX; lia) eq_refl) as (Hn & _ & Ho & _).
  split; [exact Ho|exact Hn].
Defined.

Lemma ecdsa_formats_witness :
  1 ≤ 32 ≤ 128 ∧
  _IEEE1363EcSignatureToAsn1ECSignature (str "short") 32 =
    Throw (MoCOCrWException [Str "Invalid signature size."]).
Proof.
  assert (Hn : 1 ≤ 32 ≤ 128) by lia. split; [exact Hn|].
  destruct (ecdsa_formats 32 Hn) as (_ & _ & H). by apply H.
Defined.
End ToyCrypto.
