(* ===== verification/AsymmetricProgress.v ===== *)
(** * Asymmetric operations succeed

    The total correctness of RSA encryption and of RSA, ECDSA and EdDSA signatures
    ([src/src/asymmetric_crypto_ctx.cpp]): what OpenSSL carries out with the documented
    parameters, that the padding modes prepare their contexts for it, and that the
    operations then return. *)

From S2P Require Import Prelude CheckCall Util SymmetricCrypto XorCipher OpenSSLWrap Hash Bio Key.
From S2P Require Import Padding.
From S2P Require Import AsymmetricCtx AsymmetricFacts.

(** Nothing fails under [W]: a failure shows that [W] does not hold. *)
Lemma wp_refute {S A} (m : M S A) s (Φ : A → S → Prop) Ψ (W : Prop) :
  wp m s Φ Ψ → (W → wp_total m s (λ _ _, True)) → wp m s Φ (λ e s', Ψ e s' ∧ ¬ W).
Proof.
  unfold wp. destruct (m s) as [[a|e] s']; [done|]. intros HΨ HW. split; [done|]. exact HW.
Qed.

(** Two statements about one computation, where it does not fail. *)
Lemma wp_total_and {S A} (m : M S A) s (Φ : A → S → Prop) Ψ :
  wp m s Φ Ψ → wp_total m s (λ _ _, True) → wp_total m s Φ.
Proof. unfold wp. by destruct (m s) as [[a|e] s']. Qed.

(** ** What OpenSSL carries out *)

Section Works.
Context {bio : BioAPI} {evp : EvpCipherAPI} {md : EvpMdAPI} {dig : EvpDigestAPI md}.
Context {pkey : EvpPkeyAPI bio evp} {rsa : RsaCtxAPI md pkey} {api : AsymmetricAPI dig pkey}.
Context {spec : AsymmetricSpec rsa api}.

(** The messages that fit the padding of a context for encryption; the padding does not
    fill the whole of the key. *)
Definition fits_padding (cfg : crypt_config) (key : EVP_PKEY) (m : bytes) : Prop :=
  match cc_pad cfg with
  | PAD_NONE => 8 * size m = EVP_PKEY_bits key ∧ be_value m < modulus key
  | PAD_PKCS1 => 8 * (size m + 11) ≤ EVP_PKEY_bits key ∧ 8 * 11 < EVP_PKEY_bits key
  | PAD_OAEP =>
      match cc_oaep cfg with
      | Some h => 8 * (size m + 2 * SSL_EVP_MD_size h + 2) ≤ EVP_PKEY_bits key ∧
          8 * (2 * SSL_EVP_MD_size h + 2) < EVP_PKEY_bits key
      | None => False
      end
  | PAD_PSS => False
  end.

(** The digests that can be signed in a context: the encoded digest fits the key. *)
Definition can_sign (cfg : crypt_config) (key : EVP_PKEY) (d : bytes) : Prop :=
  match getType key with
  | Val RSA =>
      match cc_pad cfg, cc_md cfg with
      | PAD_PKCS1, Some h => size d = SSL_EVP_MD_size h ∧ 8 * (size d + 30) ≤ EVP_PKEY_bits key
      | PAD_PSS, Some h => size d = SSL_EVP_MD_size h ∧ cc_mgf1 cfg ≠ None ∧
          ∃ n, cc_salt cfg = Some n ∧ 0 ≤ n ∧ 8 * (size d + n + 2) < EVP_PKEY_bits key
      | _, _ => False
      end
  | Val ECC => 0 < EVP_PKEY_bits key ≤ 1000
  | _ => False
  end.

Definition signing (op : pkey_op) : bool :=
  match op with OpSign | OpVerify => true | OpEncrypt | OpDecrypt => false end.
(** PSS is for signatures, OAEP for encryption. *)
Definition pad_allowed (op : pkey_op) (p : RSAPaddingMode) : bool :=
  match p with PAD_PSS => signing op | PAD_OAEP => negb (signing op) | _ => true end.

Definition raw_init (op : pkey_op) : EVP_PKEY_CTX → Z * EVP_PKEY_CTX :=
  match op with
  | OpSign => SSL_EVP_PKEY_sign_init
  | OpVerify => SSL_EVP_PKEY_verify_init
  | OpEncrypt => SSL_EVP_PKEY_encrypt_init
  | OpDecrypt => SSL_EVP_PKEY_decrypt_init
  end.

Definition is_rsa (c : EVP_PKEY_CTX) : Prop := getType (cv_key (crypt c)) = Val RSA.
Definition pad_is (c : EVP_PKEY_CTX) (p : RSAPaddingMode) : Prop := cc_pad (cv_config (crypt c)) = p.

(** OpenSSL refuses bigger RSA keys. *)
Definition OPENSSL_RSA_MAX_MODULUS_BITS : Z := 16384.

(** The length that a call reports is positive, and a buffer of that length is big enough
    for the same call. *)
Definition carried_out {S} (ok : Z → Prop) (raw : option bytes → Z → M S (Z * (Z * bytes))) (s : S) :
    Prop :=
  wp_total (raw None 0) s (λ r s', ok r.1 ∧ 0 < r.2.1 ∧
    ∀ buf, size buf = r.2.1 → wp_total (raw (Some buf) (size buf)) s' (λ r' _, ok r'.1)).

Record AsymmetricWorks : Prop := {
  malloc_works n : 0 < n ≤ INT_MAX → SSL_OPENSSL_malloc n ≠ None;
  pkey_ctx_works k t : getType k = Val t → SSL_EVP_PKEY_CTX_new k ≠ None;
  init_works op c t : getType (cv_key (crypt c)) = Val t → t = RSA ∨ signing op = true ∧ t = ECC →
    0 < (raw_init op c).1;
  set_padding_works p c op : is_rsa c → cv_op (crypt c) = Some op → pad_allowed op p = true →
    0 < (SSL_EVP_PKEY_CTX_set_rsa_padding p c).1;
  set_md_works m c op : is_rsa c → cv_op (crypt c) = Some op → signing op = true →
    0 < (SSL_EVP_PKEY_CTX_set_signature_md m c).1;
  set_salt_works n c : is_rsa c → pad_is c PAD_PSS → 0 ≤ n →
    0 < (SSL_EVP_PKEY_CTX_set_rsa_pss_saltlen n c).1;
  set_mgf1_works m c : is_rsa c → pad_is c PAD_PSS ∨ pad_is c PAD_OAEP →
    0 < (SSL_EVP_PKEY_CTX_set_rsa_mgf1_md m c).1;
  set_oaep_works m c : is_rsa c → pad_is c PAD_OAEP →
    0 < (SSL_EVP_PKEY_CTX_set_rsa_oaep_md m c).1;
  set_label_works l c : is_rsa c → pad_is c PAD_OAEP → size l ≤ INT_MAX →
    0 < (SSL_EVP_PKEY_CTX_set_rsa_oaep_label l (size l) c).1;
  encrypt_works c key cfg m e : crypt c = mkCrypt key (Some OpEncrypt) cfg →
    getType key = Val RSA → EVP_PKEY_bits key ≤ OPENSSL_RSA_MAX_MODULUS_BITS →
    fits_padding cfg key m →
    carried_out (Z.lt 0) (λ out n, SSL_EVP_PKEY_encrypt c out n m) e;
  decrypt_works c key cfg pub m ct e : crypt c = mkCrypt key (Some OpDecrypt) cfg →
    key_pair pub key → encrypts cfg pub m ct →
    carried_out (Z.lt 0) (λ out n, SSL_EVP_PKEY_decrypt c out n ct) e;
  sign_works c key cfg pub d e : crypt c = mkCrypt key (Some OpSign) cfg →
    key_pair pub key → can_sign cfg key d →
    carried_out (Z.lt 0) (λ out n, SSL_EVP_PKEY_sign c out n d) e;
  DigestSignInit_works k pub c : getType k = Val ECC_ED → key_pair pub k →
    succeeds (SSL_EVP_DigestSignInit None k) c;
  DigestVerifyInit_works k c : getType k = Val ECC_ED → succeeds (SSL_EVP_DigestVerifyInit None k) c;
  DigestSign_works k c m : ed_ctx c OpSign k →
    carried_out (λ rv, rv = 1) (λ out n, SSL_EVP_DigestSign out n m) c;
}.
End Works.
Arguments AsymmetricWorks {bio evp md dig pkey rsa api} spec.

(** ** Preparing a context *)

Section Prepare.
Context {bio : BioAPI} {evp : EvpCipherAPI} {md : EvpMdAPI} {dig : EvpDigestAPI md}.
Context {pkey : EvpPkeyAPI bio evp} {rsa : RsaCtxAPI md pkey} {api : AsymmetricAPI dig pkey}.
Context {spec : AsymmetricSpec rsa api}.

Abbreviation Works := (AsymmetricWorks spec).

(** For an RSA context that was initialised for [op], with a configuration that
    satisfies [C], the step [f] succeeds and changes the configuration by [g]. *)
Definition prepares (C : crypt_config → Prop) (op : pkey_op)
    (f : EVP_PKEY_CTX → outcome EVP_PKEY_CTX) (g : crypt_config → crypt_config) : Prop :=
  ∀ c key cfg, Works → getType key = Val RSA → crypt c = mkCrypt key (Some op) cfg → C cfg →
  ∃ c', f c = Val c' ∧ crypt c' = mkCrypt key (Some op) (g cfg).

Lemma prepares_seq C C' op f g f' g' :
  prepares C op f g → prepares C' op f' g' → (∀ x, C x → C' (g x)) →
  prepares C op (λ c, let? c' := f c in f' c') (λ x, g' (g x)).
Proof.
  intros Hf Hf' HC c key cfg HW Hrsa Hc HCc.
  destruct (Hf c key cfg HW Hrsa Hc HCc) as (c' & -> & Hc'). cbn. apply Hf'; auto.
Qed.

Lemma prepares_call C op (f : EVP_PKEY_CTX → outcome EVP_PKEY_CTX) g :
  configures f g →
  (∀ c key cfg, Works → getType key = Val RSA → crypt c = mkCrypt key (Some op) cfg → C cfg →
     is_val (f c) = true) →
  prepares C op f g.
Proof.
  intros Hf Hs c key cfg HW Hrsa Hc HCc. specialize (Hs c key cfg HW Hrsa Hc HCc).
  destruct (f c) as [c'|] eqn:E; [|done]. exists c'. split; [done|]. apply Hf in E. by rewrite E, Hc.
Qed.

Lemma prepares_within (C' C : crypt_config → Prop) op f g :
  (∀ x, C x → C' x) → prepares C' op f g → prepares C op f g.
Proof. intros HC H c key cfg HW Hrsa Hc HCc. apply H; auto. Qed.

Lemma positive_val {A} (call : Z * A) :
  0 < call.1 → is_val (run_pure (OpensslCallIsPositive (ret call))) = true.
Proof. intros H. rewrite run_pure_IsPositive. destruct (Z.ltb_spec 0 call.1); [done|lia]. Qed.

Lemma set_padding_prepares p C op : pad_allowed op p = true →
  prepares C op (_EVP_PKEY_CTX_set_rsa_padding p) (with_pad p).
Proof.
  intros Hp. apply prepares_call; [apply set_rsa_padding_ok|]. intros c key cfg HW Hrsa Hc _.
  apply positive_val, (set_padding_works HW p c op); unfold is_rsa; by rewrite ?Hc.
Qed.
Lemma set_md_prepares m C op : signing op = true →
  prepares C op (_EVP_PKEY_CTX_set_signature_md m) (with_md m).
Proof.
  intros Hp. apply prepares_call; [apply set_signature_md_ok|]. intros c key cfg HW Hrsa Hc _.
  apply positive_val, (set_md_works HW m c op); unfold is_rsa; by rewrite ?Hc.
Qed.
Lemma set_salt_prepares n op : 0 ≤ n →
  prepares (λ x, cc_pad x = PAD_PSS) op (_EVP_PKEY_CTX_set_rsa_pss_saltlen n) (with_salt n).
Proof.
  intros Hn. apply prepares_call; [apply set_pss_saltlen_ok|]. intros c key cfg HW Hrsa Hc HC.
  apply positive_val, (set_salt_works HW n c); unfold is_rsa, pad_is; by rewrite ?Hc.
Qed.
Lemma set_mgf1_prepares m op :
  prepares (λ x, cc_pad x = PAD_PSS ∨ cc_pad x = PAD_OAEP) op (_EVP_PKEY_CTX_set_rsa_mgf1_md m)
    (with_mgf1 m).
Proof.
  apply prepares_call; [apply set_mgf1_md_ok|]. intros c key cfg HW Hrsa Hc HC.
  apply positive_val, (set_mgf1_works HW m c); unfold is_rsa, pad_is; by rewrite ?Hc.
Qed.
Lemma set_oaep_prepares m op :
  prepares (λ x, cc_pad x = PAD_OAEP) op (_EVP_PKEY_CTX_set_rsa_oaep_md m) (with_oaep m).
Proof.
  apply prepares_call; [apply set_oaep_md_ok|]. intros c key cfg HW Hrsa Hc HC.
  apply positive_val, (set_oaep_works HW m c); unfold is_rsa, pad_is; by rewrite ?Hc.
Qed.

(** The label is copied into memory from OpenSSL. *)
Lemma set_label_prepares b l op : size (b :: l) ≤ INT_MAX →
  prepares (λ x, cc_pad x = PAD_OAEP) op
    (λ c, let? label_copy := _OPENSSL_malloc (to_int (size (b :: l))) in
          let? label_copy := write_buffer label_copy (b :: l) in
          _EVP_PKEY_CTX_set_rsa_oaep_label label_copy (to_int (size (b :: l))) c)
    (with_label (b :: l)).
Proof.
  intros Hl c key cfg HW Hrsa Hc HC.
  assert (Hpos : 0 < size (b :: l)) by (unfold size; cbn; lia).
  rewrite to_int_id by (unfold INT_MIN; lia). unfold _OPENSSL_malloc. rewrite run_pure_Ptr.
  destruct (SSL_OPENSSL_malloc (size (b :: l))) as [buf|] eqn:Hm;
    [|by destruct (malloc_works HW (size (b :: l)))].
  apply malloc_spec in Hm. cbn [obind].
  unfold write_buffer. rewrite Hm, Z.leb_refl. cbn [obind].
  rewrite (drop_ge buf), app_nil_r by (unfold size in Hm; lia).
  pose proof (set_label_works HW (b :: l) c) as Hlab. unfold is_rsa, pad_is in Hlab.
  rewrite Hc in Hlab. specialize (Hlab Hrsa HC Hl).
  unfold _EVP_PKEY_CTX_set_rsa_oaep_label. rewrite run_pure_IsNonNegative.
  destruct (SSL_EVP_PKEY_CTX_set_rsa_oaep_label (b :: l) (size (b :: l)) c) as [rv c'] eqn:Hs.
  cbn [fst snd] in *. destruct (Z.leb_spec 0 rv); [|lia]. exists c'. split; [done|].
  rewrite (set_label_spec _ _ _ _ _ Hs Hlab), Hc. cbn [cv_key cv_op cv_config].
  rewrite take_ge; [done|]. unfold size. lia.
Qed.
End Prepare.

(** ** The padding modes *)

Section Paddings.
Context {bio : BioAPI} {evp : EvpCipherAPI} {md : EvpMdAPI} {dig : EvpDigestAPI md}.
Context {pkey : EvpPkeyAPI bio evp} {rsa : RsaCtxAPI md pkey} {api : AsymmetricAPI dig pkey}.
Context {spec : AsymmetricSpec rsa api} {md_spec : EvpMdSpec md}.

(** A padding mode for encryption: it prepares contexts for the configuration that [g]
    makes, and lets every message pass that fits the padding. *)
Record encryption_padding {P} {I : RSAEncryptionPadding P} (p : P)
    (g : crypt_config → crypt_config) : Prop := {
  ep_prepares op : signing op = false → prepares (λ _, True) op (prepareEncryption p) g;
  ep_size key m : 0 ≤ EVP_PKEY_bits key ≤ INT_MAX → size m ≤ INT_MAX →
    ∃ b, checkMessageSize p key (size m) = Val b ∧
         (fits_padding (g default_config) key m → b = true);
}.

(** A padding mode for signatures, which cannot configure a context otherwise. *)
Record signature_padding {P} {I : RSASignaturePadding P} (p : P) (h : DigestTypes)
    (g : crypt_config → crypt_config) : Prop := {
  sp_configures : configures (λ c, prepareSignature p c h) g;
  sp_prepares op : signing op = true → prepares (λ _, True) op (λ c, prepareSignature p c h) g;
}.

Lemma prepares_eq C op f f' g :
  (∀ c, f c = f' c) → prepares C op f' g → prepares C op f g.
Proof. intros Hf H c key cfg HW Hrsa Hc HC. rewrite Hf. by apply H. Qed.

Lemma prepares_as_mococrw C op f g :
  prepares C op f g → prepares C op (λ c, as_mococrw (f c)) g.
Proof.
  intros H c key cfg HW Hrsa Hc HC. destruct (H c key cfg HW Hrsa Hc HC) as (c' & -> & Hc').
  by exists c'.
Qed.

Lemma prepares_Val C op : prepares C op Val id.
Proof. intros c key cfg _ _ Hc _. by exists c. Qed.

Lemma message_sizes n b : 0 ≤ n ≤ INT_MAX → 0 ≤ b ≤ INT_MAX →
  to_size_t (n * 8) = 8 * n ∧ to_size_t b = b.
Proof. intros Hn Hb. unfold INT_MAX in *. rewrite !to_size_t_id by (unfold SIZE_MAX; lia). lia. Qed.

Lemma no_padding : encryption_padding noPadding (with_pad PAD_NONE).
Proof.
  split.
  - intros op Hop. by apply set_padding_prepares.
  - intros key m Hb Hm. eexists. split; [reflexivity|]. intros [Hs _].
    destruct (message_sizes (size m) (EVP_PKEY_bits key)) as [-> H]; [split; [apply size_nonneg|done]|done|].
    unfold getKeySize. rewrite H. by apply Z.eqb_eq.
Qed.

Lemma pkcs_encryption : encryption_padding pkcsPadding (with_pad PAD_PKCS1).
Proof.
  split.
  - intros op Hop. by apply set_padding_prepares.
  - intros key m Hb Hm. eexists. split; [reflexivity|]. intros [Hs Hs']. cbn in Hs.
    pose proof (size_nonneg m).
    unfold getKeySize, PKCS_MAX_SIZE_OVERHEAD. rewrite fits_spec by lia.
    apply andb_true_intro. split; [apply Z.ltb_lt|apply Z.leb_le]; lia.
Qed.

Lemma oaep_encryption h mgf hm gm label :
  _getMDPtrFromDigestType h = Val hm → _getMDPtrFromDigestType mgf = Val gm →
  size label ≤ INT_MAX →
  encryption_padding (mkOAEP h label (any_mgf1 mgf)) (oaep_config hm gm label).
Proof.
  intros Hh Hg Hl. split.
  - intros op Hop. apply prepares_as_mococrw. cbn [o_hashFunction o_maskGenerationFunction o_label].
    set (last := λ c, match label with
      | [] => Val c
      | _ => let? label_copy := _OPENSSL_malloc (to_int (size label)) in
             let? label_copy := write_buffer label_copy label in
             _EVP_PKEY_CTX_set_rsa_oaep_label label_copy (to_int (size label)) c
      end).
    assert (Hlast : prepares (λ x, cc_pad x = PAD_OAEP) op last
      (λ x, match label with [] => x | _ => with_label label x end)).
    { unfold last. destruct label as [|b l]; [apply prepares_Val|by apply set_label_prepares]. }
    apply (prepares_eq _ _ _ (λ c,
      let? c := _EVP_PKEY_CTX_set_rsa_padding PAD_OAEP c in
      let? c := _EVP_PKEY_CTX_set_rsa_oaep_md hm c in
      let? c := _EVP_PKEY_CTX_set_rsa_mgf1_md gm c in last c)).
    { intros c. rewrite Hh. destruct (_EVP_PKEY_CTX_set_rsa_padding PAD_OAEP c); [|done]. cbn [obind].
      destruct (_EVP_PKEY_CTX_set_rsa_oaep_md hm _); [|done]. cbn.
      unfold MGF1_prepare. cbn [g_hashFunction]. rewrite Hg. done. }
    assert (Hmgf : prepares (λ x, cc_pad x = PAD_OAEP) op (_EVP_PKEY_CTX_set_rsa_mgf1_md gm)
                     (with_mgf1 gm)).
    { apply (prepares_within (λ x, cc_pad x = PAD_PSS ∨ cc_pad x = PAD_OAEP)); [by right|].
      apply set_mgf1_prepares. }
    pose proof (prepares_seq _ _ op _ _ _ _ Hmgf Hlast (λ x H, H)) as H1.
    pose proof (prepares_seq _ _ op _ _ _ _ (set_oaep_prepares hm op) H1 (λ x H, H)) as H2.
    assert (Hpad : pad_allowed op PAD_OAEP = true) by (cbn; by rewrite Hop).
    pose proof (prepares_seq (λ _, True) _ op _ _ _ _ (set_padding_prepares _ _ op Hpad) H2
      (λ x _, eq_refl)) as H3.
    intros c key cfg HW Hrsa Hc HC. destruct (H3 c key cfg HW Hrsa Hc HC) as (c' & -> & Hc').
    exists c'. split; [done|]. rewrite Hc'. unfold oaep_config. by destruct label.
  - intros key m Hb Hm. cbn [checkMessageSize OAEPPadding_encryption].
    unfold OAEPPadding_checkMessageSize, _EVP_MD_size. cbn [o_hashFunction]. rewrite Hh. cbn [obind].
    eexists. split; [reflexivity|].
    assert (Hcfg : fits_padding (oaep_config hm gm label default_config) key m →
      8 * (size m + 2 * SSL_EVP_MD_size hm + 2) ≤ EVP_PKEY_bits key ∧
      8 * (2 * SSL_EVP_MD_size hm + 2) < EVP_PKEY_bits key)
      by (unfold fits_padding; by destruct label).
    intros [Hs Hs']%Hcfg. pose proof (size_nonneg m).
    assert (0 ≤ SSL_EVP_MD_size hm) by (rewrite (EVP_MD_size_spec h hm Hh); by destruct h).
    unfold getKeySize. rewrite fits_spec by lia.
    apply andb_true_intro. split; [apply Z.ltb_lt|apply Z.leb_le]; lia.
Qed.

Lemma pkcs_signature h hm :
  _getMDPtrFromDigestType h = Val hm →
  signature_padding pkcsPadding h (λ x, with_md hm (with_pad PAD_PKCS1 x)).
Proof.
  intros Hh. split.
  - intros c c' H. unfold prepareSignature, PKCSPadding_signature, PKCSPadding_prepareSignature in H.
    rewrite Hh in H. outcomes H. injection Ha0 as <-.
    apply set_rsa_padding_ok in Ha. apply set_signature_md_ok in H. by rewrite H, Ha.
  - intros op Hop.
    pose proof (prepares_seq (λ _, True) (λ _, True) op _ _ _ _
      (set_padding_prepares PAD_PKCS1 _ op eq_refl) (set_md_prepares hm _ op Hop) (λ _ _, I)) as H.
    intros c key cfg HW Hrsa Hc HC. destruct (H c key cfg HW Hrsa Hc HC) as (c' & Hf & Hc').
    exists c'. split; [|done]. cbn. unfold PKCSPadding_prepareSignature. by rewrite Hh.
Qed.

(** Without parameters PSS uses the digest's size for the salt and its MGF1. *)
Lemma pss_signature h hm :
  _getMDPtrFromDigestType h = Val hm →
  signature_padding (mkPSS None None) h (pss_config hm (digest_size h) hm).
Proof.
  intros Hh. split; [by apply (pss_configures 0 h h hm hm)|]. intros op Hop.
  assert (Hn : h ≠ NONE) by (intros ->; done).
  assert (Hsize : getDigestSize h = Val (digest_size h)) by (rewrite getDigestSize_eq; by rewrite decide_False).
  assert (Hpos : 0 ≤ digest_size h ≤ INT_MAX) by (unfold INT_MAX; destruct h; cbn; lia).
  assert (Hmgf : prepares (λ x, cc_pad x = PAD_PSS) op (_EVP_PKEY_CTX_set_rsa_mgf1_md hm) (with_mgf1 hm)).
  { apply (prepares_within (λ x, cc_pad x = PAD_PSS ∨ cc_pad x = PAD_OAEP)); [by left|].
    apply set_mgf1_prepares. }
  pose proof (prepares_seq _ _ op _ _ _ _ (set_salt_prepares (digest_size h) op (proj1 Hpos)) Hmgf
    (λ x H, H)) as H1.
  pose proof (prepares_seq (λ x, cc_pad x = PAD_PSS) _ op _ _ _ _ (set_md_prepares hm _ op Hop) H1 (λ x H, H)) as H2.
  pose proof (prepares_seq (λ _, True) _ op _ _ _ _ (set_padding_prepares PAD_PSS _ op Hop) H2
      (λ x _, eq_refl)) as H3.
  apply (prepares_eq _ _ _ (λ c,
    let? c := _EVP_PKEY_CTX_set_rsa_padding PAD_PSS c in
    let? c := _EVP_PKEY_CTX_set_signature_md hm c in
    let? c := _EVP_PKEY_CTX_set_rsa_pss_saltlen (digest_size h) c in
    _EVP_PKEY_CTX_set_rsa_mgf1_md hm c)); [|exact H3].
  intros c. cbn. unfold PSSPadding_prepareSignature. cbn [s_saltLength s_maskGenerationFunction].
  rewrite Hh, Hsize. cbn [obind]. rewrite to_int_id by (unfold INT_MIN; lia).
  unfold MGF1_prepare. cbn [g_hashFunction]. by rewrite Hh.
Qed.
End Paddings.

(** ** The operations *)

Section Operations.
Context {bio : BioAPI} {evp : EvpCipherAPI} {md : EvpMdAPI} {dig : EvpDigestAPI md}.
Context {pkey : EvpPkeyAPI bio evp} {rsa : RsaCtxAPI md pkey} {api : AsymmetricAPI dig pkey}.
Context {spec : AsymmetricSpec rsa api}.

Abbreviation Works := (AsymmetricWorks spec).

(** What the specifications say of a call with an output buffer. *)
Definition raw_spec {S} (raw : option bytes → Z → M S (Z * (Z * bytes))) (P : bytes → Prop) : Prop :=
  ∀ out outlen s, wp_total (raw out outlen) s (λ '(rv, (n, data)) _, 0 < rv →
    match out with
    | None => 0 ≤ n ≤ 65536
    | Some buf => outlen = size buf → n = size data ∧ size data ≤ size buf ∧ P data
    end).

(** The two calls return when both are carried out. *)
Lemma two_calls_total {S} (raw : option bytes → Z → M S (Z * (Z * bytes))) P s :
  Works → raw_spec raw P → carried_out (Z.lt 0) raw s →
  wp_total (two_calls (λ out outlen,
    let! r := OpensslCallIsPositive (raw out outlen) in filled out r)) s (λ x _, P x).
Proof.
  intros HW Hraw Hrun. eapply wp_total_and; [eapply wp_mono; [by apply two_calls_filled|done|]|].
  { intros e s' H. exact H. }
  unfold two_calls. rewrite wp_bind, wp_bind. apply wp_OpensslCallIsPositive.
  eapply wp_mono; [apply (wp_and _ _ _ _ _ _ (Hraw None 0 s) Hrun)| |by intros ? ? []].
  intros [rv [n data]] s' [Hn (Hrv & Hpos & Hnext)]. cbn [fst snd] in *.
  destruct (Z.ltb_spec 0 rv); [|lia]. specialize (Hn ltac:(done)). unfold filled. wp_simpl.
  cbn [fst snd].
  rewrite to_int_id by (unfold INT_MIN, INT_MAX; lia). unfold _OPENSSL_malloc.
  rewrite run_pure_Ptr. destruct (SSL_OPENSSL_malloc n) as [buf|] eqn:Hm;
    [|by destruct (malloc_works HW n); [unfold INT_MAX; lia|]].
  apply malloc_spec in Hm. rewrite wp_bind, wp_bind. apply wp_OpensslCallIsPositive. rewrite <- Hm.
  eapply wp_mono; [apply (wp_and _ _ _ _ _ _ (Hraw (Some buf) (size buf) s') (Hnext buf Hm))| |
    by intros ? ? []].
  intros [rv' [n' data']] s'' [Hd Hrv']. cbn [fst snd] in *.
  destruct (Z.ltb_spec 0 rv'); [|lia]. destruct (Hd ltac:(done) eq_refl) as (-> & Hle & _).
  cbn [fst snd]. wp_simpl. cbn [fst snd]. unfold write_buffer.
  destruct (Z.leb_spec (size data') (size buf)); [|lia]. wp_simpl. unfold vector_from.
  rewrite size_app. pose proof (size_nonneg (drop (length data') buf)).
  by destruct (Z.leb_spec (size data') (size data' + size (drop (length data') buf))); [|lia].
Qed.

(** A prepared context exists. *)
Lemma ready_works op f g key t :
  Works → getType key = Val t → (t = RSA ∨ signing op = true ∧ t = ECC) →
  (∀ c, crypt c = mkCrypt key (Some op) default_config →
    ∃ c', f c = Val c' ∧ crypt c' = mkCrypt key (Some op) (g default_config)) →
  ∃ c0 c1 c, _EVP_PKEY_CTX_new key = Val c0 ∧ init_for op c0 = Val c1 ∧ f c1 = Val c ∧
    crypt c = mkCrypt key (Some op) (g default_config).
Proof.
  intros HW Ht Hop Hf.
  destruct (_EVP_PKEY_CTX_new key) as [c0|] eqn:E0.
  2: { unfold _EVP_PKEY_CTX_new in E0. rewrite run_pure_Ptr in E0.
       destruct SSL_EVP_PKEY_CTX_new eqn:Hn; [done|]. by destruct (pkey_ctx_works HW key t Ht). }
  pose proof (CTX_new_ok _ _ E0) as H0.
  assert (Hi : is_val (init_for op c0) = true).
  { assert (Hpos : 0 < (raw_init op c0).1) by (apply (init_works HW op c0 t); [by rewrite H0|done]).
    destruct op; by apply positive_val. }
  destruct (init_for op c0) as [c1|] eqn:E1; [|done]. pose proof (init_ok _ _ _ E1) as H1.
  rewrite H0 in H1. destruct (Hf c1 H1) as (c & Hc & Hcfg). by exists c0, c1, c.
Qed.

Lemma encrypt_raw c key cfg m : crypt c = mkCrypt key (Some OpEncrypt) cfg →
  raw_spec (λ o n, SSL_EVP_PKEY_encrypt c o n m) (λ ct, encrypts cfg key m ct).
Proof.
  intros Hc out outlen s. eapply wp_mono; [by apply encrypt_spec| |done].
  rewrite Hc. cbn. intros [rv [n data]] s' H Hrv. specialize (H Hrv).
  destruct out; [|done]. intros Ho. destruct (H Ho) as (? & ? & He). auto.
Qed.

Lemma decrypt_raw c key cfg pub m ct : crypt c = mkCrypt key (Some OpDecrypt) cfg →
  key_pair pub key → encrypts cfg pub m ct →
  raw_spec (λ o n, SSL_EVP_PKEY_decrypt c o n ct) (λ m', m' = m).
Proof.
  intros Hc Hk He out outlen s. eapply wp_mono; [by apply decrypt_spec| |done].
  rewrite Hc. cbn. intros [rv [n data]] s' H Hrv. specialize (H Hrv).
  destruct out; [|done]. intros Ho. destruct (H Ho) as (? & ? & Hd). eauto.
Qed.

Lemma sign_raw c key cfg d : crypt c = mkCrypt key (Some OpSign) cfg →
  raw_spec (λ o n, SSL_EVP_PKEY_sign c o n d) (λ s, signs cfg key d s).
Proof.
  intros Hc out outlen s. eapply wp_mono; [by apply sign_spec| |done].
  rewrite Hc. cbn. intros [rv [n data]] s' H Hrv. specialize (H Hrv).
  destruct out; [|done]. intros Ho. destruct (H Ho) as (? & ? & He). auto.
Qed.

(** C31. RSA encryption delivers: a message that fits the padding is encrypted by the public
    key, and the private key decrypts what came out to the message, with any of the padding
    modes. *)
Theorem rsa_delivers {P} {I : RSAEncryptionPadding P} (p : P) (g : crypt_config → crypt_config)
    (pub priv : EVP_PKEY) (m : bytes) (e e' : ENTROPY)
    (Hworks : AsymmetricWorks spec) (Hp : encryption_padding p g) (Hkeys : key_pair pub priv)
    (Hrsa : getType pub = Val RSA)
    (Hbits : 0 ≤ EVP_PKEY_bits pub ≤ OPENSSL_RSA_MAX_MODULUS_BITS)
    (Hfits : size m ≤ INT_MAX ∧ fits_padding (g default_config) pub m) :
  wp_total (RSAEncryptionPublicKeyCtx_encrypt (mkRSA pub p) m) e (λ ct _,
    wp_total (RSAEncryptionPrivateKeyCtx_decrypt (mkRSA priv p) ct) e' (λ m' _, m' = m)).
Proof.
  destruct Hp as [Hprep Hsize], Hfits as [Hm Hfit].
  assert (Hrsa' : getType priv = Val RSA) by (by rewrite <- (key_pair_type _ _ Hkeys)).
  assert (Hint : 0 ≤ EVP_PKEY_bits pub ≤ INT_MAX)
    by (unfold OPENSSL_RSA_MAX_MODULUS_BITS, INT_MAX in *; lia).
  destruct (Hsize pub m Hint Hm) as (b & Hb & Hok). specialize (Hok Hfit). subst b.
  destruct (ready_works OpEncrypt (prepareEncryption p) g pub RSA Hworks Hrsa (or_introl eq_refl)
    (λ c Hc, Hprep OpEncrypt eq_refl c pub _ Hworks Hrsa Hc Logic.I)) as (c0 & c1 & c & H0 & H1 & H2 & Hc).
  destruct (ready_works OpDecrypt (prepareEncryption p) g priv RSA Hworks Hrsa' (or_introl eq_refl)
    (λ c Hc, Hprep OpDecrypt eq_refl c priv _ Hworks Hrsa' Hc Logic.I)) as (x0 & x1 & x & G0 & G1 & G2 & Hx).
  cbn [init_for] in *.
  assert (Hdec : ∀ ct, encrypts (g default_config) pub m ct →
    wp_total (RSAEncryptionPrivateKeyCtx_decrypt (mkRSA priv p) ct) e' (λ m' _, m' = m)).
  { intros ct Hct. unfold RSAEncryptionPrivateKeyCtx_decrypt. apply wp_rethrow.
    cbn [r_key r_padding]. wp_simpl. rewrite G0. wp_simpl. rewrite G1. wp_simpl. rewrite G2.
    eapply wp_mono; [apply (two_calls_total (λ o n, SSL_EVP_PKEY_decrypt x o n ct) (λ m', m' = m));
      [done|by eapply decrypt_raw|by eapply decrypt_works]|done|done]. }
  unfold RSAEncryptionPublicKeyCtx_encrypt. apply wp_rethrow. cbn [r_key r_padding]. wp_simpl.
  rewrite H0. wp_simpl. destruct (Z.ltb_spec INT_MAX (size m)); [lia|]. wp_simpl.
  rewrite Hb. wp_simpl. cbn [negb]. rewrite H1. wp_simpl. rewrite H2.
  eapply wp_mono; [apply (two_calls_total (λ o n, SSL_EVP_PKEY_encrypt c o n m)
      (λ ct, encrypts (g default_config) pub m ct));
      [done|by eapply encrypt_raw|eapply encrypt_works; [done..|apply Hbits|done]]| |done].
  intros ct s' Hct. by apply Hdec.
Qed.
End Operations.

(** ** Signatures *)

Section Signatures.
Context {bio : BioAPI} {evp : EvpCipherAPI} {md : EvpMdAPI} {dig : EvpDigestAPI md}.
Context {pkey : EvpPkeyAPI bio evp} {rsa : RsaCtxAPI md pkey} {api : AsymmetricAPI dig pkey}.
Context {spec : AsymmetricSpec rsa api} {md_spec : EvpMdSpec md} {dig_spec : EvpDigestSpec dig}.

(** OpenSSL carries out the digests and the operations. *)
Definition SignatureWorks : Prop := AsymmetricWorks spec ∧ EvpDigestWorks dig_spec.

Lemma createHash_spec h hm msg :
  _getMDPtrFromDigestType h = Val hm →
  owp (createHash h msg) (λ d, d = digest_of hm msg ∧ check_digest_size h d = Val ())
    (λ _, ¬ SignatureWorks).
Proof.
  intros Hh. assert (Hn : h ≠ NONE) by (intros ->; done).
  assert (Heq : createHash h msg = HashOps.one_shot h msg) by (by destruct h).
  rewrite Heq. eapply owp_mono; [apply one_shot_spec| |].
  - intros d (m & Hm & -> & Hs). rewrite Hh in Hm. injection Hm as ->. split; [done|].
    unfold check_digest_size. rewrite getDigestSize_eq, decide_False by done. cbn.
    by rewrite Hs, Z.eqb_refl.
  - intros e [?|Hd]; [done|]. by intros [_ ?].
Qed.

(** An outcome of a verification: success is for valid signatures only, and where OpenSSL
    carries out its calls every other signature is reported as such. *)
Definition decides {S} (V : Prop) (m : M S ()) (s : S) : Prop :=
  wp m s (λ _ _, V)
    (λ err _, SignatureWorks → ¬ V ∧ err = MoCOCrWException (validation_failed [ErrorQueue])).

Lemma decides_accepts {S} V (m : M S ()) s :
  decides V m s → SignatureWorks → V → wp_total m s (λ _ _, True).
Proof.
  unfold decides, wp. destruct (m s) as [[[]|e] s']; [done|]. intros H HW HV.
  by destruct (H HW) as [HnV _].
Qed.

Lemma decides_intro {S} V (m : M S ()) s :
  wp m s (λ _ _, V) (λ _ _, True) →
  (SignatureWorks → wp m s (λ _ _, True)
     (λ err _, ¬ V ∧ err = MoCOCrWException (validation_failed [ErrorQueue]))) →
  decides V m s.
Proof. unfold decides, wp. by destruct (m s) as [[[]|e] s']. Qed.

(** The verification of a digest in a context that [f] prepares. *)
Lemma decides_verify f g key t d sig (e : ENTROPY) :
  configures f g → getType key = Val t → (t = RSA ∨ t = ECC) →
  (AsymmetricWorks spec → ∀ c, crypt c = mkCrypt key (Some OpVerify) default_config →
    ∃ c', f c = Val c' ∧ crypt c' = mkCrypt key (Some OpVerify) (g default_config)) →
  decides (valid (g default_config) key d sig)
    (rethrow validation_failed
      (let! c := lift (_EVP_PKEY_CTX_new key) in
       let! c := lift (_EVP_PKEY_verify_init c) in
       let! c := lift (f c) in
       lift (_EVP_PKEY_verify c sig d))) e.
Proof.
  intros Hf Ht Hop Hprep. apply decides_intro.
  - apply wp_rethrow_any. wp_simpl.
    destruct (_EVP_PKEY_CTX_new key) as [c0|] eqn:E0; [|done]. wp_simpl.
    destruct (_EVP_PKEY_verify_init c0) as [c1|] eqn:E1; [|done]. wp_simpl.
    destruct (f c1) as [c|] eqn:E2; [|done].
    assert (Hc : crypt c = mkCrypt key (Some OpVerify) (g default_config)).
    { apply (ready_ok OpVerify f g key c Hf). unfold ready. rewrite E0. cbn. by rewrite E1. }
    unfold _EVP_PKEY_verify. rewrite run_pure_IsPositive. cbn [fst snd].
    pose proof (verify_spec c sig d) as Hv. rewrite Hc in Hv. specialize (Hv eq_refl). cbn in Hv.
    destruct (Z.ltb_spec 0 (SSL_EVP_PKEY_verify c sig d)); wp_simpl; [by apply Hv|done].
  - intros [HW _]. apply wp_rethrow. wp_simpl.
    destruct (ready_works OpVerify f g key t HW Ht) as (c0 & c1 & c & E0 & E1 & E2 & Hc);
      [destruct Hop; auto|by apply Hprep|]. cbn [init_for] in E1.
    rewrite E0. wp_simpl. rewrite E1. wp_simpl. rewrite E2.
    unfold _EVP_PKEY_verify. rewrite run_pure_IsPositive. cbn [fst snd].
    pose proof (verify_spec c sig d) as Hv. rewrite Hc in Hv. specialize (Hv eq_refl). cbn in Hv.
    destruct (Z.ltb_spec 0 (SSL_EVP_PKEY_verify c sig d)); wp_simpl; [done|].
    split; [|done]. intros Hval%Hv. lia.
Qed.

(** A digest that is made first. *)
Lemma decides_message {S} V h hm msg (m : bytes → M S ()) s :
  _getMDPtrFromDigestType h = Val hm →
  (check_digest_size h (digest_of hm msg) = Val () → decides V (m (digest_of hm msg)) s) →
  decides V (let! d := lift (createHash h msg) in m d) s.
Proof.
  intros Hh Hm. pose proof (createHash_spec h hm msg Hh) as Hd. unfold decides.
  apply wp_lift_bind. eapply owp_mono; [exact Hd| |].
  - intros d [-> Hs]. by apply Hm.
  - intros e Hno HW. by destruct (Hno HW).
Qed.

Lemma decides_checked {S} V h d (m : M S ()) s :
  check_digest_size h d = Val () → decides V m s →
  decides V (lift (check_digest_size h d) ;; m) s.
Proof. intros Hs Hm. unfold decides. apply wp_lift_bind. rewrite Hs. exact Hm. Qed.

(** An outcome of a signature: it satisfies [P], and none is missing for a digest that
    can be signed. *)
Definition makes {S} (P : bytes → Prop) (C : Prop) (m : M S bytes) (s : S) : Prop :=
  wp m s (λ sig _, P sig) (λ _ _, ¬ (SignatureWorks ∧ C)).

Lemma makes_intro {S} (P : bytes → Prop) C (m : M S bytes) s :
  wp m s (λ sig _, P sig) (λ _ _, True) →
  (SignatureWorks → C → wp_total m s (λ _ _, True)) → makes P C m s.
Proof. unfold makes, wp. destruct (m s) as [[sig|e] s']; [done|]. intros _ H [HW HC]. by apply H. Qed.

Lemma makes_message {S} P (C : Prop) h hm msg (m : bytes → M S bytes) s :
  _getMDPtrFromDigestType h = Val hm →
  (check_digest_size h (digest_of hm msg) = Val () → makes P C (m (digest_of hm msg)) s) →
  makes P C (let! d := lift (createHash h msg) in m d) s.
Proof.
  intros Hh Hm. pose proof (createHash_spec h hm msg Hh) as Hd. unfold makes.
  apply wp_lift_bind. eapply owp_mono; [exact Hd| |].
  - intros d [-> Hs]. by apply Hm.
  - intros e Hno [HW _]. by destruct (Hno HW).
Qed.

(** The signature of a digest in a context that [f] prepares. *)
Lemma makes_sign f g key pub t h d (e : ENTROPY) :
  check_digest_size h d = Val () →
  configures f g → key_pair pub key → getType key = Val t → (t = RSA ∨ t = ECC) →
  (AsymmetricWorks spec → ∀ c, crypt c = mkCrypt key (Some OpSign) default_config →
    ∃ c', f c = Val c' ∧ crypt c' = mkCrypt key (Some OpSign) (g default_config)) →
  makes (λ sig, signs (g default_config) key d sig) (can_sign (g default_config) key d)
    (lift (check_digest_size h d) ;;
     rethrow id
      (let! c := lift (_EVP_PKEY_CTX_new key) in
       let! c := lift (_EVP_PKEY_sign_init c) in
       let! c := lift (f c) in
       signHelper c d)) e.
Proof.
  intros Hs Hf Hk Ht Hop Hprep. apply makes_intro; rewrite wp_bind, wp_lift, Hs.
  - apply wp_rethrow_any. wp_simpl.
    destruct (_EVP_PKEY_CTX_new key) as [c0|] eqn:E0; [|done]. wp_simpl.
    destruct (_EVP_PKEY_sign_init c0) as [c1|] eqn:E1; [|done]. wp_simpl.
    destruct (f c1) as [c|] eqn:E2; [|done].
    assert (Hc : crypt c = mkCrypt key (Some OpSign) (g default_config)).
    { apply (ready_ok OpSign f g key c Hf). unfold ready. rewrite E0. cbn. by rewrite E1. }
    eapply wp_mono; [by apply signHelper_spec|done|done].
  - intros [HW _] HC. apply wp_rethrow. wp_simpl.
    destruct (ready_works OpSign f g key t HW Ht) as (c0 & c1 & c & E0 & E1 & E2 & Hc);
      [destruct Hop; auto|by apply Hprep|]. cbn [init_for] in E1.
    rewrite E0. wp_simpl. rewrite E1. wp_simpl. rewrite E2.
    eapply wp_mono; [apply (two_calls_total (λ o n, SSL_EVP_PKEY_sign c o n d)
      (λ s, signs (g default_config) key d s));
      [done|by eapply sign_raw|by eapply sign_works]|done|done].
Qed.

Lemma makes_mono {S} (P Q : bytes → Prop) C (m : M S bytes) s :
  makes P C m s → (∀ sig, P sig → Q sig) → makes Q C m s.
Proof. intros H HPQ. eapply wp_mono; [exact H|by intros sig s' ?; apply HPQ|done]. Qed.

(** C32. RSA signatures, with any of the padding modes: [verifyMessage] accepts only valid
    signatures of the message's digest, and where OpenSSL carries out its calls it accepts all of
    them and reports any other with a MoCOCrWException; [signMessage] makes
    valid signatures, which the public key accepts, and makes one of every
    message whose encoded digest fits the key. *)
Theorem rsa_signatures {P} {I : RSASignaturePadding P} (p : P) (h : DigestTypes) (hm : EVP_MD)
    (g : crypt_config → crypt_config) (pub : EVP_PKEY) (msg : bytes)
    (Hp : signature_padding p h g) (Hh : _getMDPtrFromDigestType h = Val hm)
    (Hrsa : getType pub = Val RSA) :
  let d := digest_of hm msg in
  let verify sig := RSA_verifyMessage (mkRSASignature (mkRSA pub p) h) sig msg in
  (∀ sig e, decides (valid (g default_config) pub d sig) (verify sig) e) ∧
  (∀ priv e, key_pair pub priv →
    makes (λ sig, valid (g default_config) pub d sig ∧
                  ∀ e', SignatureWorks → wp_total (verify sig) e' (λ _ _, True))
      (can_sign (g default_config) priv d)
      (RSA_signMessage (mkRSASignature (mkRSA priv p) h) msg) e).
Proof.
  intros d verify. destruct Hp as [Hconf Hprep].
  assert (Hdec : ∀ sig e, decides (valid (g default_config) pub d sig) (verify sig) e).
  { intros sig e. apply (decides_message _ h hm); [done|]. intros Hs.
    apply decides_checked; [done|]. apply (decides_verify _ g pub RSA); [done..|by left|].
    intros HW c Hc. by apply (Hprep OpVerify eq_refl c pub _ HW). }
  split; [done|]. intros priv e Hk.
  assert (Hrsa' : getType priv = Val RSA) by (by rewrite <- (key_pair_type _ _ Hk)).
  apply (makes_mono (λ sig, signs (g default_config) priv d sig)).
  - apply (makes_message _ _ h hm); [done|]. intros Hs.
    apply (makes_sign _ g priv pub RSA); [done..|by left|].
    intros HW c Hc. by apply (Hprep OpSign eq_refl c priv _ HW).
  - intros sig Hsig. assert (Hv : valid (g default_config) pub d sig) by (by eapply signs_valid).
    split; [done|]. intros e' HW. by eapply decides_accepts.
Qed.

(** ECDSA needs no configuration. *)
Lemma prepared_Val op key c :
  crypt c = mkCrypt key (Some op) default_config →
  ∃ c', Val c = Val c' ∧ crypt c' = mkCrypt key (Some op) (id default_config).
Proof. intros Hc. by exists c. Qed.

Lemma ecdsa_decides_asn1 fmt h pub d sig e :
  getType pub = Val ECC → check_digest_size h d = Val () →
  decides (valid default_config pub d sig) (ECDSA_verifyAsn1 (mkECDSA pub fmt h) sig d) e.
Proof.
  intros Ht Hs. apply decides_checked; [done|].
  apply (decides_verify Val id pub ECC); [apply val_configures|done|by right|].
  intros _ c Hc. by apply prepared_Val.
Qed.

Lemma ecdsa_makes_digest fmt h pub priv d e :
  key_pair pub priv → getType priv = Val ECC → check_digest_size h d = Val () →
  makes (λ sig, ∃ r t, let n := keySizeBytes priv in
      1 ≤ n ≤ 128 ∧ 0 ≤ r < 256 ^ n ∧ 0 ≤ t < 256 ^ n ∧ sig = in_format fmt n r t ∧
      signs default_config priv d (der r t))
    (can_sign default_config priv d) (ECDSA_signDigest (mkECDSA priv fmt h) d) e.
Proof.
  intros Hk Ht Hs. unfold makes, ECDSA_signDigest. rewrite wp_bind.
  eapply wp_mono; [apply (makes_sign Val id priv pub ECC h d e);
    [done|apply val_configures|done..|by right|intros _ c Hc; by apply prepared_Val]| |done].
  intros s e' Hsig. cbn in Hsig. destruct (ec_signs _ _ _ _ Hsig Ht) as (Hbits & r & t & -> & Hr & Htt).
  destruct (keySizeBytes_spec priv Hbits) as [Hn Hrange]. rewrite <-Hn in Hr, Htt.
  cbn [c_sigFormat c_key]. destruct fmt; wp_simpl.
  - by exists r, t.
  - rewrite asn1_to_ieee by done. by exists r, t.
Qed.

(** A signature in a format: the IEEE 1363 form is the two numbers of the DER form. *)
Definition signed_in (fmt : ECDSASignatureFormat) (pub : EVP_PKEY) (d sig : bytes) : Prop :=
  match fmt with
  | ASN1_SEQUENCE_OF_INTS => valid default_config pub d sig
  | IEEE1363 => let n := keySizeBytes pub in
      size sig = 2 * n ∧
      valid default_config pub d
        (der (be_value (take (Z.to_nat n) sig)) (be_value (drop (Z.to_nat n) sig)))
  end.

Lemma ecdsa_verify_digest fmt h pub d sig e :
  getType pub = Val ECC → 0 < EVP_PKEY_bits pub ≤ 1000 → check_digest_size h d = Val () →
  wp (ECDSA_verifyDigest (mkECDSA pub fmt h) sig d) e (λ _ _, signed_in fmt pub d sig)
    (λ err _, SignatureWorks → ¬ signed_in fmt pub d sig ∧ ∃ w, err = MoCOCrWException w).
Proof.
  intros Ht Hbits Hs. destruct (keySizeBytes_spec pub Hbits) as [_ Hn].
  unfold ECDSA_verifyDigest. cbn [c_sigFormat c_key]. destruct fmt.
  - eapply wp_mono; [by apply (ecdsa_decides_asn1 ASN1_SEQUENCE_OF_INTS h pub d sig e)|done|].
    intros err s' H HW. destruct (H HW) as [? ->]. eauto.
  - unfold signed_in. destruct (Z.eq_dec (size sig) (2 * keySizeBytes pub)) as [Hsize|Hsize].
    + rewrite wp_bind, wp_lift, ieee_to_asn1 by done.
      eapply wp_mono; [by apply (ecdsa_decides_asn1 IEEE1363 h pub d _ e)|done|].
      intros err s' H HW. destruct (H HW) as [Hv ->]. split; [by intros []|eauto].
    + unfold _IEEE1363EcSignatureToAsn1ECSignature.
      rewrite to_size_t_id by (unfold SIZE_MAX; lia).
      destruct (Z.eqb_spec (size sig) (2 * keySizeBytes pub)); [done|]. cbn [negb]. wp_simpl.
      intros _. split; [by intros []|eauto].
Qed.

Lemma in_format_signed fmt pub d n r t :
  n = keySizeBytes pub → 1 ≤ n ≤ 128 → 0 ≤ r < 256 ^ n → 0 ≤ t < 256 ^ n →
  valid default_config pub d (der r t) → signed_in fmt pub d (in_format fmt n r t).
Proof.
  intros -> Hn Hr Ht Hv. destruct fmt; cbn; [done|]. split.
  - rewrite size_app. unfold size. rewrite !length_be_bytes. lia.
  - rewrite take_app_length', drop_app_length' by (by rewrite length_be_bytes).
    by rewrite !be_value_bytes by (rewrite Z2Nat.id; lia).
Qed.

(** C33. ECDSA, in both formats: [verifyMessage] accepts only signatures of the message's digest that are valid
    and in the format of the context, and where OpenSSL carries out its calls it
    accepts all of them and reports any other, of any size, with a MoCOCrWException;
    [signMessage] makes signatures in the format of the context, which the public key accepts,
    and then never fails. *)
Theorem ecdsa_signatures (h : DigestTypes) (hm : EVP_MD) (pub : EVP_PKEY) (msg : bytes)
    (Hh : _getMDPtrFromDigestType h = Val hm) (Hec : getType pub = Val ECC)
    (Hbits : 0 < EVP_PKEY_bits pub ≤ 1000) :
  let d := digest_of hm msg in
  let verify fmt sig := ECDSA_verifyMessage (mkECDSA pub fmt h) sig msg in
  (∀ fmt sig e, wp (verify fmt sig) e (λ _ _, signed_in fmt pub d sig)
    (λ err _, SignatureWorks → ¬ signed_in fmt pub d sig ∧ ∃ w, err = MoCOCrWException w)) ∧
  (∀ fmt priv e, key_pair pub priv →
    makes (λ sig, signed_in fmt pub d sig ∧
                  ∀ e', SignatureWorks → wp_total (verify fmt sig) e' (λ _ _, True)) True
      (ECDSA_signMessage (mkECDSA priv fmt h) msg) e).
Proof.
  intros d verify.
  assert (Hdec : ∀ fmt sig e, wp (verify fmt sig) e (λ _ _, signed_in fmt pub d sig)
    (λ err _, SignatureWorks → ¬ signed_in fmt pub d sig ∧ ∃ w, err = MoCOCrWException w)).
  { intros fmt sig e. apply wp_lift_bind. eapply owp_mono; [by apply (createHash_spec h hm)| |].
    - intros x [-> Hs]. by apply ecdsa_verify_digest.
    - intros x Hno HW. by destruct (Hno HW). }
  split; [done|]. intros fmt priv e Hk.
  assert (Hec' : getType priv = Val ECC) by (by rewrite <- (key_pair_type _ _ Hk)).
  assert (Hbits' : 0 < EVP_PKEY_bits priv ≤ 1000) by (by rewrite <- (key_pair_bits _ _ Hk)).
  assert (Hcan : can_sign default_config priv d) by (unfold can_sign; by rewrite Hec').
  assert (Hsize : keySizeBytes priv = keySizeBytes pub)
    by (unfold keySizeBytes, getKeySize; by rewrite (key_pair_bits _ _ Hk)).
  eapply (makes_mono (λ sig, signed_in fmt pub d sig)).
  - apply (makes_message _ _ h hm); [done|]. intros Hs. unfold makes.
    eapply wp_mono; [by apply (ecdsa_makes_digest fmt h pub priv d e)| |].
    + intros sig s' (r & t & Hn & Hr & Htt & -> & Hsig). rewrite Hsize in *.
      apply in_format_signed; [done..|]. by eapply signs_valid.
    + intros err s' Hno [HW _]. by apply Hno.
  - intros sig Hsig. split; [done|]. intros e' HW. specialize (Hdec fmt sig e'). unfold wp in *.
    destruct (verify fmt sig e') as [[[]|err] s']; [done|]. by destruct (Hdec HW).
Qed.

Lemma owp_fst {S A} (m : M S A) s (Φ : A → Prop) Ψ :
  wp m s (λ a _, Φ a) (λ e _, Ψ e) → owp (m s).1 Φ Ψ.
Proof. unfold wp. by destruct (m s) as [[a|e] s']. Qed.

Lemma owp_refute {A} (o : outcome A) Φ (W : Prop) :
  owp o Φ (λ _, True) → (W → owp o (λ _, True) (λ _, False)) → owp o Φ (λ _, ¬ W).
Proof. by destruct o. Qed.

Lemma owp_as_mococrw {A} (o : outcome A) Φ (Ψ : Prop) :
  owp o Φ (λ _, Ψ) → owp (as_mococrw o) Φ (λ _, Ψ).
Proof. by destruct o as [a|[]]. Qed.

(** The signature of an EdDSA context, of the size the key has. *)
Lemma eddsa_sign_spec priv pub msg :
  getType priv = Val ECC_ED → key_pair pub priv →
  owp (EdDSA_signMessage (mkEdDSA priv) msg)
    (λ sig, size sig = ed_size priv ∧ ed_signs priv msg sig) (λ _, ¬ SignatureWorks).
Proof.
  intros Ht Hk. unfold EdDSA_signMessage. cbn [d_key]. unfold _EVP_MD_CTX_create. rewrite run_pure_Ptr.
  apply owp_refute; [|intros [HW HD]]; apply owp_as_mococrw;
    (destruct SSL_EVP_MD_CTX_create as [mctx|] eqn:Hc; cbn [obind];
      [|try done; by destruct (MD_CTX_create_works HD)]);
    apply owp_fst; unfold _EVP_DigestSignInit, _EVP_DigestSign; rewrite !wp_bind; wp_simpl.
  - apply wp_IsOne_ok; [|done]. eapply wp_mono; [apply (DigestSignInit_spec priv mctx)| |done].
    intros r c Hr Hrv. specialize (Hr Hrv). rewrite !wp_bind.
    apply wp_IsOne_ok; [|done]. eapply wp_mono; [by apply (DigestSign_spec c priv)| |done].
    intros [rv [n data]] c' H Hrv'. cbn [fst snd] in *. destruct (H Hrv') as [-> Hc'].
    unfold filled at 1. wp_simpl. cbn [fst snd].
    apply wp_IsOne_ok; [|done]. eapply wp_mono; [by apply (DigestSign_spec c' priv)| |done].
    intros [rv' [n' data']] c'' H' Hrv''. cbn [fst snd] in *.
    pose proof (ed_size_nonneg priv). destruct (H' Hrv'') as [Hsz Hs]; [by rewrite size_zeros|].
    unfold filled. wp_simpl. cbn [fst snd].
    destruct (write_buffer (zeros (ed_size priv)) data') as [buf|] eqn:Hw; [|done].
    apply write_buffer_full in Hw; [|by rewrite size_zeros]. subst buf. by wp_simpl.
  - assert (Hstart : succeeds (SSL_EVP_DigestSignInit None priv) mctx)
      by (by eapply DigestSignInit_works).
    apply wp_OpensslCallIsOne. unfold succeeds in Hstart.
    eapply wp_mono; [apply (wp_and _ _ _ _ _ _ (DigestSignInit_spec priv mctx) Hstart)| |by intros ? ? []].
    intros [rv u] c [Hr Hrv]. cbn [fst] in *. rewrite Hrv, Z.eqb_refl. specialize (Hr Hrv).
    rewrite !wp_bind. apply wp_OpensslCallIsOne.
    eapply wp_mono; [apply (wp_and _ _ _ _ _ _ (DigestSign_spec c priv None 0 msg Hr)
      (DigestSign_works HW priv c msg Hr))| |by intros ? ? []].
    intros [rv' [n data]] c' [H (Hrv' & _ & Hnext)]. cbn [fst snd] in *. rewrite Hrv', Z.eqb_refl.
    destruct (H Hrv') as [-> Hc']. pose proof (ed_size_nonneg priv).
    unfold filled at 1. wp_simpl. cbn [fst snd].
    specialize (Hnext (zeros (ed_size priv)) (size_zeros _ ltac:(done))).
    rewrite size_zeros in Hnext by done. apply wp_OpensslCallIsOne.
    eapply wp_mono; [apply (wp_and _ _ _ _ _ _ (DigestSign_spec c' priv (Some (zeros (ed_size priv)))
      (ed_size priv) msg Hc') Hnext)| |by intros ? ? []].
    intros [rv'' [n' data']] c'' [H' Hrv'']. cbn [fst snd] in *. rewrite Hrv'', Z.eqb_refl.
    destruct (H' Hrv'') as [Hsz _]; [by rewrite size_zeros|]. unfold filled. wp_simpl. cbn [fst snd].
    unfold write_buffer. rewrite size_zeros, Hsz, Z.leb_refl by done. by wp_simpl.
Qed.

(** What an EdDSA context decides. *)
Lemma eddsa_verify_spec pub msg sig :
  getType pub = Val ECC_ED →
  owp (EdDSA_verifyMessage (mkEdDSA pub) sig msg) (λ _, ed_valid pub msg sig)
    (λ err, SignatureWorks → ¬ ed_valid pub msg sig ∧
       err = MoCOCrWException (validation_failed [ErrorQueue])).
Proof.
  intros Ht. unfold EdDSA_verifyMessage, _EVP_MD_CTX_create. cbn [d_key]. rewrite run_pure_Ptr.
  destruct SSL_EVP_MD_CTX_create as [mctx|] eqn:Hc; cbn [obind].
  2: { intros [_ HD]. by destruct (MD_CTX_create_works HD). }
  assert (Hwp : wp (_EVP_DigestVerifyInit NONE pub ;; _EVP_DigestVerify sig msg) mctx
    (λ _ _, ed_valid pub msg sig)
    (λ err _, err = OpenSSLException [ErrorQueue] ∧ (SignatureWorks → ¬ ed_valid pub msg sig))).
  { unfold _EVP_DigestVerifyInit, _EVP_DigestVerify. rewrite !wp_bind. wp_simpl.
    apply wp_IsOne_ok; [|intros s' Hf; split; [done|]; intros [HW _]; by destruct Hf; apply DigestVerifyInit_works].
    eapply wp_mono; [apply (DigestVerifyInit_spec pub mctx)| |done].
    intros r c Hr Hrv. specialize (Hr Hrv). apply wp_OpensslCallIsOne.
    eapply wp_mono; [by apply (DigestVerify_spec c pub sig msg)| |done].
    intros [rv u] c' Hv. cbn [fst] in Hv. destruct (Z.eqb_spec rv 1); [by apply Hv|].
    split; [done|]. intros _ Hval. by apply Hv in Hval. }
  unfold wp in Hwp. destruct ((_ ;; _) mctx) as [[[]|err] c']; cbn [fst]; [done|].
  destruct Hwp as [-> H]. intros HW. split; [by apply H|done].
Qed.

(** C34. EdDSA: [verifyMessage] accepts only valid signatures, and where OpenSSL carries out
    its calls all of them, and reports the others with a MoCOCrWException;
    [signMessage] makes a signature of the key's signature size, which the public key accepts. *)
Theorem eddsa_signatures (pub priv : EVP_PKEY) (msg : bytes)
    (Hed : getType pub = Val ECC_ED) (Hkeys : key_pair pub priv) :
  let verify sig := EdDSA_verifyMessage (mkEdDSA pub) sig msg in
  (∀ sig, owp (verify sig) (λ _, ed_valid pub msg sig)
    (λ err, SignatureWorks → ¬ ed_valid pub msg sig ∧
       err = MoCOCrWException (validation_failed [ErrorQueue]))) ∧
  owp (EdDSA_signMessage (mkEdDSA priv) msg)
    (λ sig, size sig = ed_size priv ∧ ed_valid pub msg sig ∧ (SignatureWorks → verify sig = Val ()))
    (λ _, ¬ SignatureWorks).
Proof.
  intros verify. assert (Hv : ∀ sig, owp (verify sig) (λ _, ed_valid pub msg sig)
    (λ err, SignatureWorks → ¬ ed_valid pub msg sig ∧
       err = MoCOCrWException (validation_failed [ErrorQueue])))
    by (intros sig; by apply eddsa_verify_spec).
  split; [done|]. eapply owp_mono; [apply (eddsa_sign_spec priv pub msg); [|done]| |done].
  { by rewrite <- (key_pair_type _ _ Hkeys). }
  intros sig [Hs Hsig]. assert (Hval : ed_valid pub msg sig) by (by eapply ed_signs_valid).
  split; [done|]. split; [done|]. intros HW. specialize (Hv sig). unfold owp in Hv.
  destruct (verify sig) as [[]|err]; [done|]. by destruct (Hv HW).
Qed.
End Signatures.

(** ** A concrete instance *)

Module ToyCryptoWorks.
Import ToyCrypto.
#[local] Existing Instance NamedDigests.api.
#[local] Existing Instance LengthDigest.api.
#[local] Existing Instance NamedDigests.spec.
#[local] Existing Instance LengthDigest.spec.
#[local] Existing Instance MemBio.api.
#[local] Existing Instance XorCipher.api.

(** The calls with an output are carried out when there is one that is not too big. *)
Lemma output_works {S} (r : option bytes) (s : S) b :
  r = Some b → size b ≤ 65000 → carried_out (Z.lt 0) (λ out _, output r out) s.
Proof.
  intros -> Hb. pose proof (size_nonneg b). unfold carried_out, wp. cbn.
  destruct (Z.leb_spec (size b) 65000); [|lia]. split; [done|]. split; [lia|].
  intros buf Hbuf. cbn. destruct (Z.leb_spec (size b) (size buf)); lia.
Qed.

Lemma md_size_bound (m : @EVP_MD NamedDigests.api) : 0 ≤ SSL_EVP_MD_size m ≤ 64.
Proof. by destruct m. Qed.

Lemma fits_bound cfg (k : @EVP_PKEY _ _ pkey) m :
  EVP_PKEY_bits k ≤ OPENSSL_RSA_MAX_MODULUS_BITS → fits_padding cfg k m → size m ≤ 64000.
Proof.
  unfold fits_padding, OPENSSL_RSA_MAX_MODULUS_BITS. intros Hk.
  destruct (cc_pad cfg); [intros [? _]; lia|intros [? _]; lia|done|].
  destruct (cc_oaep cfg) as [h|]; [|done]. intros [? _]. pose proof (md_size_bound h). lia.
Qed.

Lemma size_ciphertext cfg k m : size (ciphertext cfg k m) = size m + 2.
Proof. unfold ciphertext, size. cbn. rewrite length_rev. lia. Qed.

Lemma signature_works cfg (k : @EVP_PKEY _ _ pkey) d : can_sign cfg k d →
  ∃ s, signature cfg k d = Some s ∧ size s ≤ 65000.
Proof.
  unfold can_sign, signature. destruct (getType k) as [t|] eqn:Ht; [|done].
  destruct (Z.eqb_spec (NumberKeys.k_id k) EVP_PKEY_EC) as [He|He].
  - intros Hc. assert (Hbits : 0 < NumberKeys.k_bits k ≤ 1000).
    { destruct t; [|done..]. unfold getType, _EVP_PKEY_type in Ht. rewrite run_pure_IsPositive in Ht.
      cbn in Ht. rewrite He in Ht. done. }
    destruct (Z.ltb_spec 0 (NumberKeys.k_bits k)); [|lia].
    destruct (Z.leb_spec (NumberKeys.k_bits k) 1000); [|lia]. cbn [andb]. eexists. split; [done|].
    rewrite length_der. lia.
  - intros Hc. eexists. split; [done|]. assert (Hd : size d ≤ 64).
    { destruct t; [| |done].
      - pose proof md_size_bound as Hmd.
        destruct (cc_pad cfg); [done| | |done]; destruct (cc_md cfg) as [h|]; try done;
          destruct Hc as [-> _]; by apply Hmd.
      - unfold getType, _EVP_PKEY_type in Ht. rewrite run_pure_IsPositive in Ht. cbn in Ht.
        destruct (0 <? NumberKeys.k_id k); [|done]. cbn in Ht.
        destruct (Z.eqb_spec (NumberKeys.k_id k) EVP_PKEY_RSA); [done|].
        destruct (Z.eqb_spec (NumberKeys.k_id k) EVP_PKEY_EC); [done|]. by case_match. }
    unfold size in *. cbn. lia.
Qed.

Lemma toy_works : AsymmetricWorks spec.
Proof.
  constructor.
  - intros n Hn. cbn. by destruct (Z.ltb_spec n 0); [lia|].
  - done.
  - by intros [].
  - done.
  - done.
  - done.
  - done.
  - done.
  - done.
  - intros c key cfg m e Hc Hrsa Hbits Hfits.
    pose proof (fits_bound cfg key m Hbits Hfits) as Hm. cbn [SSL_EVP_PKEY_encrypt api].
    destruct (Z.leb_spec (size m) 64000); [|lia].
    eapply output_works; [done|]. rewrite size_ciphertext. lia.
  - intros c key cfg pub m ct e Hc -> [-> Hm]. injection Hc as <- Hop <-.
    cbn [SSL_EVP_PKEY_decrypt api]. eapply output_works; [apply plaintext_ciphertext|lia].
  - intros c key cfg pub d e Hc _ Hcan. injection Hc as <- Hop <-.
    destruct (signature_works _ _ d Hcan) as (s & Hs & Hsize).
    cbn [SSL_EVP_PKEY_sign api]. by eapply output_works.
  - done.
  - done.
  - intros k c m _. unfold carried_out, wp. cbn. split; [done|]. split; [done|].
    intros buf Hbuf. cbn. by rewrite Hbuf.
Qed.

Lemma toy_signature_works : SignatureWorks (spec := spec) (dig_spec := LengthDigest.spec).
Proof. split; [apply toy_works|apply LengthDigest.digest_works]. Qed.

Lemma rsa_delivers_witness :
  wp_total (RSAEncryptionPublicKeyCtx_encrypt (mkRSA rsa_key oaep) (str "hello")) e0 (λ ct _,
    wp_total (RSAEncryptionPrivateKeyCtx_decrypt (mkRSA rsa_key oaep) ct) e0
      (λ m' _, m' = str "hello")).
Proof.
  refine (rsa_delivers oaep _ rsa_key rsa_key (str "hello") e0 e0 toy_works
    (oaep_encryption SHA256 SHA256 sha256 sha256 (str "label") eq_refl eq_refl _) eq_refl eq_refl _ _).
  - by vm_compute.
  - by vm_compute.
  - split; [by vm_compute|]. split; by vm_compute.
Defined.

Lemma rsa_signatures_witness :
  wp_total (RSA_signMessage (mkRSASignature (mkRSA rsa_key pss) SHA256) (str "hello")) e0 (λ sig _,
    wp_total (RSA_verifyMessage (mkRSASignature (mkRSA rsa_key pss) SHA256) sig (str "hello")) e0
      (λ _ _, True)).
Proof.
  destruct (rsa_signatures pss SHA256 sha256 _ rsa_key (str "hello")
    (pss_signature SHA256 sha256 eq_refl) eq_refl eq_refl) as [_ Hsign].
  specialize (Hsign rsa_key e0 eq_refl). unfold makes in Hsign.
  eapply wp_mono; [exact Hsign| |].
  - intros sig s' [_ H]. exact (H e0 toy_signature_works).
  - intros err s' Hno. apply Hno. split; [exact toy_signature_works|]. vm_compute. split; [done|]. split; [done|].
    by exists 32.
Defined.

Lemma ecdsa_signatures_witness :
  wp_total (ECDSA_signMessage (mkECDSA ec_key IEEE1363 SHA256) (str "hello")) e0 (λ sig _,
    size sig = 64 ∧
    wp_total (ECDSA_verifyMessage (mkECDSA ec_key IEEE1363 SHA256) sig (str "hello")) e0
      (λ _ _, True)).
Proof.
  destruct (ecdsa_signatures SHA256 sha256 ec_key (str "hello") eq_refl eq_refl ltac:(by vm_compute))
    as [_ Hsign].
  specialize (Hsign IEEE1363 ec_key e0 eq_refl). unfold makes in Hsign.
  eapply wp_mono; [exact Hsign| |].
  - intros sig s' [[Hs _] H]. split; [exact Hs|exact (H e0 toy_signature_works)].
  - intros err s' Hno. apply Hno. split; [exact toy_signature_works|done].
Defined.

Definition ed_key : @EVP_PKEY _ _ pkey := NumberKeys.mkKey EVP_PKEY_ED25519 256 0 5.

Lemma eddsa_signatures_witness :
  owp (EdDSA_signMessage (mkEdDSA ed_key) (str "hello"))
    (λ sig, size sig = 64 ∧ EdDSA_verifyMessage (mkEdDSA ed_key) sig (str "hello") = Val ()) (λ _, False).
Proof.
  destruct (eddsa_signatures (spec := spec) (dig_spec := LengthDigest.spec) ed_key ed_key (str "hello") eq_refl eq_refl) as [_ Hsign].
  eapply owp_mono; [exact Hsign| |].
  - intros sig (Hs & _ & H). split; [exact Hs|exact (H toy_signature_works)].
  - intros err Hno. exact (Hno toy_signature_works).
Defined.
End ToyCryptoWorks.
