(* ===== verification/Extensions.v ===== *)
(** * X.509 extensions and signing parameters:
      [src/src/mococrw/extension.h], [basic_constraints.h], [key_usage.h],
      [subject_key_identifier.h] and [sign_params.h] in the same directory *)

From Stdlib Require Import Sorted.
From S2P Require Import Prelude CheckCall Util OpenSSLWrap Bio Asn1Time.

(** ** The interface [ExtensionBase] *)

(** [enum class X509Extension_NID : int]; a class of the user may have any number. *)
Abbreviation X509Extension_NID := Z.

Module ExtensionNid.
Definition BasicConstraints : X509Extension_NID := 87.
Definition KeyUsage : X509Extension_NID := 83.
Definition SubjectKeyIdentifier : X509Extension_NID := 82.
End ExtensionNid.

Class ExtensionBase (T : Type) := {
  getConfigurationString : T → bytes;
  getNid : T → X509Extension_NID;
}.

(** ** [BasicConstraintsExtension] *)

Record BasicConstraintsExtension := mkBasicConstraints { _ca : bool; _pathlength : Z }.

#[export] Instance BasicConstraints_eq_dec : EqDecision BasicConstraintsExtension.
Proof. solve_decision. Defined.

Definition BasicConstraints_default : BasicConstraintsExtension := mkBasicConstraints false 0.
Definition isCA (e : BasicConstraintsExtension) : bool := _ca e.
Definition pathlength (e : BasicConstraintsExtension) : Z := _pathlength e.

(** [%i] *)
Definition decimal (z : Z) : bytes := str (pretty z).

Definition BasicConstraints_string (e : BasicConstraintsExtension) : bytes :=
  if _ca e then str "critical,CA:TRUE,pathlen:" ++ decimal (_pathlength e)
  else str "critical, CA:FALSE".

#[export] Instance BasicConstraints_base : ExtensionBase BasicConstraintsExtension := {
  getConfigurationString := BasicConstraints_string;
  getNid := λ _, ExtensionNid.BasicConstraints;
}.

Definition BasicConstraints_eq (a b : BasicConstraintsExtension) : bool :=
  Bool.eqb (_ca a) (_ca b) && (_pathlength a =? _pathlength b).

(** ** [KeyUsageExtension] and its builder *)

Record KeyUsageExtension := mkKeyUsage {
  _decipherOnly : bool;
  _encipherOnly : bool;
  _cRLSign : bool;
  _keyCertSign : bool;
  _keyAgreement : bool;
  _dataEncipherment : bool;
  _keyEncipherment : bool;
  _nonRepudiation : bool;
  _digitalSignature : bool;
}.

#[export] Instance KeyUsage_eq_dec : EqDecision KeyUsageExtension.
Proof. solve_decision. Defined.

Module KeyUsageBuilder.
Definition new : KeyUsageExtension :=
  mkKeyUsage false false false false false false false false false.
Definition decipherOnly (k : KeyUsageExtension) : KeyUsageExtension :=
  let 'mkKeyUsage _ b c d e f g h i := k in mkKeyUsage true b c d e f g h i.
Definition encipherOnly (k : KeyUsageExtension) : KeyUsageExtension :=
  let 'mkKeyUsage a _ c d e f g h i := k in mkKeyUsage a true c d e f g h i.
Definition cRLSign (k : KeyUsageExtension) : KeyUsageExtension :=
  let 'mkKeyUsage a b _ d e f g h i := k in mkKeyUsage a b true d e f g h i.
Definition keyCertSign (k : KeyUsageExtension) : KeyUsageExtension :=
  let 'mkKeyUsage a b c _ e f g h i := k in mkKeyUsage a b c true e f g h i.
Definition keyAgreement (k : KeyUsageExtension) : KeyUsageExtension :=
  let 'mkKeyUsage a b c d _ f g h i := k in mkKeyUsage a b c d true f g h i.
Definition dataEncipherment (k : KeyUsageExtension) : KeyUsageExtension :=
  let 'mkKeyUsage a b c d e _ g h i := k in mkKeyUsage a b c d e true g h i.
Definition keyEncipherment (k : KeyUsageExtension) : KeyUsageExtension :=
  let 'mkKeyUsage a b c d e f _ h i := k in mkKeyUsage a b c d e f true h i.
Definition nonRepudiation (k : KeyUsageExtension) : KeyUsageExtension :=
  let 'mkKeyUsage a b c d e f g _ i := k in mkKeyUsage a b c d e f g true i.
Definition digitalSignature (k : KeyUsageExtension) : KeyUsageExtension :=
  let 'mkKeyUsage a b c d e f g h _ := k in mkKeyUsage a b c d e f g h true.
End KeyUsageBuilder.

(** The flags with their names, in the order of the text. *)
Definition KeyUsage_string (k : KeyUsageExtension) : bytes :=
  let add (flag : bool) (name : bytes) := if flag then name else [] in
  str "critical" ++
  add (_decipherOnly k) (str ",decipherOnly") ++
  add (_encipherOnly k) (str ",encipherOnly") ++
  add (_cRLSign k) (str ",cRLSign") ++
  add (_keyCertSign k) (str ",keyCertSign") ++
  add (_keyAgreement k) (str ",keyAgreement") ++
  add (_dataEncipherment k) (str ",dataEncipherment") ++
  add (_keyEncipherment k) (str ",keyEncipherment") ++
  add (_nonRepudiation k) (str ",nonRepudiation") ++
  add (_digitalSignature k) (str ",digitalSignature").

#[export] Instance KeyUsage_base : ExtensionBase KeyUsageExtension := {
  getConfigurationString := KeyUsage_string;
  getNid := λ _, ExtensionNid.KeyUsage;
}.

Definition KeyUsage_makeTuple (k : KeyUsageExtension) : list bool :=
  [_decipherOnly k; _encipherOnly k; _cRLSign k; _keyCertSign k; _keyAgreement k;
   _dataEncipherment k; _keyEncipherment k; _nonRepudiation k; _digitalSignature k].
Definition KeyUsage_eq (a b : KeyUsageExtension) : bool :=
  bool_decide (KeyUsage_makeTuple a = KeyUsage_makeTuple b).

(** ** [SubjectKeyIdentifierExtension] *)

Inductive SubjectKeyIdentifierExtension := subjectKeyIdentifier.

#[export] Instance SubjectKeyIdentifier_base : ExtensionBase SubjectKeyIdentifierExtension := {
  getConfigurationString := λ _, str "hash";
  getNid := λ _, ExtensionNid.SubjectKeyIdentifier;
}.

(** ** Pointers to extensions

    [std::shared_ptr<ExtensionBase>]: the objects are immutable, so a pointer is the
    object.  A dynamic cast tells [BasicConstraintsExtension] from the others. *)
Inductive ExtensionPtr :=
| to_basic_constraints (e : BasicConstraintsExtension)
| to_extension {T : Type} (base : ExtensionBase T) (e : T).

Definition ptr_string (p : ExtensionPtr) : bytes :=
  match p with
  | to_basic_constraints e => getConfigurationString e
  | to_extension base e => @getConfigurationString _ base e
  end.
Definition ptr_nid (p : ExtensionPtr) : X509Extension_NID :=
  match p with
  | to_basic_constraints e => getNid e
  | to_extension base e => @getNid _ base e
  end.
(** [std::dynamic_pointer_cast<BasicConstraintsExtension>] *)
Definition as_basic_constraints (p : ExtensionPtr) : option BasicConstraintsExtension :=
  match p with to_basic_constraints e => Some e | to_extension _ _ => None end.

(** [std::map<X509Extension_NID, ...>]: its elements in the order of their keys. *)
Abbreviation ExtensionMap := (list (X509Extension_NID * ExtensionPtr)).

(** [m[k] = v] *)
Fixpoint map_assign (k : X509Extension_NID) (v : ExtensionPtr) (m : ExtensionMap) :
    ExtensionMap :=
  match m with
  | [] => [(k, v)]
  | (k', v') :: m' =>
      if k <? k' then (k, v) :: m
      else if k =? k' then (k, v) :: m'
      else (k', v') :: map_assign k v m'
  end.

(** [m.find(k)] *)
Fixpoint map_find (k : X509Extension_NID) (m : ExtensionMap) : option ExtensionPtr :=
  match m with
  | [] => None
  | (k', v) :: m' => if k =? k' then Some v else map_find k m'
  end.

(** ** [CertificateSigningParameters] and its builder *)

Section SignParams.
Context {bio : BioAPI} {time : Asn1TimeAPI bio}.

(** The validity and the digest type have no initial value: [None] stands for the
    indeterminate value they have before the builder sets them. *)
Record CertificateSigningParameters := mkSignParams {
  _notBefore : option ASN1_TIME;
  _certificateValidity : option Z;
  _digestType : option DigestTypes;
  _extensions : ExtensionMap;
}.

Definition read_member {A} (member : option A) : outcome A :=
  match member with Some a => Val a | None => Throw UndefinedBehaviour end.

Definition certificateValidity (p : CertificateSigningParameters) : outcome Z :=
  read_member (_certificateValidity p).
Definition digestType (p : CertificateSigningParameters) : outcome DigestTypes :=
  read_member (_digestType p).
Definition extensionMap (p : CertificateSigningParameters) : ExtensionMap := _extensions p.

(** [clock] is what [std::chrono::system_clock::now] reads. *)
Definition notBeforeAsn1 (clock : Z) (p : CertificateSigningParameters) : outcome ASN1_TIME :=
  match _notBefore p with
  | Some t => Val t
  | None => let? now := Asn1Time.now clock in Asn1Time.minus now 1
  end.

Definition extension (nid : X509Extension_NID) (p : CertificateSigningParameters) :
    outcome ExtensionPtr :=
  match map_find nid (_extensions p) with
  | None => Throw (MoCOCrWException
      [Str "Extension type was not added to CertificateSigningParameters"])
  | Some e => Val e
  end.

(** [extension<BasicConstraintsExtension>()]: a null pointer when the object under
    the identifier is of another class. *)
Definition basic_constraints_extension (p : CertificateSigningParameters) :
    outcome (option BasicConstraintsExtension) :=
  let? e := extension ExtensionNid.BasicConstraints p in Val (as_basic_constraints e).

(** [operator==], for parameters whose extension objects are at the addresses [a] and [b],
    in the order of the map: the tuples are compared member by member up to the first
    difference, the map by its keys and its pointers. *)
Definition notBefore_eq (t t' : option ASN1_TIME) : outcome bool :=
  match t, t' with
  | Some t, Some t' => Asn1Time.eq t t'
  | None, None => Val true
  | _, _ => Val false
  end.
Definition SignParams_eq (a b : list Z) (p q : CertificateSigningParameters) : outcome bool :=
  let? v := certificateValidity p in
  let? w := certificateValidity q in
  if negb (v =? w) then Val false else
  let? same := notBefore_eq (_notBefore p) (_notBefore q) in
  if negb same then Val false else
  let? d := digestType p in
  let? e := digestType q in
  if negb (bool_decide (d = e)) then Val false else
  Val (bool_decide (zip (extensionMap p).*1 a = zip (extensionMap q).*1 b)).
Definition SignParams_neq (a b : list Z) (p q : CertificateSigningParameters) : outcome bool :=
  let? same := SignParams_eq a b p q in Val (negb same).
End SignParams.

Arguments mkSignParams {bio time}.
Arguments _notBefore {bio time}.
Arguments _certificateValidity {bio time}.
Arguments _digestType {bio time}.
Arguments _extensions {bio time}.

Module SignParamsBuilder.
Section SignParamsBuilder.
Context {bio : BioAPI} {time : Asn1TimeAPI bio}.

Definition new : CertificateSigningParameters := mkSignParams None None None [].
Definition certificateValidity (v : Z) (p : CertificateSigningParameters) :=
  mkSignParams (_notBefore p) (Some v) (_digestType p) (_extensions p).
Definition notBeforeAsn1 (t : ASN1_TIME) (p : CertificateSigningParameters) :=
  mkSignParams (Some t) (_certificateValidity p) (_digestType p) (_extensions p).
Definition digestType (d : DigestTypes) (p : CertificateSigningParameters) :=
  mkSignParams (_notBefore p) (_certificateValidity p) (Some d) (_extensions p).
(** both overloads *)
Definition addExtension (e : ExtensionPtr) (p : CertificateSigningParameters) :=
  mkSignParams (_notBefore p) (_certificateValidity p) (_digestType p)
    (map_assign (ptr_nid e) e (_extensions p)).
End SignParamsBuilder.
End SignParamsBuilder.

(** ** The map of extensions *)

(** The keys increase, and each object is stored under its own identifier. *)
Definition map_ok (m : ExtensionMap) : Prop :=
  StronglySorted Z.lt m.*1 ∧ Forall (λ '(k, e), ptr_nid e = k) m.

Lemma map_assign_keys k v m k' : k' ∈ (map_assign k v m).*1 → k' = k ∨ k' ∈ m.*1.
Proof.
  induction m as [|[k1 v1] m IH]; cbn [map_assign].
  - cbn. rewrite list_elem_of_singleton. auto.
  - case_match; [|case_match]; cbn; rewrite !elem_of_cons; tauto.
Qed.

Lemma map_assign_sorted k v m :
  StronglySorted Z.lt m.*1 → StronglySorted Z.lt (map_assign k v m).*1.
Proof.
  induction m as [|[k' v'] m IH]; cbn [map_assign]; intros Hs.
  - repeat constructor.
  - cbn in Hs. apply StronglySorted_inv in Hs as [Hs Hall].
    destruct (Z.ltb_spec k k'); [|destruct (Z.eqb_spec k k') as [->|]]; cbn.
    + constructor; [by constructor|]. constructor; [lia|].
      eapply Forall_impl; [exact Hall|]. cbn. lia.
    + by constructor.
    + constructor; [by apply IH|]. apply Forall_forall. intros x Hx.
      apply map_assign_keys in Hx as [->|Hx]; [lia|].
      rewrite Forall_forall in Hall. by apply Hall.
Qed.

Lemma map_assign_ok e m : map_ok m → map_ok (map_assign (ptr_nid e) e m).
Proof.
  intros [Hs Hall]. split; [by apply map_assign_sorted|].
  clear Hs. induction m as [|[k' v'] m IH]; cbn [map_assign]; [by repeat constructor|].
  apply Forall_cons in Hall as [Hk Hall].
  case_match; [|case_match]; repeat constructor; auto.
Qed.

Lemma map_find_absent k m : k ∉ m.*1 → map_find k m = None.
Proof.
  induction m as [|[k' v'] m IH]; [done|]. cbn. rewrite not_elem_of_cons. intros [Hk Hm].
  destruct (Z.eqb_spec k k'); [done|auto].
Qed.

Lemma map_find_assign k k' v m : StronglySorted Z.lt m.*1 →
  map_find k (map_assign k' v m) = if k =? k' then Some v else map_find k m.
Proof.
  induction m as [|[k1 v1] m IH]; intros Hs; [done|]. cbn [map_assign].
  cbn in Hs. apply StronglySorted_inv in Hs as [Hs Hall].
  destruct (Z.ltb_spec k' k1); [done|].
  destruct (Z.eqb_spec k' k1) as [->|Hne]; cbn [map_find].
  - by destruct (Z.eqb_spec k k1).
  - rewrite IH by done. destruct (Z.eqb_spec k k1), (Z.eqb_spec k k'); congruence.
Qed.

Lemma map_find_nid k m e : map_ok m → map_find k m = Some e → ptr_nid e = k ∧ (k, e) ∈ m.
Proof.
  intros [_ Hall]. induction m as [|[k' v'] m IH]; [done|]. cbn.
  apply Forall_cons in Hall as [Hk Hall]. rewrite elem_of_cons.
  destruct (Z.eqb_spec k k') as [->|]; [intros [= <-]; auto|].
  intros H. destruct (IH Hall H). auto.
Qed.

Lemma sorted_nodup (l : list Z) : StronglySorted Z.lt l → NoDup l.
Proof.
  induction 1 as [|x l Hs IH Hall]; constructor; [|done].
  intros Hx. rewrite Forall_forall in Hall. specialize (Hall x Hx). lia.
Qed.

Lemma map_find_elem k m e : map_ok m → (k, e) ∈ m → map_find k m = Some e.
Proof.
  intros [Hs%sorted_nodup _]. induction m as [|[k' v'] m IH]; [by intros ?%elem_of_nil|].
  cbn in *. apply NoDup_cons in Hs as [Hk Hs]. intros [[= -> ->]|Hm]%elem_of_cons.
  { by rewrite Z.eqb_refl. }
  destruct (Z.eqb_spec k k') as [->|]; [|by apply IH].
  by destruct Hk; apply (list_elem_of_fmap_2 fst) in Hm.
Qed.

(** ** Properties *)

(** The comma-separated parts of a text. *)
Fixpoint tokens (s : bytes) : list bytes :=
  match s with
  | [] => [[]]
  | b :: s' =>
      if bool_decide (b = Byte.x2c) then [] :: tokens s'
      else match tokens s' with t :: l => (b :: t) :: l | [] => [[b]] end
  end.

(** The key usage that a text stands for: a flag is set when its name is a part. *)
Definition key_usage_of (s : bytes) : KeyUsageExtension :=
  let has name := bool_decide (str name ∈ tokens s) in
  mkKeyUsage (has "decipherOnly") (has "encipherOnly") (has "cRLSign") (has "keyCertSign")
    (has "keyAgreement") (has "dataEncipherment") (has "keyEncipherment") (has "nonRepudiation")
    (has "digitalSignature").

Lemma str_inj a b : str a = str b → a = b.
Proof.
  unfold str. intros H.
  by rewrite <-(String.string_of_list_byte_of_string a), H, String.string_of_list_byte_of_string.
Qed.

(** C18. The texts of the extensions determine them: reading the comma-separated flags
    of a key usage back gives the key usage, the text of the constraints of a CA
    determines its path length, all end entities have the same text, and
    [critical] is the first part of both. *)
Theorem extension_strings :
  (∀ k, key_usage_of (getConfigurationString k) = k) ∧
  (∀ a b : BasicConstraintsExtension, getConfigurationString a = getConfigurationString b ↔
     _ca a = _ca b ∧ (_ca a = true → _pathlength a = _pathlength b)) ∧
  (∀ k : KeyUsageExtension, head (tokens (getConfigurationString k)) = Some (str "critical")) ∧
  (∀ a : BasicConstraintsExtension,
     head (tokens (getConfigurationString a)) = Some (str "critical")).
Proof.
  split; [|split; [|split]].
  - intros [[] [] [] [] [] [] [] [] []]; vm_compute; reflexivity.
  - intros [[] p] [[] q]; cbn [getConfigurationString BasicConstraints_base BasicConstraints_string
      _ca _pathlength]; unfold BasicConstraints_string; cbn [_ca _pathlength]; split; try done.
    + intros H%(inj (app _)). split; [done|]. intros _. unfold decimal in H.
      apply str_inj in H. by apply (inj pretty) in H.
    + intros [_ Hp]. by rewrite Hp.
    + by intros [? _].
    + by intros [? _].
  - by intros [[] [] [] [] [] [] [] [] []].
  - by intros [[] p].
Qed.

Section Properties.
Context {bio : BioAPI} {time : Asn1TimeAPI bio}.

(** The calls on a builder, and the parameters that a sequence of them builds. *)
Inductive builder_call :=
| SetValidity (v : Z)
| SetNotBefore (t : ASN1_TIME)
| SetDigest (d : DigestTypes)
| AddExtension (e : ExtensionPtr).

Definition apply_call (p : CertificateSigningParameters) (c : builder_call) :
    CertificateSigningParameters :=
  match c with
  | SetValidity v => SignParamsBuilder.certificateValidity v p
  | SetNotBefore t => SignParamsBuilder.notBeforeAsn1 t p
  | SetDigest d => SignParamsBuilder.digestType d p
  | AddExtension e => SignParamsBuilder.addExtension e p
  end.
Definition build (calls : list builder_call) : CertificateSigningParameters :=
  foldl apply_call SignParamsBuilder.new calls.

(** What a call sets, if it sets this. *)
Definition sets_validity (c : builder_call) : option Z :=
  match c with SetValidity v => Some v | _ => None end.
Definition sets_notBefore (c : builder_call) : option ASN1_TIME :=
  match c with SetNotBefore t => Some t | _ => None end.
Definition sets_digest (c : builder_call) : option DigestTypes :=
  match c with SetDigest d => Some d | _ => None end.
Definition sets_extension (nid : X509Extension_NID) (c : builder_call) : option ExtensionPtr :=
  match c with
  | AddExtension e => if nid =? ptr_nid e then Some e else None
  | _ => None
  end.

(** The last call that sets something decides. *)
Definition last_set {A} (sets : builder_call → option A) (calls : list builder_call) : option A :=
  last (omap sets calls).

Lemma last_set_snoc {A} (sets : builder_call → option A) calls c :
  last_set sets (calls ++ [c]) =
  match sets c with Some x => Some x | None => last_set sets calls end.
Proof.
  unfold last_set. rewrite omap_app. cbn. destruct (sets c); [by rewrite last_snoc|by rewrite app_nil_r].
Qed.

Lemma build_members calls :
  let p := build calls in
  _certificateValidity p = last_set sets_validity calls ∧
  _notBefore p = last_set sets_notBefore calls ∧
  _digestType p = last_set sets_digest calls ∧
  map_ok (_extensions p) ∧
  ∀ nid, map_find nid (_extensions p) = last_set (sets_extension nid) calls.
Proof.
  induction calls as [|c calls IH] using rev_ind; [by repeat constructor|].
  destruct IH as (Hv & Hn & Hd & Hok & Hf). unfold build. rewrite foldl_snoc.
  change (foldl apply_call SignParamsBuilder.new calls) with (build calls).
  cbn zeta. rewrite !last_set_snoc. destruct c; cbn -[last_set]; (split_and!; [done..| |]);
    try exact Hok; try (intros nid; rewrite last_set_snoc; apply Hf).
  - by apply map_assign_ok.
  - intros nid. rewrite last_set_snoc, map_find_assign by apply Hok. cbn.
    by destruct (nid =? ptr_nid e).
Qed.

(** C17. The parameters that the builder makes, by any sequence of its calls: validity,
    digest type and notBefore are what the last call that sets them set, whatever calls
    come between or after; a validity or a digest type that no call set is read
    uninitialised, which is undefined, and without a notBefore the parameters say one
    second before the clock.  The extension of an identifier is the one added last
    under it, or an exception if none was; and the map holds exactly these extensions,
    each under its own identifier, at most one for each, in the order of the
    identifiers. *)
Theorem params_invariant (calls : list builder_call) (clock : Z) :
  let p := build calls in
  certificateValidity p =
    match last_set sets_validity calls with Some v => Val v | None => Throw UndefinedBehaviour end ∧
  digestType p =
    match last_set sets_digest calls with Some d => Val d | None => Throw UndefinedBehaviour end ∧
  notBeforeAsn1 clock p =
    match last_set sets_notBefore calls with
    | Some t => Val t
    | None => let? now := Asn1Time.now clock in Asn1Time.minus now 1
    end ∧
  (∀ nid, extension nid p =
    match last_set (sets_extension nid) calls with
    | Some e => Val e
    | None => Throw (MoCOCrWException
        [Str "Extension type was not added to CertificateSigningParameters"])
    end) ∧
  (∀ nid e, (nid, e) ∈ extensionMap p ↔ last_set (sets_extension nid) calls = Some e) ∧
  (∀ nid e, (nid, e) ∈ extensionMap p → ptr_nid e = nid) ∧
  NoDup (extensionMap p).*1 ∧ StronglySorted Z.lt (extensionMap p).*1.
Proof.
  cbn zeta. destruct (build_members calls) as (Hv & Hn & Hd & Hok & Hf).
  unfold certificateValidity, digestType, notBeforeAsn1, extension, extensionMap, read_member.
  rewrite Hv, Hn, Hd. split_and!; try done.
  - intros nid. rewrite Hf. by destruct (last_set _ calls).
  - intros nid e. rewrite <-Hf. split; [by apply map_find_elem|by apply map_find_nid].
  - destruct Hok as [_ Hall]. intros nid e He. rewrite Forall_forall in Hall. exact (Hall _ He).
  - by apply sorted_nodup, Hok.
  - apply Hok.
Qed.
End Properties.

(** ** Comparing parameters *)

Section SignParamsEq.
Context {bio : BioAPI} {time : Asn1TimeAPI bio}.

Lemma zip_fst_inj {A B} (ks : list A) (a b : list B) :
  length a = length ks → length b = length ks → zip ks a = zip ks b → a = b.
Proof.
  revert a b. induction ks as [|k ks IH]; intros [|x a] [|y b]; cbn; try done.
  intros [= Ha] [= Hb] [= -> H]. f_equal. by apply IH.
Qed.

(** A copy refers to the objects of the original, and is equal to it; parameters with
    objects of their own are not equal to it, whatever these are. *)
Lemma SignParams_eq_spec a b (p : CertificateSigningParameters) v d :
  _certificateValidity p = Some v → _digestType p = Some d →
  (∀ t, _notBefore p = Some t → Asn1Time.eq t t = Val true) →
  length a = length (extensionMap p) → length b = length (extensionMap p) →
  SignParams_eq a b p p = Val (bool_decide (a = b)).
Proof.
  intros Hv Hd Ht Ha Hb. unfold SignParams_eq, certificateValidity, digestType.
  rewrite Hv, Hd. cbn. rewrite Z.eqb_refl. cbn.
  assert (notBefore_eq (_notBefore p) (_notBefore p) = Val true) as ->.
  { unfold notBefore_eq. destruct (_notBefore p); [by apply Ht|done]. }
  cbn. rewrite bool_decide_true by done. cbn. f_equal. apply bool_decide_ext. split; [|by intros ->].
  apply zip_fst_inj; by rewrite length_fmap.
Qed.
End SignParamsEq.
