(* ===== verification/X509.v ===== *)
(** * Certificates: [src/src/x509.cpp], [src/src/mococrw/x509.h] and the X509 functions
      of [src/src/openssl_wrap.cpp]

    A certificate is the X509 object it points to: nothing changes the object once
    an [X509Certificate] was made of it.  [fuel] bounds the loops that read a BIO
    or take a text apart. *)

From S2P Require Import Prelude CheckCall Util SymmetricCrypto OpenSSLWrap Hash Bio Key Pem Asn1Time.
From S2P Require Import DistinguishedName Padding AsymmetricCtx Extensions.

(** ** The OpenSSL functions

    Setters give the changed object.  A STORE_CTX holds its store, its stacks and
    its parameters; the pointer that [get0_param] gives is into the context. *)
Class X509API {bio : BioAPI} {evp : EvpCipherAPI} {md : EvpMdAPI} {dig : EvpDigestAPI md}
    {pkey : EvpPkeyAPI bio evp} {asym : AsymmetricAPI dig pkey} {name : X509NameAPI bio}
    {time : Asn1TimeAPI bio} := {
  X509 : Type;
  X509_CRL : Type;
  X509_EXTENSION : Type;
  SSL_X509_new : option X509;
  SSL_PEM_read_bio_X509 : M BIO (option X509);
  SSL_d2i_X509_bio : M BIO (option X509);
  SSL_PEM_write_bio_X509 (x : X509) : M BIO (Z * ());
  SSL_i2d_X509_bio (x : X509) : M BIO (Z * ());
  (** getters *)
  SSL_X509_get_subject_name (x : X509) : option X509_NAME;
  SSL_X509_get_issuer_name (x : X509) : option X509_NAME;
  SSL_X509_get_notBefore (x : X509) : option ASN1_TIME;
  SSL_X509_get_notAfter (x : X509) : option ASN1_TIME;
  SSL_X509_get_pubkey (x : X509) : option EVP_PKEY;
  SSL_X509_check_ca (x : X509) : Z;
  (** setters *)
  SSL_X509_set_subject_name (n : X509_NAME) (x : X509) : Z * X509;
  SSL_X509_set_issuer_name (n : X509_NAME) (x : X509) : Z * X509;
  SSL_X509_set_pubkey (k : EVP_PKEY) (x : X509) : Z * X509;
  SSL_X509_set_notBefore (t : ASN1_TIME) (x : X509) : Z * X509;
  SSL_X509_set_notAfter (t : ASN1_TIME) (x : X509) : Z * X509;
  SSL_X509_set_version (v : Z) (x : X509) : Z * X509;
  (** extension of a certificate: identifier and configuration string *)
  SSL_X509V3_EXT_conf_nid (subject : X509) (nid : Z) (value : bytes) : option X509_EXTENSION;
  SSL_X509_add_ext (e : X509_EXTENSION) (loc : Z) (x : X509) : Z * X509;
  SSL_X509_sign (k : EVP_PKEY) (m : EVP_MD) (x : X509) : M ENTROPY (Z * X509);
  (** serial numbers *)
  ASN1_INTEGER : Type;
  SSL_ASN1_INTEGER_new : option ASN1_INTEGER;
  SSL_ASN1_INTEGER_set (v : Z) (i : ASN1_INTEGER) : Z * ASN1_INTEGER;
  SSL_ASN1_INTEGER_cmp (a b : ASN1_INTEGER) : Z;
  SSL_ASN1_INTEGER_get (i : ASN1_INTEGER) : Z;
  SSL_ASN1_INTEGER_to_BN (i : ASN1_INTEGER) : option BIGNUM;
  SSL_BN_bn2dec (n : BIGNUM) : option bytes;
  SSL_BN_num_bytes (n : BIGNUM) : Z;
  SSL_BN_bn2bin (n : BIGNUM) : Z * bytes;
  SSL_X509_get_serialNumber (x : X509) : option ASN1_INTEGER;
  SSL_X509_set_serialNumber (i : ASN1_INTEGER) (x : X509) : Z * X509;
  (** verification *)
  X509_STORE : Type;
  STACK_OF_X509 : Type;
  STACK_OF_CRL : Type;
  X509_STORE_CTX : Type;
  SSL_X509_STORE_new : option X509_STORE;
  SSL_X509_STORE_add_cert (x : X509) (s : X509_STORE) : Z * X509_STORE;
  SSL_sk_X509_new_null : option STACK_OF_X509;
  SSL_sk_X509_push (x : X509) (s : STACK_OF_X509) : Z * STACK_OF_X509;
  SSL_sk_X509_CRL_new_null : option STACK_OF_CRL;
  SSL_sk_X509_CRL_push (c : X509_CRL) (s : STACK_OF_CRL) : Z * STACK_OF_CRL;
  SSL_X509_STORE_CTX_new : option X509_STORE_CTX;
  SSL_X509_STORE_CTX_init (store : X509_STORE) (x : X509) (chain : STACK_OF_X509)
    (c : X509_STORE_CTX) : Z * X509_STORE_CTX;
  SSL_X509_STORE_CTX_get0_param (c : X509_STORE_CTX) : option ();
  SSL_X509_VERIFY_PARAM_set_flags (flags : Z) (c : X509_STORE_CTX) : Z * X509_STORE_CTX;
  SSL_X509_STORE_CTX_set_time (flags t : Z) (c : X509_STORE_CTX) : X509_STORE_CTX;
  SSL_X509_STORE_CTX_set0_crls (s : STACK_OF_CRL) (c : X509_STORE_CTX) : X509_STORE_CTX;
  SSL_X509_verify_cert (c : X509_STORE_CTX) : Z;
  SSL_X509_verify_cert_error_string (c : X509_STORE_CTX) : bytes;
}.
Arguments X509API {bio evp md dig pkey} asym name time.

Section Wrappers.
Context {bio : BioAPI} {evp : EvpCipherAPI} {md : EvpMdAPI} {dig : EvpDigestAPI md}.
Context {pkey : EvpPkeyAPI bio evp} {asym : AsymmetricAPI dig pkey}.
Context {name : X509NameAPI bio} {time : Asn1TimeAPI bio} {api : X509API asym name time}.

(** ** The wrappers *)

Definition X509_create : outcome X509 := run_pure (OpensslCallPtr (ret SSL_X509_new)).
Definition _PEM_read_bio_X509 : M BIO X509 := OpensslCallPtr SSL_PEM_read_bio_X509.
Definition _d2i_X509_bio : M BIO X509 := OpensslCallPtr SSL_d2i_X509_bio.
Definition _PEM_write_bio_X509 (x : X509) : M BIO () :=
  OpensslCallIsOne (SSL_PEM_write_bio_X509 x).
Definition _i2d_X509_bio (x : X509) : M BIO () := OpensslCallIsOne (SSL_i2d_X509_bio x).

Definition _X509_get_subject_name (x : X509) : outcome X509_NAME :=
  run_pure (OpensslCallPtr (ret (SSL_X509_get_subject_name x))).
Definition _X509_get_issuer_name (x : X509) : outcome X509_NAME :=
  run_pure (OpensslCallPtr (ret (SSL_X509_get_issuer_name x))).
Definition _X509_get_notBefore_ASN1 (x : X509) : outcome ASN1_TIME :=
  run_pure (OpensslCallPtr (ret (SSL_X509_get_notBefore x))).
Definition _X509_get_notAfter_ASN1 (x : X509) : outcome ASN1_TIME :=
  run_pure (OpensslCallPtr (ret (SSL_X509_get_notAfter x))).
Definition _X509_get_notBefore (x : X509) : outcome Z :=
  let? asn1time := _X509_get_notBefore_ASN1 x in _asn1TimeToTimePoint asn1time.
Definition _X509_get_notAfter (x : X509) : outcome Z :=
  let? asn1time := _X509_get_notAfter_ASN1 x in _asn1TimeToTimePoint asn1time.
Definition _X509_get_pubkey (x : X509) : outcome EVP_PKEY :=
  run_pure (OpensslCallPtr (ret (SSL_X509_get_pubkey x))).
(** the conversion of an [int] to [bool] *)
Definition _X509_check_ca (x : X509) : bool := negb (SSL_X509_check_ca x =? 0).

Definition _X509_set_subject_name (n : X509_NAME) (x : X509) : outcome X509 :=
  run_pure (OpensslCallIsOne (ret (SSL_X509_set_subject_name n x))).
Definition _X509_set_issuer_name (n : X509_NAME) (x : X509) : outcome X509 :=
  run_pure (OpensslCallIsOne (ret (SSL_X509_set_issuer_name n x))).
Definition _X509_set_pubkey (k : EVP_PKEY) (x : X509) : outcome X509 :=
  run_pure (OpensslCallIsOne (ret (SSL_X509_set_pubkey k x))).
Definition _X509_set_notBefore_ASN1 (t : ASN1_TIME) (x : X509) : outcome X509 :=
  run_pure (OpensslCallIsOne (ret (SSL_X509_set_notBefore t x))).
Definition _X509_set_notAfter_ASN1 (t : ASN1_TIME) (x : X509) : outcome X509 :=
  run_pure (OpensslCallIsOne (ret (SSL_X509_set_notAfter t x))).
Definition _X509_set_notBefore (t : Z) (x : X509) : outcome X509 :=
  let? asn1time := _ASN1_TIME_from_time_t (to_time_t t) in _X509_set_notBefore_ASN1 asn1time x.
Definition _X509_set_notAfter (t : Z) (x : X509) : outcome X509 :=
  let? asn1time := _ASN1_TIME_from_time_t (to_time_t t) in _X509_set_notAfter_ASN1 asn1time x.
Definition _X509_sign (k : EVP_PKEY) (type : DigestTypes) (x : X509) : M ENTROPY X509 :=
  let! dt := lift (_getMDPtrFromDigestType type) in OpensslCallIsPositive (SSL_X509_sign k dt x).
(** [X509V3_CTX] with the certificate as its subject and no issuer. *)
Definition _X509V3_EXT_conf_nid (ctx : X509) (ext_nid : Z) (value : bytes) :
    outcome X509_EXTENSION :=
  run_pure (OpensslCallPtr (ret (SSL_X509V3_EXT_conf_nid ctx ext_nid (c_str value)))).
Definition _X509_add_ext (e : X509_EXTENSION) (x : X509) : outcome X509 :=
  run_pure (OpensslCallIsOne (ret (SSL_X509_add_ext e (-1) x))).

(** [ExtensionBase::buildExtension] *)
Definition buildExtension (e : ExtensionPtr) (context : X509) : outcome X509_EXTENSION :=
  _X509V3_EXT_conf_nid context (ptr_nid e) (ptr_string e).

(** *** Serial numbers *)

Definition ASN1_INTEGER_create : outcome ASN1_INTEGER :=
  run_pure (OpensslCallPtr (ret SSL_ASN1_INTEGER_new)).

Definition Asn1IntegerToInt64 (number : ASN1_INTEGER) : outcome Z :=
  let? maxLong := ASN1_INTEGER_create in
  let? zero := ASN1_INTEGER_create in
  let? zero := run_pure (OpensslCallIsOne (ret (SSL_ASN1_INTEGER_set 0 zero))) in
  let? maxLong := run_pure (OpensslCallIsOne (ret (SSL_ASN1_INTEGER_set LONG_MAX maxLong))) in
  if (0 <? SSL_ASN1_INTEGER_cmp number maxLong) || (SSL_ASN1_INTEGER_cmp number zero <? 0) then
    Throw (OpenSSLException [Str "Number is out of the accepted range."])
  else Val (to_size_t (SSL_ASN1_INTEGER_get number)).

Definition Asn1IntegerToString (number : ASN1_INTEGER) : outcome bytes :=
  let? bnNumber := run_pure (OpensslCallPtr (ret (SSL_ASN1_INTEGER_to_BN number))) in
  run_pure (OpensslCallPtr (ret (SSL_BN_bn2dec bnNumber))).

Definition Asn1IntegerToBinary (number : ASN1_INTEGER) : outcome bytes :=
  let? bnNumber := run_pure (OpensslCallPtr (ret (SSL_ASN1_INTEGER_to_BN number))) in
  let n := SSL_BN_num_bytes bnNumber in
  let? n := run_pure (OpensslCallIsPositive (ret (n, n))) in
  let '(rv, out) := SSL_BN_bn2bin bnNumber in
  let? size := run_pure (OpensslCallIsPositive (ret (rv, rv))) in
  let? serialNumber := write_buffer (zeros n) out in
  Val (resize size serialNumber).

Definition _X509_get_serialNumber (x : X509) : outcome Z :=
  let? serialNumber := run_pure (OpensslCallPtr (ret (SSL_X509_get_serialNumber x))) in
  Asn1IntegerToInt64 serialNumber.
Definition _X509_get_serialNumber_dec (x : X509) : outcome bytes :=
  let? serialNumber := run_pure (OpensslCallPtr (ret (SSL_X509_get_serialNumber x))) in
  Asn1IntegerToString serialNumber.
Definition _X509_get_serialNumber_bin (x : X509) : outcome bytes :=
  let? serialNumber := run_pure (OpensslCallPtr (ret (SSL_X509_get_serialNumber x))) in
  Asn1IntegerToBinary serialNumber.

Definition _X509_set_serialNumber (serial : Z) (x : X509) : outcome X509 :=
  if LONG_MAX <? serial then
    Throw (OpenSSLException [Str "Serial number is out of the accepted range."])
  else
    let? asn1Serial := ASN1_INTEGER_create in
    let? asn1Serial :=
      run_pure (OpensslCallIsPositive (ret (SSL_ASN1_INTEGER_set (to_int64 serial) asn1Serial))) in
    run_pure (OpensslCallIsPositive (ret (SSL_X509_set_serialNumber asn1Serial x))).

(** *** Verification *)

Definition X509_STORE_create : outcome X509_STORE :=
  run_pure (OpensslCallPtr (ret SSL_X509_STORE_new)).
Definition X509_STORE_CTX_create : outcome X509_STORE_CTX :=
  run_pure (OpensslCallPtr (ret SSL_X509_STORE_CTX_new)).
Definition STACK_OF_X509_create : outcome STACK_OF_X509 :=
  run_pure (OpensslCallPtr (ret SSL_sk_X509_new_null)).
Definition STACK_OF_CRL_create : outcome STACK_OF_CRL :=
  run_pure (OpensslCallPtr (ret SSL_sk_X509_CRL_new_null)).
Definition addX509ToStack (stack : STACK_OF_X509) (obj : X509) : outcome STACK_OF_X509 :=
  run_pure (OpensslCallIsPositive (ret (SSL_sk_X509_push obj stack))).
Definition addCrlToStack (stack : STACK_OF_CRL) (obj : X509_CRL) : outcome STACK_OF_CRL :=
  run_pure (OpensslCallIsPositive (ret (SSL_sk_X509_CRL_push obj stack))).

(** A loop over a container that changes an object. *)
Fixpoint ofold {A S} (f : S → A → outcome S) (s : S) (l : list A) : outcome S :=
  match l with [] => Val s | x :: l' => let? s' := f s x in ofold f s' l' end.

(** [utility::buildStackFromContainer], for both kinds of stacks *)
Definition buildStackFromContainer {S A} (create : outcome S) (add : S → A → outcome S)
    (cnt : list A) : outcome S :=
  let? stack := create in ofold add stack cnt.

Definition _X509_STORE_add_cert (store : X509_STORE) (cert : X509) : outcome X509_STORE :=
  run_pure (OpensslCallIsOne (ret (SSL_X509_STORE_add_cert cert store))).
Definition _X509_STORE_CTX_init (store : X509_STORE) (x509 : X509) (chain : STACK_OF_X509)
    (ctx : X509_STORE_CTX) : outcome X509_STORE_CTX :=
  run_pure (OpensslCallIsOne (ret (SSL_X509_STORE_CTX_init store x509 chain ctx))).
Definition _X509_STORE_CTX_get0_param (ctx : X509_STORE_CTX) : outcome () :=
  run_pure (OpensslCallPtr (ret (SSL_X509_STORE_CTX_get0_param ctx))).
Definition _X509_VERIFY_PARAM_set_flags (flags : Z) (ctx : X509_STORE_CTX) :
    outcome X509_STORE_CTX :=
  run_pure (OpensslCallIsOne (ret (SSL_X509_VERIFY_PARAM_set_flags flags ctx))).
Definition _X509_STORE_CTX_set_time (t : Z) (ctx : X509_STORE_CTX) : X509_STORE_CTX :=
  SSL_X509_STORE_CTX_set_time 0 t ctx.
Definition _X509_STORE_CTX_set0_crls (crls : STACK_OF_CRL) (ctx : X509_STORE_CTX) :
    X509_STORE_CTX := SSL_X509_STORE_CTX_set0_crls crls ctx.

Definition _X509_verify_cert (ctx : X509_STORE_CTX) : outcome () :=
  if negb (SSL_X509_verify_cert ctx =? 1) then
    Throw (OpenSSLException [Raw (SSL_X509_verify_cert_error_string ctx)])
  else Val ().
End Wrappers.

(** The values of [class X509VerificationFlags], from OpenSSL's headers. *)
Definition PARTIAL_CHAIN : Z := 524288.
Definition CRL_CHECK_ALL : Z := 8.
Definition CRL_CHECK : Z := 4.
Definition USE_CHECK_TIME : Z := 2.

(** ** Class [X509Certificate::VerificationContext] *)

Record VerificationContext {X C : Type} := mkVerification {
  _trustedCerts : list X;
  _intermediateCerts : list X;
  _crls : list C;
  _enforceSelfSignedRootCertificate : bool;
  _enforceCrlForWholeChain : bool;
  _verificationCheckTime : option Z;
}.
Arguments VerificationContext : clear implicits.
Arguments mkVerification {X C}.

Module Verification.
Section Verification.
Context {bio : BioAPI} {time : Asn1TimeAPI bio} {X C : Type}.
Implicit Types c : VerificationContext X C.

Definition new : VerificationContext X C := mkVerification [] [] [] false false None.
Definition addTrustedCertificates (l : list X) c :=
  let 'mkVerification t i r s w k := c in mkVerification (t ++ l) i r s w k.
Definition addTrustedCertificate (x : X) c := addTrustedCertificates [x] c.
Definition addIntermediateCertificates (l : list X) c :=
  let 'mkVerification t i r s w k := c in mkVerification t (i ++ l) r s w k.
Definition addIntermediateCertificate (x : X) c := addIntermediateCertificates [x] c.
Definition addCertificateRevocationLists (l : list C) c :=
  let 'mkVerification t i r s w k := c in mkVerification t i (r ++ l) s w k.
Definition addCertificateRevocationList (x : C) c := addCertificateRevocationLists [x] c.
Definition enforceSelfSignedRootCertificate c :=
  let 'mkVerification t i r _ w k := c in mkVerification t i r true w k.
Definition enforceCrlsForAllCAs c :=
  let 'mkVerification t i r s _ k := c in mkVerification t i r s true k.

Definition setVerificationCheckTime (checkTime : ASN1_TIME) c : outcome (VerificationContext X C) :=
  let 'mkVerification t i r s w _ := c in
  let? k := as_mococrw (Asn1Time.toTimeT checkTime) in
  Val (mkVerification t i r s w (Some k)).

Definition validityCheck c : outcome () :=
  if _enforceCrlForWholeChain c && negb (_enforceSelfSignedRootCertificate c) then
    Throw (MoCOCrWException
      [Str "OpenSSL doesn't support CRL check for all CAs when the trustedcertificate isn't self signed"])
  else if _enforceCrlForWholeChain c && bool_decide (length (_crls c) = 0%nat) then
    Throw (MoCOCrWException
      [Str "CRL check for all certificates requested, but no CRLs present"])
  else Val ().

(** The flags that [X509Certificate::verify] computes. *)
Definition flags c : Z :=
  let flags := 0 in
  let flags := if negb (_enforceSelfSignedRootCertificate c) then Z.lor flags PARTIAL_CHAIN
               else flags in
  let flags := if negb (bool_decide (length (_crls c) = 0%nat)) || _enforceCrlForWholeChain c
               then Z.lor flags CRL_CHECK else flags in
  let flags := if _enforceCrlForWholeChain c then Z.lor flags CRL_CHECK_ALL else flags in
  match _verificationCheckTime c with
  | Some _ => Z.lor flags USE_CHECK_TIME
  | None => flags
  end.
End Verification.
End Verification.

(** ** Class [X509Certificate] *)

Module X509Certificate.
Section X509Certificate.
Context {bio : BioAPI} {evp : EvpCipherAPI} {md : EvpMdAPI} {dig : EvpDigestAPI md}.
Context {pkey : EvpPkeyAPI bio evp} {asym : AsymmetricAPI dig pkey}.
Context {name : X509NameAPI bio} {time : Asn1TimeAPI bio} {api : X509API asym name time}.

Definition fromPEM (fuel : nat) (pem : bytes) : outcome X509 :=
  let? formattedPem := reformatPEMCertificate fuel pem in
  with_bio (write_string formattedPem ;; _PEM_read_bio_X509).

(** [content] is what the [std::ifstream] read, when opening, reading and closing the
    file did not fail. *)
Definition fromPEMFile (fuel : nat) (content : option bytes) (filename : bytes) : outcome X509 :=
  match content with
  | Some pem => fromPEM fuel pem
  | None => let? bio := FileBio_new filename READ TEXT in (_PEM_read_bio_X509 bio).1
  end.

Definition fromDER (derData : bytes) : outcome X509 :=
  with_bio (write_vector derData ;; _d2i_X509_bio).
Definition fromDERFile (filename : bytes) : outcome X509 :=
  let? bio := FileBio_new filename READ BINARY in (_d2i_X509_bio bio).1.
Definition toPEM (fuel : nat) (x : X509) : outcome bytes :=
  with_bio (_PEM_write_bio_X509 x ;; flushToString fuel).
Definition toDER (fuel : nat) (x : X509) : outcome bytes :=
  with_bio (_i2d_X509_bio x ;; flushToVector fuel).

Definition getSubjectDistinguishedName (fuel : nat) (x : X509) : outcome DistinguishedName :=
  let? x509NamePtr := _X509_get_subject_name x in fromX509Name fuel x509NamePtr.
Definition getIssuerDistinguishedName (fuel : nat) (x : X509) : outcome DistinguishedName :=
  let? x509NamePtr := _X509_get_issuer_name x in fromX509Name fuel x509NamePtr.
Definition getPublicKey (x : X509) : outcome EVP_PKEY := _X509_get_pubkey x.
Definition isCA (x : X509) : bool := _X509_check_ca x.
Definition getNotBefore (x : X509) : outcome Z := _X509_get_notBefore x.
Definition getNotAfter (x : X509) : outcome Z := _X509_get_notAfter x.
Definition getNotBeforeAsn1 (x : X509) : outcome ASN1_TIME :=
  let? t := _X509_get_notBefore_ASN1 x in Asn1Time.copy t.
Definition getNotAfterAsn1 (x : X509) : outcome ASN1_TIME :=
  let? t := _X509_get_notAfter_ASN1 x in Asn1Time.copy t.
Definition getSerialNumber (x : X509) : outcome Z := _X509_get_serialNumber x.
Definition getSerialNumberDecimal (x : X509) : outcome bytes := _X509_get_serialNumber_dec x.
Definition getSerialNumberBinary (x : X509) : outcome bytes := _X509_get_serialNumber_bin x.

(** [verify(const VerificationContext &)] *)
Definition verify (x : X509) (ctx : VerificationContext X509 X509_CRL) : outcome () :=
  let? _ := Verification.validityCheck ctx in
  let? caStore := X509_STORE_create in
  let? caStore := ofold _X509_STORE_add_cert caStore (_trustedCerts ctx) in
  let? intermediateStack :=
    buildStackFromContainer STACK_OF_X509_create addX509ToStack (_intermediateCerts ctx) in
  let? verifyCtx := X509_STORE_CTX_create in
  let? verifyCtx := _X509_STORE_CTX_init caStore x intermediateStack verifyCtx in
  let? param := _X509_STORE_CTX_get0_param verifyCtx in
  let verifyCtx := match _verificationCheckTime ctx with
                   | Some t => _X509_STORE_CTX_set_time t verifyCtx
                   | None => verifyCtx
                   end in
  let? verifyCtx := _X509_VERIFY_PARAM_set_flags (Verification.flags ctx) verifyCtx in
  let? verifyCtx :=
    match _crls ctx with
    | [] => Val verifyCtx
    | _ =>
        let? crlStack := buildStackFromContainer STACK_OF_CRL_create addCrlToStack (_crls ctx) in
        Val (_X509_STORE_CTX_set0_crls crlStack verifyCtx)
    end in
  as_mococrw (_X509_verify_cert verifyCtx).

(** [verify(trustStore, intermediateCAs)] *)
Definition verify_with (x : X509) (trustStore intermediateCAs : list X509) : outcome () :=
  verify x (Verification.addIntermediateCertificates intermediateCAs
             (Verification.addTrustedCertificates trustStore Verification.new)).
End X509Certificate.
End X509Certificate.

(** A loop that builds a list of results. *)
Fixpoint omap {A B} (f : A → outcome B) (l : list A) : outcome (list B) :=
  match l with
  | [] => Val []
  | x :: l' => let? y := f x in let? k := omap f l' in Val (y :: k)
  end.

Section LoadPEMChain.
Context {bio : BioAPI} {evp : EvpCipherAPI} {md : EvpMdAPI} {dig : EvpDigestAPI md}.
Context {pkey : EvpPkeyAPI bio evp} {asym : AsymmetricAPI dig pkey}.
Context {name : X509NameAPI bio} {time : Asn1TimeAPI bio} {api : X509API asym name time}.

(** [util::loadPEMChain] *)
Definition loadPEMChain (fuel : nat) (pemChain : bytes) : outcome (list X509) :=
  let? pemList := splitPEMChain fuel pemChain BEGIN_CERTIFICATE END_CERTIFICATE in
  omap (X509Certificate.fromPEM fuel) pemList.
End LoadPEMChain.
