(* ===== verification/Objects.v ===== *)
(** * The public classes over their implementation objects

    The members of the classes that own an [_impl]: in
    [src/src/asymmetric_crypto_ctx.cpp], [src/src/kdf.cpp], [src/src/mac.cpp],
    [src/src/padding_mode.cpp], [src/src/symmetric_crypto.cpp] and [src/src/ecies.cpp].  Each Module is a
    class; its definitions are the statements of [Pimpl] that a program can make with
    an object of the class: a class that cannot be copied has no [copy], one that
    cannot be moved has no [move].  The implementation objects are those of the files
    that model the cryptography; the theorems of [Pimpl] hold for programs over any of them. *)

From stdpp Require Import gmap.
From S2P Require Import Prelude CheckCall SymmetricMemory Util SymmetricCrypto OpenSSLWrap Hash.
From S2P Require Import Mac Kdf Bio Pimpl Key Ecies Asn1Time DistinguishedName Padding.
From S2P Require Import AsymmetricCtx X509.

(** ** How members see the object and the world *)
Section Members.
Context {I W R A : Type}.

(** a member that does not change the object *)
Definition const_member (f : I → M W R) : M (I * W) R := λ '(i, w),
  let '(r, w') := f i w in (r, (i, w')).
(** a member that changes nothing else *)
Definition member (f : M I R) : M (I * W) R := zoom fst (λ i s, (i, s.2)) f.
(** a member with the result type of the class *)
Definition returning (g : A → R) (f : M (I * W) A) : M (I * W) R :=
  let! a := f in ret (g a).
End Members.

Abbreviation over I W R := (statement (I := I) (W := W) (R := R)).

(** ** [RSAEncryptionPrivateKeyCtx] *)

Module RSAEncryptionPrivateKeyCtx.
Section RSAEncryptionPrivateKeyCtx.
Context {bio : BioAPI} {evp : EvpCipherAPI} {md : EvpMdAPI} {dig : EvpDigestAPI md}.
Context {pkey : EvpPkeyAPI bio evp} {rsa : RsaCtxAPI md pkey} {asym : AsymmetricAPI dig pkey}.
Context {P : Type} `{!RSAEncryptionPadding P}.
Abbreviation Statement := (over (RSAImpl P) ENTROPY bytes).

Definition new (x : string) (key : EVP_PKEY) (padding : P) : Statement :=
  Construct x (lift (RSAImpl_new key padding)).
Definition copy (x other : string) : Statement := CopyConstruct x other.
Definition assign (x other : string) : Statement := CopyAssign x other.
Definition destroy (x : string) : Statement := Destroy x.
Definition decrypt (x : string) (message : bytes) : Statement :=
  Call x (const_member (λ c, RSAEncryptionPrivateKeyCtx_decrypt c message)).
End RSAEncryptionPrivateKeyCtx.
End RSAEncryptionPrivateKeyCtx.

(** ** [RSAEncryptionPublicKeyCtx] *)

Module RSAEncryptionPublicKeyCtx.
Section RSAEncryptionPublicKeyCtx.
Context {bio : BioAPI} {evp : EvpCipherAPI} {md : EvpMdAPI} {dig : EvpDigestAPI md}.
Context {pkey : EvpPkeyAPI bio evp} {rsa : RsaCtxAPI md pkey} {asym : AsymmetricAPI dig pkey}.
Context {name : X509NameAPI bio} {time : Asn1TimeAPI bio} {x509 : X509API asym name time}.
Context {P : Type} `{!RSAEncryptionPadding P}.
Abbreviation Statement := (over (RSAImpl P) ENTROPY bytes).

Definition new (x : string) (key : EVP_PKEY) (padding : P) : Statement :=
  Construct x (lift (RSAImpl_new key padding)).
Definition of_certificate (x : string) (cert : X509) (padding : P) : Statement :=
  Construct x (lift (let? key := X509Certificate.getPublicKey cert in RSAImpl_new key padding)).
Definition copy (x other : string) : Statement := CopyConstruct x other.
Definition assign (x other : string) : Statement := CopyAssign x other.
Definition destroy (x : string) : Statement := Destroy x.
Definition encrypt (x : string) (message : bytes) : Statement :=
  Call x (const_member (λ c, RSAEncryptionPublicKeyCtx_encrypt c message)).
End RSAEncryptionPublicKeyCtx.
End RSAEncryptionPublicKeyCtx.

(** ** [RSASignaturePrivateKeyCtx] *)

Module RSASignaturePrivateKeyCtx.
Section RSASignaturePrivateKeyCtx.
Context {bio : BioAPI} {evp : EvpCipherAPI} {md : EvpMdAPI} {dig : EvpDigestAPI md}.
Context {pkey : EvpPkeyAPI bio evp} {rsa : RsaCtxAPI md pkey} {asym : AsymmetricAPI dig pkey}.
Context {P : Type} `{!RSASignaturePadding P}.
Abbreviation Statement := (over (RSASignatureImpl P) ENTROPY bytes).

Definition new (x : string) (key : EVP_PKEY) (hashFunction : DigestTypes) (padding : P) : Statement :=
  Construct x (lift (RSASignatureImpl_new key hashFunction padding)).
Definition copy (x other : string) : Statement := CopyConstruct x other.
Definition assign (x other : string) : Statement := CopyAssign x other.
Definition destroy (x : string) : Statement := Destroy x.
Definition signDigest (x : string) (messageDigest : bytes) : Statement :=
  Call x (const_member (λ c, RSA_signDigest c messageDigest)).
Definition signMessage (x : string) (message : bytes) : Statement :=
  Call x (const_member (λ c, RSA_signMessage c message)).
End RSASignaturePrivateKeyCtx.
End RSASignaturePrivateKeyCtx.

(** ** [RSASignaturePublicKeyCtx] *)

Module RSASignaturePublicKeyCtx.
Section RSASignaturePublicKeyCtx.
Context {bio : BioAPI} {evp : EvpCipherAPI} {md : EvpMdAPI} {dig : EvpDigestAPI md}.
Context {pkey : EvpPkeyAPI bio evp} {rsa : RsaCtxAPI md pkey} {asym : AsymmetricAPI dig pkey}.
Context {name : X509NameAPI bio} {time : Asn1TimeAPI bio} {x509 : X509API asym name time}.
Context {P : Type} `{!RSASignaturePadding P}.
Abbreviation Statement := (over (RSASignatureImpl P) ENTROPY ()).

Definition new (x : string) (key : EVP_PKEY) (hashFunction : DigestTypes) (padding : P) : Statement :=
  Construct x (lift (RSASignatureImpl_new key hashFunction padding)).
Definition of_certificate (x : string) (cert : X509) (hashFunction : DigestTypes) (padding : P) :
    Statement :=
  Construct x (lift (let? key := X509Certificate.getPublicKey cert in RSASignatureImpl_new key hashFunction padding)).
Definition copy (x other : string) : Statement := CopyConstruct x other.
Definition assign (x other : string) : Statement := CopyAssign x other.
Definition destroy (x : string) : Statement := Destroy x.
Definition verifyDigest (x : string) (signature messageDigest : bytes) : Statement :=
  Call x (const_member (λ c, RSA_verifyDigest c signature messageDigest)).
Definition verifyMessage (x : string) (signature message : bytes) : Statement :=
  Call x (const_member (λ c, RSA_verifyMessage c signature message)).
End RSASignaturePublicKeyCtx.
End RSASignaturePublicKeyCtx.

(** ** [ECDSASignaturePrivateKeyCtx] *)

Module ECDSASignaturePrivateKeyCtx.
Section ECDSASignaturePrivateKeyCtx.
Context {bio : BioAPI} {evp : EvpCipherAPI} {md : EvpMdAPI} {dig : EvpDigestAPI md}.
Context {pkey : EvpPkeyAPI bio evp} {rsa : RsaCtxAPI md pkey} {asym : AsymmetricAPI dig pkey}.
Abbreviation Statement := (over ECDSAImpl ENTROPY bytes).

(** without a format: the ASN.1 one *)
Definition new (x : string) (key : EVP_PKEY) (hashFunction : DigestTypes) : Statement :=
  Construct x (lift (ECDSAImpl_new key hashFunction ASN1_SEQUENCE_OF_INTS)).
Definition new_format (x : string) (key : EVP_PKEY) (hashFunction : DigestTypes)
    (sigFormat : ECDSASignatureFormat) : Statement :=
  Construct x (lift (ECDSAImpl_new key hashFunction sigFormat)).
Definition copy (x other : string) : Statement := CopyConstruct x other.
Definition assign (x other : string) : Statement := CopyAssign x other.
Definition destroy (x : string) : Statement := Destroy x.
Definition signDigest (x : string) (messageDigest : bytes) : Statement :=
  Call x (const_member (λ c, ECDSA_signDigest c messageDigest)).
Definition signMessage (x : string) (message : bytes) : Statement :=
  Call x (const_member (λ c, ECDSA_signMessage c message)).
End ECDSASignaturePrivateKeyCtx.
End ECDSASignaturePrivateKeyCtx.

(** ** [ECDSASignaturePublicKeyCtx] *)

Module ECDSASignaturePublicKeyCtx.
Section ECDSASignaturePublicKeyCtx.
Context {bio : BioAPI} {evp : EvpCipherAPI} {md : EvpMdAPI} {dig : EvpDigestAPI md}.
Context {pkey : EvpPkeyAPI bio evp} {rsa : RsaCtxAPI md pkey} {asym : AsymmetricAPI dig pkey}.
Context {name : X509NameAPI bio} {time : Asn1TimeAPI bio} {x509 : X509API asym name time}.
Abbreviation Statement := (over ECDSAImpl ENTROPY ()).

(** Six constructors: from a key or a certificate, with a format, with a format of the
    enumeration with the typo, or with the ASN.1 format. *)
Definition new_format (x : string) (key : EVP_PKEY) (hashFunction : DigestTypes)
    (format : ECDSASignatureFormat) : Statement :=
  Construct x (lift (ECDSAImpl_new key hashFunction format)).
Definition new_sda (x : string) (key : EVP_PKEY) (hashFunction : DigestTypes)
    (format : ECSDASignatureFormat) : Statement :=
  Construct x (lift (ECDSAImpl_new key hashFunction (SDAtoDSASignatureFormat format))).
Definition new (x : string) (key : EVP_PKEY) (hashFunction : DigestTypes) : Statement :=
  new_format x key hashFunction ASN1_SEQUENCE_OF_INTS.
Definition of_certificate (x : string) (cert : X509) (hashFunction : DigestTypes) : Statement :=
  Construct x (lift (let? key := X509Certificate.getPublicKey cert in
                     ECDSAImpl_new key hashFunction ASN1_SEQUENCE_OF_INTS)).
Definition of_certificate_sda (x : string) (cert : X509) (hashFunction : DigestTypes)
    (format : ECSDASignatureFormat) : Statement :=
  Construct x (lift (let? key := X509Certificate.getPublicKey cert in
                     ECDSAImpl_new key hashFunction (SDAtoDSASignatureFormat format))).
Definition of_certificate_format (x : string) (cert : X509) (hashFunction : DigestTypes)
    (format : ECDSASignatureFormat) : Statement :=
  Construct x (lift (let? key := X509Certificate.getPublicKey cert in ECDSAImpl_new key hashFunction format)).
Definition copy (x other : string) : Statement := CopyConstruct x other.
Definition assign (x other : string) : Statement := CopyAssign x other.
Definition destroy (x : string) : Statement := Destroy x.
Definition verifyDigest (x : string) (signature messageDigest : bytes) : Statement :=
  Call x (const_member (λ c, ECDSA_verifyDigest c signature messageDigest)).
Definition verifyMessage (x : string) (signature message : bytes) : Statement :=
  Call x (const_member (λ c, ECDSA_verifyMessage c signature message)).
End ECDSASignaturePublicKeyCtx.
End ECDSASignaturePublicKeyCtx.

(** ** [EdDSASignaturePrivateKeyCtx] *)

Module EdDSASignaturePrivateKeyCtx.
Section EdDSASignaturePrivateKeyCtx.
Context {bio : BioAPI} {evp : EvpCipherAPI} {md : EvpMdAPI} {dig : EvpDigestAPI md}.
Context {pkey : EvpPkeyAPI bio evp} {rsa : RsaCtxAPI md pkey} {asym : AsymmetricAPI dig pkey}.
Abbreviation Statement := (over EdDSAImpl () bytes).

Definition new (x : string) (key : EVP_PKEY) : Statement := Construct x (lift (EdDSAImpl_new key)).
Definition copy (x other : string) : Statement := CopyConstruct x other.
Definition assign (x other : string) : Statement := CopyAssign x other.
Definition destroy (x : string) : Statement := Destroy x.
Definition signMessage (x : string) (message : bytes) : Statement :=
  Call x (const_member (λ c, lift (EdDSA_signMessage c message))).
End EdDSASignaturePrivateKeyCtx.
End EdDSASignaturePrivateKeyCtx.

(** ** [EdDSASignaturePublicKeyCtx] *)

Module EdDSASignaturePublicKeyCtx.
Section EdDSASignaturePublicKeyCtx.
Context {bio : BioAPI} {evp : EvpCipherAPI} {md : EvpMdAPI} {dig : EvpDigestAPI md}.
Context {pkey : EvpPkeyAPI bio evp} {rsa : RsaCtxAPI md pkey} {asym : AsymmetricAPI dig pkey}.
Context {name : X509NameAPI bio} {time : Asn1TimeAPI bio} {x509 : X509API asym name time}.
Abbreviation Statement := (over EdDSAImpl () ()).

Definition new (x : string) (key : EVP_PKEY) : Statement := Construct x (lift (EdDSAImpl_new key)).
Definition of_certificate (x : string) (cert : X509) : Statement :=
  Construct x (lift (let? key := X509Certificate.getPublicKey cert in EdDSAImpl_new key)).
Definition copy (x other : string) : Statement := CopyConstruct x other.
Definition assign (x other : string) : Statement := CopyAssign x other.
Definition destroy (x : string) : Statement := Destroy x.
Definition verifyMessage (x : string) (signature message : bytes) : Statement :=
  Call x (const_member (λ c, lift (EdDSA_verifyMessage c signature message))).
End EdDSASignaturePublicKeyCtx.
End EdDSASignaturePublicKeyCtx.

(** ** [PBKDF2] *)

Module PBKDF2Object.
Section PBKDF2Object.
Context {md : EvpMdAPI} {api : KdfAPI md}.
Abbreviation Statement := (over PBKDF2 () bytes).

Definition new (x : string) (hashFunction : DigestTypes) (iterations : Z) : Statement :=
  Construct x (ret (mkPBKDF2 hashFunction iterations)).
Definition copy (x other : string) : Statement := CopyConstruct x other.
Definition assign (x other : string) : Statement := CopyAssign x other.
Definition destroy (x : string) : Statement := Destroy x.
Definition move (x other : string) : Statement := MoveConstruct x other.
Definition move_assign (x other : string) : Statement := MoveAssign x other.
Definition deriveKey (x : string) (password : bytes) (outputLength : Z) (salt : bytes) : Statement :=
  Call x (const_member (λ k, lift (PBKDF2_deriveKey k password outputLength salt))).
End PBKDF2Object.
End PBKDF2Object.

(** ** [X963KDF] *)

Module X963KDFObject.
Section X963KDFObject.
Context {md : EvpMdAPI} {api : KdfAPI md}.
Abbreviation Statement := (over X963KDF () bytes).

Definition new (x : string) (hashFunction : DigestTypes) : Statement :=
  Construct x (ret (mkX963KDF hashFunction)).
Definition copy (x other : string) : Statement := CopyConstruct x other.
Definition assign (x other : string) : Statement := CopyAssign x other.
Definition destroy (x : string) : Statement := Destroy x.
Definition move (x other : string) : Statement := MoveConstruct x other.
Definition move_assign (x other : string) : Statement := MoveAssign x other.
Definition deriveKey (x : string) (password : bytes) (outputLength : Z) (salt : bytes) : Statement :=
  Call x (const_member (λ k, lift (X963KDF_deriveKey k password outputLength salt))).
End X963KDFObject.
End X963KDFObject.

(** ** [HMAC] *)

Module HMACObject.
Section HMACObject.
Context {md : EvpMdAPI} {api : HmacAPI md}.
(** [None]: a member that returns nothing *)
Abbreviation Statement := (over (MacImpl HMAC_CTX) () (option bytes)).

Definition new (x : string) (hashFunction : DigestTypes) (key : bytes) : Statement :=
  Construct x (lift (HMAC.new hashFunction key)).
Definition move (x other : string) : Statement := MoveConstruct x other.
Definition move_assign (x other : string) : Statement := MoveAssign x other.
Definition destroy (x : string) : Statement := Destroy x.
Definition update (x : string) (message : bytes) : Statement :=
  Call x (returning (λ _, None) (member (HMAC.update message))).
Definition finish (x : string) : Statement := Call x (returning Some (member HMAC.finish)).
Definition verify (x : string) (value : bytes) : Statement :=
  Call x (returning (λ _, None) (member (HMAC.verify value))).
End HMACObject.
End HMACObject.

(** ** [CMAC] *)

Module CMACObject.
Section CMACObject.
Context {evp : EvpCipherAPI} {api : CmacAPI evp}.
(** [None]: a member that returns nothing *)
Abbreviation Statement := (over (MacImpl CMAC_CTX) () (option bytes)).

Definition new (x : string) (cipherType : CmacCipherTypes) (key : bytes) : Statement :=
  Construct x (lift (CMAC.new cipherType key)).
Definition move (x other : string) : Statement := MoveConstruct x other.
Definition move_assign (x other : string) : Statement := MoveAssign x other.
Definition destroy (x : string) : Statement := Destroy x.
Definition update (x : string) (message : bytes) : Statement :=
  Call x (returning (λ _, None) (member (CMAC.update message))).
Definition finish (x : string) : Statement := Call x (returning Some (member CMAC.finish)).
Definition verify (x : string) (value : bytes) : Statement :=
  Call x (returning (λ _, None) (member (CMAC.verify value))).
End CMACObject.
End CMACObject.

(** ** [PSSPadding] *)

Module PSSPaddingObject.
Section PSSPaddingObject.
Context {bio : BioAPI} {evp : EvpCipherAPI} {md : EvpMdAPI} {pkey : EvpPkeyAPI bio evp}.
Context {rsa : RsaCtxAPI md pkey}.
(** The members give the context they configured. *)
Abbreviation Statement := (over PSSPadding () EVP_PKEY_CTX).

Definition new (x : string) (maskGenerationFunction : option AnyMgf) (saltLength : option Z) :
    Statement :=
  Construct x (ret (mkPSS maskGenerationFunction saltLength)).
Definition copy (x other : string) : Statement := CopyConstruct x other.
Definition assign (x other : string) : Statement := CopyAssign x other.
Definition destroy (x : string) : Statement := Destroy x.
Definition prepareOpenSSLContext (x : string) (ctx : EVP_PKEY_CTX) (hashFunction : DigestTypes) :
    Statement :=
  Call x (const_member (λ p, lift (PSSPadding_prepareSignature p ctx hashFunction))).
End PSSPaddingObject.
End PSSPaddingObject.

(** ** [OAEPPadding] *)

Module OAEPPaddingObject.
Section OAEPPaddingObject.
Context {bio : BioAPI} {evp : EvpCipherAPI} {md : EvpMdAPI} {pkey : EvpPkeyAPI bio evp}.
Context {rsa : RsaCtxAPI md pkey}.
(** what [checkMessageSize] returns, or the configured context *)
Abbreviation Statement := (over OAEPPadding () (bool + EVP_PKEY_CTX)).

Definition new (x : string) (hashFunction : DigestTypes) (maskGenerationFunction : option AnyMgf)
    (label : bytes) : Statement :=
  Construct x (ret (OAEPPadding_new hashFunction maskGenerationFunction label)).
Definition copy (x other : string) : Statement := CopyConstruct x other.
Definition assign (x other : string) : Statement := CopyAssign x other.
Definition destroy (x : string) : Statement := Destroy x.
Definition checkMessageSize (x : string) (key : EVP_PKEY) (messageSize : Z) : Statement :=
  Call x (returning inl (const_member (λ p, lift (OAEPPadding_checkMessageSize p key messageSize)))).
Definition prepareOpenSSLContext (x : string) (ctx : EVP_PKEY_CTX) : Statement :=
  Call x (returning inr (const_member (λ p, lift (OAEPPadding_prepare p ctx)))).
End OAEPPaddingObject.
End OAEPPaddingObject.

(** ** [AESCipher] *)

Module AESCipherObject.
Section AESCipherObject.
Context {api : EvpCipherAPI}.
(** [None]: a member that returns nothing *)
Abbreviation Statement := (over AESCipher () (option bytes)).

Definition new (x : string) (mode : SymmetricCipherMode) (keySize : SymmetricCipherKeySize)
    (padding : SymmetricCipherPadding) (secretKey iv : bytes) (operation : Operation) : Statement :=
  Construct x (lift (AESCipher_new mode keySize padding secretKey iv operation)).
(** [AuthenticatedAESCipher] derives from it. *)
Definition new_authenticated (x : string) (mode : SymmetricCipherMode)
    (keySize : SymmetricCipherKeySize) (padding : SymmetricCipherPadding) (secretKey iv : bytes)
    (authTagLength : Z) (operation : Operation) : Statement :=
  Construct x (lift (AuthenticatedAESCipher_new mode keySize padding secretKey iv authTagLength
                       operation)).
Definition destroy (x : string) : Statement := Destroy x.
Definition update (x : string) (message : bytes) : Statement :=
  Call x (returning (λ _, None) (member (Impl.update message))).
Definition read (x : string) (length : Z) : Statement :=
  Call x (returning Some (member (Impl.read length))).
Definition readAll (x : string) : Statement := Call x (returning Some (member Impl.readAll)).
Definition finish (x : string) : Statement := Call x (returning Some (member Impl.finish)).
Definition getIV (x : string) : Statement := Call x (returning Some (member Impl.getIV)).
Definition getAuthTag (x : string) : Statement := Call x (returning Some (member Impl.getAuthTag)).
Definition setAuthTag (x : string) (tag : bytes) : Statement :=
  Call x (returning (λ _, None) (member (Impl.setAuthTag tag))).
Definition addAssociatedData (x : string) (associatedData : bytes) : Statement :=
  Call x (returning (λ _, None) (member (Impl.addAssociatedData associatedData))).
End AESCipherObject.
End AESCipherObject.

(** ** [ECIESEncryptionCtx] *)

Module ECIESEncryptionObject.
Section ECIESEncryptionObject.
Context {bio : BioAPI} {evp : EvpCipherAPI} {rand : RandAPI} {pkey : EvpPkeyAPI bio evp}.
Context {md : EvpMdAPI} {hmac_api : HmacAPI md} {kdf_api : KdfAPI md}.
(** nothing, bytes, or the ephemeral key *)
Abbreviation Statement := (over ECIESEncryptionCtx World (option bytes + EVP_PKEY)).

Definition new (x : string) (ctxBuilder : ECIESCtxBuilder) : Statement :=
  Construct x (Encryption_new ctxBuilder).
Definition destroy (x : string) : Statement := Destroy x.
Definition update (x : string) (message : bytes) : Statement :=
  Call x (returning (λ _, inl None) (member (Enc.update message))).
Definition finish (x : string) : Statement := Call x (returning (inl ∘ Some) (member Enc.finish)).
Definition getEphemeralKey (x : string) : Statement :=
  Call x (returning inr (member Enc.getEphemeralKey)).
Definition getMAC (x : string) : Statement := Call x (returning (inl ∘ Some) (member Enc.getMAC)).
End ECIESEncryptionObject.
End ECIESEncryptionObject.

(** [ECIESCtxBuilder::buildEncryptionCtx(X509Certificate)] *)
Section BuildForCertificate.
Context {bio : BioAPI} {evp : EvpCipherAPI} {rand : RandAPI} {pkey : EvpPkeyAPI bio evp}.
Context {md : EvpMdAPI} {hmac_api : HmacAPI md} {kdf_api : KdfAPI md}.
Context {dig : EvpDigestAPI md} {asym : AsymmetricAPI dig pkey} {name : X509NameAPI bio}.
Context {time : Asn1TimeAPI bio} {x509 : X509API asym name time}.
Definition buildEncryptionCtx_for (bobsCert : X509) :
    M (ECIESCtxBuilder * World) ECIESEncryptionCtx :=
  let! bobsKey := lift (X509Certificate.getPublicKey bobsCert) in buildEncryptionCtx bobsKey.
End BuildForCertificate.

(** ** [ECIESDecryptionCtx] *)

Module ECIESDecryptionObject.
Section ECIESDecryptionObject.
Context {bio : BioAPI} {evp : EvpCipherAPI} {rand : RandAPI} {pkey : EvpPkeyAPI bio evp}.
Context {md : EvpMdAPI} {hmac_api : HmacAPI md} {kdf_api : KdfAPI md}.
(** [None]: a member that returns nothing *)
Abbreviation Statement := (over ECIESDecryptionCtx World (option bytes)).

Definition new (x : string) (ctxBuilder : ECIESCtxBuilder) : Statement :=
  Construct x (Decryption_new ctxBuilder).
Definition destroy (x : string) : Statement := Destroy x.
Definition update (x : string) (message : bytes) : Statement :=
  Call x (returning (λ _, None) (member (Dec.update message))).
Definition finish (x : string) : Statement := Call x (returning Some (member Dec.finish)).
Definition setMAC (x : string) (tag : bytes) : Statement :=
  Call x (returning (λ _, None) (member (Dec.setMAC tag))).
End ECIESDecryptionObject.
End ECIESDecryptionObject.


(** No undefined behaviour among outcomes that are all values. *)
Lemma vals_no_ub {A} (os : list (outcome A)) :
  Forall (λ o, is_val o = true) os → Throw UndefinedBehaviour ∉ os.
Proof. rewrite Forall_forall. intros H Hin. by specialize (H _ Hin). Qed.

Ltac no_ub := apply vals_no_ub; repeat first [ apply Forall_cons_2 | apply Forall_app_2
  | apply Forall_replicate | apply Forall_nil_2 | reflexivity ].

(** ** A message authentication code that is moved while it runs *)
Section MovedMac.
Context {T : Type} {mac : MessageAuthenticationCode T} {spec : MessageAuthenticationCodeSpec T}.
Implicit Types (v : values (I := T) (W := ())).

Definition update_in (x : string) (m : bytes) : over T () (option bytes) :=
  Call x (returning (λ _, None) (member (mac_update m))).
Definition finish_in (x : string) : over T () (option bytes) :=
  Call x (returning Some (member mac_finish)).

Lemma updates_in (W : Prop) x f chunks m d v :
  W → Forall (λ c, size c ≤ INT_MAX) chunks → mac_open m f d W → value_of v !! x = Some (Some m) →
  ∃ m', mac_open m' f (d ++ concat chunks) W ∧
    run vexec (update_in x <$> chunks) v =
    (replicate (length chunks) (Val (Some None)), mkValues (<[x := Some m']> (value_of v)) ()).
Proof.
  intros HW Hs. revert m d v. induction Hs as [|c chunks Hc Hs IH]; intros m d [vs []] Hm Hx.
  - exists m. rewrite app_nil_r. split; [done|]. cbn in *. by rewrite insert_id.
  - pose proof (mac_update_spec m f d W c Hm Hc) as Hu. unfold wp in Hu. cbn in *.
    unfold bind, get_value. cbn. rewrite Hx. unfold returning, bind, member, zoom. cbn.
    destruct (mac_update c m) as [[[]|e] m1]; [|done]. cbn.
    destruct (IH m1 (d ++ c) (mkValues (<[x := Some m1]> vs) ()) Hu) as (m' & Ho & Hr).
    { cbn. by rewrite lookup_insert_eq. }
    exists m'. rewrite Hr, app_assoc. cbn. by rewrite insert_insert_eq.
Qed.

Lemma finish_values (W : Prop) x f m d v :
  W → mac_open m f d W → value_of v !! x = Some (Some m) →
  ∃ m', vexec (finish_in x) v =
    (Val (Some (Some (f d))), mkValues (<[x := Some m']> (value_of v)) ()).
Proof.
  intros HW Hm Hx. pose proof (mac_finish_spec m f d W Hm) as Hf. unfold wp in Hf.
  destruct v as [vs []]. cbn in *. unfold bind, get_value. cbn. rewrite Hx.
  unfold returning, bind, member, zoom. cbn. destruct (mac_finish m) as [[r|e] m1]; [|done].
  destruct Hf as [-> _]. by exists m1.
Qed.

Lemma moved_mac (W : Prop) x y f c1 c2 m d v :
  x ≠ y → W → Forall (λ c, size c ≤ INT_MAX) c1 → Forall (λ c, size c ≤ INT_MAX) c2 →
  mac_open m f d W → value_of v !! x = Some (Some m) → value_of v !! y = None →
  ∃ m', run vexec ((update_in x <$> c1) ++ MoveConstruct y x :: (update_in y <$> c2) ++
                     [finish_in y; Destroy x; Destroy y]) v =
    (replicate (length c1) (Val (Some None)) ++ Val None :: replicate (length c2) (Val (Some None)) ++
       [Val (Some (Some (f (d ++ concat c1 ++ concat c2)))); Val None; Val None],
     mkValues (base.delete y (base.delete x (<[y := Some m']> (<[x := None]> (value_of v))))) ()).
Proof.
  intros Hne HW H1 H2 Hm Hx Hy.
  destruct (updates_in W x f c1 m d v HW H1 Hm Hx) as (m1 & Hm1 & Hr1).
  rewrite run_app by (rewrite Hr1; no_ub). rewrite Hr1. cbn [fst snd].
  set (v1 := mkValues (<[y := Some m1]> (<[x := None]> (value_of v))) ()).
  assert (Hmove : vexec (R := option bytes) (MoveConstruct y x)
                    (mkValues (<[x := Some m1]> (value_of v)) ()) = (Val None, v1)).
  { cbn. unfold bind, has_name, take_value. cbn.
    rewrite (lookup_insert_ne _ x y) by done. rewrite Hy. cbn. rewrite lookup_insert_eq.
    unfold v1, set_value, modify. cbn. by rewrite insert_insert_eq. }
  cbn [run]. rewrite Hmove.
  destruct (updates_in W y f c2 m1 (d ++ concat c1) v1 HW H2 Hm1) as (m2 & Hm2 & Hr2).
  { unfold v1. cbn. by rewrite lookup_insert_eq. }
  rewrite run_app by (rewrite Hr2; no_ub). rewrite Hr2. cbn [fst snd run].
  destruct (finish_values W y f m2 _ (mkValues (<[y := Some m2]> (value_of v1)) ()) HW Hm2)
    as (m3 & ->); [cbn; by rewrite lookup_insert_eq|].
  exists m3. cbn. unfold bind, has_name. cbn.
  rewrite !insert_insert_eq, (lookup_insert_ne _ y x), lookup_insert_eq by done. cbn.
  rewrite lookup_delete_ne, lookup_insert_eq by done. cbn. by rewrite <- app_assoc.
Qed.
End MovedMac.

Lemma hmac_new_val {md : EvpMdAPI} {api : HmacAPI md} {spec : HmacSpec api} hf d key :
  HmacWorks spec → _getMDPtrFromDigestType hf = Val d → key ≠ [] → size key ≤ INT_MAX →
  ∃ m, HMAC.new hf key = Val m ∧ mac_open m (hmac d key) [] (HmacWorks spec).
Proof.
  intros HW Hd Hne Hk. pose proof (hmac_new_open hf key Hk) as Hn.
  destruct (HMAC.new hf key) as [m|e]; [|destruct Hn as [->|[?|?]]; done].
  destruct Hn as (_ & d' & Hd' & Ho). rewrite Hd in Hd'. injection Hd' as <-. eauto.
Qed.

Section MovedHmac.
Context {md : EvpMdAPI} {api : HmacAPI md} {spec : HmacSpec api}.

(** Updates, a move, updates, the result; then both objects are destroyed. *)
Definition moved_program (x y : string) (hf : DigestTypes) (key : bytes) (c1 c2 : list bytes) :=
  HMACObject.new x hf key :: (HMACObject.update x <$> c1) ++
  HMACObject.move y x :: (HMACObject.update y <$> c2) ++
  [HMACObject.finish y; HMACObject.destroy x; HMACObject.destroy y].

Lemma moved_program_eq x y hf key c1 c2 :
  moved_program x y hf key c1 c2 =
  HMACObject.new x hf key :: (update_in x <$> c1) ++ MoveConstruct y x :: (update_in y <$> c2) ++
    [finish_in y; Destroy x; Destroy y].
Proof. done. Qed.

(** An HMAC object survives being moved in the middle of a message: the object it is
    moved to continues the computation and returns the HMAC of all the chunks, those given before
    the move and those given after it, and destroying both objects frees everything. *)
Theorem hmac_moved (x y : string) (hf : DigestTypes) (d : EVP_MD) (key : bytes) (c1 c2 : list bytes)
    (Hxy : x ≠ y) (Hworks : HmacWorks spec) (Hd : _getMDPtrFromDigestType hf = Val d)
    (Hne : key ≠ []) (Hkey : size key ≤ INT_MAX)
    (H1 : Forall (λ c, size c ≤ INT_MAX) c1) (H2 : Forall (λ c, size c ≤ INT_MAX) c2) :
  let '(os, s) := run exec (moved_program x y hf key c1 c2) (no_objects ()) in
  os = Val None :: replicate (length c1) (Val (Some None)) ++ Val None ::
    replicate (length c2) (Val (Some None)) ++
    [Val (Some (Some (hmac d key (concat c1 ++ concat c2)))); Val None; Val None] ∧
  objects s = ∅ ∧ cells (mem s) = ∅.
Proof.
  destruct (hmac_new_val hf d key Hworks Hd Hne Hkey) as (m & Hnew & Ho).
  set (v := mkValues (<[x := Some m]> ∅) () : values (I := MacImpl HMAC_CTX) (W := ())).
  assert (Hv : vexec (HMACObject.new x hf key) (no_values ()) = (Val None, v)).
  { unfold HMACObject.new. cbn. unfold bind, has_name. cbn. unfold on_vworld, zoom, lift. cbn.
    by rewrite Hnew. }
  destruct (moved_mac _ x y _ c1 c2 m [] v Hxy Hworks H1 H2 Ho) as (m' & Hrun);
    [by apply lookup_insert_eq|by unfold v; cbn; rewrite lookup_insert_ne|].
  pose proof (run_simulates (moved_program x y hf key c1 c2) _ _ (start_represented ())) as Hsim.
  rewrite moved_program_eq in Hsim |- *.
  assert (Hstart : ∀ cs, run vexec (HMACObject.new x hf key :: cs) (no_values ()) =
    (Val None :: (run vexec cs v).1, (run vexec cs v).2)).
  { intros cs. cbn [run]. rewrite Hv. by destruct (run vexec cs v). }
  rewrite Hstart, Hrun in Hsim. cbn [fst snd] in Hsim.
  destruct (run exec _ _) as [os s]. cbn [fst snd] in Hsim. destruct Hsim as [-> Hrep]. split; [done|].
  unfold v in Hrep. cbn in Hrep.
  rewrite (insert_insert_eq ∅), (delete_insert_ne _ x y), delete_insert_eq in Hrep by done.
  apply (represents_nothing _ _ (Hrep ltac:(no_ub))). intros z. cbn.
  destruct (decide (y = z)) as [->|]; [by rewrite lookup_delete_eq|].
  rewrite lookup_delete_ne by done.
  destruct (decide (x = z)) as [->|]; [by rewrite lookup_delete_eq|].
  by rewrite lookup_delete_ne, lookup_insert_ne.
Qed.
End MovedHmac.

(** ** Programs over concrete codes *)
Module ObjectsRun.
Import NamedDigests RepeatKdf.

(** One object, copied; the original is then moved from, assigned to and destroyed. *)
Definition before : list (over PBKDF2 () bytes) := [PBKDF2Object.new "x" SHA256 7].
Definition after : list (over PBKDF2 () bytes) :=
  [PBKDF2Object.move "z" "x"; PBKDF2Object.new "w" SHA1 1; PBKDF2Object.assign "x" "w";
   PBKDF2Object.deriveKey "x" (str "pw") 4 (str "salt"); PBKDF2Object.destroy "x"].

Lemma pimpl_refines_values_witness :
  (run exec (before ++ (PBKDF2Object.copy "y" "x" :: after)) (no_objects ())).1 =
  (run vexec (before ++ (PBKDF2Object.copy "y" "x" :: after)) (no_values ())).1.
Proof.
  pose proof (pimpl_refines_values (before ++ (PBKDF2Object.copy "y" "x" :: after)) ()) as H.
  destruct (run exec _ _) as [os s], (run vexec _ _) as [os' v]. apply H.
Defined.

(** Everything is destroyed in the end. *)
Definition all_destroyed : list (over PBKDF2 () bytes) :=
  before ++ (PBKDF2Object.copy "y" "x" :: after) ++ [PBKDF2Object.destroy "y";
    PBKDF2Object.destroy "z"; PBKDF2Object.destroy "w"].

Lemma pimpl_no_leak_witness :
  next (mem (run exec all_destroyed (no_objects ())).2) = 5%positive ∧
  cells (mem (run exec all_destroyed (no_objects ())).2) = ∅.
Proof.
  split; [by vm_compute|].
  refine (proj2 (proj2 (pimpl_no_leak all_destroyed () _ _ (surjective_pairing _) _)) _);
    [|by vm_compute].
  apply vals_no_ub. vm_compute. by repeat constructor.
Defined.

Lemma pimpl_copy_independent_witness :
  let s := (run exec before (no_objects ())).2 in
  let s1 := (exec (PBKDF2Object.copy "y" "x") s).2 in
  let s2 := (run exec after s1).2 in
  value s "x" = Some (Some (mkPBKDF2 SHA256 7)) ∧ value s2 "y" = value s "x".
Proof.
  split; [by vm_compute|].
  refine (pimpl_copy_independent before after () _ _ "x" "y" _ _ _ (surjective_pairing _) _
            eq_refl (surjective_pairing _) _ eq_refl).
  - apply vals_no_ub. vm_compute. by repeat constructor.
  - apply vals_no_ub. vm_compute. by repeat constructor.
Defined.

Lemma hmac_moved_witness :
  let '(os, s) := run exec (moved_program (api := ChecksumMac.api) "x" "y" SHA256 ChecksumMac.key [str "ab"; str "c"] [str "d"])
                    (no_objects ()) in
  os = [Val None; Val (Some None); Val (Some None); Val None; Val (Some None);
        Val (Some (Some (ChecksumMac.value SHA256 ChecksumMac.key (str "abcd")))); Val None; Val None] ∧
  objects s = ∅ ∧ cells (mem s) = ∅.
Proof.
  refine (hmac_moved (spec := ChecksumMac.spec) "x" "y" SHA256 (SHA256 : @EVP_MD NamedDigests.api) ChecksumMac.key [str "ab"; str "c"] [str "d"] _
            ChecksumMac.hmac_works eq_refl _ _ _ _); [done|done|by vm_compute|..];
    repeat apply Forall_cons_2; try apply Forall_nil_2; by vm_compute.
Defined.
End ObjectsRun.
