(* ===== verification/X509Facts.v ===== *)
(** * Correctness of the certificates *)

From S2P Require Import Prelude CheckCall Util SymmetricCrypto OpenSSLWrap Hash Bio Key Pem Asn1Time.
From S2P Require Import DistinguishedName Padding AsymmetricCtx AsymmetricFacts Extensions X509.

(** ** What OpenSSL promises *)

(** What a certificate says. *)
Record cert_view {N K T M : Type} := mkCert {
  v_subject : N;
  v_issuer : N;
  v_key : option K;
  v_serial : Z;
  v_notBefore : T;
  v_notAfter : T;
  v_version : Z;
  v_extensions : list (Z * bytes);
  v_signature : option (K * M);
}.
Arguments cert_view : clear implicits.
Arguments mkCert {N K T M}.

Section Updates.
Context {N K T M : Type}.
Implicit Types v : cert_view N K T M.
Definition with_subject n v : cert_view N K T M :=
  let 'mkCert _ b c d e f g h i := v in mkCert n b c d e f g h i.
Definition with_issuer n v : cert_view N K T M :=
  let 'mkCert a _ c d e f g h i := v in mkCert a n c d e f g h i.
Definition with_key k v : cert_view N K T M :=
  let 'mkCert a b _ d e f g h i := v in mkCert a b (Some k) d e f g h i.
Definition with_serial z v : cert_view N K T M :=
  let 'mkCert a b c _ e f g h i := v in mkCert a b c z e f g h i.
Definition with_notBefore t v : cert_view N K T M :=
  let 'mkCert a b c d _ f g h i := v in mkCert a b c d t f g h i.
Definition with_notAfter t v : cert_view N K T M :=
  let 'mkCert a b c d e _ g h i := v in mkCert a b c d e t g h i.
Definition with_version z v : cert_view N K T M :=
  let 'mkCert a b c d e f _ h i := v in mkCert a b c d e f z h i.
Definition with_extension x v : cert_view N K T M :=
  let 'mkCert a b c d e f g h i := v in mkCert a b c d e f g (h ++ [x]) i.
Definition with_signature k m v : cert_view N K T M :=
  let 'mkCert a b c d e f g h _ := v in mkCert a b c d e f g h (Some (k, m)).
End Updates.

(** What is asked of the certificate verification: who is trusted, what may be
    between, which options are on, at which time and with which CRLs. *)
Record request {X C : Type} := mkRequest {
  q_target : X;
  q_trusted : list X;
  q_untrusted : list X;
  q_partial_chain : bool;
  q_crl_check : bool;
  q_crl_check_all : bool;
  q_time : option Z;
  q_crls : list C;
}.
Arguments request : clear implicits.
Arguments mkRequest {X C}.

Class X509Spec {bio : BioAPI} {bspec : BioSpec bio} {evp : EvpCipherAPI} {md : EvpMdAPI}
    {dig : EvpDigestAPI md} {pkey : EvpPkeyAPI bio evp} {asym : AsymmetricAPI dig pkey}
    {name : X509NameAPI bio} {time : Asn1TimeAPI bio} (api : X509API asym name time) := {
  (** certificates *)
  view : X509 → cert_view X509_NAME EVP_PKEY ASN1_TIME EVP_MD;
  new_spec x : SSL_X509_new = Some x → v_extensions (view x) = [];
  subject_spec x : SSL_X509_get_subject_name x = Some (v_subject (view x));
  issuer_spec x : SSL_X509_get_issuer_name x = Some (v_issuer (view x));
  notBefore_spec x : SSL_X509_get_notBefore x = Some (v_notBefore (view x));
  notAfter_spec x : SSL_X509_get_notAfter x = Some (v_notAfter (view x));
  pubkey_spec x : SSL_X509_get_pubkey x = v_key (view x);
  set_subject_spec n x x' : SSL_X509_set_subject_name n x = (1, x') →
    view x' = with_subject n (view x);
  set_issuer_spec n x x' : SSL_X509_set_issuer_name n x = (1, x') →
    view x' = with_issuer n (view x);
  set_pubkey_spec k x x' : SSL_X509_set_pubkey k x = (1, x') → view x' = with_key k (view x);
  set_notBefore_spec t x x' : SSL_X509_set_notBefore t x = (1, x') →
    view x' = with_notBefore t (view x);
  set_notAfter_spec t x x' : SSL_X509_set_notAfter t x = (1, x') →
    view x' = with_notAfter t (view x);
  set_version_spec v x x' rv : SSL_X509_set_version v x = (rv, x') →
    view x' = if rv =? 1 then with_version v (view x) else view x;
  extension_view : X509_EXTENSION → Z * bytes;
  ext_conf_spec x nid s e : SSL_X509V3_EXT_conf_nid x nid s = Some e →
    extension_view e = (nid, s);
  add_ext_spec e x x' : SSL_X509_add_ext e (-1) x = (1, x') →
    view x' = with_extension (extension_view e) (view x);
  sign_x509_spec k m x e : wp_total (SSL_X509_sign k m x) e (λ '(rv, x') _,
    0 < rv → view x' = with_signature k m (view x));
  (** the keys that sign a certificate with a digest *)
  signs : EVP_PKEY → EVP_MD → Prop;
  dup_spec t t' : SSL_ASN1_STRING_dup t = Some t' → t' = t;
  (** numbers *)
  int_value : ASN1_INTEGER → Z;
  big_value : BIGNUM → Z;
  int_set_spec v i : - LONG_MAX ≤ v ≤ LONG_MAX →
    ∃ i', SSL_ASN1_INTEGER_set v i = (1, i') ∧ int_value i' = v;
  int_cmp_spec a b : SSL_ASN1_INTEGER_cmp a b =
    match int_value a ?= int_value b with Lt => -1 | Eq => 0 | Gt => 1 end;
  int_get_spec i : 0 ≤ int_value i ≤ LONG_MAX → SSL_ASN1_INTEGER_get i = int_value i;
  int_bn_spec i : ∃ n, SSL_ASN1_INTEGER_to_BN i = Some n ∧ big_value n = int_value i;
  bn_dec_spec n : 0 ≤ big_value n → SSL_BN_bn2dec n = Some (decimal (big_value n));
  (** the number of significant bytes: none for 0 *)
  bn_bytes_spec n : 0 ≤ big_value n →
    let k := SSL_BN_num_bytes n in
    0 ≤ k ≤ INT_MAX ∧ big_value n < 256 ^ k ∧ (0 < k → 256 ^ (k - 1) ≤ big_value n) ∧
    SSL_BN_bn2bin n = (k, be_bytes (Z.to_nat k) (big_value n));
  set_serial_spec i x : 0 ≤ int_value i → ∃ rv x',
    SSL_X509_set_serialNumber i x = (rv, x') ∧
    (0 < rv → view x' = with_serial (int_value i) (view x));
  get_serial_spec x : ∃ i, SSL_X509_get_serialNumber x = Some i ∧ int_value i = v_serial (view x);
  (** stores and stacks *)
  store_certs : X509_STORE → list X509;
  stack_certs : STACK_OF_X509 → list X509;
  stack_crls : STACK_OF_CRL → list X509_CRL;
  store_new_spec s : SSL_X509_STORE_new = Some s → store_certs s = [];
  store_add_spec x s s' : SSL_X509_STORE_add_cert x s = (1, s') →
    store_certs s' = store_certs s ++ [x];
  sk_new_spec s : SSL_sk_X509_new_null = Some s → stack_certs s = [];
  sk_push_spec x s s' rv : SSL_sk_X509_push x s = (rv, s') → 0 < rv →
    stack_certs s' = stack_certs s ++ [x];
  sk_crl_new_spec s : SSL_sk_X509_CRL_new_null = Some s → stack_crls s = [];
  sk_crl_push_spec x s s' rv : SSL_sk_X509_CRL_push x s = (rv, s') → 0 < rv →
    stack_crls s' = stack_crls s ++ [x];
  (** verification: the context collects a request *)
  requested : X509_STORE_CTX → option (request X509 X509_CRL);
  ctx_init_spec store x chain c c' : SSL_X509_STORE_CTX_init store x chain c = (1, c') →
    requested c' = Some (mkRequest x (store_certs store) (stack_certs chain)
                           false false false None []);
  ctx_time_spec c q t : requested c = Some q →
    requested (SSL_X509_STORE_CTX_set_time 0 t c) = Some (mkRequest (q_target q) (q_trusted q)
      (q_untrusted q) (q_partial_chain q) (q_crl_check q) (q_crl_check_all q) (Some t) (q_crls q));
  (** flags are added; the time is used when it was set *)
  ctx_flags_spec f c c' q : SSL_X509_VERIFY_PARAM_set_flags f c = (1, c') → requested c = Some q →
    requested c' = Some (mkRequest (q_target q) (q_trusted q) (q_untrusted q)
      (q_partial_chain q || Z.testbit f 19) (q_crl_check q || Z.testbit f 2)
      (q_crl_check_all q || Z.testbit f 3) (q_time q) (q_crls q));
  ctx_crls_spec s c q : requested c = Some q →
    requested (SSL_X509_STORE_CTX_set0_crls s c) = Some (mkRequest (q_target q) (q_trusted q)
      (q_untrusted q) (q_partial_chain q) (q_crl_check q) (q_crl_check_all q) (q_time q)
      (stack_crls s));
  (** there is a chain that the request accepts *)
  accepted : request X509 X509_CRL → Prop;
  verify_cert_spec c q : requested c = Some q → SSL_X509_verify_cert c = 1 ↔ accepted q;
  (** the PEM form: base64 text in lines *)
  cert_base64 : X509 → bytes;
  base64_spec x : Forall (λ b, blank b = false ∧ isspace b = false ∧ b ≠ Byte.x2d ∧
                                byte_val b ≠ 0) (cert_base64 x) ∧ cert_base64 x ≠ [];
  pem_write_spec x b w : mem_bio b w → wp_total (SSL_PEM_write_bio_X509 x) b (λ '(rv, _) b',
    rv = 1 → ∃ t, broken (cert_base64 x) t ∧
      mem_bio b' (w ++ three_lines BEGIN_CERTIFICATE t END_CERTIFICATE ++ newline));
  pem_read_spec x t b : broken (cert_base64 x) t →
    mem_bio b (three_lines BEGIN_CERTIFICATE t END_CERTIFICATE) →
    wp_total SSL_PEM_read_bio_X509 b (λ o _, ∀ x', o = Some x' → cert_base64 x' = cert_base64 x);
  pem_read_empty_spec b : mem_bio b [] → wp_total SSL_PEM_read_bio_X509 b (λ o _, o = None);
}.

(** The extensions that can be made for a certificate with a key: a path length is not
    negative, some usage is allowed, and an identifier is computed from the key. *)
Inductive buildable {K} (key : option K) : ExtensionPtr → Prop :=
| buildable_constraints b : (_ca b = true → 0 ≤ _pathlength b) →
    buildable key (to_basic_constraints b)
| buildable_usage k : k ≠ KeyUsageBuilder.new → buildable key (to_extension KeyUsage_base k)
| buildable_identifier : key ≠ None →
    buildable key (to_extension SubjectKeyIdentifier_base subjectKeyIdentifier).

(** OpenSSL carries the calls out. *)
Record X509Works `{spec : X509Spec} : Prop := {
  x509_bio_works : BioWorks bspec;
  new_works : SSL_X509_new ≠ None;
  set_subject_works n x : (SSL_X509_set_subject_name n x).1 = 1;
  set_issuer_works n x : (SSL_X509_set_issuer_name n x).1 = 1;
  set_pubkey_works k x : key_type k ∈ key_types → (SSL_X509_set_pubkey k x).1 = 1;
  set_notBefore_works t x : (SSL_X509_set_notBefore t x).1 = 1;
  set_notAfter_works t x : (SSL_X509_set_notAfter t x).1 = 1;
  ext_conf_works e x : buildable (v_key (view x)) e →
    SSL_X509V3_EXT_conf_nid x (ptr_nid e) (c_str (ptr_string e)) ≠ None;
  add_ext_works e x : (SSL_X509_add_ext e (-1) x).1 = 1;
  sign_x509_works k m x e : signs k m →
    wp_total (SSL_X509_sign k m x) e (λ r _, 0 < r.1);
  dup_works t : SSL_ASN1_STRING_dup t ≠ None;
  int_new_works : SSL_ASN1_INTEGER_new ≠ None;
  set_serial_works i x : 0 ≤ int_value i → 0 < (SSL_X509_set_serialNumber i x).1;
  store_new_works : SSL_X509_STORE_new ≠ None;
  store_add_works x s : (SSL_X509_STORE_add_cert x s).1 = 1;
  sk_new_works : SSL_sk_X509_new_null ≠ None;
  sk_push_works x s : 0 < (SSL_sk_X509_push x s).1;
  sk_crl_new_works : SSL_sk_X509_CRL_new_null ≠ None;
  sk_crl_push_works x s : 0 < (SSL_sk_X509_CRL_push x s).1;
  ctx_new_works : SSL_X509_STORE_CTX_new ≠ None;
  ctx_init_works store x chain c : (SSL_X509_STORE_CTX_init store x chain c).1 = 1;
  ctx_param_works c : SSL_X509_STORE_CTX_get0_param c ≠ None;
  ctx_flags_works f c : (SSL_X509_VERIFY_PARAM_set_flags f c).1 = 1;
  pem_write_works x b w : mem_bio b w → succeeds (SSL_PEM_write_bio_X509 x) b;
  pem_read_works x t b : broken (cert_base64 x) t →
    mem_bio b (three_lines BEGIN_CERTIFICATE t END_CERTIFICATE) →
    gives_object SSL_PEM_read_bio_X509 b;
}.
Arguments X509Works {bio bspec evp md dig pkey asym name time api} spec.

(** ** Verification *)

Section Verify.
Context {bio : BioAPI} {bspec : BioSpec bio} {evp : EvpCipherAPI} {md : EvpMdAPI}.
Context {dig : EvpDigestAPI md} {pkey : EvpPkeyAPI bio evp} {asym : AsymmetricAPI dig pkey}.
Context {name : X509NameAPI bio} {time : Asn1TimeAPI bio} {api : X509API asym name time}.
Context {spec : X509Spec api}.

(** The request that a verification context stands for. *)
Definition request_of (x : X509) (c : VerificationContext X509 X509_CRL) :
    request X509 X509_CRL :=
  mkRequest x (_trustedCerts c) (_intermediateCerts c)
    (negb (_enforceSelfSignedRootCertificate c))
    (negb (bool_decide (_crls c = [])) || _enforceCrlForWholeChain c)
    (_enforceCrlForWholeChain c) (_verificationCheckTime c) (_crls c).

(** A context that [validityCheck] accepts. *)
Definition valid_context {X C} (c : VerificationContext X C) : Prop :=
  _enforceCrlForWholeChain c = true →
  _enforceSelfSignedRootCertificate c = true ∧ _crls c ≠ [].

Lemma validityCheck_spec {X C} (c : VerificationContext X C) :
  match Verification.validityCheck c with
  | Val _ => valid_context c
  | Throw (MoCOCrWException _) => ¬ valid_context c
  | Throw _ => False
  end.
Proof.
  unfold Verification.validityCheck, valid_context.
  destruct c as [t i [|r l] [] [] k]; cbn; try (by intros H; destruct (H eq_refl)); by intros.
Qed.

Lemma flags_spec {X C} (c : VerificationContext X C) :
  Z.testbit (Verification.flags c) 19 = negb (_enforceSelfSignedRootCertificate c) ∧
  Z.testbit (Verification.flags c) 2 =
    negb (bool_decide (length (_crls c) = 0%nat)) || _enforceCrlForWholeChain c ∧
  Z.testbit (Verification.flags c) 3 = _enforceCrlForWholeChain c.
Proof. by destruct c as [t i [|r l] [] [] []]. Qed.

Lemma ofold_spec {A S} W (content : S → list A) (f : S → A → outcome S) :
  (∀ s x, prepares W (f s x) (λ s', content s' = content s ++ [x])) →
  ∀ l s, prepares W (ofold f s l) (λ s', content s' = content s ++ l).
Proof.
  intros Hf l. induction l as [|x l IH]; intros s; cbn [ofold].
  - cbn. by rewrite app_nil_r.
  - eapply prepares_bind; [apply Hf|done|]. intros s' Hs'. cbn.
    rewrite cons_middle, app_assoc, <-Hs'. apply IH.
Qed.

Lemma ofold_spec_from {A S} W (content : S → list A) (f : S → A → outcome S) l s :
  (∀ s x, prepares W (f s x) (λ s', content s' = content s ++ [x])) → content s = [] →
  prepares W (ofold f s l) (λ s', content s' = l).
Proof. intros Hf Hs. pose proof (ofold_spec W content f Hf l s) as H. by rewrite Hs in H. Qed.

Abbreviation carried_out := (X509Works spec).

Lemma add_cert_ok s x :
  prepares carried_out (_X509_STORE_add_cert s x) (λ s', store_certs s' = store_certs s ++ [x]).
Proof. apply prepares_one; [intros HW; apply (store_add_works HW)|]. intros s'. apply store_add_spec. Qed.

Lemma intermediates_ok l :
  prepares carried_out (buildStackFromContainer STACK_OF_X509_create addX509ToStack l)
    (λ s, stack_certs s = l).
Proof.
  unfold buildStackFromContainer.
  eapply prepares_bind; [apply (prepares_ptr carried_out); [apply sk_new_works|apply sk_new_spec]|done|].
  intros s Hs. apply (ofold_spec_from _ stack_certs); [|done]. intros s' x.
  apply prepares_positive; [intros HW; apply (sk_push_works HW)|].
  intros rv s'' H Hrv. by eapply sk_push_spec.
Qed.

Lemma crls_ok l :
  prepares carried_out (buildStackFromContainer STACK_OF_CRL_create addCrlToStack l)
    (λ s, stack_crls s = l).
Proof.
  unfold buildStackFromContainer.
  eapply prepares_bind;
    [apply (prepares_ptr carried_out); [apply sk_crl_new_works|apply sk_crl_new_spec]|done|].
  intros s Hs. apply (ofold_spec_from _ stack_crls); [|done]. intros s' x.
  apply prepares_positive; [intros HW; apply (sk_crl_push_works HW)|].
  intros rv s'' H Hrv. by eapply sk_crl_push_spec.
Qed.

(** A check that decides [P], up to OpenSSL's own failures. *)
Definition decides (W : Prop) (o : outcome ()) (P : Prop) : Prop :=
  match o with
  | Val _ => P
  | Throw (MoCOCrWException _) => ¬ P
  | Throw e => e = OpenSSLException [ErrorQueue] ∧ ¬ W
  end.

Lemma decides_prepares {A} W (o : outcome A) (k : A → outcome ()) P Q :
  prepares W o P → (∀ a, P a → decides W (k a) Q) → decides W (let? a := o in k a) Q.
Proof. intros Ho Hk. by eapply prepares_bind. Qed.

Lemma decides_iff W (o : outcome ()) P Q : decides W o P → (P ↔ Q) → decides W o Q.
Proof. unfold decides. destruct o as [|[]]; tauto. Qed.

Lemma decides_seq W (o k : outcome ()) P Q R :
  decides W o P → (P → decides W k Q) → (R ↔ P ∧ Q) → decides W (let? _ := o in k) R.
Proof.
  unfold decides. intros Ho Hk HR. destruct o as [u|[]]; cbn [obind]; try done.
  - specialize (Hk Ho). destruct k as [|[]]; tauto.
  - tauto.
Qed.

Lemma decides_if W (b : bool) w (k : outcome ()) Q R :
  decides W k Q → (R ↔ b = false ∧ Q) →
  decides W (if b then Throw (MoCOCrWException w) else k) R.
Proof.
  unfold decides. intros Hk HR. destruct b; [by intros [? _]%HR|].
  destruct k as [|[]]; tauto.
Qed.

Lemma request_ok x c :
  decides carried_out (let? caStore := X509_STORE_create in
    let? caStore := ofold _X509_STORE_add_cert caStore (_trustedCerts c) in
    let? chain := buildStackFromContainer STACK_OF_X509_create addX509ToStack
      (_intermediateCerts c) in
    let? ctx := X509_STORE_CTX_create in
    let? ctx := _X509_STORE_CTX_init caStore x chain ctx in
    let? param := _X509_STORE_CTX_get0_param ctx in
    let ctx := match _verificationCheckTime c with
               | Some t => _X509_STORE_CTX_set_time t ctx | None => ctx end in
    let? ctx := _X509_VERIFY_PARAM_set_flags (Verification.flags c) ctx in
    let? ctx := match _crls c with
      | [] => Val ctx
      | _ => let? crlStack := buildStackFromContainer STACK_OF_CRL_create addCrlToStack (_crls c) in
             Val (_X509_STORE_CTX_set0_crls crlStack ctx) end in
    as_mococrw (_X509_verify_cert ctx)) (accepted (request_of x c)).
Proof.
  eapply decides_prepares; [apply prepares_ptr; [apply store_new_works|apply store_new_spec]|].
  intros s0 Hs0. eapply decides_prepares; [apply (ofold_spec _ store_certs), add_cert_ok|].
  intros store Hstore. rewrite Hs0 in Hstore. cbn in Hstore.
  eapply decides_prepares; [apply intermediates_ok|]. intros chain Hchain.
  apply (decides_prepares _ _ _ (λ _, True)); [apply prepares_ptr; [apply ctx_new_works|done]|].
  intros c0 _. eapply decides_prepares;
    [apply prepares_one; [intros HW; apply (ctx_init_works HW)|intros c1; apply ctx_init_spec]|].
  intros c1 Hc1. rewrite Hstore, Hchain in Hc1.
  apply (decides_prepares _ _ _ (λ _, True));
    [apply prepares_ptr; [intros HW; apply (ctx_param_works HW)|done]|]. intros [] _. cbn zeta.
  set (c2 := match _verificationCheckTime c with Some t => _ | None => _ end).
  assert (Hc2 : requested c2 = Some (mkRequest x (_trustedCerts c) (_intermediateCerts c)
    false false false (_verificationCheckTime c) [])).
  { unfold c2, _X509_STORE_CTX_set_time. destruct (_verificationCheckTime c); [|done].
    by rewrite (ctx_time_spec _ _ _ Hc1). }
  eapply decides_prepares; [apply prepares_one; [intros HW; apply (ctx_flags_works HW)|];
    intros c3 H; apply (ctx_flags_spec _ _ _ _ H Hc2)|].
  cbn [q_target q_trusted q_untrusted q_partial_chain q_crl_check q_crl_check_all q_time q_crls orb].
  destruct (flags_spec c) as (-> & -> & ->). intros c3 Hc3.
  apply (decides_prepares _ _ _ (λ c4, requested c4 = Some (request_of x c))).
  { unfold request_of. destruct (_crls c) as [|r l] eqn:Hcrls; [done|].
    eapply prepares_bind; [apply crls_ok|done|]. intros stack Hstack. cbn.
    unfold _X509_STORE_CTX_set0_crls. by rewrite (ctx_crls_spec _ _ _ Hc3), Hstack. }
  intros c4 Hc4. unfold _X509_verify_cert.
  destruct (Z.eqb_spec (SSL_X509_verify_cert c4) 1) as [H|H];
    rewrite (verify_cert_spec _ _ Hc4) in H; cbn; tauto.
Qed.

Lemma verify_spec x c :
  decides carried_out (X509Certificate.verify x c) (valid_context c ∧ accepted (request_of x c)).
Proof.
  unfold X509Certificate.verify. pose proof (validityCheck_spec c) as Hv.
  eapply decides_seq; [|intros _; apply request_ok|done].
  by destruct (Verification.validityCheck c) as [u|[]].
Qed.

(** C7. Certificate verification: [verify] asks OpenSSL for a chain to a trusted
    certificate over the intermediate ones, at the chosen time, with the CRLs of
    the context; partial chains are allowed unless the root has to be self signed;
    CRLs are checked when there are some or all have to be there.  It returns
    exactly when the context is valid and the chain is accepted; a refusal is a
    MoCOCrWException, any other exception a failed preparation, which a working OpenSSL
    does not have.  The overload with two vectors asks for partial chains and no CRLs. *)
Theorem verify_request (x : X509) (c : VerificationContext X509 X509_CRL)
    (roots intermediates : list X509) :
  decides (X509Works spec) (X509Certificate.verify x c)
    (valid_context c ∧ accepted (request_of x c)) ∧
  decides (X509Works spec) (X509Certificate.verify_with x roots intermediates)
    (accepted (mkRequest x roots intermediates true false false None [])).
Proof.
  split; [apply verify_spec|]. unfold X509Certificate.verify_with.
  set (c' := Verification.addIntermediateCertificates _ _).
  assert (Hc : valid_context c') by done.
  eapply decides_iff; [apply (verify_spec x c')|].
  change (request_of x c') with
    (mkRequest x roots intermediates true false false None ([] : list X509_CRL)). tauto.
Qed.
End Verify.

(** ** Serial numbers *)

Section Serial.
Context {bio : BioAPI} {bspec : BioSpec bio} {evp : EvpCipherAPI} {md : EvpMdAPI}.
Context {dig : EvpDigestAPI md} {pkey : EvpPkeyAPI bio evp} {asym : AsymmetricAPI dig pkey}.
Context {name : X509NameAPI bio} {time : Asn1TimeAPI bio} {api : X509API asym name time}.
Context {spec : X509Spec api}.
Abbreviation carried_out := (X509Works spec).

Lemma int_set_one v i : - LONG_MAX ≤ v ≤ LONG_MAX →
  ∃ i', run_pure (OpensslCallIsOne (ret (SSL_ASN1_INTEGER_set v i))) = Val i' ∧
        run_pure (OpensslCallIsPositive (ret (SSL_ASN1_INTEGER_set v i))) = Val i' ∧
        int_value i' = v.
Proof.
  intros Hv. destruct (int_set_spec v i Hv) as (i' & H & Hi'). exists i'.
  by rewrite run_pure_IsOne, run_pure_IsPositive, H.
Qed.

Lemma int64_value i : is_Some SSL_ASN1_INTEGER_new →
  Asn1IntegerToInt64 i =
    if (0 <=? int_value i) && (int_value i <=? LONG_MAX) then Val (int_value i)
    else Throw (OpenSSLException [Str "Number is out of the accepted range."]).
Proof.
  intros [n Hn]. unfold Asn1IntegerToInt64, ASN1_INTEGER_create. rewrite run_pure_Ptr, Hn.
  cbn [obind].
  destruct (int_set_one 0 n ltac:(unfold LONG_MAX; lia)) as (z & -> & _ & Hz).
  destruct (int_set_one LONG_MAX n ltac:(unfold LONG_MAX; lia)) as (m & -> & _ & Hm).
  cbn [obind]. rewrite !int_cmp_spec, Hz, Hm.
  destruct (Z.compare_spec (int_value i) LONG_MAX) as [He|He|He];
    destruct (Z.compare_spec (int_value i) 0) as [H0|H0|H0]; cbn [Z.ltb Z.compare orb];
    destruct (Z.leb_spec 0 (int_value i)), (Z.leb_spec (int_value i) LONG_MAX);
    cbn [andb]; unfold LONG_MAX in *; try lia; try done;
    rewrite int_get_spec by (unfold LONG_MAX; lia); rewrite to_size_t_id by (unfold SIZE_MAX; lia);
    done.
Qed.

Lemma string_value i : 0 ≤ int_value i → Asn1IntegerToString i = Val (decimal (int_value i)).
Proof.
  intros Hi. unfold Asn1IntegerToString. rewrite run_pure_Ptr.
  destruct (int_bn_spec i) as (n & -> & Hn). cbn [obind]. rewrite run_pure_Ptr.
  rewrite bn_dec_spec by lia. by rewrite Hn.
Qed.

(** Zero has no bytes, which the code takes for an error. *)
Lemma binary_value i : 0 ≤ int_value i →
  match Asn1IntegerToBinary i with
  | Val b => 0 < int_value i ∧ be_value b = int_value i ∧ 256 ^ (size b - 1) ≤ int_value i
  | Throw e => int_value i = 0 ∧ e = OpenSSLException [ErrorQueue]
  end.
Proof.
  intros Hi. unfold Asn1IntegerToBinary. rewrite run_pure_Ptr.
  destruct (int_bn_spec i) as (n & -> & Hn). cbn [obind]. rewrite run_pure_IsPositive.
  assert (Hn0 : 0 ≤ big_value n) by lia.
  destruct (bn_bytes_spec n Hn0) as (Hk & Hlt & Hge & Hb). cbn [fst snd].
  rewrite Hn in *. destruct (Z.ltb_spec 0 (SSL_BN_num_bytes n)) as [Hp|Hp]; cbn [obind].
  - rewrite Hb, run_pure_IsPositive. cbn [fst snd]. set (k := SSL_BN_num_bytes n) in *.
    destruct (Z.ltb_spec 0 k); [|lia]. cbn [obind].
    assert (Hs : size (be_bytes (Z.to_nat k) (int_value i)) = k)
      by (unfold size; rewrite length_be_bytes; lia).
    destruct (write_buffer_resize (zeros k) (be_bytes (Z.to_nat k) (int_value i))) as (b & -> & Hr).
    { rewrite Hs, size_zeros; lia. }
    cbn [obind]. rewrite Hs in Hr. rewrite Hr. specialize (Hge ltac:(done)).
    rewrite Hs. split; [|split; [|done]].
    + assert (0 < 256 ^ (k - 1)) by (apply Z.pow_pos_nonneg; lia). lia.
    + apply be_value_bytes. by rewrite Z2Nat.id by lia.
  - assert (SSL_BN_num_bytes n = 0) as Hz by lia. rewrite Hz in Hlt. cbn in Hlt.
    split; [lia|done].
Qed.

Lemma set_serial_ok serial x : 0 ≤ serial →
  match _X509_set_serialNumber serial x with
  | Val x' => serial ≤ LONG_MAX ∧ view x' = with_serial serial (view x)
  | Throw e => (∃ w, e = OpenSSLException w) ∧ (serial ≤ LONG_MAX → ¬ carried_out)
  end.
Proof.
  intros Hs. unfold _X509_set_serialNumber.
  destruct (Z.ltb_spec LONG_MAX serial) as [Hl|Hl]; [split; [by eexists|lia]|].
  unfold ASN1_INTEGER_create. rewrite run_pure_Ptr.
  destruct SSL_ASN1_INTEGER_new as [i|] eqn:Hnew; cbn [obind].
  2:{ split; [by eexists|]. intros _ HW. by apply (int_new_works HW). }
  rewrite to_int64_id by (unfold LONG_MIN, LONG_MAX in *; lia).
  destruct (int_set_one serial i ltac:(unfold LONG_MAX in *; lia)) as (i' & _ & -> & Hi').
  cbn [obind]. rewrite run_pure_IsPositive.
  assert (Hi0 : 0 ≤ int_value i') by lia.
  destruct (set_serial_spec i' x Hi0) as (rv & x' & Hset & Hx'). rewrite Hset. cbn.
  destruct (Z.ltb_spec 0 rv); [rewrite <-Hi' at 2; split; [done|auto]|].
  split; [by eexists|]. intros _ HW. pose proof (set_serial_works HW i' x Hi0) as H1.
  rewrite Hset in H1. cbn in H1. lia.
Qed.

(** C16. Serial numbers: [getSerialNumber] gives the number when it fits a [long] and is
    not negative, and reports any other.  A number that
    [_X509_set_serialNumber] set is given back as a number, in decimal and, unless
    it is 0, as its shortest big-endian bytes; the binary form of 0 is reported as
    an error.  Numbers above the largest [long] are refused, all others are set by a
    working OpenSSL. *)
Theorem serial_numbers (x : X509) (serial : Z) (Hs : 0 ≤ serial ≤ SIZE_MAX)
    (Hnew : is_Some SSL_ASN1_INTEGER_new) :
  X509Certificate.getSerialNumber x =
    (let v := v_serial (view x) in
     if (0 <=? v) && (v <=? LONG_MAX) then Val v
     else Throw (OpenSSLException [Str "Number is out of the accepted range."])) ∧
  match _X509_set_serialNumber serial x with
  | Val x' =>
      serial ≤ LONG_MAX ∧ X509Certificate.getSerialNumber x' = Val serial ∧
      X509Certificate.getSerialNumberDecimal x' = Val (decimal serial) ∧
      match X509Certificate.getSerialNumberBinary x' with
      | Val b => 0 < serial ∧ be_value b = serial ∧ 256 ^ (size b - 1) ≤ serial
      | Throw e => serial = 0 ∧ e = OpenSSLException [ErrorQueue]
      end
  | Throw e => (∃ w, e = OpenSSLException w) ∧ (serial ≤ LONG_MAX → ¬ X509Works spec)
  end.
Proof.
  assert (Hget : ∀ y, X509Certificate.getSerialNumber y =
     if (0 <=? v_serial (view y)) && (v_serial (view y) <=? LONG_MAX) then Val (v_serial (view y))
     else Throw (OpenSSLException [Str "Number is out of the accepted range."])).
  { intros y. unfold X509Certificate.getSerialNumber, _X509_get_serialNumber. rewrite run_pure_Ptr.
    destruct (get_serial_spec y) as (i & -> & Hi). cbn [obind]. by rewrite int64_value, Hi. }
  split; [apply Hget|].
  pose proof (set_serial_ok serial x ltac:(lia)) as Hset.
  destruct (_X509_set_serialNumber serial x) as [x'|]; [|done]. destruct Hset as [Hl Hv].
  assert (Hser : v_serial (view x') = serial) by (rewrite Hv; by destruct (view x)).
  rewrite Hget, Hser. unfold X509Certificate.getSerialNumberDecimal,
    X509Certificate.getSerialNumberBinary, _X509_get_serialNumber_dec, _X509_get_serialNumber_bin.
  rewrite !run_pure_Ptr. destruct (get_serial_spec x') as (i & -> & Hi). cbn [obind].
  rewrite Hser in Hi. rewrite string_value by lia. rewrite Hi.
  assert (Hi0 : 0 ≤ int_value i) by lia. pose proof (binary_value i Hi0) as Hb. rewrite Hi in Hb.
  destruct (Z.leb_spec 0 serial), (Z.leb_spec serial LONG_MAX); try lia. done.
Qed.
End Serial.
