(* ===== verification/X509Chain.v ===== *)
(** * Certificate chains: composing the PEM functions with the certificates

    [loadPEMChain] splits a text, reformats each element and lets OpenSSL read it. *)

From S2P Require Import Prelude CheckCall Util SymmetricCrypto OpenSSLWrap Hash Bio Key Pem Asn1Time.
From S2P Require Import DistinguishedName Padding AsymmetricCtx Extensions X509 X509Facts.

(** ** The characters of PEM texts *)

Definition base64_char (b : Byte.byte) : Prop :=
  blank b = false ∧ isspace b = false ∧ b ≠ Byte.x2d ∧ byte_val b ≠ 0.

(** Nothing between base64 text and its lines but newlines. *)
Lemma broken_chars s t : broken s t →
  Forall base64_char s → Forall (λ b, base64_char b ∨ b = Byte.x0a) t.
Proof.
  induction 1 as [x Hx|x y t Hx Hy Hb IH]; intros Hs.
  - eapply Forall_impl; [exact Hs|]. by left.
  - apply Forall_app in Hs as [Hs1 Hs2]. apply Forall_app. split.
    + eapply Forall_impl; [exact Hs1|]. by left.
    + constructor; [by right|auto].
Qed.

Lemma broken_length s t : broken s t → (length t ≤ 2 * length s)%nat.
Proof.
  induction 1 as [x Hx|x y t Hx Hy Hb IH]; [lia|]. rewrite !length_app. cbn.
  destruct y as [|c y]; [done|]. unfold size in Hx. cbn in *. lia.
Qed.

Lemma head_last {A} (s : list A) : s ≠ [] → ∃ c x y d, s = c :: x ∧ s = y ++ [d].
Proof.
  intros Hs. destruct s as [|c x]; [done|].
  destruct (exists_last Hs) as (y & d & Hd). by exists c, x, y, d.
Qed.

Lemma broken_unblank s t : broken s t → s ≠ [] → Forall base64_char s → unblank t.
Proof.
  intros Hb. induction Hb as [x Hx|x y t Hx Hy Hb IH]; intros Hne Hs.
  - destruct (head_last x Hne) as (c & x' & y' & d & Hc & Hd). exists c, x', y', d.
    assert (Hin : c ∈ x ∧ d ∈ x).
    { split; [rewrite Hc; by left|rewrite Hd; apply elem_of_app; right; by left]. }
    rewrite Forall_forall in Hs.
    by destruct Hin as [[? _]%Hs [? _]%Hs].
  - apply Forall_app in Hs as [Hs1 Hs2].
    destruct (IH Hy Hs2) as (c & x' & y' & d & Hc & Hd & Ht & Ht').
    destruct x as [|a x]; [done|]. exists a, (x ++ newline ++ t), ((a :: x) ++ newline ++ y'), d.
    apply Forall_cons in Hs1 as [[Ha _] _].
    split_and!; [done|done|done|]. rewrite Ht' at 1. by rewrite <-!app_assoc.
Qed.

Lemma despace_base64 s : Forall base64_char s → despace s = s.
Proof.
  induction 1 as [|b s (_ & Hb & _) Hs IH]; [done|]. unfold despace in *.
  rewrite filter_cons_True by done. by rewrite IH.
Qed.

Lemma despace_broken s t : broken s t → Forall base64_char s → despace t = s.
Proof.
  induction 1 as [x Hx|x y t Hx Hy Hb IH]; intros Hs; [by apply despace_base64|].
  apply Forall_app in Hs as [Hs1 Hs2]. unfold despace in *. rewrite !filter_app.
  rewrite IH by done. f_equal. by apply despace_base64.
Qed.

Lemma c_str_no_nul s : Forall (λ b, byte_val b ≠ 0) s → c_str s = s.
Proof.
  induction 1 as [|b s Hb Hs IH]; [done|]. cbn. by destruct (Z.eqb_spec (byte_val b) 0); [|rewrite IH].
Qed.

Lemma pem_no_nul s t : broken s t → Forall base64_char s →
  c_str (three_lines BEGIN_CERTIFICATE t END_CERTIFICATE) =
    three_lines BEGIN_CERTIFICATE t END_CERTIFICATE.
Proof.
  intros Hb Hs. apply c_str_no_nul. unfold three_lines. rewrite !Forall_app.
  split_and!; try (by apply (bool_decide_unpack (Forall (λ b, byte_val b ≠ 0) _)); vm_compute).
  eapply Forall_impl; [by eapply broken_chars|]. by intros b [(_ & _ & _ & ?)| ->].
Qed.

Lemma no_dash s t : broken s t → Forall base64_char s → Byte.x2d ∉ t.
Proof.
  intros Hb Hs Hin. pose proof (broken_chars s t Hb Hs) as H. rewrite Forall_forall in H.
  destruct (H _ Hin) as [(_ & _ & ? & _)|?]; done.
Qed.

(** ** The text of a chain as elements *)

Fixpoint chain_elements (before : bytes) (ts : list bytes) : list element :=
  match ts with
  | [] => []
  | t :: ts' => mkElement before newline t newline :: chain_elements newline ts'
  end.

Abbreviation pem_block B E t := (three_lines B t E ++ newline).
Abbreviation pem_text t := (pem_block BEGIN_CERTIFICATE END_CERTIFICATE t).

Lemma chain_text B E before ts :
  before ++ concat ((λ t, pem_block B E t) <$> ts) =
    concat (element_text B E <$> chain_elements before ts) ++
    (match ts with [] => before | _ => newline end).
Proof.
  revert before. induction ts as [|t ts IH]; intros before; [by rewrite app_nil_r|].
  cbn [fmap list_fmap concat chain_elements]. unfold element_text at 1. cbn [e_before e_lead e_body e_trail].
  rewrite <-app_assoc, IH. unfold three_lines. rewrite <-!app_assoc. by destruct ts.
Qed.

Lemma chain_readable E before ts :
  head E = Some Byte.x2d → blanks before → Forall (λ t, unblank t ∧ Byte.x2d ∉ t) ts →
  Forall (readable E) (chain_elements before ts).
Proof.
  intros HE Hb Hts. revert before Hb.
  induction Hts as [|t ts [Hu Hd] Hts IH]; intros before Hb; constructor.
  - constructor; cbn; try done; try by repeat constructor.
    intros c E' ->. by injection HE as ->.
  - apply IH. by repeat constructor.
Qed.

Lemma chain_pems B E before ts :
  element_pem B E <$> chain_elements before ts = (λ t, three_lines B t E) <$> ts.
Proof. revert before. induction ts as [|t ts IH]; intros before; cbn; [done|]. by rewrite IH. Qed.

Lemma texts_count B E ts : (length ts ≤ length (concat ((λ t, pem_block B E t) <$> ts)))%nat.
Proof.
  induction ts as [|t ts IH]; [done|]. rewrite fmap_cons, concat_cons, !length_app.
  cbn [length]. change (length newline) with 1%nat. lia.
Qed.

Lemma chain_length before ts : length (chain_elements before ts) = length ts.
Proof. revert before. induction ts as [|t ts IH]; intros before; cbn; [done|]. by rewrite IH. Qed.

(** Splitting such a chain gives its elements. *)
Lemma split_blocks fuel B E ts : marker B → head E = Some Byte.x2d →
  Forall (λ t, unblank t ∧ Byte.x2d ∉ t) ts →
  let chain := concat ((λ t, pem_block B E t) <$> ts) in
  size chain < npos → (length chain < fuel)%nat →
  splitPEMChain fuel chain B E = Val ((λ t, three_lines B t E) <$> ts).
Proof.
  intros HB HE Hts chain Hs Hf. unfold chain in *.
  pose proof (chain_text B E [] ts) as Htext. rewrite app_nil_l in Htext.
  pose proof (texts_count B E ts). rewrite Htext, (split_readable fuel B E), chain_pems; try done.
  - destruct E as [|c E']; [done|]. injection HE as ->. by eexists _, _.
  - apply chain_readable; [done|constructor|done].
  - destruct ts; by repeat constructor.
  - by rewrite <-Htext.
  - rewrite chain_length. lia.
Qed.

(** ** Certificates in memory BIOs *)

Section Chain.
Context {bio : BioAPI} {bspec : BioSpec bio} {evp : EvpCipherAPI} {md : EvpMdAPI}.
Context {dig : EvpDigestAPI md} {pkey : EvpPkeyAPI bio evp} {asym : AsymmetricAPI dig pkey}.
Context {name : X509NameAPI bio} {time : Asn1TimeAPI bio} {api : X509API asym name time}.
Context {spec : X509Spec api}.

Lemma toPEM_ok x fuel : (2 * length (cert_base64 x) + 100 < fuel)%nat →
  prepares (X509Works spec) (X509Certificate.toPEM fuel x)
    (λ p, ∃ t, broken (cert_base64 x) t ∧ p = pem_text t).
Proof.
  intros Hf. apply written_string; [by intros HW; apply x509_bio_works| |].
  - intros b d Hb. split; [|by intros HW; eapply pem_write_works].
    eapply wp_mono; [by apply (pem_write_spec x b d)| |done]. intros [rv []] b' H Hrv.
    destruct (H Hrv) as (t & Ht & Hb'). eexists. split; [by exists t|done].
  - intros p (t & Ht & ->). apply broken_length in Ht. unfold three_lines. rewrite !length_app.
    change (length BEGIN_CERTIFICATE) with 27%nat. change (length END_CERTIFICATE) with 25%nat.
    change (length newline) with 1%nat. lia.
Qed.

(** The texts of a certificate are not longer than BIOs can be. *)
Definition short x : Prop := 2 * size (cert_base64 x) + 100 ≤ INT_MAX.

Lemma pem_size x t : short x → broken (cert_base64 x) t →
  1 ≤ size (three_lines BEGIN_CERTIFICATE t END_CERTIFICATE) ≤ INT_MAX.
Proof.
  unfold short. intros Hx Ht%broken_length. unfold three_lines. rewrite !size_app.
  change (size BEGIN_CERTIFICATE) with 27. change (size END_CERTIFICATE) with 25.
  change (size newline) with 1. unfold size in *. lia.
Qed.

Lemma fromPEM_ok x t fuel : short x → broken (cert_base64 x) t →
  let pem := three_lines BEGIN_CERTIFICATE t END_CERTIFICATE in
  size pem < npos → (length pem < fuel)%nat →
  prepares (X509Works spec) (X509Certificate.fromPEM fuel pem)
    (λ x', cert_base64 x' = cert_base64 x).
Proof.
  intros Hshort Ht pem Hs Hf. destruct (base64_spec x) as [Hchars Hne].
  destruct (reformat_between fuel [] (newline ++ t) [] Byte.x0a) as (t' & Hre & Ht').
  { by apply not_elem_of_nil. }
  { rewrite !elem_of_app. intros [[H|H]|H].
    - by apply list_elem_of_singleton in H.
    - by eapply no_dash.
    - by apply list_elem_of_singleton in H. }
  { exact Hs. }
  { exact Hf. }
  assert (Hd : despace (newline ++ t) = cert_base64 x) by exact (despace_broken _ _ Ht Hchars).
  rewrite Hd in Ht'. unfold X509Certificate.fromPEM.
  change pem with ([] ++ BEGIN_CERTIFICATE ++ (newline ++ t) ++ [Byte.x0a] ++ END_CERTIFICATE ++ []).
  rewrite Hre. cbn [obind]. apply read_string.
  - intros HW. split; [by apply x509_bio_works|by apply (pem_size x)].
  - by eapply pem_no_nul.
  - intros b Hb. split; [by apply (pem_read_spec x t')|by intros HW; apply (pem_read_works HW x t')].
  - apply pem_read_empty_spec.
Qed.

(** The texts of certificates that were written. *)
Lemma written_texts fuel xs texts :
  Forall2 (λ x p, X509Certificate.toPEM fuel x = Val p) xs texts →
  Forall (λ x, (2 * length (cert_base64 x) + 100 < fuel)%nat) xs →
  ∃ ts, Forall2 (λ x t, broken (cert_base64 x) t) xs ts ∧ texts = (λ t, pem_text t) <$> ts.
Proof.
  induction 1 as [|x p xs texts Hp Ht IH]; intros Hl; [by exists []|].
  apply Forall_cons in Hl as [Hx Hl]. destruct (IH Hl) as (ts & Hts & ->).
  pose proof (toPEM_ok x fuel Hx) as H. rewrite Hp in H. destruct H as (t & Hb & ->).
  exists (t :: ts). by split; [constructor|].
Qed.

Lemma texts_readable xs ts : Forall2 (λ x t, broken (cert_base64 x) t) xs ts →
  Forall (λ t, unblank t ∧ Byte.x2d ∉ t) ts.
Proof.
  induction 1 as [|x t xs ts Hb Ht IH]; constructor; [|done].
  destruct (base64_spec x) as [Hchars Hne]. split; [by eapply broken_unblank|by eapply no_dash].
Qed.

Lemma omap_fromPEM fuel xs ts : Forall short xs →
  Forall2 (λ x t, broken (cert_base64 x) t) xs ts →
  size (concat ((λ t, pem_text t) <$> ts)) < npos →
  (length (concat ((λ t, pem_text t) <$> ts)) < fuel)%nat →
  prepares (X509Works spec) (omap (X509Certificate.fromPEM fuel)
              ((λ t, three_lines BEGIN_CERTIFICATE t END_CERTIFICATE) <$> ts))
    (λ l, cert_base64 <$> l = cert_base64 <$> xs).
Proof.
  intros Hshort. induction 1 as [|x t xs ts Hb Ht IH]; [done|].
  apply Forall_cons in Hshort as [Hx Hshort].
  rewrite !fmap_cons, concat_cons, !size_app, !length_app. cbn [omap]. intros Hs Hf.
  pose proof (size_nonneg (concat ((λ t, pem_text t) <$> ts))).
  change (size newline) with 1 in Hs.
  pose proof (size_nonneg (three_lines BEGIN_CERTIFICATE t END_CERTIFICATE)).
  eapply prepares_bind; [apply (fromPEM_ok x); [done|done|lia|lia]|done|]. intros x' Hx'.
  eapply prepares_bind; [apply IH; [done|lia|lia]|done|]. intros l Hl.
  cbn [prepares]. by rewrite fmap_cons, Hx', Hl.
Qed.

Lemma toPEM_all fuel xs :
  Forall (λ x, (2 * length (cert_base64 x) + 100 < fuel)%nat) xs →
  prepares (X509Works spec) (omap (X509Certificate.toPEM fuel) xs) (λ texts,
    Forall2 (λ x p, X509Certificate.toPEM fuel x = Val p) xs texts).
Proof.
  induction 1 as [|x xs Hx Hxs IH]; cbn [omap]; [by constructor|].
  pose proof (toPEM_ok x fuel Hx) as Hp. destruct (X509Certificate.toPEM fuel x) as [p|] eqn:Hrun; [|done].
  cbn [obind]. eapply prepares_bind; [apply IH|done|]. intros ps Hps. by constructor.
Qed.

(** C15. Certificate chains: certificates are written with [toPEM], and their texts, one
    behind the other, are read back by [loadPEMChain] as these certificates in
    the same order, or OpenSSL reports an error, which a working OpenSSL does not; no
    text is taken for malformed. *)
Theorem load_chain (fuel : nat) (xs : list X509) (Hshort : Forall short xs)
    (Hlong : Forall (λ x, (2 * length (cert_base64 x) + 100 < fuel)%nat) xs) :
  prepares (X509Works spec) (omap (X509Certificate.toPEM fuel) xs) (λ texts,
    ∀ fuel', size (concat texts) < npos → (length (concat texts) < fuel')%nat →
    prepares (X509Works spec) (loadPEMChain fuel' (concat texts)) (λ l,
      cert_base64 <$> l = cert_base64 <$> xs)).
Proof.
  pose proof (toPEM_all fuel xs Hlong) as Hall. unfold prepares at 1 in Hall.
  destruct (omap _ xs) as [texts|]; [|done]. cbn. intros fuel' Hsize Hfuel.
  destruct (written_texts fuel xs texts Hall Hlong) as (ts & Hts & ->).
  unfold loadPEMChain. rewrite (split_blocks fuel' BEGIN_CERTIFICATE END_CERTIFICATE);
    [|by eexists _, _|done|by eapply texts_readable|done|done].
  by apply omap_fromPEM.
Qed.
End Chain.
