(* ===== verification/Csr.v ===== *)
(** * Certificate signing requests: [src/src/csr.cpp], [src/src/mococrw/csr.h] and the
      X509_REQ functions of [src/src/openssl_wrap.cpp] *)

From S2P Require Import Prelude CheckCall Util SymmetricCrypto OpenSSLWrap Hash Bio Key Asn1Time.
From S2P Require Import DistinguishedName AsymmetricCtx.

(** ** The OpenSSL functions; setters give the changed object. *)
Class X509ReqAPI {bio : BioAPI} {evp : EvpCipherAPI} {md : EvpMdAPI} {dig : EvpDigestAPI md}
    {pkey : EvpPkeyAPI bio evp} {asym : AsymmetricAPI dig pkey} {name : X509NameAPI bio} := {
  X509_REQ : Type;
  SSL_X509_REQ_new : option X509_REQ;
  SSL_X509_REQ_set_version (version : Z) (r : X509_REQ) : Z * X509_REQ;
  SSL_X509_REQ_set_subject_name (n : X509_NAME) (r : X509_REQ) : Z * X509_REQ;
  SSL_X509_REQ_set_pubkey (k : EVP_PKEY) (r : X509_REQ) : Z * X509_REQ;
  SSL_X509_REQ_get_subject_name (r : X509_REQ) : option X509_NAME;
  SSL_X509_REQ_get_pubkey (r : X509_REQ) : option EVP_PKEY;
  SSL_X509_REQ_sign_ctx (c : EVP_MD_CTX) (r : X509_REQ) : M ENTROPY (Z * X509_REQ);
  SSL_X509_REQ_verify (r : X509_REQ) (k : EVP_PKEY) : Z;
  SSL_PEM_write_bio_X509_REQ (r : X509_REQ) : M BIO (Z * ());
  SSL_PEM_read_bio_X509_REQ : M BIO (option X509_REQ);
  SSL_i2d_X509_REQ_bio (r : X509_REQ) : M BIO (Z * ());
  SSL_d2i_X509_REQ_bio : M BIO (option X509_REQ);
}.
Arguments X509ReqAPI {bio evp md dig pkey} asym name.

(** The object after a procedure that changes it. *)
Definition exec {S} (m : M S ()) (s : S) : outcome S :=
  match m s with (Val _, s') => Val s' | (Throw e, _) => Throw e end.

Lemma exec_wp {S} (m : M S ()) s (P : S → Prop) Ψ :
  wp m s (λ _ s', P s') (λ e _, Ψ e) → match exec m s with Val s' => P s' | Throw e => Ψ e end.
Proof. unfold wp, exec. by destruct (m s) as [[]]. Qed.

Section Wrappers.
Context {bio : BioAPI} {evp : EvpCipherAPI} {md : EvpMdAPI} {dig : EvpDigestAPI md}.
Context {pkey : EvpPkeyAPI bio evp} {asym : AsymmetricAPI dig pkey} {name : X509NameAPI bio}.
Context {api : X509ReqAPI asym name}.

Definition _X509_REQ_new : outcome X509_REQ := run_pure (OpensslCallPtr (ret SSL_X509_REQ_new)).
Definition _X509_REQ_set_version (version : Z) (r : X509_REQ) : outcome X509_REQ :=
  run_pure (OpensslCallIsOne (ret (SSL_X509_REQ_set_version version r))).
Definition _X509_REQ_set_subject_name (n : X509_NAME) (r : X509_REQ) : outcome X509_REQ :=
  run_pure (OpensslCallIsOne (ret (SSL_X509_REQ_set_subject_name n r))).
Definition _X509_REQ_set_pubkey (k : EVP_PKEY) (r : X509_REQ) : outcome X509_REQ :=
  run_pure (OpensslCallIsOne (ret (SSL_X509_REQ_set_pubkey k r))).
Definition _X509_REQ_get_subject_name (r : X509_REQ) : outcome X509_NAME :=
  run_pure (OpensslCallPtr (ret (SSL_X509_REQ_get_subject_name r))).
Definition _X509_REQ_get_public_key (r : X509_REQ) : outcome EVP_PKEY :=
  run_pure (OpensslCallPtr (ret (SSL_X509_REQ_get_pubkey r))).
Definition _X509_REQ_verify (r : X509_REQ) (k : EVP_PKEY) : outcome () :=
  run_pure (OpensslCallIsOne (ret (SSL_X509_REQ_verify r k, ()))).
Definition _X509_REQ_sign_ctx (c : EVP_MD_CTX) (r : X509_REQ) : M ENTROPY X509_REQ :=
  OpensslCallIsPositive (SSL_X509_REQ_sign_ctx c r).
Definition _PEM_write_bio_X509_REQ (r : X509_REQ) : M BIO () :=
  OpensslCallIsOne (SSL_PEM_write_bio_X509_REQ r).
Definition _PEM_read_bio_X509_REQ : M BIO X509_REQ := OpensslCallPtr SSL_PEM_read_bio_X509_REQ.
Definition _i2d_X509_REQ_bio (r : X509_REQ) : M BIO () :=
  OpensslCallIsOne (SSL_i2d_X509_REQ_bio r).
Definition _d2i_X509_REQ_bio : M BIO X509_REQ := OpensslCallPtr SSL_d2i_X509_REQ_bio.
End Wrappers.

(** ** Class [CertificateSigningRequest]: a pointer to its X509_REQ *)

Module CSR.
Section CSR.
Context {bio : BioAPI} {evp : EvpCipherAPI} {md : EvpMdAPI} {dig : EvpDigestAPI md}.
Context {pkey : EvpPkeyAPI bio evp} {asym : AsymmetricAPI dig pkey} {name : X509NameAPI bio}.
Context {api : X509ReqAPI asym name}.

(** The public constructors; EdDSA keys sign without a digest. *)
Definition new (dn : DistinguishedName) (keypair : EVP_PKEY) (digestFunction : DigestTypes) :
    M ENTROPY X509_REQ :=
  let! req := lift _X509_REQ_new in
  let! req := lift (_X509_REQ_set_version 0 req) in
  let! subject := lift _X509_NAME_new in
  let! subject := lift (exec (DN.populateX509Name dn) subject) in
  let! req := lift (_X509_REQ_set_subject_name subject req) in
  let! req := lift (_X509_REQ_set_pubkey keypair req) in
  let! mctx := lift _EVP_MD_CTX_create in
  let! keyType := lift (getType keypair) in
  let digestType := if bool_decide (keyType = ECC_ED) then NONE else digestFunction in
  let! mctx := lift (exec (_EVP_DigestSignInit digestType keypair) mctx) in
  _X509_REQ_sign_ctx mctx req.
Definition new_default (dn : DistinguishedName) (keypair : EVP_PKEY) : M ENTROPY X509_REQ :=
  new dn keypair SHA256.

Definition getPublicKey (r : X509_REQ) : outcome EVP_PKEY := _X509_REQ_get_public_key r.
Definition verify (r : X509_REQ) : outcome () :=
  let? pubkey := _X509_REQ_get_public_key r in
  match _X509_REQ_verify r pubkey with
  | Val u => Val u
  | Throw e => Throw (rewrap e)
  end.
Definition toPEM (fuel : nat) (r : X509_REQ) : outcome bytes :=
  with_bio (_PEM_write_bio_X509_REQ r ;; flushToString fuel).
Definition toPem (fuel : nat) (r : X509_REQ) : outcome bytes := toPEM fuel r.
Definition toDER (fuel : nat) (r : X509_REQ) : outcome bytes :=
  with_bio (_i2d_X509_REQ_bio r ;; flushToVector fuel).
Definition getSubjectName (fuel : nat) (r : X509_REQ) : outcome DistinguishedName :=
  let? internalSubjectName := _X509_REQ_get_subject_name r in
  fromX509Name fuel internalSubjectName.
Definition fromPEM (pem : bytes) : outcome X509_REQ :=
  with_bio (write_string pem ;; _PEM_read_bio_X509_REQ).
Definition fromPEMFile (filename : bytes) : outcome X509_REQ :=
  let? bio := FileBio_new filename READ TEXT in (_PEM_read_bio_X509_REQ bio).1.
Definition fromDER (derData : bytes) : outcome X509_REQ :=
  with_bio (write_vector derData ;; _d2i_X509_REQ_bio).
Definition fromDERFile (filename : bytes) : outcome X509_REQ :=
  let? bio := FileBio_new filename READ BINARY in (_d2i_X509_REQ_bio bio).1.
End CSR.
End CSR.
