(* ===== verification/Crl.v ===== *)
(** * Certificate revocation lists: [src/src/crl.cpp], [src/src/mococrw/crl.h] and the
      X509_CRL functions of [src/src/openssl_wrap.cpp] *)

From S2P Require Import Prelude CheckCall Util SymmetricCrypto OpenSSLWrap Hash Bio Key Pem Asn1Time.
From S2P Require Import DistinguishedName AsymmetricCtx Extensions X509.

(** ** The OpenSSL functions *)
Class X509CrlAPI {bio : BioAPI} {evp : EvpCipherAPI} {md : EvpMdAPI} {dig : EvpDigestAPI md}
    {pkey : EvpPkeyAPI bio evp} {asym : AsymmetricAPI dig pkey} {name : X509NameAPI bio}
    {time : Asn1TimeAPI bio} {x509 : X509API asym name time} := {
  SSL_X509_CRL_get_issuer (c : X509_CRL) : option X509_NAME;
  SSL_X509_CRL_verify (c : X509_CRL) (k : EVP_PKEY) : Z;
  SSL_X509_CRL_get_lastUpdate (c : X509_CRL) : option ASN1_TIME;
  SSL_X509_CRL_get_nextUpdate (c : X509_CRL) : option ASN1_TIME;
  SSL_PEM_write_bio_X509_CRL (c : X509_CRL) : M BIO (Z * ());
  SSL_PEM_read_bio_X509_CRL : M BIO (option X509_CRL);
  SSL_d2i_X509_CRL_bio : M BIO (option X509_CRL);
}.
Arguments X509CrlAPI {bio evp md dig pkey asym name time} x509.

Section Wrappers.
Context {bio : BioAPI} {evp : EvpCipherAPI} {md : EvpMdAPI} {dig : EvpDigestAPI md}.
Context {pkey : EvpPkeyAPI bio evp} {asym : AsymmetricAPI dig pkey}.
Context {name : X509NameAPI bio} {time : Asn1TimeAPI bio} {x509 : X509API asym name time}.
Context {api : X509CrlAPI x509}.

Definition _d2i_X509_CRL_bio : M BIO X509_CRL := OpensslCallPtr SSL_d2i_X509_CRL_bio.
Definition _PEM_read_bio_X509_CRL : M BIO X509_CRL := OpensslCallPtr SSL_PEM_read_bio_X509_CRL.
Definition _PEM_write_bio_X509_CRL (c : X509_CRL) : M BIO () :=
  OpensslCallIsOne (SSL_PEM_write_bio_X509_CRL c).
Definition _X509_CRL_get_issuer (c : X509_CRL) : outcome X509_NAME :=
  run_pure (OpensslCallPtr (ret (SSL_X509_CRL_get_issuer c))).
Definition _X509_CRL_verify (c : X509_CRL) (k : EVP_PKEY) : outcome () :=
  run_pure (OpensslCallIsOne (ret (SSL_X509_CRL_verify c k, ()))).
Definition _X509_CRL_get_lastUpdate (c : X509_CRL) : outcome ASN1_TIME :=
  run_pure (OpensslCallPtr (ret (SSL_X509_CRL_get_lastUpdate c))).
Definition _X509_CRL_get_nextUpdate (c : X509_CRL) : outcome ASN1_TIME :=
  run_pure (OpensslCallPtr (ret (SSL_X509_CRL_get_nextUpdate c))).
End Wrappers.

(** ** Class [CertificateRevocationList]: a pointer to its X509_CRL *)

Module CRL.
Section CRL.
Context {bio : BioAPI} {evp : EvpCipherAPI} {md : EvpMdAPI} {dig : EvpDigestAPI md}.
Context {pkey : EvpPkeyAPI bio evp} {asym : AsymmetricAPI dig pkey}.
Context {name : X509NameAPI bio} {time : Asn1TimeAPI bio} {x509 : X509API asym name time}.
Context {api : X509CrlAPI x509}.

Definition getIssuerName (fuel : nat) (c : X509_CRL) : outcome DistinguishedName :=
  let? issuer := _X509_CRL_get_issuer c in fromX509Name fuel issuer.
Definition getLastUpdateAsn1 (c : X509_CRL) : outcome ASN1_TIME :=
  let? t := _X509_CRL_get_lastUpdate c in Asn1Time.copy t.
Definition getNextUpdateAsn1 (c : X509_CRL) : outcome ASN1_TIME :=
  let? t := _X509_CRL_get_nextUpdate c in Asn1Time.copy t.

Definition verify (fuel : nat) (c : X509_CRL) (signer : X509) : outcome () :=
  let? issuer := getIssuerName fuel c in
  let? subject := X509Certificate.getSubjectDistinguishedName fuel signer in
  if negb (DN.eq issuer subject) then
    Throw (MoCOCrWException [Str "CRL issuer name doesn't match the provided certificate"])
  else
    let? publicKey := X509Certificate.getPublicKey signer in
    match _X509_CRL_verify c publicKey with
    | Throw (OpenSSLException w) =>
        Throw (MoCOCrWException (Str "Error while verifying CRL signature: " :: w))
    | o => o
    end.

Definition toPEM (fuel : nat) (c : X509_CRL) : outcome bytes :=
  with_bio (_PEM_write_bio_X509_CRL c ;; flushToString fuel).
Definition fromDER (derData : bytes) : outcome X509_CRL :=
  with_bio (write_vector derData ;; _d2i_X509_CRL_bio).
Definition fromDERFile (filename : bytes) : outcome X509_CRL :=
  let? bio := FileBio_new filename READ BINARY in (_d2i_X509_CRL_bio bio).1.
Definition fromPEM (pem : bytes) : outcome X509_CRL :=
  with_bio (write_string pem ;; _PEM_read_bio_X509_CRL).
(** The file is opened as a binary one. *)
Definition fromPEMFile (filename : bytes) : outcome X509_CRL :=
  let? bio := FileBio_new filename READ BINARY in (_PEM_read_bio_X509_CRL bio).1.

(** [util::loadCrlPEMChain] *)
Definition beginMarker : bytes := str "-----BEGIN X509 CRL-----".
Definition endMarker : bytes := str "-----END X509 CRL-----".
Definition loadCrlPEMChain (fuel : nat) (pemChain : bytes) : outcome (list X509_CRL) :=
  let? pemList := splitPEMChain fuel pemChain beginMarker endMarker in
  omap fromPEM pemList.
End CRL.
End CRL.
