(* ===== verification/Ca.v ===== *)
(** * The certificate authority: [src/src/ca.cpp] and [src/src/mococrw/ca.h]

    [clock] is what [std::chrono::system_clock::now] reads during the call.  A
    CertificateAuthority signs in a state of its own object and OpenSSL's random
    number generator. *)

From S2P Require Import Prelude CheckCall Util SymmetricCrypto OpenSSLWrap Hash Bio Key Pem Asn1Time.
From S2P Require Import DistinguishedName AsymmetricCtx Extensions X509 Csr.

Module CA.
Section CA.
Context {bio : BioAPI} {evp : EvpCipherAPI} {md : EvpMdAPI} {dig : EvpDigestAPI md}.
Context {pkey : EvpPkeyAPI bio evp} {asym : AsymmetricAPI dig pkey}.
Context {name : X509NameAPI bio} {time : Asn1TimeAPI bio} {x509 : X509API asym name time}.
Context {req : X509ReqAPI asym name}.

Record CertificateAuthority := mkCA {
  _defaultSignParams : CertificateSigningParameters;
  _nextSerialNumber : Z;
  _rootCert : X509;
  _privateKey : EVP_PKEY;
}.

Definition new (defaultParams : CertificateSigningParameters) (nextSerialNumber : Z)
    (rootCertificate : X509) (privateKey : EVP_PKEY) : outcome CertificateAuthority :=
  let? rootKey := X509Certificate.getPublicKey rootCertificate in
  let? different := PublicKey_neq privateKey rootKey in
  if different : bool then
    Throw (MoCOCrWException
      [Str "Tried to initialize CA but private key didn't match certificate"])
  else Val (mkCA defaultParams nextSerialNumber rootCertificate privateKey).

(** X509v3 *)
Definition certificateVersion : Z := 2.

(** The extension is made in the context of the certificate as it is then. *)
Definition add_extension (cert : X509) (it : X509Extension_NID * ExtensionPtr) : outcome X509 :=
  let? extension := buildExtension it.2 cert in _X509_add_ext extension cert.

Definition _signCertificate (clock : Z) (cert : X509) (privateKey : EVP_PKEY)
    (signParams : CertificateSigningParameters) : M ENTROPY X509 :=
  let! notBefore := lift (notBeforeAsn1 clock signParams) in
  let! validity := lift (certificateValidity signParams) in
  let! notAfter := lift (Asn1Time.plus notBefore validity) in
  let! cert := lift (_X509_set_notBefore_ASN1 notBefore cert) in
  let! cert := lift (_X509_set_notAfter_ASN1 notAfter cert) in
  let! cert := lift (ofold add_extension cert (extensionMap signParams)) in
  let! type := lift (digestType signParams) in
  _X509_sign privateKey type cert.

Definition createRootCertificate (clock : Z) (privateKey : EVP_PKEY) (dn : DistinguishedName)
    (serialNumber : Z) (signParams : CertificateSigningParameters) : M ENTROPY X509 :=
  let! basicConstraints := lift (basic_constraints_extension signParams) in
  let! basicConstraints :=
    match basicConstraints with
    | None => throw (MoCOCrWException
        [Str "Signing parameters for a CA must include X509v3 basic extension"])
    | Some b => ret b
    end in
  throw_if (negb (isCA basicConstraints)) (MoCOCrWException
    [Str "Signing parameters are not set for CA certificates"]) ;;
  let! cert := lift X509_create in
  let! internalName := lift _X509_NAME_new in
  let! internalName := lift (exec (DN.populateX509Name dn) internalName) in
  let! cert := lift (_X509_set_issuer_name internalName cert) in
  let! cert := lift (_X509_set_subject_name internalName cert) in
  let! cert := lift (_X509_set_pubkey privateKey cert) in
  let! cert := lift (_X509_set_serialNumber serialNumber cert) in
  let cert := (SSL_X509_set_version certificateVersion cert).2 in
  _signCertificate clock cert privateKey signParams.

(** The body of the [try] block, up to the new serial number. *)
Definition check_issued (rootCert cert : X509) : outcome () :=
  let? rootNotBefore := X509Certificate.getNotBeforeAsn1 rootCert in
  let? notBefore := X509Certificate.getNotBeforeAsn1 cert in
  let? early := Asn1Time.gt rootNotBefore notBefore in
  if early : bool then
    Throw (MoCOCrWException [Str "CSR: Issued certificate can not be valid before issuing ";
                             Str "certificate (CA's cert)"])
  else
    let? rootNotAfter := X509Certificate.getNotAfterAsn1 rootCert in
    let? notAfter := X509Certificate.getNotAfterAsn1 cert in
    let? late := Asn1Time.lt rootNotAfter notAfter in
    if late : bool then
      Throw (MoCOCrWException
        [Str "CSR: Certificate's validity period should not exceed the ";
         Str "validity bounds of the issuing certificate (CA's cert)."])
    else
      let ctx := Verification.addIntermediateCertificates []
                   (Verification.addTrustedCertificates [rootCert] Verification.new) in
      let? notBefore := X509Certificate.getNotBeforeAsn1 cert in
      let? ctx := Verification.setVerificationCheckTime notBefore ctx in
      let? _ := X509Certificate.verify cert ctx in
      let? notAfter := X509Certificate.getNotAfterAsn1 cert in
      let? checkTime := Asn1Time.minus notAfter 1 in
      let? ctx := Verification.setVerificationCheckTime checkTime ctx in
      X509Certificate.verify cert ctx.

Definition on_entropy {A} (m : M ENTROPY A) : M (CertificateAuthority * ENTROPY) A :=
  zoom snd (λ e s, (s.1, e)) m.

Definition increment (ca : CertificateAuthority) : CertificateAuthority :=
  mkCA (_defaultSignParams ca) (to_size_t (_nextSerialNumber ca + 1)) (_rootCert ca)
    (_privateKey ca).

Definition invalid_certificate (e : exn) : exn :=
  match e with
  | MoCOCrWException w => MoCOCrWException
      (Str "Certificate creation failed: the generated certificate is invalid: " :: w)
  | _ => e
  end.

Definition _signCSR (clock : Z) (csr : X509_REQ) (signParams : CertificateSigningParameters) :
    M (CertificateAuthority * ENTROPY) X509 :=
  let! ca := gets fst in
  let! subjectName := lift (_X509_REQ_get_subject_name csr) in
  let! publicKey := lift (CSR.getPublicKey csr) in
  let! cert := lift X509_create in
  let! cert := lift (_X509_set_subject_name subjectName cert) in
  let! cert := lift (_X509_set_pubkey publicKey cert) in
  let! rootCertName := lift (_X509_get_subject_name (_rootCert ca)) in
  let! cert := lift (_X509_set_issuer_name rootCertName cert) in
  let! cert := lift (_X509_set_serialNumber (_nextSerialNumber ca) cert) in
  let cert := (SSL_X509_set_version certificateVersion cert).2 in
  let! cert := on_entropy (_signCertificate clock cert (_privateKey ca) signParams) in
  try_catch
    (lift (check_issued (_rootCert ca) cert) ;;
     modify (λ s, (increment s.1, s.2)) ;;
     ret cert)
    (λ e, throw (invalid_certificate e)).

Definition signCSR (clock : Z) (request : X509_REQ) : M (CertificateAuthority * ENTROPY) X509 :=
  let! ca := gets fst in _signCSR clock request (_defaultSignParams ca).

Definition getRootCertificate (ca : CertificateAuthority) : X509 := _rootCert ca.
Definition getSignParams (ca : CertificateAuthority) : CertificateSigningParameters :=
  _defaultSignParams ca.
Definition getNextSerialNumber (ca : CertificateAuthority) : Z := _nextSerialNumber ca.
End CA.
End CA.
