(* ===== verification/RequestFacts.v ===== *)
(** * Correctness of signing requests and revocation lists *)

From S2P Require Import Prelude CheckCall Util SymmetricCrypto OpenSSLWrap Hash Bio Key Pem Asn1Time.
From S2P Require Import DistinguishedName AsymmetricCtx Extensions X509 X509Facts X509Chain Csr Crl.

(** ** What OpenSSL promises *)

(** What a request says, and the digest and key it was signed with. *)
Record req_view {N K D : Type} := mkReq {
  rq_subject : option N;
  rq_version : Z;
  rq_key : option K;
  rq_signer : option (D * K);
}.
Arguments req_view : clear implicits.
Arguments mkReq {N K D}.

Class X509ReqSpec {bio : BioAPI} {bspec : BioSpec bio} {evp : EvpCipherAPI} {md : EvpMdAPI}
    {dig : EvpDigestAPI md} {pkey : EvpPkeyAPI bio evp} {asym : AsymmetricAPI dig pkey}
    {name : X509NameAPI bio} (api : X509ReqAPI asym name) := {
  req_data : X509_REQ → req_view X509_NAME EVP_PKEY (option EVP_MD);
  req_new_spec r : SSL_X509_REQ_new = Some r → rq_signer (req_data r) = None;
  req_version_spec v r r' : SSL_X509_REQ_set_version v r = (1, r') →
    let d := req_data r in
    req_data r' = mkReq (rq_subject d) v (rq_key d) (rq_signer d);
  req_subject_spec n r r' : SSL_X509_REQ_set_subject_name n r = (1, r') →
    let d := req_data r in
    req_data r' = mkReq (Some n) (rq_version d) (rq_key d) (rq_signer d);
  req_pubkey_spec k r r' : SSL_X509_REQ_set_pubkey k r = (1, r') →
    let d := req_data r in
    req_data r' = mkReq (rq_subject d) (rq_version d) (Some k) (rq_signer d);
  (** the digest and the key of an initialised signing context *)
  sign_setup : EVP_MD_CTX → option (option EVP_MD * EVP_PKEY);
  sign_init_spec m k c : wp_total (SSL_EVP_DigestSignInit m k) c (λ '(rv, _) c',
    rv = 1 → sign_setup c' = Some (m, k));
  req_sign_spec c r e : wp_total (SSL_X509_REQ_sign_ctx c r) e (λ '(rv, r') _, 0 < rv →
    let d := req_data r in
    req_data r' = mkReq (rq_subject d) (rq_version d) (rq_key d) (sign_setup c));
  (** the keys that sign a request with a digest, or without one *)
  req_signs : option EVP_MD → EVP_PKEY → Prop;
  req_get_subject_spec r : SSL_X509_REQ_get_subject_name r = rq_subject (req_data r);
  (** the public key is given back as a key that compares equal *)
  req_get_pubkey_spec r k : SSL_X509_REQ_get_pubkey r = Some k →
    ∃ k', rq_key (req_data r) = Some k' ∧ SSL_EVP_PKEY_cmp k k' = 1;
  (** a signature verifies under any key that equals the signing key *)
  req_verify_spec r m k pub : rq_signer (req_data r) = Some (m, k) →
    SSL_EVP_PKEY_cmp pub k = 1 → SSL_X509_REQ_verify r pub = 1;
  (** the encodings of requests *)
  req_der : X509_REQ → bytes;
  req_pem : X509_REQ → bytes;
  req_pem_text r : c_str (req_pem r) = req_pem r;
  req_i2d_spec r b w : mem_bio b w → wp_total (SSL_i2d_X509_REQ_bio r) b (λ '(rv, _) b',
    rv = 1 → mem_bio b' (w ++ req_der r));
  req_d2i_spec r b : mem_bio b (req_der r) →
    wp_total SSL_d2i_X509_REQ_bio b (λ o _, ∀ r', o = Some r' → req_der r' = req_der r);
  req_write_spec r b w : mem_bio b w → wp_total (SSL_PEM_write_bio_X509_REQ r) b (λ '(rv, _) b',
    rv = 1 → mem_bio b' (w ++ req_pem r));
  req_read_spec r b : mem_bio b (req_pem r) →
    wp_total SSL_PEM_read_bio_X509_REQ b (λ o _, ∀ r', o = Some r' → req_der r' = req_der r);
  req_read_empty b : mem_bio b [] → wp_total SSL_PEM_read_bio_X509_REQ b (λ o _, o = None);
  (** the PEM text is the armoured DER encoding *)
  req_pem_der r r' : req_der r = req_der r' → req_pem r = req_pem r';
}.

(** OpenSSL carries the calls out. *)
Record X509ReqWorks `{spec : X509ReqSpec} : Prop := {
  req_bio_works : BioWorks bspec;
  req_new_works : SSL_X509_REQ_new ≠ None;
  req_version_works v r : (SSL_X509_REQ_set_version v r).1 = 1;
  req_subject_works n r : (SSL_X509_REQ_set_subject_name n r).1 = 1;
  req_pubkey_works k r : key_type k ∈ key_types → (SSL_X509_REQ_set_pubkey k r).1 = 1;
  md_ctx_works : SSL_EVP_MD_CTX_create ≠ None;
  sign_init_works m k c : req_signs m k → succeeds (SSL_EVP_DigestSignInit m k) c;
  req_sign_works m k c r e : sign_setup c = Some (m, k) → req_signs m k →
    wp_total (SSL_X509_REQ_sign_ctx c r) e (λ x _, 0 < x.1);
  req_get_pubkey_works r : rq_key (req_data r) ≠ None → SSL_X509_REQ_get_pubkey r ≠ None;
  req_i2d_works r b d : mem_bio b d → succeeds (SSL_i2d_X509_REQ_bio r) b;
  req_d2i_works r b : mem_bio b (req_der r) → gives_object SSL_d2i_X509_REQ_bio b;
  req_write_works r b d : mem_bio b d → succeeds (SSL_PEM_write_bio_X509_REQ r) b;
  req_read_works r b : mem_bio b (req_pem r) → gives_object SSL_PEM_read_bio_X509_REQ b;
}.
Arguments X509ReqWorks {bio bspec evp md dig pkey asym name api} spec.

Lemma exec_yields {S} W (m : M S ()) s (P : S → Prop) :
  wp m s (λ _ s', P s') (λ _ _, ¬ W) → yields W (exec m s) P.
Proof. intros Hm%exec_wp. exact Hm. Qed.

(** ** Signing requests *)

Section Requests.
Context {bio : BioAPI} {bspec : BioSpec bio} {evp : EvpCipherAPI} {md : EvpMdAPI}.
Context {dig : EvpDigestAPI md} {pkey : EvpPkeyAPI bio evp} {asym : AsymmetricAPI dig pkey}.
Context {name : X509NameAPI bio} {nspec : X509NameSpec name} {api : X509ReqAPI asym name}.
Context {spec : X509ReqSpec api}.

(** The digest that a key signs a request with. *)
Definition request_digest (t : KeyTypes) (digestFunction : DigestTypes) : outcome (option EVP_MD) :=
  digest_or_null (if bool_decide (t = ECC_ED) then NONE else digestFunction).

Definition made_from (dn : DistinguishedName) (key : EVP_PKEY) (d : DigestTypes) (r : X509_REQ) :
    Prop :=
  ∃ n t m, x509_name n (entries dn) ∧ getType key = Val t ∧ request_digest t d = Val m ∧
           req_data r = mkReq (Some n) 0 (Some key) (Some (m, key)).

(** The name fits, and the key signs with the digest. *)
Definition can_request (dn : DistinguishedName) (key : EVP_PKEY) (d : DigestTypes) : Prop :=
  fitting (entries dn) ∧ key_type key ∈ key_types ∧
  ∃ t m, getType key = Val t ∧ request_digest t d = Val m ∧ req_signs m key.

Abbreviation requests_work := (X509ReqWorks spec ∧ X509NameWorks nspec).

Lemma setup_spec t d key c :
  getType key = Val t →
  yields (requests_work ∧ ∃ t m, getType key = Val t ∧ request_digest t d = Val m ∧ req_signs m key)
    (exec (_EVP_DigestSignInit (if bool_decide (t = ECC_ED) then NONE else d) key) c)
    (λ c, ∃ m, request_digest t d = Val m ∧ sign_setup c = Some (m, key)).
Proof.
  intros Ht. set (W := _ ∧ _). apply exec_yields. unfold _EVP_DigestSignInit.
  apply (wp_yields W _ _ _ (λ m, request_digest t d = Val m)).
  { apply yields_val. intros (_ & t' & m & Ht' & Hm & _). rewrite Ht in Ht'. injection Ht' as <-.
    by rewrite Hm. }
  intros m Hm. apply wp_IsOne_ok.
  - eapply wp_mono; [apply sign_init_spec| |done]. intros [rv []] c' H Hrv. eauto.
  - intros c' Hn ((HW & _) & t' & m' & Ht' & Hm' & Hs). apply Hn, (sign_init_works HW).
    rewrite Ht in Ht'. injection Ht' as <-. rewrite Hm in Hm'. by injection Hm' as <-.
Qed.

Lemma new_request dn key d e : plain_name dn →
  wp (CSR.new dn key d) e (λ r _, made_from dn key d r)
    (λ _ _, ¬ (requests_work ∧ can_request dn key d)).
Proof.
  intros Hdn. unfold CSR.new. set (W := requests_work ∧ can_request dn key d).
  assert (HR : W → X509ReqWorks spec) by by intros [[? _] _].
  apply (wp_yields W _ _ _ (λ r, rq_signer (req_data r) = None)).
  { apply yields_ptr; [intros H; apply (req_new_works (HR H))|apply req_new_spec]. }
  intros r0 H0. apply (wp_yields W _ _ _ (λ r, rq_version (req_data r) = 0)).
  { apply yields_one; [intros H; apply (req_version_works (HR H))|].
    intros r1 H1. by rewrite (req_version_spec _ _ _ H1). }
  intros r1 H1. apply (wp_yields W _ _ _ (λ n, x509_name n [])).
  { apply yields_ptr; [intros [[_ HN] _]; apply (name_new_works _ HN)|apply name_new_spec]. }
  intros n0 Hn0. apply (wp_yields W _ _ _ (λ n, x509_name n (entries dn))).
  { apply exec_yields. eapply wp_mono; [by apply populate_spec|done|].
    intros ex s [_ Hno] [[_ HN] [Hfit _]]. by apply Hno. }
  intros n Hn. apply (wp_yields W _ _ _ (λ r, rq_subject (req_data r) = Some n ∧
                                             rq_version (req_data r) = 0)).
  { apply yields_one; [intros H; apply (req_subject_works (HR H))|].
    intros r2 H2. by rewrite (req_subject_spec _ _ _ H2). }
  intros r2 [Hs Hv]. apply (wp_yields W _ _ _ (λ r, rq_subject (req_data r) = Some n ∧
    rq_version (req_data r) = 0 ∧ rq_key (req_data r) = Some key)).
  { apply yields_one; [intros [[HW _] (_ & Hk & _)]; by apply (req_pubkey_works HW)|].
    intros r3 H3. rewrite (req_pubkey_spec _ _ _ H3). cbn. by rewrite Hs, Hv. }
  intros r3 (Hs3 & Hv3 & Hk3). apply (wp_yields W _ _ _ (λ _, True)).
  { apply yields_ptr; [intros H; apply (md_ctx_works (HR H))|done]. }
  intros c0 _. apply (wp_yields W _ _ _ (λ t, getType key = Val t)).
  { apply yields_val. intros (_ & _ & _ & t & m & -> & _). done. }
  intros t Ht. cbn zeta. eapply (wp_yields W).
  { eapply yields_weaken; [|by apply (setup_spec t d key c0)]. intros (HW & _ & _ & H). by split. }
  intros c (m & Hm & Hc). apply wp_OpensslCallIsPositive.
  assert (Hsign : wp_total (SSL_X509_REQ_sign_ctx c r3) e (λ x _, W → 0 < x.1)).
  { pose proof (req_sign_spec c r3 e) as Hspec. unfold wp in *.
    destruct (SSL_X509_REQ_sign_ctx c r3 e) as [[x|] e'] eqn:Hrun; [|done].
    intros [[HW _] (_ & _ & t' & m' & Ht' & Hm' & Hsig)]. rewrite Ht in Ht'. injection Ht' as <-.
    rewrite Hm in Hm'. injection Hm' as <-.
    pose proof (req_sign_works HW m key c r3 e Hc Hsig) as H. unfold wp in H. by rewrite Hrun in H. }
  eapply wp_mono; [apply (wp_and _ _ _ _ _ _ (req_sign_spec c r3 e) Hsign)| |by intros ? ? [[] _]].
  intros [rv r] e' [H HWrv]. cbn in HWrv. destruct (Z.ltb_spec 0 rv) as [Hrv|].
  - exists n, t, m. split_and!; try done. by rewrite (H Hrv), Hc, Hs3, Hv3, Hk3.
  - intros HW%HWrv. lia.
Qed.


Lemma toDER_ok r fuel : (S (length (req_der r)) < fuel)%nat →
  prepares (X509ReqWorks spec) (CSR.toDER fuel r) (λ d, d = req_der r).
Proof.
  intros Hf. apply written_vector; [apply req_bio_works| |by intros t ->].
  apply writes_text; [apply req_i2d_spec|]. intros HW b d. apply (req_i2d_works HW).
Qed.

Lemma toPEM_text r fuel : (S (length (req_pem r)) < fuel)%nat →
  prepares (X509ReqWorks spec) (CSR.toPEM fuel r) (λ p, p = req_pem r).
Proof.
  intros Hf. apply written_string; [apply req_bio_works| |by intros t ->].
  apply writes_text; [apply req_write_spec|]. intros HW b d. apply (req_write_works HW).
Qed.

(** The encodings of a request: reading what [toDER] or [toPEM] wrote gives a
    request with the same encodings; a working OpenSSL does not fail to write and read them. *)
Theorem csr_roundtrip (r : X509_REQ) (fuel : nat)
    (Hfuel : (S (length (req_der r)) < fuel)%nat) (Hfuel' : (S (length (req_pem r)) < fuel)%nat)
    (Hsize : 1 ≤ size (req_der r) ≤ INT_MAX) (Hsize' : 1 ≤ size (req_pem r) ≤ INT_MAX) :
  let same (r' : X509_REQ) :=
    prepares (X509ReqWorks spec) (CSR.toDER fuel r') (λ d', d' = req_der r) ∧
    prepares (X509ReqWorks spec) (CSR.toPem fuel r') (λ p', p' = req_pem r) in
  prepares (X509ReqWorks spec) (CSR.toDER fuel r) (λ d,
    owp (CSR.fromDER d) same (λ _, ¬ X509ReqWorks spec)) ∧
  prepares (X509ReqWorks spec) (CSR.toPEM fuel r) (λ p,
    owp (CSR.fromPEM p) same (λ _, ¬ X509ReqWorks spec)).
Proof.
  intros same. assert (Hsame : ∀ r', req_der r' = req_der r → same r').
  { intros r' He. unfold same. rewrite <-(req_pem_der _ _ He), <-He.
    split; [apply toDER_ok|apply toPEM_text]; by rewrite ?(req_pem_der _ _ He), ?He. }
  split.
  - pose proof (toDER_ok r fuel Hfuel) as H. unfold prepares at 1 in H.
    destruct (CSR.toDER fuel r); [cbn in H |- *; subst|done].
    eapply owp_mono; [apply (read_vector (X509ReqWorks spec) _ (λ r', req_der r' = req_der r));
      [intros HW; split; [by apply req_bio_works|lia]|lia|]|apply Hsame|by intros e []].
    intros b Hb. split; [by apply req_d2i_spec|by intros HW; apply (req_d2i_works HW r)].
  - pose proof (toPEM_text r fuel Hfuel') as H. unfold prepares at 1 in H.
    destruct (CSR.toPEM fuel r); [cbn in H |- *; subst|done].
    eapply owp_mono; [apply yields_prepares,
      (read_string (X509ReqWorks spec) _ (λ r', req_der r' = req_der r))|apply Hsame|done].
    + intros HW. split; [by apply req_bio_works|done].
    + apply req_pem_text.
    + intros b Hb. split; [by apply req_read_spec|by intros HW; apply (req_read_works HW r)].
    + apply req_read_empty.
Qed.
End Requests.

(** ** Revocation lists *)

Class X509CrlSpec {bio : BioAPI} {bspec : BioSpec bio} {evp : EvpCipherAPI} {md : EvpMdAPI}
    {dig : EvpDigestAPI md} {pkey : EvpPkeyAPI bio evp} {asym : AsymmetricAPI dig pkey}
    {name : X509NameAPI bio} {time : Asn1TimeAPI bio} {x509 : X509API asym name time}
    (api : X509CrlAPI x509) := {
  (** the base64 text of a CRL, in lines *)
  crl_body : X509_CRL → bytes;
  crl_body_spec c : unblank (crl_body c) ∧ (Byte.x2d ∉ crl_body c) ∧
                    Forall (λ b, byte_val b ≠ 0) (crl_body c);
  crl_write_spec c b w : mem_bio b w → wp_total (SSL_PEM_write_bio_X509_CRL c) b (λ '(rv, _) b',
    rv = 1 → mem_bio b' (w ++ (pem_block CRL.beginMarker CRL.endMarker (crl_body c))));
  crl_read_spec c b : mem_bio b (three_lines CRL.beginMarker (crl_body c) CRL.endMarker) →
    wp_total SSL_PEM_read_bio_X509_CRL b (λ o _, ∀ c', o = Some c' → crl_body c' = crl_body c);
  crl_read_empty b : mem_bio b [] → wp_total SSL_PEM_read_bio_X509_CRL b (λ o _, o = None);
}.

(** OpenSSL writes and reads revocation lists. *)
Record X509CrlWorks `{spec : X509CrlSpec} : Prop := {
  crl_bio_works : BioWorks bspec;
  crl_write_works c b d : mem_bio b d → succeeds (SSL_PEM_write_bio_X509_CRL c) b;
  crl_read_works c b : mem_bio b (three_lines CRL.beginMarker (crl_body c) CRL.endMarker) →
    gives_object SSL_PEM_read_bio_X509_CRL b;
}.
Arguments X509CrlWorks {bio bspec evp md dig pkey asym name time x509 api} spec.

Section Lists.
Context {bio : BioAPI} {bspec : BioSpec bio} {evp : EvpCipherAPI} {md : EvpMdAPI}.
Context {dig : EvpDigestAPI md} {pkey : EvpPkeyAPI bio evp} {asym : AsymmetricAPI dig pkey}.
Context {name : X509NameAPI bio} {nspec : X509NameSpec name} {time : Asn1TimeAPI bio}.
Context {x509 : X509API asym name time} {xspec : X509Spec x509}.
Context {api : X509CrlAPI x509} {spec : X509CrlSpec api}.

(** The names that [verify] takes for the same: the first values of the eleven known
    attributes agree, whatever else the names contain. *)
Definition names_agree (l l' : list (ASN1_NID * bytes)) : Prop :=
  ∀ nid, first_value l nid = first_value l' nid.

(** Names that the class can hold: a country of more than two characters is refused. *)
Definition short_country (l : list (ASN1_NID * bytes)) : Prop :=
  size (first_value l CountryName) ≤ 2.


Definition crl_short (c : X509_CRL) : Prop :=
  size (three_lines CRL.beginMarker (crl_body c) CRL.endMarker) ≤ INT_MAX.

Lemma crl_toPEM c fuel :
  (length (pem_block CRL.beginMarker CRL.endMarker (crl_body c)) + 1 < fuel)%nat →
  prepares (X509CrlWorks spec) (CRL.toPEM fuel c)
    (λ p, p = pem_block CRL.beginMarker CRL.endMarker (crl_body c)).
Proof.
  intros Hf. apply written_string; [apply crl_bio_works| |intros t ->; lia].
  apply writes_text; [apply crl_write_spec|]. intros HW b d. apply (crl_write_works HW).
Qed.

Lemma crl_fromPEM c : crl_short c →
  prepares (X509CrlWorks spec)
    (CRL.fromPEM (three_lines CRL.beginMarker (crl_body c) CRL.endMarker))
    (λ c', crl_body c' = crl_body c).
Proof.
  intros Hshort. apply read_string.
  - intros HW. split; [by apply crl_bio_works|]. split; [|done]. unfold three_lines.
    rewrite size_app. change (size CRL.beginMarker) with 24.
    pose proof (size_nonneg (newline ++ crl_body c ++ newline ++ CRL.endMarker)). lia.
  - apply c_str_no_nul. destruct (crl_body_spec c) as (_ & _ & Hz). unfold three_lines.
    rewrite !Forall_app.
    split_and!; try done; by apply (bool_decide_unpack (Forall (λ b, byte_val b ≠ 0) _)); vm_compute.
  - intros b Hb. split; [by apply crl_read_spec|by intros HW; apply (crl_read_works HW c)].
  - apply crl_read_empty.
Qed.

Lemma crl_toPEM_all fuel cs :
  Forall (λ c,
    (length (pem_block CRL.beginMarker CRL.endMarker (crl_body c)) + 1 < fuel)%nat) cs →
  prepares (X509CrlWorks spec) (omap (CRL.toPEM fuel) cs) (λ texts,
    texts = (λ t, pem_block CRL.beginMarker CRL.endMarker t) <$> (crl_body <$> cs)).
Proof.
  induction 1 as [|c cs Hc Hcs IH]; cbn [omap]; [done|].
  eapply prepares_bind; [by apply crl_toPEM|done|]. intros p ->.
  eapply prepares_bind; [apply IH|done|]. by intros ps ->.
Qed.

(** Chains of CRLs: lists are written with [toPEM], and their texts, one behind the other,
    are read back by [loadCrlPEMChain] as these lists in the same order, or
    OpenSSL reports an error, which a working OpenSSL does not. *)
Theorem load_crl_chain (fuel : nat) (cs : list X509_CRL) (Hshort : Forall crl_short cs)
    (Hlong : Forall (λ c,
       (length (pem_block CRL.beginMarker CRL.endMarker (crl_body c)) + 1 < fuel)%nat) cs) :
  prepares (X509CrlWorks spec) (omap (CRL.toPEM fuel) cs) (λ texts,
    ∀ fuel', size (concat texts) < npos → (length (concat texts) < fuel')%nat →
    prepares (X509CrlWorks spec) (CRL.loadCrlPEMChain fuel' (concat texts)) (λ l,
      crl_body <$> l = crl_body <$> cs)).
Proof.
  pose proof (crl_toPEM_all fuel cs Hlong) as Hall. unfold prepares at 1 in Hall.
  destruct (omap _ cs) as [texts|]; [|done]. subst texts. hnf. intros fuel' Hsize Hfuel.
  unfold CRL.loadCrlPEMChain. rewrite split_blocks; [|by eexists _, _|done| |done|done].
  2:{ apply Forall_fmap, Forall_forall. intros c _. cbn. by destruct (crl_body_spec c) as (? & ? & _). }
  cbn [obind]. clear -Hshort. induction Hshort as [|c cs Hc Hcs IH]; [done|].
  rewrite !fmap_cons. cbn [omap].
  eapply prepares_bind; [by apply crl_fromPEM|done|]. intros c' Hc'.
  eapply prepares_bind; [apply IH|done|]. intros l Hl. cbn [prepares]. by rewrite fmap_cons, Hc', Hl.
Qed.
End Lists.
