(* ===== verification/CaFacts.v ===== *)
(** * Correctness of the certificate authority *)

From S2P Require Import Prelude CheckCall Util SymmetricCrypto OpenSSLWrap Hash Bio Key Pem Asn1Time.
From S2P Require Import DistinguishedName Padding AsymmetricCtx Extensions X509 X509Facts X509Chain Csr.
From S2P Require Import RequestFacts Ca.

Section CaFacts.
Context {bio : BioAPI} {bspec : BioSpec bio} {evp : EvpCipherAPI} {md : EvpMdAPI}.
Context {dig : EvpDigestAPI md} {pkey : EvpPkeyAPI bio evp} {asym : AsymmetricAPI dig pkey}.
Context {name : X509NameAPI bio} {nspec : X509NameSpec name} {time : Asn1TimeAPI bio} {tspec : Asn1TimeSpec time}.
Context {x509 : X509API asym name time} {spec : X509Spec x509} {req : X509ReqAPI asym name}.
Implicit Types (x cert : X509) (p : CertificateSigningParameters).
Abbreviation carried_out := (X509Works spec).

(** ** Signing a certificate *)

(** The extensions that a map of them asks for, in its order. *)
Definition asked_extensions (m : ExtensionMap) : list (Z * bytes) :=
  (λ it, (ptr_nid it.2, c_str (ptr_string it.2))) <$> m.

(** What [_signCertificate] makes of a certificate with the view [v]. *)
Definition signed_view (v : cert_view X509_NAME EVP_PKEY ASN1_TIME EVP_MD) (key : EVP_PKEY)
    (exts : list (Z * bytes)) (nb na : ASN1_TIME) (m : EVP_MD) :
    cert_view X509_NAME EVP_PKEY ASN1_TIME EVP_MD :=
  mkCert (v_subject v) (v_issuer v) (v_key v) (v_serial v) nb na (v_version v)
    (v_extensions v ++ exts) (Some (key, m)).

Definition with_extensions (l : list (Z * bytes))
    (v : cert_view X509_NAME EVP_PKEY ASN1_TIME EVP_MD) :=
  let 'mkCert a b c d e f g h i := v in mkCert a b c d e f g (h ++ l) i.

Lemma add_extensions_ok l x :
  yields (carried_out ∧ Forall (λ it, buildable (v_key (view x)) it.2) l)
    (ofold CA.add_extension x l)
    (λ x', view x' = with_extensions (asked_extensions l) (view x)).
Proof.
  revert x. induction l as [|it l IH]; intros x; cbn [ofold].
  - cbn. destruct (view x). cbn. by rewrite app_nil_r.
  - set (W := _ ∧ _). apply (yields_bind W _ _ (λ x', view x' =
      with_extension (ptr_nid it.2, c_str (ptr_string it.2)) (view x))).
    + unfold CA.add_extension, buildExtension, _X509V3_EXT_conf_nid.
      apply (yields_bind W _ _ (λ e, extension_view e = (ptr_nid it.2, c_str (ptr_string it.2)))).
      * apply yields_ptr.
        { intros [HW [Hb _]%Forall_cons]. by apply (ext_conf_works HW). }
        intros e. apply ext_conf_spec.
      * intros e He. apply yields_one; [intros [HW _]; apply (add_ext_works HW)|].
        intros x'. rewrite <-He. apply add_ext_spec.
    + intros x1 H1. eapply owp_mono; [apply IH| |].
      * intros x' Hx'. cbn in Hx'. rewrite Hx', H1. destruct (view x). cbn. by rewrite <-app_assoc.
      * intros e Hn [HW [_ Hl]%Forall_cons]. apply Hn. split; [done|]. rewrite H1. by destruct (view x).
Qed.

(** *** The validity *)

(** The start of the validity, if the parameters have one that is a time. *)
Definition start_is_time p : Prop := ∀ t, _notBefore p = Some t → ∃ z, stands_for t z.

(** The validity starts when the parameters say, or one second before now. *)
Definition starts (clock : Z) p (z : Z) : Prop :=
  match _notBefore p with Some t => stands_for t z | None => z = to_time_t clock - 1 end.

(** Start and end of the validity are times that the additions reach. *)
Definition has_period (clock : Z) p : Prop :=
  ∃ z validity, starts clock p z ∧
    (_notBefore p = None → year1900AsTimeT ≤ z < maxAsn1TimeAsTimeT) ∧
    certificateValidity p = Val validity ∧ adjustable (z + validity).

Lemma stands_for_unique (t : ASN1_TIME) (z z' : Z) : stands_for t z → stands_for t z' → z = z'.
Proof. intros Hz%toTimeT_ok Hz'%toTimeT_ok. rewrite Hz in Hz'. by injection Hz'. Qed.

Lemma starts_unique clock p z z' : starts clock p z → starts clock p z' → z = z'.
Proof. unfold starts. destruct (_notBefore p); [apply stands_for_unique|by intros -> ->]. Qed.

Lemma notBefore_ok clock p : start_is_time p →
  yields (has_period clock p) (notBeforeAsn1 clock p)
    (λ t, ∃ z, stands_for t z ∧ starts clock p z).
Proof.
  intros Hp. unfold notBeforeAsn1, starts. destruct (_notBefore p) as [t0|] eqn:Ht.
  - destruct (Hp t0 Ht) as [z Hz]. by exists z.
  - unfold Asn1Time.now, Asn1Time.fromTimePoint.
    destruct (_ASN1_TIME_from_time_t (to_time_t clock)) as [now|] eqn:Hnow; cbn [obind].
    + apply from_time_t_inv in Hnow. unfold Asn1Time.minus.
      change (int64_ (-1 * 1)) with (Val (-1)). cbn [obind].
      pose proof (plus_spec now (to_time_t clock) (-1) Hnow) as Hs.
      destruct (Asn1Time.plus now (-1)) as [t|[]]; try done; [by destruct Hs; eexists|].
      intros (z & v & Hz & Hr & _). unfold starts in Hz. rewrite Ht in Hz, Hr.
      specialize (Hr eq_refl). apply Hs. unfold adjustable. lia.
    + intros (z & v & Hz & Hr & _). unfold starts in Hz. rewrite Ht in Hz, Hr.
      specialize (Hr eq_refl).
      destruct (from_time_t_ok (to_time_t clock)) as (t & Heq & _);
        [unfold year1900AsTimeT, minAsn1TimeAsTimeT in *; lia|]. by rewrite Heq in Hnow.
Qed.

Lemma notAfter_ok clock p nb z validity : stands_for nb z → starts clock p z →
  certificateValidity p = Val validity →
  yields (has_period clock p) (Asn1Time.plus nb validity) (λ t, stands_for t (z + validity)).
Proof.
  intros Hnb Hz Hv. pose proof (plus_spec nb z validity Hnb) as Hp. unfold yields, owp.
  destruct (Asn1Time.plus nb validity) as [t|[]]; try done; [by destruct Hp|].
  intros (z' & v & Hz' & _ & Hv' & Hr). rewrite Hv in Hv'. injection Hv' as <-.
  by rewrite (starts_unique _ _ _ _ Hz' Hz) in Hr.
Qed.

(** A certificate with the key [k] can be signed with [key]. *)
Definition signable (clock : Z) p (key : EVP_PKEY) (k : option EVP_PKEY) : Prop :=
  has_period clock p ∧
  (∃ type m, digestType p = Val type ∧ _getMDPtrFromDigestType type = Val m ∧ signs key m) ∧
  Forall (λ it, buildable k it.2) (extensionMap p).

Definition signed_with (clock : Z) p (key : EVP_PKEY)
    (v : cert_view X509_NAME EVP_PKEY ASN1_TIME EVP_MD) (cert : X509) : Prop :=
  ∃ nb na z validity type m,
    notBeforeAsn1 clock p = Val nb ∧ certificateValidity p = Val validity ∧
    stands_for nb z ∧ starts clock p z ∧ stands_for na (z + validity) ∧
    digestType p = Val type ∧ _getMDPtrFromDigestType type = Val m ∧
    view cert = signed_view v key (asked_extensions (extensionMap p)) nb na m.

Lemma sign_ok key m x e (W : Prop) : (W → carried_out ∧ signs key m) →
  wp (OpensslCallIsPositive (SSL_X509_sign key m x)) e
    (λ x' _, view x' = with_signature key m (view x)) (λ _ _, ¬ W).
Proof.
  intros HW. apply wp_OpensslCallIsPositive.
  assert (Hpos : wp_total (SSL_X509_sign key m x) e (λ r _, W → 0 < r.1)).
  { pose proof (sign_x509_spec key m x e) as Hspec. unfold wp in *.
    destruct (SSL_X509_sign key m x e) as [[r|] e'] eqn:Hrun; [|done].
    intros [Hw Hs]%HW. pose proof (sign_x509_works Hw key m x e Hs) as H. unfold wp in H.
    by rewrite Hrun in H. }
  eapply wp_mono; [apply (wp_and _ _ _ _ _ _ (sign_x509_spec key m x e) Hpos)| |by intros ? ? [[] _]].
  intros [rv x'] e' [H Hrv]. cbn in Hrv. destruct (Z.ltb_spec 0 rv); [by apply H|].
  intros Hw%Hrv. lia.
Qed.

Lemma signCertificate_ok clock cert key p e : start_is_time p →
  wp (CA._signCertificate clock cert key p) e (λ cert' _, signed_with clock p key (view cert) cert')
    (λ _ _, ¬ (carried_out ∧ signable clock p key (v_key (view cert)))).
Proof.
  intros Hstart. unfold CA._signCertificate.
  set (W := carried_out ∧ signable clock p key (v_key (view cert))).
  assert (HP : W → has_period clock p) by by intros [_ [? _]].
  apply (wp_yields W _ _ _ (λ t, notBeforeAsn1 clock p = Val t ∧ ∃ z, stands_for t z ∧ starts clock p z)).
  { pose proof (notBefore_ok clock p Hstart) as H. destruct (notBeforeAsn1 clock p); [done|].
    by intros Hp%HP. }
  intros nb (Hnb & z & Hz & Hs).
  apply (wp_yields W _ _ _ (λ v, certificateValidity p = Val v)).
  { apply yields_val. intros (z' & v & _ & _ & -> & _)%HP. done. }
  intros validity Hv. apply (wp_yields W _ _ _ (λ t, stands_for t (z + validity))).
  { by eapply yields_weaken; [exact HP|eapply notAfter_ok]. }
  intros na Hna. apply (wp_yields W _ _ _ (λ x, view x = with_notBefore nb (view cert))).
  { apply yields_one; [intros [HW _]; apply (set_notBefore_works HW)|]. intros x. apply set_notBefore_spec. }
  intros x1 H1. apply (wp_yields W _ _ _ (λ x, view x = with_notAfter na (view x1))).
  { apply yields_one; [intros [HW _]; apply (set_notAfter_works HW)|]. intros x. apply set_notAfter_spec. }
  intros x2 H2. assert (Hk2 : v_key (view x2) = v_key (view cert))
    by (rewrite H2, H1; by destruct (view cert)).
  eapply (wp_yields W).
  { eapply yields_weaken; [|apply (add_extensions_ok _ x2)]. intros (HW & _ & _ & He).
    by rewrite Hk2. }
  intros x3 H3. apply (wp_yields W _ _ _ (λ type, digestType p = Val type)).
  { apply yields_val. intros (_ & _ & (type & m & -> & _) & _). done. }
  intros type Htype. unfold _X509_sign. apply (wp_yields W _ _ _ (λ m, _getMDPtrFromDigestType type = Val m)).
  { apply yields_val. intros (_ & _ & (type' & m & Ht & Hm & _) & _).
    rewrite Htype in Ht. injection Ht as <-. by rewrite Hm. }
  intros m Hm. eapply wp_mono; [apply (sign_ok key m x3 e W)| |done].
  { intros (HW & _ & (type' & m' & Ht & Hm' & Hsig) & _). rewrite Htype in Ht. injection Ht as <-.
    rewrite Hm in Hm'. by injection Hm' as <-. }
  intros x4 e' H4. exists nb, na, z, validity, type, m. split_and!; try done.
  rewrite H4, H3, H2, H1. by destruct (view cert).
Qed.

(** ** The checks of an issued certificate *)

(** The question that is put to OpenSSL about it. *)
Definition check_request (root cert : X509) (t : Z) : request X509 X509_CRL :=
  mkRequest cert [root] [] true false false (Some t) [].

(** An issued certificate with the validity [nb] to [na] is in order. *)
Definition issue_allowed (root cert : X509) (rb ra nb na : Z) : Prop :=
  rb ≤ nb ∧ na ≤ ra ∧ year1900AsTimeT < na ∧
  accepted (check_request root cert nb) ∧ accepted (check_request root cert (na - 1)).

Definition valid_from_to (x : X509) (nb na : Z) : Prop :=
  stands_for (v_notBefore (view x)) nb ∧ stands_for (v_notAfter (view x)) na.

Lemma getNotBefore_ok x nb na : valid_from_to x nb na →
  prepares carried_out (X509Certificate.getNotBeforeAsn1 x) (λ t, stands_for t nb).
Proof.
  intros [Hnb _]. unfold X509Certificate.getNotBeforeAsn1, _X509_get_notBefore_ASN1.
  rewrite run_pure_Ptr, notBefore_spec. cbn [obind]. unfold Asn1Time.copy, _ASN1_TIME_copy.
  destruct (SSL_ASN1_STRING_dup _) as [t|] eqn:Ht; [by rewrite (dup_spec _ _ Ht)|].
  split; [done|]. intros HW. by eapply (dup_works HW).
Qed.

Lemma getNotAfter_ok x nb na : valid_from_to x nb na →
  prepares carried_out (X509Certificate.getNotAfterAsn1 x) (λ t, stands_for t na).
Proof.
  intros [_ Hna]. unfold X509Certificate.getNotAfterAsn1, _X509_get_notAfter_ASN1.
  rewrite run_pure_Ptr, notAfter_spec. cbn [obind]. unfold Asn1Time.copy, _ASN1_TIME_copy.
  destruct (SSL_ASN1_STRING_dup _) as [t|] eqn:Ht; [by rewrite (dup_spec _ _ Ht)|].
  split; [done|]. intros HW. by eapply (dup_works HW).
Qed.

(** Verifying at a point in time. *)
Lemma verify_at root cert t z : stands_for t z →
  decides carried_out
    (let? ctx := Verification.setVerificationCheckTime t
       (Verification.addIntermediateCertificates []
          (Verification.addTrustedCertificates [root] Verification.new)) in
     X509Certificate.verify cert ctx)
    (accepted (check_request root cert z)).
Proof.
  intros Ht. unfold Verification.setVerificationCheckTime. cbn.
  rewrite (toTimeT_ok t z) by done. cbn [as_mococrw obind].
  match goal with |- decides _ (X509Certificate.verify cert ?c) _ =>
    pose proof (verify_spec cert c) as H; assert (Hc : valid_context c) by done;
    change (request_of cert c) with (check_request root cert z) in H end.
  eapply decides_iff; [exact H|]. tauto.
Qed.

(** Verifying one second before a point in time, which has to exist. *)
Lemma verify_later root cert t z : stands_for t z →
  decides carried_out
    (let? checkTime := Asn1Time.minus t 1 in
     let? ctx := Verification.setVerificationCheckTime checkTime
       (Verification.addIntermediateCertificates []
          (Verification.addTrustedCertificates [root] Verification.new)) in
     X509Certificate.verify cert ctx)
    (year1900AsTimeT < z ∧ accepted (check_request root cert (z - 1))).
Proof.
  intros Ht. pose proof (plus_spec t z (-1) Ht) as Hm. pose proof (stands_for_range _ _ Ht) as Hz.
  change (Asn1Time.minus t 1) with (Asn1Time.plus t (-1)).
  replace (z + -1) with (z - 1) in Hm by lia.
  unfold adjustable in Hm.
  destruct (Asn1Time.plus t (-1)) as [t'|[]]; cbn [obind]; try done; [|cbn; lia].
  destruct Hm as [Hm Hr].
  eapply decides_iff; [by apply verify_at|]. split; [|tauto]. intros H. split; [lia|done].
Qed.

Lemma check_issued_ok root cert rb ra nb na :
  valid_from_to root rb ra → valid_from_to cert nb na →
  decides carried_out (CA.check_issued root cert) (issue_allowed root cert rb ra nb na).
Proof.
  intros Hroot Hcert. unfold CA.check_issued.
  eapply decides_prepares; [by eapply getNotBefore_ok|]. intros t1 Ht1.
  eapply decides_prepares; [by eapply getNotBefore_ok|]. intros t2 Ht2.
  destruct (time_compare_spec t1 t2 rb nb Ht1 Ht2) as [_ ->]. cbn [obind].
  eapply (decides_if _ _ _ _ (na ≤ ra ∧ year1900AsTimeT < na ∧
    accepted (check_request root cert nb) ∧ accepted (check_request root cert (na - 1)))).
  2:{ unfold issue_allowed. rewrite Z.ltb_ge. tauto. }
  eapply decides_prepares; [by eapply getNotAfter_ok|]. intros t3 Ht3.
  eapply decides_prepares; [by eapply getNotAfter_ok|]. intros t4 Ht4.
  destruct (time_compare_spec t3 t4 ra na Ht3 Ht4) as [-> _]. cbn [obind].
  eapply (decides_if _ _ _ _ (year1900AsTimeT < na ∧
    accepted (check_request root cert nb) ∧ accepted (check_request root cert (na - 1)))).
  2:{ rewrite Z.ltb_ge. tauto. }
  eapply decides_prepares; [by eapply getNotBefore_ok|]. intros t5 Ht5.
  pose proof (verify_at root cert t5 nb Ht5) as H1.
  unfold Verification.setVerificationCheckTime in *. cbn -[X509Certificate.verify] in *.
  rewrite (toTimeT_ok t5 nb) in * by done. cbn -[X509Certificate.verify] in *.
  eapply (decides_seq _ _ _ _ (year1900AsTimeT < na ∧ accepted (check_request root cert (na - 1))));
    [exact H1| |tauto].
  intros _. eapply decides_prepares; [by eapply getNotAfter_ok|]. intros t6 Ht6.
  apply verify_later. done.
Qed.

(** ** Issuing certificates *)

Lemma set_serial_yields serial x : 0 ≤ serial →
  yields (carried_out ∧ serial ≤ LONG_MAX) (_X509_set_serialNumber serial x)
    (λ x', serial ≤ LONG_MAX ∧ view x' = with_serial serial (view x)).
Proof.
  intros Hs. pose proof (set_serial_ok serial x Hs) as Hx. unfold yields, owp.
  destruct (_X509_set_serialNumber serial x); [done|]. intros [HW Hl]. by apply Hx.
Qed.

(** The names, the key and the serial number of a certificate without extensions. *)
Definition names_and_key (subject issuer : X509_NAME) (key : EVP_PKEY) (serial : Z) cert : Prop :=
  v_subject (view cert) = subject ∧ v_issuer (view cert) = issuer ∧
  v_key (view cert) = Some key ∧ v_serial (view cert) = serial ∧ v_extensions (view cert) = [].

Lemma set_version_keeps subject issuer key serial v cert :
  names_and_key subject issuer key serial cert →
  names_and_key subject issuer key serial (SSL_X509_set_version v cert).2.
Proof.
  unfold names_and_key. destruct (SSL_X509_set_version v cert) as [rv x'] eqn:Hx. cbn.
  rewrite (set_version_spec _ _ _ _ Hx). destruct (rv =? 1); [|done]. by destruct (view cert).
Qed.

(** A certificate as the CA makes it for a request. *)
Record drafted (ca : CA.CertificateAuthority) (clock : Z) (csr : X509_REQ) (cert : X509)
    (nb na : Z) : Prop := {
  i_subject : SSL_X509_REQ_get_subject_name csr = Some (v_subject (view cert));
  i_key : SSL_X509_REQ_get_pubkey csr = v_key (view cert);
  i_issuer : v_issuer (view cert) = v_subject (view (CA._rootCert ca));
  i_serial : v_serial (view cert) = CA._nextSerialNumber ca;
  i_extensions :
    v_extensions (view cert) = asked_extensions (extensionMap (CA._defaultSignParams ca));
  i_signature : ∃ type m, digestType (CA._defaultSignParams ca) = Val type ∧
    _getMDPtrFromDigestType type = Val m ∧ v_signature (view cert) = Some (CA._privateKey ca, m);
  i_times : valid_from_to cert nb na;
  i_validity : certificateValidity (CA._defaultSignParams ca) = Val (na - nb);
  i_start : starts clock (CA._defaultSignParams ca) nb;
}.

(** What a CA promises of a certificate it issued. *)
Definition issued (ca : CA.CertificateAuthority) (rb ra clock : Z) (csr : X509_REQ) (cert : X509)
    (nb na : Z) : Prop :=
  drafted ca clock csr cert nb na ∧ issue_allowed (CA._rootCert ca) cert rb ra nb na.

(** The requests that a CA signs: they have a name and a key, a certificate can be signed for
    it, and OpenSSL will accept the certificate, within the validity of the root. *)
Record issuable (ca : CA.CertificateAuthority) (rb ra clock : Z) (csr : X509_REQ) : Prop := {
  u_subject : SSL_X509_REQ_get_subject_name csr ≠ None;
  u_key : ∃ k, SSL_X509_REQ_get_pubkey csr = Some k ∧ key_type k ∈ key_types ∧
    signable clock (CA._defaultSignParams ca) (CA._privateKey ca) (Some k);
  u_serial : CA._nextSerialNumber ca ≤ LONG_MAX;
  u_allowed cert nb na :
    drafted ca clock csr cert nb na → issue_allowed (CA._rootCert ca) cert rb ra nb na;
}.

(** A CA that can issue: its root certificate has a validity, its parameters a start. *)
Record can_issue (ca : CA.CertificateAuthority) (rb ra : Z) : Prop := {
  c_serial : 0 ≤ CA._nextSerialNumber ca;
  c_root : valid_from_to (CA._rootCert ca) rb ra;
  c_start : start_is_time (CA._defaultSignParams ca);
}.

Lemma signed_drafted ca clock csr subject key cert0 cert :
  SSL_X509_REQ_get_subject_name csr = Some subject → SSL_X509_REQ_get_pubkey csr = Some key →
  names_and_key subject (v_subject (view (CA._rootCert ca))) key (CA._nextSerialNumber ca) cert0 →
  signed_with clock (CA._defaultSignParams ca) (CA._privateKey ca) (view cert0) cert →
  ∃ nb na, drafted ca clock csr cert nb na.
Proof.
  intros Hsub Hkey (Hs & Hi & Hk & Hn & Hx)
    (nb & na & z & validity & type & m & Hnb & Hv & Hz & Hstart & Hna & Htype & Hm & Hview).
  exists z, (z + validity). unfold signed_view in Hview.
  split; unfold valid_from_to; rewrite ?Hview;
    cbn [v_subject v_issuer v_key v_serial v_extensions v_signature v_notBefore v_notAfter];
    rewrite ?Hs, ?Hk, ?Hx; try done.
  - by exists type, m.
  - rewrite Hv. f_equal. lia.
Qed.

Lemma signCSR_spec ca rb ra clock csr e : can_issue ca rb ra →
  wp (CA.signCSR clock csr) (ca, e)
    (λ cert s', s'.1 = CA.increment ca ∧ CA._nextSerialNumber ca ≤ LONG_MAX ∧
                ∃ nb na, issued ca rb ra clock csr cert nb na)
    (λ _ s', s'.1 = ca ∧ ¬ (carried_out ∧ issuable ca rb ra clock csr)).
Proof.
  intros Hca. unfold CA.signCSR. rewrite wp_bind, wp_gets. cbn [fst]. unfold CA._signCSR.
  rewrite wp_bind, wp_gets. cbn [fst]. set (W := carried_out ∧ issuable ca rb ra clock csr).
  assert (HW : W → carried_out) by by intros [].
  apply (wp_yields_or W _ _ _ (λ n, SSL_X509_REQ_get_subject_name csr = Some n)); [|done|].
  { apply yields_ptr; [|done]. intros [_ Hu]. apply (u_subject _ _ _ _ _ Hu). }
  intros subject Hsub.
  apply (wp_yields_or W _ _ _ (λ k, SSL_X509_REQ_get_pubkey csr = Some k)); [|done|].
  { apply yields_ptr; [|done]. intros [_ Hu]. by destruct (u_key _ _ _ _ _ Hu) as (k & -> & _). }
  intros key Hkey.
  assert (Hkey' : W → key_type key ∈ key_types ∧
    signable clock (CA._defaultSignParams ca) (CA._privateKey ca) (Some key)).
  { intros [_ Hu]. destruct (u_key _ _ _ _ _ Hu) as (k & Hk & H). rewrite Hkey in Hk.
    by injection Hk as <-. }
  apply (wp_yields_or W _ _ _ (λ x, v_extensions (view x) = [])); [|done|].
  { apply yields_ptr; [intros H; apply (new_works (HW H))|apply new_spec]. }
  intros x0 H0. apply (wp_yields_or W _ _ _ (λ x, view x = with_subject subject (view x0))); [|done|].
  { apply yields_one; [intros H; apply (set_subject_works (HW H))|]. intros x. apply set_subject_spec. }
  intros x1 H1. apply (wp_yields_or W _ _ _ (λ x, view x = with_key key (view x1))); [|done|].
  { apply yields_one; [intros H; apply (set_pubkey_works (HW H)), Hkey', H|].
    intros x. apply set_pubkey_spec. }
  intros x2 H2.
  apply (wp_yields_or W _ _ _ (λ n, n = v_subject (view (CA._rootCert ca)))); [|done|].
  { apply yields_ptr; [by rewrite subject_spec|]. intros n. rewrite subject_spec. by intros [= <-]. }
  intros issuer ->.
  apply (wp_yields_or W _ _ _ (λ x, view x =
    with_issuer (v_subject (view (CA._rootCert ca))) (view x2))); [|done|].
  { apply yields_one; [intros H; apply (set_issuer_works (HW H))|]. intros x. apply set_issuer_spec. }
  intros x3 H3. eapply (wp_yields_or W); [|done|].
  { eapply yields_weaken; [|apply set_serial_yields, Hca]. intros [H Hu]. split; [done|].
    apply (u_serial _ _ _ _ _ Hu). }
  intros x4 [Hmax H4].
  assert (Hx4 : names_and_key subject (v_subject (view (CA._rootCert ca))) key
    (CA._nextSerialNumber ca) x4).
  { unfold names_and_key. rewrite H4, H3, H2, H1. by destruct (view x0). }
  cbn zeta. apply (set_version_keeps _ _ _ _ CA.certificateVersion) in Hx4.
  rewrite wp_bind. unfold CA.on_entropy. rewrite wp_zoom. cbn [snd fst].
  eapply wp_mono; [apply signCertificate_ok, (c_start _ _ _ Hca)| |].
  2:{ intros ex e' Hn. split; [done|]. intros H. apply Hn. split; [auto|].
      destruct Hx4 as (_ & _ & -> & _). by apply Hkey'. }
  intros cert e' Hcert.
  destruct (signed_drafted ca clock csr subject key _ cert Hsub Hkey Hx4 Hcert)
    as (nb & na & Hdraft).
  pose proof (check_issued_ok _ cert rb ra nb na (c_root _ _ _ Hca) (i_times _ _ _ _ _ _ Hdraft))
    as Hcheck.
  unfold wp, try_catch, bind, lift, modify, ret, throw.
  destruct (CA.check_issued (CA._rootCert ca) cert) as [u|ex].
  - split; [done|]. split; [done|]. exists nb, na. by split.
  - split; [done|]. intros [H Hu]. pose proof (u_allowed _ _ _ _ _ Hu cert nb na Hdraft).
    unfold decides in Hcheck. destruct ex; tauto.
Qed.

Lemma increment_serial ca : 0 ≤ CA._nextSerialNumber ca ≤ LONG_MAX →
  CA._nextSerialNumber (CA.increment ca) = CA._nextSerialNumber ca + 1.
Proof. intros Hn. apply to_size_t_id. unfold SIZE_MAX, LONG_MAX in *. lia. Qed.

Lemma increment_can_issue ca rb ra : can_issue ca rb ra → CA._nextSerialNumber ca ≤ LONG_MAX →
  can_issue (CA.increment ca) rb ra.
Proof.
  intros [Hn Hroot Hstart] Hmax. split; [|done|done]. rewrite increment_serial; lia.
Qed.

(** C5. Issuing a certificate: it has the subject and the key of the request, the name of
    the root certificate as its issuer, the next serial number, the extensions of
    the parameters in the order of their identifiers, the validity the
    parameters ask for, which lies within that of the root, and a signature of the
    CA's key; OpenSSL accepted its chain for the first and the last second of the
    validity.  Only then the serial number is counted up; on any failure the CA
    is what it was.  A working OpenSSL issues a certificate for every request that the CA can
    sign and whose certificate would be accepted. *)
Theorem issue_certificate (ca : CA.CertificateAuthority) (rb ra clock : Z) (csr : X509_REQ)
    (e : ENTROPY) (Hca : can_issue ca rb ra) :
  match CA.signCSR clock csr (ca, e) with
  | (Val cert, (ca', _)) =>
      (∃ nb na, issued ca rb ra clock csr cert nb na) ∧
      CA.getNextSerialNumber ca' = CA.getNextSerialNumber ca + 1 ∧
      CA.getNextSerialNumber ca ≤ LONG_MAX ∧
      CA.getRootCertificate ca' = CA.getRootCertificate ca ∧
      CA.getSignParams ca' = CA.getSignParams ca ∧ can_issue ca' rb ra
  | (Throw _, (ca', _)) => ca' = ca ∧ ¬ (X509Works spec ∧ issuable ca rb ra clock csr)
  end.
Proof.
  pose proof (signCSR_spec ca rb ra clock csr e Hca) as H. unfold wp in H.
  destruct (CA.signCSR clock csr (ca, e)) as [[cert|ex] [ca' e']]; [|exact H].
  cbn in H. destruct H as (-> & Hmax & Hissued). pose proof (c_serial _ _ _ Hca).
  split; [done|]. split; [by apply increment_serial|]. split; [done|]. split; [done|].
  split; [done|]. by apply increment_can_issue.
Qed.

(** What a CA went through: requests it signed, with the certificates in their order,
    and requests it failed to sign. *)
Inductive history (ca : CA.CertificateAuthority) :
    list X509 → CA.CertificateAuthority → Prop :=
| history_start : history ca [] ca
| history_signed xs ca' clock csr e cert ca'' e' : history ca xs ca' →
    CA.signCSR clock csr (ca', e) = (Val cert, (ca'', e')) → history ca (xs ++ [cert]) ca''
| history_failed xs ca' clock csr e ex ca'' e' : history ca xs ca' →
    CA.signCSR clock csr (ca', e) = (Throw ex, (ca'', e')) → history ca xs ca''.

Definition from_ca (root : X509) (key : EVP_PKEY) (rb ra : Z) cert : Prop :=
  v_serial (view cert) ≤ LONG_MAX ∧ v_issuer (view cert) = v_subject (view root) ∧
  (∃ m, v_signature (view cert) = Some (key, m)) ∧
  ∃ nb na, valid_from_to cert nb na ∧ issue_allowed root cert rb ra nb na.

Lemma history_invariant ca rb ra xs ca' : can_issue ca rb ra → history ca xs ca' →
  can_issue ca' rb ra ∧ CA._defaultSignParams ca' = CA._defaultSignParams ca ∧
  CA._rootCert ca' = CA._rootCert ca ∧ CA._privateKey ca' = CA._privateKey ca ∧
  CA._nextSerialNumber ca' = CA._nextSerialNumber ca + size xs ∧
  (λ x, v_serial (view x)) <$> xs = seqZ (CA._nextSerialNumber ca) (size xs) ∧
  Forall (from_ca (CA._rootCert ca) (CA._privateKey ca) rb ra) xs.
Proof.
  intros Hca. induction 1 as [|xs ca' clock csr e cert ca'' e' Hh IH Hs|
                               xs ca' clock csr e ex ca'' e' Hh IH Hs].
  - rewrite size_nil, Z.add_0_r. by split_and!.
  - destruct IH as (Hok & Hp & Hr & Hk & Hn & Hser & Hall).
    pose proof (signCSR_spec ca' rb ra clock csr e Hok) as H. unfold wp in H. rewrite Hs in H.
    cbn in H. destruct H as (-> & Hmax & nb & na & Hi & Hallowed).
    pose proof (c_serial _ _ _ Hok). pose proof (size_nonneg xs).
    rewrite increment_serial by lia. rewrite size_app. change (size [cert]) with 1.
    split; [by apply increment_can_issue|]. split; [done|]. split; [done|]. split; [done|].
    split; [lia|]. split.
    + rewrite fmap_app, Hser, seqZ_app by lia. cbn. by rewrite (i_serial _ _ _ _ _ _ Hi), Hn.
    + apply Forall_app. split; [done|]. apply Forall_singleton. destruct Hi.
      rewrite <-Hr, <-Hk. split; [lia|]. split; [done|]. split; [|by exists nb, na].
      destruct i_signature0 as (type & m & _ & _ & Hm). by exists m.
  - destruct IH as (Hok & IH).
    pose proof (signCSR_spec ca' rb ra clock csr e Hok) as H. unfold wp in H. rewrite Hs in H.
    cbn in H. by destruct H as [-> _].
Qed.

(** C6. The invariant of a certificate authority, over any sequence of requests, signed or
    refused: it keeps its parameters, its root certificate and its key, which
    belongs to the root certificate; the certificates it issued carry the serial
    numbers from the initial one on, in order and without gaps or repetitions, fit a
    [long], are issued in the name of the root, signed by its key, and valid only
    while the root is; the next serial number is the number of the next one. *)
Theorem ca_invariant (p : CertificateSigningParameters) (n rb ra : Z) (root : X509)
    (key : EVP_PKEY) (ca ca' : CA.CertificateAuthority) (xs : list X509) (Hn : 0 ≤ n ≤ SIZE_MAX)
    (Hroot : valid_from_to root rb ra) (Hstart : start_is_time p)
    (Hnew : CA.new p n root key = Val ca) (Hh : history ca xs ca') :
  (∃ k, v_key (view root) = Some k ∧ PublicKey_eq key k = Val true) ∧
  CA.getRootCertificate ca' = root ∧ CA.getSignParams ca' = p ∧ CA._privateKey ca' = key ∧
  CA.getNextSerialNumber ca' = n + size xs ∧
  (λ x, v_serial (view x)) <$> xs = seqZ n (size xs) ∧
  NoDup ((λ x, v_serial (view x)) <$> xs) ∧ Forall (from_ca root key rb ra) xs.
Proof.
  unfold CA.new, X509Certificate.getPublicKey, _X509_get_pubkey in Hnew.
  rewrite run_pure_Ptr, pubkey_spec in Hnew.
  destruct (v_key (view root)) as [k|] eqn:Hk; cbn [obind] in Hnew; [|done].
  unfold PublicKey_neq in Hnew. destruct (PublicKey_eq key k) as [[]|] eqn:Heq; try done.
  injection Hnew as <-.
  assert (Hca : can_issue (CA.mkCA p n root key) rb ra) by (by split; [apply Hn|..]).
  destruct (history_invariant _ rb ra xs ca' Hca Hh) as (_ & Hp & Hr & Hk' & Hn' & Hser & Hall).
  split; [by exists k|]. split; [done|]. split; [done|]. split; [done|]. split; [done|].
  split; [done|]. split; [|done]. cbn in Hser. rewrite Hser. apply NoDup_seqZ.
Qed.

(** ** Root certificates *)

Lemma map_find_in k m e : map_find k m = Some e → (k, e) ∈ m.
Proof.
  induction m as [|[k' v'] m IH]; [done|]. cbn. rewrite elem_of_cons.
  destruct (Z.eqb_spec k k') as [->|]; [intros [= <-]; auto|auto].
Qed.

(** The parameters ask for the extension that makes a CA. *)
Definition for_ca p : Prop :=
  ∃ b, basic_constraints_extension p = Val (Some b) ∧ _ca b = true.

Lemma for_ca_extension p b : basic_constraints_extension p = Val (Some b) →
  (ExtensionNid.BasicConstraints, c_str (BasicConstraints_string b))
    ∈ asked_extensions (extensionMap p).
Proof.
  unfold basic_constraints_extension, extension. intros H.
  destruct (map_find ExtensionNid.BasicConstraints (_extensions p)) as [x|] eqn:Hf; [|done].
  cbn [obind] in H. destruct x as [b'|]; [|done]. injection H as ->.
  apply list_elem_of_fmap. eexists. split; [|by apply map_find_in]. done.
Qed.

(** What is known of a new root certificate. *)
Definition self_issued (clock : Z) (key : EVP_PKEY) (dn : DistinguishedName) (serial : Z) p cert :
    Prop :=
  serial ≤ LONG_MAX ∧
  (∃ n, x509_name n (entries dn) ∧ v_subject (view cert) = n ∧ v_issuer (view cert) = n) ∧
  v_key (view cert) = Some key ∧ v_serial (view cert) = serial ∧
  v_extensions (view cert) = asked_extensions (extensionMap p) ∧
  (∃ m, v_signature (view cert) = Some (key, m)) ∧
  ∃ nb na, starts clock p nb ∧ valid_from_to cert nb na ∧ certificateValidity p = Val (na - nb).

(** What a root certificate can be made from. *)
Record rootable (clock : Z) (key : EVP_PKEY) (dn : DistinguishedName) (serial : Z) p : Prop := {
  t_constraints : for_ca p;
  t_name : fitting (entries dn);
  t_serial : serial ≤ LONG_MAX;
  t_key : key_type key ∈ key_types;
  t_signable : signable clock p key (Some key);
}.

Lemma root_spec clock key dn serial p e :
  plain_name dn → 0 ≤ serial → start_is_time p →
  wp (CA.createRootCertificate clock key dn serial p) e
    (λ cert _, for_ca p ∧ self_issued clock key dn serial p cert)
    (λ _ _, ¬ ((carried_out ∧ X509NameWorks nspec) ∧ rootable clock key dn serial p)).
Proof.
  intros Hdn Hserial Hstart. unfold CA.createRootCertificate.
  set (W := (carried_out ∧ X509NameWorks nspec) ∧ rootable clock key dn serial p).
  assert (HW : W → carried_out) by by intros [[]].
  apply (wp_yields W _ _ _ (λ o, basic_constraints_extension p = Val o)).
  { apply yields_val. intros [_ [(b & -> & _) _ _ _ _]]. done. }
  intros [b|] Hb.
  2:{ intros [_ [(b & Hb' & _) _ _ _ _]]. by rewrite Hb in Hb'. }
  rewrite wp_bind, wp_ret. unfold throw_if. destruct (isCA b) eqn:Hca; cbn [negb].
  2:{ intros [_ [(b' & Hb' & Hca') _ _ _ _]]. rewrite Hb in Hb'. injection Hb' as <-.
      unfold isCA in Hca. by rewrite Hca in Hca'. }
  rewrite wp_bind, wp_ret.
  apply (wp_yields W _ _ _ (λ x, v_extensions (view x) = [])).
  { apply yields_ptr; [intros H; apply (new_works (HW H))|apply new_spec]. }
  intros x0 H0. apply (wp_yields W _ _ _ (λ n, x509_name n [])).
  { apply yields_ptr; [intros [[_ HN] _]; apply (name_new_works _ HN)|apply name_new_spec]. }
  intros n0 Hn0. apply (wp_yields W _ _ _ (λ n, x509_name n (entries dn))).
  { apply exec_yields. eapply wp_mono; [by apply populate_spec|done|].
    intros ex s [_ Hno] [[_ HN] H]. apply Hno. split; [done|apply H]. }
  intros n Hn. apply (wp_yields W _ _ _ (λ x, view x = with_issuer n (view x0))).
  { apply yields_one; [intros H; apply (set_issuer_works (HW H))|]. intros x. apply set_issuer_spec. }
  intros x1 H1. apply (wp_yields W _ _ _ (λ x, view x = with_subject n (view x1))).
  { apply yields_one; [intros H; apply (set_subject_works (HW H))|]. intros x. apply set_subject_spec. }
  intros x2 H2. apply (wp_yields W _ _ _ (λ x, view x = with_key key (view x2))).
  { apply yields_one; [intros H; apply (set_pubkey_works (HW H)), H|]. intros x. apply set_pubkey_spec. }
  intros x3 H3. eapply (wp_yields W).
  { eapply yields_weaken; [|by apply set_serial_yields]. intros [[H _] Hr]. by split; [|apply Hr]. }
  intros x4 [Hmax H4]. cbn zeta.
  assert (Hx4 : names_and_key n n key serial x4).
  { unfold names_and_key. rewrite H4, H3, H2, H1. by destruct (view x0). }
  apply (set_version_keeps _ _ _ _ CA.certificateVersion) in Hx4.
  destruct Hx4 as (Hs & Hi & Hk & Hser & Hx).
  eapply wp_mono; [by apply signCertificate_ok| |].
  2:{ intros ex e' Hno H. apply Hno. rewrite Hk. split; [auto|apply H]. }
  intros cert e' (nb & na & z & validity & type & m & Hnb & Hv & Hz & Hst & Hna & _ & _ & Hview).
  split; [by exists b|]. unfold self_issued, valid_from_to. rewrite Hview. unfold signed_view.
  cbn [v_subject v_issuer v_key v_serial v_extensions v_signature v_notBefore v_notAfter].
  rewrite Hs, Hi, Hk, Hser, Hx. split_and!; try done.
  - by exists n.
  - by exists m.
  - exists z, (z + validity). split_and!; try done. rewrite Hv. f_equal. lia.
Qed.


(** ** Keys that sign without a digest *)

(** OpenSSL signs with an EdDSA key only where no digest is given: "digest must be NULL". *)
Definition signs_without_digest (key : EVP_PKEY) : Prop :=
  ∀ m x e, wp (SSL_X509_sign key m x) e (λ r _, r.1 ≤ 0) (λ _ _, False).

Lemma wp_never {S A B} (o : outcome A) (k : A → M S B) s :
  (∀ a, wp (k a) s (λ _ _, False) (λ _ _, True)) →
  wp (let! a := lift o in k a) s (λ _ _, False) (λ _ _, True).
Proof. intros Hk. apply wp_lift_bind. by destruct o; cbn. Qed.

Lemma signCertificate_never clock cert key p e : signs_without_digest key →
  wp (CA._signCertificate clock cert key p) e (λ _ _, False) (λ _ _, True).
Proof.
  intros Hkey. unfold CA._signCertificate, _X509_sign. repeat (apply wp_never; intros ?).
  apply wp_OpensslCallIsPositive. eapply wp_mono; [apply Hkey| |by cbn].
  cbn. intros [rv x] s Hrv. cbn in Hrv. by destruct (Z.ltb_spec 0 rv); [lia|].
Qed.

(** The digest of the parameters is always passed on - without one the call is refused - so
    an authority with such a key never issues anything, although requests made with it
    are signed ([CSR.new] leaves the digest out). *)
Lemma eddsa_authority_cannot_sign ca clock csr p e : signs_without_digest (CA._privateKey ca) →
  wp (CA._signCSR clock csr p) (ca, e) (λ _ _, False) (λ _ _, True).
Proof.
  intros Hkey. unfold CA._signCSR. rewrite wp_bind. cbn.
  repeat (apply wp_never; intros ?). cbn zeta. rewrite wp_bind. unfold CA.on_entropy.
  rewrite wp_zoom. cbn. eapply wp_mono; [by apply signCertificate_never|by cbn|done].
Qed.
End CaFacts.
