(* ===== verification/ToyCertificates.v ===== *)
(** * A concrete instance of the certificate functions, and the theorems at concrete inputs

    Keys are numbers, names lists of entries, times seconds.  A signature is the key
    and the digest it was made with, and a chain is accepted when a trusted
    certificate has the name and the key that issued the target, which has to be
    valid at the time of the request.  The texts of an object show a label of it. *)

From S2P Require Import Prelude CheckCall Util SymmetricCrypto XorCipher OpenSSLWrap Hash Bio Key.
From S2P Require Import Pem Asn1Time DistinguishedName Padding AsymmetricCtx AsymmetricFacts.
From S2P Require Import Extensions X509 X509Facts X509Chain Csr Crl RequestFacts Ca CaFacts.

Module ToyCertificates.
#[local] Existing Instance NamedDigests.api.
#[local] Existing Instance MemBio.api.
#[local] Existing Instance MemBio.spec.
#[local] Existing Instance XorCipher.api.
#[local] Existing Instance NumberKeys.api.
#[local] Existing Instance ListName.api.
#[local] Existing Instance ListName.spec.
#[local] Existing Instance NumberTime.api.
#[local] Existing Instance NumberTime.spec.
#[local] Existing Instance NumberKeys.key_eq_dec.

Abbreviation key := NumberKeys.key.
Abbreviation entry_list := (list (ASN1_NID * bytes)).

(** A digest context only knows what it signs with. *)
#[export] Instance dig : EvpDigestAPI NamedDigests.api := {
  EVP_MD_CTX := option (option DigestTypes * key);
  SSL_EVP_MD_CTX_create := Some None;
  SSL_EVP_MD_CTX_init := λ c, c;
  SSL_EVP_DigestInit_ex := λ _, ret (0, ());
  SSL_EVP_DigestUpdate := λ _ _, ret (0, ());
  SSL_EVP_DigestFinal_ex := ret (0, []);
}.

(** Only the set-up of a signature is used here. *)
#[export] Instance asym : AsymmetricAPI dig NumberKeys.api := {
  ENTROPY := nat;
  SSL_EVP_PKEY_sign_init := λ c, (0, c); SSL_EVP_PKEY_verify_init := λ c, (0, c);
  SSL_EVP_PKEY_encrypt_init := λ c, (0, c); SSL_EVP_PKEY_decrypt_init := λ c, (0, c);
  SSL_EVP_PKEY_sign := λ _ _ _ _, ret (0, (0, []));
  SSL_EVP_PKEY_encrypt := λ _ _ _ _, ret (0, (0, []));
  SSL_EVP_PKEY_decrypt := λ _ _ _ _, ret (0, (0, []));
  SSL_EVP_PKEY_verify := λ _ _ _, 0;
  SSL_EVP_DigestSignInit := λ m k _, (Val (1, ()), Some (m, k));
  SSL_EVP_DigestVerifyInit := λ _ _, ret (0, ());
  SSL_EVP_DigestSign := λ _ _ _, ret (0, (0, []));
  SSL_EVP_DigestVerify := λ _ _, ret (0, ());
  BIGNUM := Z; ECDSA_SIG := ();
  SSL_BN_bin2bn := λ _ _, None; SSL_BN_bn2binpad := λ _ _, (0, []);
  SSL_ECDSA_SIG_new := None; SSL_ECDSA_SIG_set0 := λ s _ _, (0, s);
  SSL_ECDSA_SIG_get0_r := λ _, None; SSL_ECDSA_SIG_get0_s := λ _, None;
  SSL_i2d_ECDSA_SIG := λ _, (0, None); SSL_d2i_ECDSA_SIG := λ _ _, None;
}.

(** ** Labels and their texts *)

Abbreviation label := (list bool).

(** An [M], and an [a] or a [b] for each bit. *)
Definition letters (l : label) : bytes := (λ c : bool, if c then Byte.x61 else Byte.x62) <$> l.
Definition base64 (l : label) : bytes := Byte.x4d :: letters l.

Definition letter (b : Byte.byte) : option bool :=
  match b with Byte.x61 => Some true | Byte.x62 => Some false | _ => None end.
(** The label in a text; the markers have no small letters. *)
Definition label_of (s : bytes) : label := base.omap letter s.

Lemma label_of_base64 l : label_of (base64 l) = l.
Proof. induction l as [|[] l IH]; [done| |]; cbn in *; by f_equal. Qed.

Lemma label_of_app s t : label_of (s ++ t) = label_of s ++ label_of t.
Proof. apply omap_app. Qed.

Lemma label_of_block B E t : label_of B = [] → label_of E = [] →
  label_of (three_lines B t E) = label_of t.
Proof.
  intros HB HE. unfold three_lines. rewrite !label_of_app, HB, HE. cbn. by rewrite !app_nil_r.
Qed.

Lemma label_of_broken s t : broken s t → label_of t = label_of s.
Proof.
  induction 1 as [|x y t Hx Hy Hb IH]; [done|]. rewrite !label_of_app, IH. done.
Qed.

Lemma base64_chars l : Forall base64_char (base64 l).
Proof.
  constructor; [by split_and!|]. induction l as [|[] l IH]; constructor; by try split_and!.
Qed.

Definition lines (s : bytes) : bytes := force [] (oiter (S (length s)) break_body (s, [])).
Lemma lines_broken s : broken s (lines s).
Proof.
  unfold lines. destruct (break_spec (S (length s)) s []) as (t & -> & Ht); [lia|done].
Qed.

Lemma base64_unblank l : unblank (base64 l).
Proof.
  destruct (head_last (base64 l)) as (c & x & y & d & Hc & Hd); [done|].
  pose proof (base64_chars l) as H. exists c, x, y, d.
  assert (Hin : c ∈ base64 l ∧ d ∈ base64 l).
  { split; [rewrite Hc; by left|rewrite Hd; apply elem_of_app; right; by left]. }
  rewrite Forall_forall in H. by destruct Hin as [[? _]%H [? _]%H].
Qed.

(** ** Certificates *)

Abbreviation cert := (cert_view entry_list key (option Z) DigestTypes).
Record certificate := mkCertificate { c_label : label; c_view : cert }.
Definition empty : cert := mkCert [] [] None 0 None None 0 [] None.
Definition update (f : cert → cert) (x : certificate) : Z * certificate :=
  (1, mkCertificate (c_label x) (f (c_view x))).

Record revocation := mkRevocation { l_label : label; l_issuer : entry_list; l_key : key }.

(** Numbers that are not between the extreme values of a [long] count as 0. *)
Definition clip (z : Z) : Z := if (- LONG_MAX <=? z) && (z <=? LONG_MAX) then z else 0.
Definition byte_count (n : Z) : Z := if n <=? 0 then 0 else Z.log2 n / 8 + 1.

(** Does [r] issue the target of the request [q], at the time of the request? *)
Definition issues (q : request certificate revocation) (r : certificate) : bool :=
  let t := c_view (q_target q) in
  bool_decide (v_issuer t = v_subject (c_view r)) &&
  bool_decide (fst <$> v_signature t = v_key (c_view r)) &&
  match q_time q, v_notBefore t, v_notAfter t with
  | Some z, Some nb, Some na => (nb <=? z) && (z <? na)
  | Some _, _, _ => false
  | None, _, _ => true
  end.
Definition accepts (q : request certificate revocation) : bool :=
  existsb (issues q) (q_trusted q).


#[export] Instance x509 : X509API asym ListName.api NumberTime.api := {
  X509 := certificate; X509_CRL := revocation; X509_EXTENSION := Z * bytes;
  SSL_X509_new := Some (mkCertificate [] empty);
  SSL_PEM_read_bio_X509 := λ b,
    (Val (match b with [] => None | _ => Some (mkCertificate (label_of b) empty) end), []);
  SSL_d2i_X509_bio := λ b,
    (Val (match b with [] => None | _ => Some (mkCertificate (label_of b) empty) end), []);
  SSL_PEM_write_bio_X509 := λ x b, (Val (1, ()),
    b ++ pem_block BEGIN_CERTIFICATE END_CERTIFICATE (lines (base64 (c_label x))));
  SSL_i2d_X509_bio := λ x b, (Val (1, ()), b ++ base64 (c_label x));
  SSL_X509_get_subject_name := λ x, Some (v_subject (c_view x));
  SSL_X509_get_issuer_name := λ x, Some (v_issuer (c_view x));
  SSL_X509_get_notBefore := λ x, Some (v_notBefore (c_view x));
  SSL_X509_get_notAfter := λ x, Some (v_notAfter (c_view x));
  SSL_X509_get_pubkey := λ x, v_key (c_view x);
  SSL_X509_check_ca := λ _, 0;
  SSL_X509_set_subject_name := λ n, update (with_subject n);
  SSL_X509_set_issuer_name := λ n, update (with_issuer n);
  SSL_X509_set_pubkey := λ k, update (with_key k);
  SSL_X509_set_notBefore := λ t, update (with_notBefore t);
  SSL_X509_set_notAfter := λ t, update (with_notAfter t);
  SSL_X509_set_version := λ v, update (with_version v);
  SSL_X509V3_EXT_conf_nid := λ _ nid s, Some (nid, s);
  SSL_X509_add_ext := λ e _, update (with_extension e);
  SSL_X509_sign := λ k m x e, (Val (update (with_signature k m) x), S e);
  ASN1_INTEGER := Z;
  SSL_ASN1_INTEGER_new := Some 0;
  SSL_ASN1_INTEGER_set := λ v _, (1, v);
  SSL_ASN1_INTEGER_cmp := λ a b, match clip a ?= clip b with Lt => -1 | Eq => 0 | Gt => 1 end;
  SSL_ASN1_INTEGER_get := clip;
  SSL_ASN1_INTEGER_to_BN := λ i, Some (clip i);
  SSL_BN_bn2dec := λ n, Some (decimal (clip n));
  SSL_BN_num_bytes := λ n, byte_count (clip n);
  SSL_BN_bn2bin := λ n,
    (byte_count (clip n), be_bytes (Z.to_nat (byte_count (clip n))) (clip n));
  SSL_X509_get_serialNumber := λ x, Some (v_serial (c_view x));
  SSL_X509_set_serialNumber := λ i, update (with_serial (clip i));
  X509_STORE := list certificate; STACK_OF_X509 := list certificate;
  STACK_OF_CRL := list revocation;
  X509_STORE_CTX := option (request certificate revocation);
  SSL_X509_STORE_new := Some [];
  SSL_X509_STORE_add_cert := λ x s, (1, s ++ [x]);
  SSL_sk_X509_new_null := Some [];
  SSL_sk_X509_push := λ x s, (size s + 1, s ++ [x]);
  SSL_sk_X509_CRL_new_null := Some [];
  SSL_sk_X509_CRL_push := λ x s, (size s + 1, s ++ [x]);
  SSL_X509_STORE_CTX_new := Some None;
  SSL_X509_STORE_CTX_init := λ store x chain _,
    (1, Some (mkRequest x store chain false false false None []));
  SSL_X509_STORE_CTX_get0_param := λ _, Some ();
  SSL_X509_VERIFY_PARAM_set_flags := λ f c, (1, (λ q, mkRequest (q_target q) (q_trusted q)
      (q_untrusted q) (q_partial_chain q || Z.testbit f 19) (q_crl_check q || Z.testbit f 2)
      (q_crl_check_all q || Z.testbit f 3) (q_time q) (q_crls q)) <$> c);
  SSL_X509_STORE_CTX_set_time := λ _ t c, (λ q, mkRequest (q_target q) (q_trusted q)
      (q_untrusted q) (q_partial_chain q) (q_crl_check q) (q_crl_check_all q) (Some t)
      (q_crls q)) <$> c;
  SSL_X509_STORE_CTX_set0_crls := λ s c, (λ q, mkRequest (q_target q) (q_trusted q)
      (q_untrusted q) (q_partial_chain q) (q_crl_check q) (q_crl_check_all q) (q_time q) s) <$> c;
  SSL_X509_verify_cert := λ c,
    match c with Some q => if accepts q then 1 else 0 | None => 0 end;
  SSL_X509_verify_cert_error_string := λ _, str "error";
}.

Lemma clip_range z : - LONG_MAX ≤ clip z ≤ LONG_MAX.
Proof.
  unfold clip. destruct (Z.leb_spec (- LONG_MAX) z), (Z.leb_spec z LONG_MAX); cbn;
    unfold LONG_MAX in *; lia.
Qed.

Lemma clip_id z : - LONG_MAX ≤ z ≤ LONG_MAX → clip z = z.
Proof.
  intros Hz. unfold clip. destruct (Z.leb_spec (- LONG_MAX) z), (Z.leb_spec z LONG_MAX); cbn; lia.
Qed.

Lemma byte_count_spec n : 0 ≤ n ≤ LONG_MAX →
  0 ≤ byte_count n ≤ INT_MAX ∧ n < 256 ^ byte_count n ∧
  (0 < byte_count n → 256 ^ (byte_count n - 1) ≤ n).
Proof.
  intros Hn. unfold byte_count. destruct (Z.leb_spec n 0); [unfold INT_MAX; cbn; lia|].
  set (k := Z.log2 n / 8). pose proof (Z.log2_spec n ltac:(lia)) as [Hlo Hhi].
  pose proof (Z.log2_nonneg n).
  assert (Hk : 8 * k ≤ Z.log2 n < 8 * k + 8).
  { pose proof (Z.div_mod (Z.log2 n) 8 ltac:(lia)). pose proof (Z.mod_pos_bound (Z.log2 n) 8).
    unfold k. lia. }
  assert (Z.log2 n < 63) by (apply Z.log2_lt_pow2; unfold LONG_MAX in *; lia).
  assert (Hp : ∀ j, 0 ≤ j → 256 ^ j = 2 ^ (8 * j)).
  { intros j Hj. change 256 with (2 ^ 8). by rewrite <-Z.pow_mul_r by lia. }
  split; [unfold INT_MAX; lia|]. replace (k + 1 - 1) with k by lia. rewrite !Hp by lia. split.
  - eapply Z.lt_le_trans; [exact Hhi|]. apply Z.pow_le_mono_r; lia.
  - intros _. etrans; [|exact Hlo]. apply Z.pow_le_mono_r; lia.
Qed.

Definition shown (v : cert) : cert := with_serial (clip (v_serial v)) v.

Ltac updated := intros; simplify_eq/=;
  repeat match goal with H : update _ _ = (_, _) |- _ => injection H as <- end; unfold shown; cbn;
  repeat match goal with x : certificate |- _ => destruct x as [? []] end; done.

#[export] Instance x509_spec : X509Spec x509.
Proof.
  refine {|
    X509Facts.view := (λ x, shown (c_view x)) : @X509 _ _ _ _ _ _ _ _ x509 → _;
    extension_view := id : @X509_EXTENSION _ _ _ _ _ _ _ _ x509 → _;
    int_value := clip : @ASN1_INTEGER _ _ _ _ _ _ _ _ x509 → Z;
    big_value := clip : @BIGNUM _ _ _ _ _ asym → Z;
    store_certs := id : @X509_STORE _ _ _ _ _ _ _ _ x509 → _;
    stack_certs := id : @STACK_OF_X509 _ _ _ _ _ _ _ _ x509 → _;
    stack_crls := id : @STACK_OF_CRL _ _ _ _ _ _ _ _ x509 → _;
    requested := id : @X509_STORE_CTX _ _ _ _ _ _ _ _ x509 → _;
    accepted := (λ q, accepts q = true) : request (@X509 _ _ _ _ _ _ _ _ x509) _ → Prop;
    cert_base64 := (λ x, base64 (c_label x)) : @X509 _ _ _ _ _ _ _ _ x509 → _;
    signs := λ _ _, True;
  |}.
  all: try updated.
  all: try by intros; simplify_eq/=.
  - intros v [l []] x' rv [= <- <-]. done.
  - intros v i Hv. exists v. split; [done|by apply clip_id].
  - intros i. exists (clip i). split; [done|apply clip_id, clip_range].
  - intros n Hn. pose proof (clip_range n).
    destruct (byte_count_spec (clip n)) as (H1 & H2 & H3); [lia|]. exact (conj H1 (conj H2 (conj H3 eq_refl))).
  - intros i x Hi. eexists _, _. split; [done|]. intros _. destruct x as [? []]. unfold shown. cbn.
    by rewrite (clip_id (clip i)) by apply clip_range.
  - intros x. eexists. split; [done|]. by destruct x as [? []].
  - intros c q Hq. cbn in Hq. subst c. cbn. by destruct (accepts q).
  - intros x. split; [apply base64_chars|done].
  - intros x b w Hb. unfold wp. cbn in *. rewrite Hb. intros _. eexists. split; [|done].
    apply lines_broken.
  - intros x t b Ht Hb x' H. cbn in Hb. subst b.
    change (Some (mkCertificate (label_of (three_lines BEGIN_CERTIFICATE t END_CERTIFICATE)) empty)
            = Some x') in H.
    rewrite label_of_block, (label_of_broken _ _ Ht), label_of_base64 in H by done.
    by injection H as <-.
Defined.

Lemma x509_works : X509Works x509_spec.
Proof.
  split; try done; try apply MemBio.mem_bio_works.
  - intros x s. cbn. pose proof (size_nonneg s). lia.
  - intros x s. cbn. pose proof (size_nonneg s). lia.
  - intros x t b _ Hb. cbn in Hb. by subst b.
Qed.

(** ** Requests and revocation lists *)

Record signing_request := mkRequestObject {
  o_label' : label;
  o_view : req_view entry_list key (option DigestTypes);
}.
Definition update_request (f : req_view entry_list key (option DigestTypes) → _)
    (r : signing_request) : Z * signing_request := (1, mkRequestObject (o_label' r) (f (o_view r))).
Definition blank_request (l : label) : signing_request :=
  mkRequestObject l (mkReq None 0 None None).
Definition request_pem (l : label) : bytes :=
  three_lines (str "-----BEGIN CERTIFICATE REQUEST-----") (base64 l)
    (str "-----END CERTIFICATE REQUEST-----").
(** Reading takes a label from a text, if there is one. *)
Definition read_label {A} (f : label → A) : M bytes (option A) := λ b,
  (Val (match b with [] => None | _ => Some (f (label_of b)) end), []).

Lemma read_label_spec {A} (f : label → A) (b : @BIO MemBio.api) l (P : A → Prop) :
  label_of b = l → P (f l) → wp_total (read_label f) b (λ o _, ∀ x, o = Some x → P x).
Proof. intros <- HP x. destruct b; [done|]. by intros [= <-]. Qed.

Definition same_key (a b : key) : bool := bool_decide (a = b).

#[export] Instance req : X509ReqAPI asym ListName.api := {
  X509_REQ := signing_request;
  SSL_X509_REQ_new := Some (blank_request []);
  SSL_X509_REQ_set_version := λ v,
    update_request (λ d, mkReq (rq_subject d) v (rq_key d) (rq_signer d));
  SSL_X509_REQ_set_subject_name := λ n,
    update_request (λ d, mkReq (Some n) (rq_version d) (rq_key d) (rq_signer d));
  SSL_X509_REQ_set_pubkey := λ k,
    update_request (λ d, mkReq (rq_subject d) (rq_version d) (Some k) (rq_signer d));
  SSL_X509_REQ_get_subject_name := λ r, rq_subject (o_view r);
  SSL_X509_REQ_get_pubkey := λ r, rq_key (o_view r);
  SSL_X509_REQ_sign_ctx := λ c r e,
    (Val (update_request (λ d, mkReq (rq_subject d) (rq_version d) (rq_key d) c) r), S e);
  SSL_X509_REQ_verify := λ r k,
    match rq_signer (o_view r) with
    | Some (_, k') => if same_key k k' then 1 else 0
    | None => 0
    end;
  SSL_PEM_write_bio_X509_REQ := λ r b, (Val (1, ()), b ++ request_pem (o_label' r));
  SSL_PEM_read_bio_X509_REQ := read_label blank_request;
  SSL_i2d_X509_REQ_bio := λ r b, (Val (1, ()), b ++ base64 (o_label' r));
  SSL_d2i_X509_REQ_bio := read_label blank_request;
}.

Lemma text_no_nul s : Forall base64_char s → Forall (λ b, byte_val b ≠ 0) s.
Proof. intros H. eapply Forall_impl; [exact H|]. by intros b (_ & _ & _ & Hb). Qed.

Lemma request_pem_no_nul l : c_str (request_pem l) = request_pem l.
Proof.
  apply c_str_no_nul. unfold request_pem, three_lines. rewrite !Forall_app.
  split_and!; try (by apply (bool_decide_unpack (Forall (λ b, byte_val b ≠ 0) _)); vm_compute).
  apply text_no_nul, base64_chars.
Qed.

#[export] Instance req_spec : X509ReqSpec req.
Proof.
  refine {|
    req_data := o_view : @X509_REQ _ _ _ _ _ _ _ req → _;
    sign_setup := id : @EVP_MD_CTX _ dig → _;
    req_der := (λ r, base64 (o_label' r)) : @X509_REQ _ _ _ _ _ _ _ req → _;
    req_pem := (λ r, request_pem (o_label' r)) : @X509_REQ _ _ _ _ _ _ _ req → _;
    req_signs := λ _ _, True;
  |}; try by intros; simplify_eq/=.
  - by intros v r r' [= <-].
  - by intros n r r' [= <-].
  - by intros k r r' [= <-].
  - intros r k Hk. exists k. split; [done|]. cbn. by rewrite bool_decide_eq_true_2.
  - intros r m k pub Hr Hk. cbn in *. rewrite Hr. unfold same_key.
    by destruct (bool_decide (pub = k)).
  - intros r. apply request_pem_no_nul.
  - intros r b Hb. apply (read_label_spec _ _ (o_label' r)); [|done].
    cbn in Hb. subst b. apply label_of_base64.
  - intros r b Hb. apply (read_label_spec _ _ (o_label' r)); [|done].
    rewrite (Hb : b = request_pem _). unfold request_pem.
    by rewrite label_of_block, label_of_base64.
  - intros r r' H. f_equal. by rewrite <-(label_of_base64 (o_label' r)), H, label_of_base64.
Defined.

Lemma req_works : X509ReqWorks req_spec.
Proof.
  split; try done; try apply MemBio.mem_bio_works.
  - intros r b Hb. cbn in Hb. by subst b.
  - intros r b Hb. cbn in Hb. by subst b.
Qed.

#[export] Instance crl : X509CrlAPI x509 := {
  SSL_X509_CRL_get_issuer := λ c, Some (l_issuer c);
  SSL_X509_CRL_verify := λ c k, if same_key (l_key c) k then 1 else 0;
  SSL_X509_CRL_get_lastUpdate := λ _, Some NumberTime.y2k;
  SSL_X509_CRL_get_nextUpdate := λ _, Some NumberTime.last;
  SSL_PEM_write_bio_X509_CRL := λ c b, (Val (1, ()),
    b ++ pem_block CRL.beginMarker CRL.endMarker (base64 (l_label c)));
  SSL_PEM_read_bio_X509_CRL :=
    read_label (λ l, mkRevocation l [] (NumberKeys.mkKey 0 0 0 0));
  SSL_d2i_X509_CRL_bio := read_label (λ l, mkRevocation l [] (NumberKeys.mkKey 0 0 0 0));
}.

#[export] Instance crl_spec : X509CrlSpec crl.
Proof.
  refine {| crl_body := (λ c, base64 (l_label c)) : @X509_CRL _ _ _ _ _ _ _ _ x509 → _ |}.
  - intros c. pose proof (base64_chars (l_label c)) as H. split; [apply base64_unblank|].
    split; [|by apply text_no_nul]. intros Hin. rewrite Forall_forall in H.
    by destruct (H _ Hin) as (_ & _ & ? & _).
  - intros c b w Hb. unfold wp. cbn in *. by rewrite Hb.
  - intros c b Hb. apply (read_label_spec _ _ (l_label c)); [|done].
    rewrite (Hb : b = three_lines _ _ _). by rewrite label_of_block, label_of_base64.
  - intros b Hb. cbn in Hb. by subst b.
Defined.

Lemma crl_works : X509CrlWorks crl_spec.
Proof.
  split; try done; try apply MemBio.mem_bio_works. intros c b Hb. cbn in Hb. by subst b.
Qed.

(** ** A small public key infrastructure

    A root certificate that is valid from 2000 on, a CA with it, and a request of an
    EdDSA key. *)

Abbreviation params := (@CertificateSigningParameters MemBio.api NumberTime.api).

Definition ca_key : @EVP_PKEY _ _ NumberKeys.api := NumberKeys.mkKey EVP_PKEY_RSA 2048 0 7.
Definition user_key : @EVP_PKEY _ _ NumberKeys.api := NumberKeys.mkKey EVP_PKEY_ED25519 256 0 9.
Definition g0 : @ENTROPY _ _ _ _ _ asym := 0%nat.

Definition constraints : ExtensionPtr := to_basic_constraints (mkBasicConstraints true 1).
Definition usage : ExtensionPtr :=
  to_extension KeyUsage_base (KeyUsageBuilder.keyCertSign KeyUsageBuilder.new).

Definition root_params : params :=
  SignParamsBuilder.addExtension constraints
    (SignParamsBuilder.addExtension usage
       (SignParamsBuilder.digestType SHA256
          (SignParamsBuilder.notBeforeAsn1 NumberTime.y2k
             (SignParamsBuilder.certificateValidity 1000000 SignParamsBuilder.new)))).
Definition user_params : params :=
  SignParamsBuilder.addExtension usage
    (SignParamsBuilder.digestType SHA512
       (SignParamsBuilder.certificateValidity 3600 SignParamsBuilder.new)).

(** An hour, and two weeks, after the start of the root's validity, in nanoseconds. *)
Definition clock : Z := (946684800 + 3600) * 1000000000.
Definition late : Z := (946684800 + 1209600) * 1000000000.

Definition root_name : DistinguishedName := DNBuilder.commonName (str "Root") DNBuilder.new.
Definition root : @X509 _ _ _ _ _ _ _ _ x509 :=
  force (mkCertificate [] empty) (CA.createRootCertificate 0 ca_key root_name 1 root_params g0).1.
Definition csr : @X509_REQ _ _ _ _ _ _ _ req :=
  force (blank_request []) (CSR.new ListName.name user_key SHA256 g0).1.
Definition ca : CA.CertificateAuthority := CA.mkCA user_params 41 root ca_key.
Definition signed : @X509 _ _ _ _ _ _ _ _ x509 :=
  force (mkCertificate [] empty) (CA.signCSR clock csr (ca, g0)).1.

(** The states afterwards; two weeks later the validity would exceed that of the root. *)
Definition g1 : @ENTROPY _ _ _ _ _ asym := (CSR.new ListName.name user_key SHA256 g0).2.
Definition after : CA.CertificateAuthority * ENTROPY := (CA.signCSR clock csr (ca, g0)).2.
Definition refused : CA.CertificateAuthority * ENTROPY := (CA.signCSR late csr after).2.

Lemma csr_made : CSR.new ListName.name user_key SHA256 g0 = (Val csr, g1).
Proof. returns (blank_request []) (CSR.new ListName.name user_key SHA256) g0. Qed.
Lemma csr_signed : CA.signCSR clock csr (ca, g0) = (Val signed, (after.1, after.2)).
Proof.
  rewrite <-surjective_pairing. returns (mkCertificate [] empty) (CA.signCSR clock csr) (ca, g0).
Qed.
Lemma csr_too_late :
  ∃ e, CA.signCSR late csr (after.1, after.2) = (Throw e, (refused.1, refused.2)) ∧
  e = CA.invalid_certificate (MoCOCrWException
       [Str "CSR: Certificate's validity period should not exceed the ";
        Str "validity bounds of the issuing certificate (CA's cert)."]).
Proof.
  rewrite <-!surjective_pairing. unfold refused.
  assert (H : (CA.signCSR late csr after).1 = Throw (CA.invalid_certificate (MoCOCrWException
       [Str "CSR: Certificate's validity period should not exceed the ";
        Str "validity bounds of the issuing certificate (CA's cert)."]))) by (vm_compute; reflexivity).
  destruct (CA.signCSR late csr after) as [o s']. cbn in H. subst o. by eexists.
Qed.

Lemma root_validity : valid_from_to root 946684800 947684800.
Proof. by vm_compute. Qed.
Lemma user_start : start_is_time user_params.
Proof. by intros t [=]. Qed.
Lemma ca_ready : can_issue ca 946684800 947684800.
Proof. split; [by vm_compute|apply root_validity|apply user_start]. Qed.

(** ** The theorems *)

(** The digest type is set twice, an extension is replaced, and both keep their place. *)
Definition builder_calls : list builder_call :=
  [AddExtension constraints; SetDigest SHA512; SetValidity 1000000;
   SetNotBefore NumberTime.y2k; SetDigest SHA256; AddExtension usage; AddExtension constraints].

Lemma params_invariant_witness :
  build builder_calls = root_params ∧ digestType root_params = Val SHA256 ∧
  NoDup (extensionMap root_params).*1.
Proof.
  assert (H : build builder_calls = root_params) by reflexivity.
  split; [exact H|]. rewrite <-H.
  destruct (params_invariant builder_calls 0) as (_ & Hd & _ & _ & _ & _ & Hn & _).
  split; [exact Hd|exact Hn].
Defined.

Lemma serial_numbers_witness :
  is_val (X509Certificate.getSerialNumberBinary signed) = true ∧
  X509Certificate.getSerialNumber signed = Val 41.
Proof.
  split; [by vm_compute|].
  refine (proj1 (serial_numbers signed 41 _ _)); [unfold SIZE_MAX; lia|by eexists].
Defined.

Definition two : list (@X509 _ _ _ _ _ _ _ _ x509) :=
  [mkCertificate [true; false; true] empty; mkCertificate [false] empty].
Definition two_texts : list bytes := (λ x, force [] (X509Certificate.toPEM 200 x)) <$> two.

Lemma load_chain_witness :
  omap (X509Certificate.toPEM 200) two = Val two_texts ∧
  ∃ l, loadPEMChain 200 (concat two_texts) = Val l ∧ cert_base64 <$> l = cert_base64 <$> two.
Proof.
  assert (Ht : omap (X509Certificate.toPEM 200) two = Val two_texts) by by vm_compute.
  split; [exact Ht|].
  assert (Hshort : Forall short two) by (repeat constructor; by vm_compute).
  assert (Hlong : Forall (λ x, (2 * length (cert_base64 x) + 100 < 200)%nat) two).
  { repeat (constructor; [apply Nat.ltb_lt; by vm_compute|]). constructor. }
  pose proof (load_chain 200 two Hshort Hlong) as H. rewrite Ht in H.
  apply (prepares_works (X509Works x509_spec)); [|exact x509_works].
  apply (H 200%nat); [by vm_compute|apply Nat.ltb_lt; by vm_compute].
Defined.


Definition labelled : @X509_REQ _ _ _ _ _ _ _ req := blank_request [true; true; false].
Lemma csr_roundtrip_witness :
  let p := force [] (CSR.toPEM 200 labelled) in
  CSR.toPEM 200 labelled = Val p ∧
  ∃ r', CSR.fromPEM p = Val r' ∧ prepares (X509ReqWorks req_spec) (CSR.toPem 200 r') (λ p', p' = p).
Proof.
  intros p. assert (Hp : CSR.toPEM 200 labelled = Val p) by by vm_compute. split; [exact Hp|].
  assert (Hsize : 1 ≤ size (req_der labelled) ≤ INT_MAX) by by vm_compute.
  assert (Hsize' : 1 ≤ size (req_pem labelled) ≤ INT_MAX) by by vm_compute.
  destruct (csr_roundtrip labelled 200 ltac:(apply Nat.ltb_lt; by vm_compute)
    ltac:(apply Nat.ltb_lt; by vm_compute) Hsize Hsize') as [_ H].
  rewrite Hp in H. cbn beta iota delta [prepares] in H.
  destruct (CSR.fromPEM p) as [r'|]; [|by destruct H; apply req_works].
  exists r'. split; [done|]. replace p with (req_pem labelled) by by vm_compute. exact (proj2 H).
Defined.

Definition revoked : @X509_CRL _ _ _ _ _ _ _ _ x509 :=
  mkRevocation [true] (v_subject (c_view root)) ca_key.

Definition two_lists : list (@X509_CRL _ _ _ _ _ _ _ _ x509) :=
  [revoked; mkRevocation [false; true] [] ca_key].
Definition two_crl_texts : list bytes := (λ c, force [] (CRL.toPEM 200 c)) <$> two_lists.
Lemma load_crl_chain_witness :
  omap (CRL.toPEM 200) two_lists = Val two_crl_texts ∧
  ∃ l, CRL.loadCrlPEMChain 200 (concat two_crl_texts) = Val l ∧
       crl_body <$> l = crl_body <$> two_lists.
Proof.
  assert (Ht : omap (CRL.toPEM 200) two_lists = Val two_crl_texts) by by vm_compute.
  split; [exact Ht|].
  assert (Hshort : Forall crl_short two_lists) by (repeat constructor; by vm_compute).
  assert (Hlong : Forall (λ c, (length (pem_block CRL.beginMarker CRL.endMarker (crl_body c)) + 1
    < 200)%nat) two_lists).
  { repeat (constructor; [apply Nat.ltb_lt; by vm_compute|]). constructor. }
  pose proof (load_crl_chain 200 two_lists Hshort Hlong) as H. rewrite Ht in H.
  apply (prepares_works (X509CrlWorks crl_spec)); [|exact crl_works].
  apply (H 200%nat); [by vm_compute|apply Nat.ltb_lt; by vm_compute].
Defined.

(** A usage is made into an extension, and every key signs with every digest. *)
Lemma usage_buildable (k : option key) : buildable k usage.
Proof. by apply buildable_usage. Qed.

Lemma user_signable k : signable clock user_params ca_key k.
Proof.
  split; [|split].
  - exists (to_time_t clock - 1), 3600. by split_and!; vm_compute.
  - by eexists SHA512, _.
  - constructor; [apply usage_buildable|constructor].
Qed.

(** The certificate that the CA makes for the request is accepted. *)
Lemma csr_issuable : issuable ca 946684800 947684800 clock csr.
Proof.
  split.
  - done.
  - exists user_key. split; [done|]. split; [listed|]. apply user_signable.
  - done.
  - intros cert nb na [_ _ Hissuer _ _ (type & m & _ & _ & Hsig) [Hb Ha] Hval Hstart].
    injection Hval as Hval. assert (nb = 946688399) as -> by exact Hstart.
    assert (na = 946691999) as -> by lia. destruct cert as [l []]. cbn in *.
    destruct Hb as [-> _], Ha as [-> _]. subst. unfold issue_allowed, accepted. cbn.
    split; [done|]. split; [done|]. split; [done|]. by split; vm_compute.
Qed.

Lemma issue_certificate_witness :
  CA.signCSR clock csr (ca, g0) = (Val signed, (after.1, after.2)) ∧
  (∃ nb na, issued ca 946684800 947684800 clock csr signed nb na) ∧
  ∃ cert ca' e', CA.signCSR clock csr (ca, g0) = (Val cert, (ca', e')) ∧
    CA.getNextSerialNumber ca' = 42.
Proof.
  split; [exact csr_signed|].
  pose proof (issue_certificate ca 946684800 947684800 clock csr g0 ca_ready) as H. split.
  - rewrite csr_signed in H. exact (proj1 H).
  - destruct (CA.signCSR clock csr (ca, g0)) as [[cert|ex] [ca' e']].
    + exists cert, ca', e'. split; [reflexivity|]. exact (proj1 (proj2 H)).
    + destruct H as [_ H]. destruct H. split; [exact x509_works|exact csr_issuable].
Defined.

Lemma ca_invariant_witness :
  history ca [signed] refused.1 ∧
  CA.getNextSerialNumber refused.1 = 42 ∧
  Forall (from_ca root ca_key 946684800 947684800) [signed].
Proof.
  assert (H : history ca [signed] refused.1).
  { destruct csr_too_late as (ex & Hex & _). eapply history_failed; [|exact Hex].
    exact (history_signed ca [] ca clock csr g0 signed after.1 after.2
             (history_start ca) csr_signed). }
  split; [exact H|].
  assert (Hn : CA.new user_params 41 root ca_key = Val ca) by (returns_val ca (CA.new user_params 41 root ca_key)).
  destruct (ca_invariant user_params 41 946684800 947684800 root ca_key ca refused.1
    [signed] ltac:(unfold SIZE_MAX; lia) root_validity user_start Hn H)
    as (_ & _ & _ & _ & Hnext & _ & _ & Hall).
  split; [exact Hnext|exact Hall].
Defined.

Lemma root_rootable : rootable 0 ca_key root_name 1 root_params.
Proof.
  split.
  - by exists (mkBasicConstraints true 1).
  - by repeat constructor.
  - by unfold LONG_MAX.
  - listed.
  - split; [|split].
    + exists 946684800, 1000000. by split_and!; vm_compute.
    + by eexists SHA256, _.
    + repeat constructor; by cbn.
Qed.

End ToyCertificates.
